(** * unitxt metrics: the aggregation core of [src/unitxt/metrics.py]

    A shallow embedding of the metric aggregation engine (instance scores,
    grouping, aggregation, confidence-interval gating, the three [process]
    methods) together with the properties the specification states about it,
    followed by the metrics built on the engine that compute their scores
    themselves (retrieval, overlap and threshold metrics, the re-grouping
    around external models) and by [isoftype] of [src/unitxt/type_utils.py].

    Modelling conventions.
    - A Python float is a [scoreval]: either [NaN] or a number.  Numbers are
      exact rationals; rounding, overflow and the infinities of binary64
      arithmetic are not modelled, the NaN discipline is.  A number stated
      for a result is the exact value of the formula the code evaluates;
      order and identity between computed numbers are stated only where the
      rounded operations keep them (comparisons, the choice of an element,
      a single division, monotone steps).
    - A Python exception is a value of [exn]; a function that can raise
      returns [result].
    - A Python [dict] is an insertion-ordered association list.
    - The [score/global] dictionary of an instance is a heap location, so
      that sharing by reference is visible. *)

From Stdlib Require Import List String Ascii Bool Arith ZArith QArith Lia Lqa.
From Stdlib Require Import DecimalString DecimalZ.
Import ListNotations.

Open Scope string_scope.
Open Scope list_scope.

(* ------------------------------------------------------------------ *)
(** ** Scores and Python values *)

(** A Python float: NaN, or a number taken as the exact rational it
    denotes. *)
Inductive scoreval :=
| NaN
| Num (q : Q).

Definition isnan (s : scoreval) : bool :=
  match s with NaN => true | Num _ => false end.

(** Equality of scores up to the representation of the rational. *)
Definition score_eq (a b : scoreval) : Prop :=
  match a, b with
  | NaN, NaN => True
  | Num p, Num q => p == q
  | _, _ => False
  end.

Definition score_eqb (a b : scoreval) : bool :=
  match a, b with
  | NaN, NaN => true
  | Num p, Num q => Qeq_bool p q
  | _, _ => false
  end.

(** Float addition and division: NaN is absorbing. *)
Definition score_add (a b : scoreval) : scoreval :=
  match a, b with
  | Num p, Num q => Num (p + q)
  | _, _ => NaN
  end.

Definition score_div_count (a : scoreval) (n : nat) : scoreval :=
  match a with
  | Num p => Num (p / inject_Z (Z.of_nat n))
  | NaN => NaN
  end.

(** What a score dictionary can hold: a float, [None], or a string
    (such as the [score_name] entry). *)
Inductive value :=
| VNone
| VFloat (s : scoreval)
| VStr (s : string).

Definition pydict := list (string * value).

Fixpoint dict_lookup {V} (d : list (string * V)) (k : string) : option V :=
  match d with
  | [] => None
  | (k', v) :: d' => if String.eqb k k' then Some v else dict_lookup d' k
  end.

Definition dict_mem {V} (d : list (string * V)) (k : string) : bool :=
  match dict_lookup d k with Some _ => true | None => false end.

(** [d[k] = v]: overwrite in place when the key exists, append otherwise. *)
Fixpoint dict_set {V} (d : list (string * V)) (k : string) (v : V)
  : list (string * V) :=
  match d with
  | [] => [(k, v)]
  | (k', v') :: d' =>
      if String.eqb k k' then (k', v) :: d' else (k', v') :: dict_set d' k v
  end.

(** [d.update(new)]. *)
Definition dict_update {V} (d new : list (string * V)) : list (string * V) :=
  fold_left (fun acc kv => dict_set acc (fst kv) (snd kv)) new d.

(* ------------------------------------------------------------------ *)
(** ** Instances *)

Definition loc := nat.

(** [instance["score"]]: the [global] entry is a reference to a dictionary
    of the heap, the [instance] entry is the instance's own dictionary.
    The group pseudo-instances built for fixed-group resampling carry no
    [global] entry. *)
Record score_section := {
  sglobal : option loc;
  sinstance : pydict
}.

(** One evaluated example.  Predictions and references are kept as
    strings; [task_data] and [score] are optional keys of the instance. *)
Record instance := {
  references : list string;
  prediction : string;
  task_data : option pydict;
  score : option score_section
}.

(* ------------------------------------------------------------------ *)
(** ** Exceptions and the error monad *)

(** The structured text of the [ValueError]s raised by
    [score_groups_globally]: which configuration complained, the instance
    interpolated in the message, and the subfield interpolated in it. *)
Inductive config_arg := ArgGrouping | ArgSubgroupFiltering | ArgControlComparison.

Inductive exn :=
| ValueErrorMissing (arg : config_arg) (inst : instance) (subfield : string)
| ValueError (msg : string)
| UnboundLocalError (var : string)
| KeyError (key : string)
| TypeError (what : string)
| AttributeError (what : string)
| StatisticsError (msg : string)
| AssertionError (msg : string)
| IndexError (msg : string)
| ZeroDivisionError (msg : string)
| ComputeError (msg : string).


Inductive result (A : Type) :=
| Ok (a : A)
| Raise (e : exn).

Arguments Ok {A}.
Arguments Raise {A}.

Definition bind {A B} (c : result A) (k : A -> result B) : result B :=
  match c with
  | Ok a => k a
  | Raise e => Raise e
  end.

Notation "x <- c ;; k" := (bind c (fun x => k))
  (at level 61, c at next level, right associativity).
Notation "' pat <- c ;; k" := (bind c (fun x => match x with pat => k end))
  (at level 61, pat pattern, c at next level, right associativity).

Definition is_value_error {A} (r : result A) : bool :=
  match r with
  | Raise (ValueErrorMissing _ _ _) | Raise (ValueError _) => true
  | _ => false
  end.

(** [for x in xs: acc = body(acc, x)], stopping at the first exception. *)
Fixpoint for_each {A S} (xs : list A) (body : S -> A -> result S) (s : S)
  : result S :=
  match xs with
  | [] => Ok s
  | x :: xs' => s' <- body s x ;; for_each xs' body s'
  end.

(** A list comprehension whose element expression can raise. *)
Fixpoint map_result {A B} (f : A -> result B) (xs : list A)
  : result (list B) :=
  match xs with
  | [] => Ok []
  | x :: xs' => y <- f x ;; ys <- map_result f xs' ;; Ok (y :: ys)
  end.

(** [d[k]], raising [KeyError]. *)
Definition dict_getitem {V} (d : list (string * V)) (k : string) : result V :=
  match dict_lookup d k with
  | Some v => Ok v
  | None => Raise (KeyError k)
  end.

Definition as_float (v : value) : result scoreval :=
  match v with
  | VFloat s => Ok s
  | VNone => Raise (TypeError "NoneType is not a number")
  | VStr _ => Raise (TypeError "str is not a number")
  end.

(* ------------------------------------------------------------------ *)
(** ** Numeric helpers: [np.nanmean], [statistics.mean], [np.isnan] *)

Fixpoint Qsum (l : list Q) : Q :=
  match l with
  | [] => 0
  | x :: l' => x + Qsum l'
  end.

Definition Qcount (n : nat) : Q := inject_Z (Z.of_nat n).

(** The numbers of a list of scores, NaN entries dropped. *)
Fixpoint non_nan (l : list scoreval) : list Q :=
  match l with
  | [] => []
  | NaN :: l' => non_nan l'
  | Num q :: l' => q :: non_nan l'
  end.

(** numpy's [_replace_nan(a, 0)]: a copy with every NaN overwritten by 0. *)
Definition replace_nan (l : list scoreval) : list Q :=
  map (fun s => match s with NaN => 0 | Num q => q end) l.

(** numpy's count of the entries outside the NaN mask. *)
Definition count_not_nan (l : list scoreval) : nat :=
  List.length (filter (fun s => negb (isnan s)) l).

(** [np.nanmean(a)] as numpy computes it: NaN replaced by 0, the total
    divided by the number of entries that were not NaN; an empty slice
    (no entry that is not NaN) gives NaN, with a RuntimeWarning. *)
Definition np_nanmean (l : list scoreval) : scoreval :=
  let tot := Qsum (replace_nan l) in
  let cnt := count_not_nan l in
  if Nat.eqb cnt 0 then NaN else Num (tot / Qcount cnt).

(** [nan_mean(x)]: [np.nanmean] with the RuntimeWarning silenced. *)
Definition nan_mean (x : list value) : result scoreval :=
  xs <- map_result as_float x ;;
  Ok (np_nanmean xs).

(** [statistics.mean(data)]: [StatisticsError] on no data; the exact sum
    of the data divided by their number; a NaN among the data makes the sum,
    and so the mean, NaN. *)
Definition statistics_mean (data : list value) : result scoreval :=
  xs <- map_result as_float data ;;
  match xs with
  | [] => Raise (StatisticsError "mean requires at least one data point")
  | _ => Ok (score_div_count (fold_left score_add xs (Num 0)) (List.length xs))
  end.

(** The arithmetic mean as the specification words it: the sum of the
    values divided by how many there are. *)
Definition arithmetic_mean (l : list Q) : Q := Qsum l / Qcount (List.length l).

(* ------------------------------------------------------------------ *)
(** ** Metric configuration *)

Record grouping_cfg := {
  group_by_field : string;
  ci_samples_from_groups_scores : bool
}.

Record subgroup_filtering_cfg := {
  sf_subgroup_column : string;
  subgroup_types : list string
}.

Record control_comparison_cfg := {
  cc_subgroup_column : string;
  control_subgroup_types : list string;
  comparison_subgroup_types : list string;
  control_comparison_score_calculator :
    list value -> list value -> result scoreval
}.

Record aggregating_cfg := {
  aggregating_function_name : string;
  aggregating_function : list instance -> string -> result scoreval
}.

Inductive metric_kind :=
| InstanceMetric
| GlobalMetric
| BulkInstanceMetric
| OtherMetric.

(** The attributes of [self].  [prediction_type_ok x] stands for
    [isoftype(x, self.get_prediction_type())]; the three [compute] fields
    are the abstract [compute] of the three metric kinds. *)
Record metric := {
  kind : metric_kind;
  main_score : string;
  prediction_type_ok : string -> bool;
  single_reference_per_prediction : bool;
  n_resamples : option Z;
  ci_scores : option (list string);
  grouping : option grouping_cfg;
  subgroup_filtering : option subgroup_filtering_cfg;
  control_comparison : option control_comparison_cfg;
  score_names : option (list string);
  to_score_names : option (list string);
  prefix : string;
  aggregating : option aggregating_cfg;
  compute_instance : list string -> string -> pydict -> result pydict;
  process_single_instances : bool;
  compute : list (list string) -> list string -> list pydict -> result pydict;
  reduction_map : list (string * list string);
  implemented_reductions : list string;
  compute_bulk :
    list (list string) -> list string -> list pydict -> result (list pydict)
}.

(* ------------------------------------------------------------------ *)
(** ** Validation (class [Metric]) *)

Definition _validate_prediction (self : metric) (prediction : string)
  : result unit :=
  if prediction_type_ok self prediction then Ok tt
  else Raise (ValueError "Each prediction is expected to be of the prediction type").

Definition _validate_reference (self : metric) (reference : list string)
  : result unit :=
  if single_reference_per_prediction self
     && negb (Nat.eqb (List.length reference) 1)
  then Raise (ValueError "Expecting a list with a single reference per prediction")
  else
    for_each reference
      (fun _ ref =>
         if prediction_type_ok self ref then Ok tt
         else Raise (ValueError "Each reference is expected to be of the prediction type"))
      tt.

Definition _validate_references_and_prediction (self : metric)
  (refs : list (list string)) (predictions : list string) : result unit :=
  if negb (Nat.eqb (List.length refs) (List.length predictions))
  then Raise (ValueError "references size doesn't mach predictions size")
  else
    _ <- for_each refs (fun _ r => _validate_reference self r) tt ;;
    for_each predictions (fun _ p => _validate_prediction self p) tt.

(* ------------------------------------------------------------------ *)
(** ** Aggregating functions over instance scores *)

(** [instance["score"]["instance"][score_name]]. *)
Definition instance_score (i : instance) (score_name : string) : result value :=
  match score i with
  | None => Raise (KeyError "score")
  | Some sec => dict_getitem (sinstance sec) score_name
  end.

Definition instance_scores (instances : list instance) (score_name : string)
  : result (list value) :=
  map_result (fun i => instance_score i score_name) instances.

Definition average_item_scores (instances : list instance) (score_name : string)
  : result scoreval :=
  xs <- instance_scores instances score_name ;;
  nan_mean xs.

(** [np.nanmax]: the largest entry that is not NaN, NaN when there is none. *)
Fixpoint np_nanmax (l : list scoreval) : scoreval :=
  match l with
  | [] => NaN
  | NaN :: l' => np_nanmax l'
  | Num q :: l' =>
      match np_nanmax l' with
      | NaN => Num q
      | Num r => Num (if Qle_bool q r then r else q)
      end
  end.

Definition nan_max (x : list value) : result scoreval :=
  xs <- map_result as_float x ;;
  match xs with
  | [] => Raise (ValueError "zero-size array to reduction operation")
  | _ => Ok (np_nanmax xs)
  end.

Definition max_item_scores (instances : list instance) (score_name : string)
  : result scoreval :=
  xs <- instance_scores instances score_name ;;
  nan_max xs.

(* ------------------------------------------------------------------ *)
(** ** Confidence-interval gating (class [MetricWithConfidenceInterval]) *)

Definition _can_compute_confidence_intervals (self : metric)
  (num_predictions : nat) : bool :=
  match n_resamples self with
  | None => false
  | Some n => (1 <? n)%Z && (1 <? num_predictions)%nat
  end.

Definition value_eqb (a b : value) : bool :=
  match a, b with
  | VNone, VNone => true
  | VFloat x, VFloat y => score_eqb x y
  | VStr x, VStr y => String.eqb x y
  | _, _ => false
  end.

(** The elements of [set(l)]: one representative per class of equal values. *)
Fixpoint unique_values (l : list value) : list value :=
  match l with
  | [] => []
  | x :: l' =>
      if existsb (value_eqb x) l' then unique_values l'
      else x :: unique_values l'
  end.

(** [score is not np.nan]: an identity test against the object [np.nan].
    The one [NaN] of the model stands for that object; a NaN that is
    another float object would pass the test of the code. *)
Definition is_not_np_nan (v : value) : bool :=
  match v with
  | VFloat NaN => false
  | _ => true
  end.

Definition _all_instance_scores_equal (instances : list instance)
  (score_name : string) : result bool :=
  instance_scores_ <- instance_scores instances score_name ;;
  let non_nan_instance_scores := filter is_not_np_nan instance_scores_ in
  let num_unique_scores := List.length (unique_values non_nan_instance_scores) in
  Ok (Nat.eqb num_unique_scores 1).

(** [list(set(names))]: the names without repetition. *)
Definition list_set (names : list string) : list string :=
  nodup string_dec names.

Section WithExternals.

(** The collaborators that live outside [metrics.py].
    - [dict_get instance path] is [dict_utils.dict_get]: [None] stands for
      the exception it raises when the path is absent.
    - [bootstrap population statistic n] is [scipy.stats.bootstrap] with
      the metric's confidence level and the generator seeded from the
      process-wide seed; it returns the interval [(low, high)].  The
      statistic it receives maps one resample to its aggregate; the
      replacement of NaN aggregates ([resample_from_non_nan]) happens
      inside. *)
Variable dict_get : instance -> string -> option string.
Variable bootstrap :
  forall P : Type, list P -> (list P -> result scoreval) -> Z ->
                   result (scoreval * scoreval).

Definition score_based_confidence_interval (self : metric)
  (instances : list instance) (score_names_ : list string)
  (aggregation_func : option (list instance -> string -> result scoreval))
  (ci_score_prefix : string) : result pydict :=
  let result_ : pydict := [] in
  if negb (_can_compute_confidence_intervals self (List.length instances))
  then Ok result_
  else
    let aggregation_func :=
      match aggregation_func with
      | None => average_item_scores
      | Some f => f
      end in
    for_each score_names_
      (fun result_ score_name =>
         all_equal <- _all_instance_scores_equal instances score_name ;;
         if all_equal then Ok result_
         else
           let statistic := fun resampled_instances =>
                              aggregation_func resampled_instances score_name in
           ' (low, high) <- bootstrap instance instances statistic
                              (match n_resamples self with
                               | Some n => n
                               | None => 0%Z
                               end) ;;
           let full_score_name := (ci_score_prefix ++ score_name)%string in
           let result_ :=
             dict_set result_ (full_score_name ++ "_ci_low")%string (VFloat low) in
           let result_ :=
             dict_set result_ (full_score_name ++ "_ci_high")%string (VFloat high) in
           if String.eqb score_name (main_score self)
           then Ok (dict_set (dict_set result_ "score_ci_low" (VFloat low))
                             "score_ci_high" (VFloat high))
           else Ok result_)
      result_.

(* ---------------------------------------------------------------- *)
(** *** Grouping *)

(** [grouped_instances[group_name].append(instance)] on a
    [defaultdict(list)]. *)
Fixpoint append_to_group (grouped : list (string * list instance))
  (group_name : string) (i : instance) : list (string * list instance) :=
  match grouped with
  | [] => [(group_name, [i])]
  | (g, members) :: rest =>
      if String.eqb group_name g then (g, (members ++ [i])%list) :: rest
      else (g, members) :: append_to_group rest group_name i
  end.

(** The grouping loop.  Its state is the local variable [group_name]
    ([None] while it is unbound) and the groups built so far.  The handler
    of a failed lookup formats its message with [group_name]: unbound on
    the first instance, the group of the previous instance afterwards. *)
Definition group_instances (g : grouping_cfg) (instances : list instance)
  : result (list (string * list instance)) :=
  ' (_, grouped) <-
    for_each instances
      (fun '(group_name, grouped) i =>
         match dict_get i (group_by_field g) with
         | Some name => Ok (Some name, append_to_group grouped name i)
         | None =>
             match group_name with
             | None => Raise (UnboundLocalError "group_name")
             | Some stale => Raise (ValueErrorMissing ArgGrouping i stale)
             end
         end)
      (None, []) ;;
  Ok grouped.

(** A group is a plain list of instances, or the pair of its control and
    comparison instances. *)
Inductive group :=
| Plain (members : list instance)
| Split (control comparison : list instance).

Definition mem_string (x : string) (l : list string) : bool :=
  existsb (String.eqb x) l.

Definition filter_group (sf : subgroup_filtering_cfg) (members : list instance)
  : result (list instance) :=
  for_each members
    (fun filtered_group i =>
       match dict_get i (sf_subgroup_column sf) with
       | None =>
           Raise (ValueErrorMissing ArgSubgroupFiltering i (sf_subgroup_column sf))
       | Some subgroup_type =>
           if mem_string subgroup_type (subgroup_types sf)
           then Ok (filtered_group ++ [i])%list
           else Ok filtered_group
       end)
    [].

Definition split_group (cc : control_comparison_cfg) (members : list instance)
  : result group :=
  ' (control_group, comparison_group) <-
    for_each members
      (fun '(control_group, comparison_group) i =>
         match dict_get i (cc_subgroup_column cc) with
         | None =>
             Raise (ValueErrorMissing ArgControlComparison i (cc_subgroup_column cc))
         | Some subgroup_type =>
             if mem_string subgroup_type (control_subgroup_types cc)
             then Ok ((control_group ++ [i])%list, comparison_group)
             else if mem_string subgroup_type (comparison_subgroup_types cc)
             then Ok (control_group, (comparison_group ++ [i])%list)
             else Ok (control_group, comparison_group)
         end)
      ([], []) ;;
  Ok (Split control_group comparison_group).

(** A group's global score: a float ([np.nan] for an empty group of a
    global metric) or a dictionary of scores. *)
Inductive gscore :=
| GFloat (s : scoreval)
| GDict (d : pydict).

(** [consume_stream(stream=group, task_data_field_name="task_data")]. *)
Definition consume_stream (stream : list instance)
  : list string * list (list string) * list pydict * list instance :=
  (map prediction stream,
   map references stream,
   map (fun i => match task_data i with Some d => d | None => [] end) stream,
   stream).

(** [GlobalMetric._compute]. *)
Definition _compute (self : metric) (refs : list (list string))
  (predictions : list string) (task_data_ : list pydict) : result pydict :=
  result_ <- compute self refs predictions task_data_ ;;
  main <- dict_getitem result_ (main_score self) ;;
  let result_ := dict_set result_ "score" main in
  Ok (dict_set result_ "score_name" (VStr (main_score self))).

(** The body of the last loop of [score_groups_globally] for one group:
    [None] when no entry is written for the group. *)
Definition score_one_group (self : metric) (score_names_ : option (list string))
  (g : group) : result (option gscore) :=
  match kind self with
  | InstanceMetric =>
      match score_names_ with
      | None => Raise (TypeError "NoneType object is not iterable")
      | Some names =>
          d <- for_each names
                 (fun (d : pydict) score_name =>
                    match g with
                    | Plain members =>
                        match aggregating self with
                        | None => Raise (TypeError "NoneType object is not subscriptable")
                        | Some a =>
                            s <- aggregating_function a members score_name ;;
                            Ok (dict_set d score_name (VFloat s))
                        end
                    | Split control comparison =>
                        control_scores <- instance_scores control score_name ;;
                        comparison_scores <- instance_scores comparison score_name ;;
                        match control_comparison self with
                        | None => Raise (TypeError "NoneType object is not subscriptable")
                        | Some cc =>
                            s <- control_comparison_score_calculator cc
                                   control_scores comparison_scores ;;
                            Ok (dict_set d score_name (VFloat s))
                        end
                    end)
                 [] ;;
          Ok (Some (GDict d))
      end
  | GlobalMetric =>
      match g with
      | Plain members =>
          match members with
          | [] => Ok (Some (GFloat NaN))
          | _ =>
              let '(predictions, refs, task_data_, _) := consume_stream members in
              _ <- _validate_references_and_prediction self refs predictions ;;
              d <- _compute self refs predictions task_data_ ;;
              Ok (Some (GDict d))
          end
      | Split _ _ => Ok None
      end
  | BulkInstanceMetric =>
      Raise (ValueError "What are you doing here? nowhere in BulkInstanceMetric is this method invoked")
  | OtherMetric =>
      Raise (ValueError "Unrecognized extension of MetricWithConfidence")
  end.

Definition score_groups_globally (self : metric) (instances : list instance)
  (score_names_ : option (list string)) : result (list (string * gscore)) :=
  grouped_instances <-
    match grouping self with
    | None => Ok [("all", instances)]
    | Some g => group_instances g instances
    end ;;
  grouped_instances <-
    match subgroup_filtering self with
    | None => Ok grouped_instances
    | Some sf =>
        map_result
          (fun '(group_name, members) =>
             filtered_group <- filter_group sf members ;;
             Ok (group_name, filtered_group))
          grouped_instances
    end ;;
  grouped_instances <-
    match control_comparison self with
    | None => Ok (map (fun '(group_name, members) => (group_name, Plain members))
                      grouped_instances)
    | Some cc =>
        map_result
          (fun '(group_name, members) =>
             g <- split_group cc members ;;
             Ok (group_name, g))
          grouped_instances
    end ;;
  for_each grouped_instances
    (fun groups_global_scores '(group_name, g) =>
       s <- score_one_group self score_names_ g ;;
       match s with
       | Some s => Ok (dict_set groups_global_scores group_name s)
       | None => Ok groups_global_scores
       end)
    [].

(* ---------------------------------------------------------------- *)
(** *** Averaging over groups *)

(** The accumulator of the field-wise merge: a string field keeps the
    last string written, any other field collects its values in a list. *)
Inductive merged :=
| MStr (s : string)
| MList (l : list value).

Definition merge_field (acc : list (string * merged)) (k : string) (v : value)
  : result (list (string * merged)) :=
  match v with
  | VStr s => Ok (dict_set acc k (MStr s))
  | _ =>
      match dict_lookup acc k with
      | None => Ok (dict_set acc k (MList [v]))
      | Some (MList l) => Ok (dict_set acc k (MList (l ++ [v])%list))
      | Some (MStr _) => Raise (AttributeError "str object has no attribute append")
      end
  end.

Definition average_groups_global_scores (self : metric)
  (instances : list instance) (score_name : option string) : result gscore :=
  groups_global_scores <-
    score_groups_globally self instances
      (match score_name with Some n => Some [n] | None => None end) ;;
  match groups_global_scores with
  | [] => Raise (AssertionError "Where have all the groups gone?")
  | [(_, only)] => Ok only
  | _ =>
      match score_name with
      | Some n =>
          xs <- map_result
                  (fun '(_, gs) =>
                     match gs with
                     | GDict d => dict_getitem d n
                     | GFloat _ => Raise (TypeError "float object is not subscriptable")
                     end)
                  groups_global_scores ;;
          m <- nan_mean xs ;;
          Ok (GFloat m)
      | None =>
          acc <- for_each groups_global_scores
                   (fun acc '(_, group_global_score) =>
                      match group_global_score with
                      | GDict d =>
                          for_each d (fun acc '(k, v) => merge_field acc k v) acc
                      | GFloat NaN => Ok acc
                      | GFloat (Num _) =>
                          Raise (AssertionError "group global score should be either a dict or np.nan")
                      end)
                   [] ;;
          d <- map_result
                 (fun '(k, v) =>
                    match v with
                    | MStr s => Ok (k, VStr s)
                    | MList l => m <- nan_mean l ;; Ok (k, VFloat m)
                    end)
                 acc ;;
          Ok (GDict d)
      end
  end.

(** [average_groups_global_scores] in the role of an aggregation function:
    the bootstrap needs a float. *)
Definition average_groups_as_aggregation (self : metric)
  (instances : list instance) (score_name : string) : result scoreval :=
  r <- average_groups_global_scores self instances (Some score_name) ;;
  match r with
  | GFloat s => Ok s
  | GDict _ => Raise (TypeError "dict is not a number")
  end.

Definition compute_global_confidence_intervals (self : metric)
  (refs : list (list string)) (predictions : list string)
  (task_data_ : list pydict) (score_name : string) : result pydict :=
  let num_predictions := List.length predictions in
  if _can_compute_confidence_intervals self num_predictions then
    let statistic := fun x : list nat =>
      let insts :=
        map (fun i => {| references := nth i refs [];
                         prediction := nth i predictions "";
                         task_data := Some (nth i task_data_ []);
                         score := None |}) x in
      match (to_ret <- average_groups_global_scores self insts None ;;
             match to_ret with
             | GDict d => v <- dict_getitem d "score" ;; as_float v
             | GFloat _ => Raise (TypeError "float object is not subscriptable")
             end) with
      | Ok s => Ok s
      | Raise _ => Ok NaN
      end in
    ' (low, high) <- bootstrap nat (seq 0 num_predictions) statistic
                       (match n_resamples self with Some n => n | None => 0%Z end) ;;
    let result_ := dict_set [] "score_ci_low" (VFloat low) in
    let result_ := dict_set result_ "score_ci_high" (VFloat high) in
    let result_ := dict_set result_ (score_name ++ "_ci_low")%string (VFloat low) in
    Ok (dict_set result_ (score_name ++ "_ci_high")%string (VFloat high))
  else Ok [].

(* ---------------------------------------------------------------- *)
(** *** The heap of global score dictionaries *)

Record heap := {
  next_loc : loc;
  store : loc -> pydict
}.

(** A new dictionary object. *)
Definition heap_alloc (h : heap) (d : pydict) : heap * loc :=
  ({| next_loc := S (next_loc h);
      store := fun l => if Nat.eqb l (next_loc h) then d else store h l |},
   next_loc h).

(** [obj.update(new)] on the dictionary object at [l]. *)
Definition heap_update (h : heap) (l : loc) (new : pydict) : heap :=
  {| next_loc := next_loc h;
     store := fun l' =>
                if Nat.eqb l' l then dict_update (store h l) new else store h l' |}.

Definition set_score (i : instance) (sec : score_section) : instance :=
  {| references := references i;
     prediction := prediction i;
     task_data := task_data i;
     score := Some sec |}.

(** The top of the three stream loops:
    [if "score" not in instance: instance["score"] = {"global": global_score, "instance": {}}]
    [else: global_score = instance["score"]["global"]]. *)
Definition link_global_score (global_score : loc) (i : instance)
  : result (instance * score_section * loc) :=
  match score i with
  | None =>
      let sec := {| sglobal := Some global_score; sinstance := [] |} in
      Ok (set_score i sec, sec, global_score)
  | Some sec =>
      match sglobal sec with
      | Some g => Ok (i, sec, g)
      | None => Raise (KeyError "global")
      end
  end.

(** [instance["score"]["instance"].update(new_scores)]. *)
Definition update_instance_section (i : instance) (sec : score_section)
  (new_scores : pydict) : instance :=
  set_score i {| sglobal := sglobal sec;
                 sinstance := dict_update (sinstance sec) new_scores |}.

(** [instance["score"]["global"]] as a heap location. *)
Definition global_of (i : instance) : option loc :=
  match score i with
  | Some sec => sglobal sec
  | None => None
  end.

(** [all(f(x) for x in xs)], stopping at the first [False]. *)
Fixpoint all_result {A} (f : A -> result bool) (xs : list A) : result bool :=
  match xs with
  | [] => Ok true
  | x :: xs' => b <- f x ;; if b then all_result f xs' else Ok false
  end.

Definition is_float_value (v : value) : bool :=
  match v with VFloat _ => true | _ => false end.

(** [global_score.update(result)] where [result] may be a float. *)
Definition update_global (h : heap) (global_score : loc) (r : gscore)
  : result heap :=
  match r with
  | GDict d => Ok (heap_update h global_score d)
  | GFloat _ => Raise (TypeError "float object is not iterable")
  end.

(** A group's global score dressed as an instance:
    [{"score": {"instance": groups_global_scores[group_name]}}]. *)
Definition group_as_instance (d : pydict) : instance :=
  {| references := [];
     prediction := "";
     task_data := None;
     score := Some {| sglobal := None; sinstance := d |} |}.

(* ---------------------------------------------------------------- *)
(** *** [GlobalMetric.process] *)

(** The per-instance preview score of the stream loop. *)
Definition global_instance_score (self : metric) (instance_references : list string)
  (instance_prediction : string) (instance_task_data : pydict) : pydict :=
  let '(instance_score_, no_score_value) :=
    if process_single_instances self then
      match _compute self [instance_references] [instance_prediction]
                     [instance_task_data] with
      | Ok d => (Some d, VFloat NaN)
      | Raise _ => (None, VNone)
      end
    else (None, VFloat NaN) in
  match instance_score_ with
  | Some ((_ :: _) as d) => d
  | _ =>
      let d := [("score", no_score_value);
                ("score_name", VStr (main_score self))] in
      dict_set d (main_score self) no_score_value
  end.

(** One turn of the stream loop of [GlobalMetric.process]; the state is
    [global_score] and the lists [references], [predictions], [task_data]
    and [instances]. *)
Definition GlobalMetric_consume_step (self : metric)
  (st : loc * list (list string) * list string * list pydict * list instance)
  (i : instance)
  : result (loc * list (list string) * list string * list pydict * list instance) :=
  let '(global_score, refs, predictions, task_data_, instances) := st in
  ' (i, sec, global_score) <- link_global_score global_score i ;;
  let instance_references := references i in
  let instance_prediction := prediction i in
  let instance_task_data :=
    match task_data i with Some d => d | None => [] end in
  let instance_score_ :=
    global_instance_score self instance_references instance_prediction
      instance_task_data in
  let i := update_instance_section i sec instance_score_ in
  Ok (global_score,
      (refs ++ [instance_references])%list,
      (predictions ++ [instance_prediction])%list,
      (task_data_ ++ [instance_task_data])%list,
      (instances ++ [i])%list).

Definition GlobalMetric_consume (self : metric) (global_score : loc)
  (stream : list instance)
  : result (loc * list (list string) * list string * list pydict * list instance) :=
  for_each stream (GlobalMetric_consume_step self) (global_score, [], [], [], []).

Definition groups_scores_are_floats (cis : list string)
  (groups_global_scores : list (string * gscore)) : result bool :=
  all_result
    (fun '(_, group_score) =>
       match group_score with
       | GFloat NaN => Ok true
       | GFloat (Num _) =>
           all_result (fun _ : string =>
                         Raise (TypeError "float object is not subscriptable")) cis
       | GDict d =>
           all_result (fun n => v <- dict_getitem d n ;; Ok (is_float_value v)) cis
       end)
    groups_global_scores.

Definition GlobalMetric_process (self : metric) (h : heap) (stream : list instance)
  : result (heap * list instance) :=
  let '(h, global_score) := heap_alloc h [] in
  ' (global_score, refs, predictions, task_data_, instances) <-
    GlobalMetric_consume self global_score stream ;;
  _ <- _validate_references_and_prediction self refs predictions ;;
  result_ <- average_groups_global_scores self instances None ;;
  h <- update_global h global_score result_ ;;
  (* [score_name = global_score["score_name"]]; it is interpolated in the
     keys of the interval, so it is taken to be the string [_compute] stores *)
  score_name <-
    match dict_lookup (store h global_score) "score_name" with
    | Some (VStr n) => Ok n
    | Some _ => Raise (TypeError "score_name is not a string")
    | None => Raise (KeyError "score_name")
    end ;;
  groups_global_scores <- score_groups_globally self instances None ;;
  from_groups <-
    match ci_scores self, grouping self with
    | Some cis, Some g =>
        if ci_samples_from_groups_scores g
        then groups_scores_are_floats cis groups_global_scores
        else Ok false
    | _, _ => Ok false
    end ;;
  confidence_interval <-
    (if from_groups then
       let to_sample_from :=
         flat_map (fun '(_, gs) =>
                     match gs with
                     | GDict d => [group_as_instance d]
                     | GFloat _ => []
                     end) groups_global_scores in
       score_based_confidence_interval self to_sample_from
         (list_set (match ci_scores self with Some cis => cis | None => [] end))
         (Some average_item_scores) "fixed_group_"
     else
       compute_global_confidence_intervals self refs predictions task_data_
         score_name) ;;
  let h := heap_update h global_score confidence_interval in
  Ok (h, instances).

(* ---------------------------------------------------------------- *)
(** *** [InstanceMetric] *)

(** [InstanceMetric.prepare]: the defaults of [aggregating], [score_names],
    [prefix] and [to_score_names]. *)
Definition InstanceMetric_prepare (self : metric) : metric :=
  let aggregating_ :=
    match aggregating self with
    | Some a => a
    | None => {| aggregating_function_name := "mean";
                 aggregating_function := average_item_scores |}
    end in
  let score_names_ :=
    match score_names self with
    | Some l => l
    | None => [main_score self]
    end in
  let prefix_ :=
    match to_score_names self, grouping self with
    | None, Some g =>
        ((if ci_samples_from_groups_scores g then "fixed_group_" else "group_")
           ++ aggregating_function_name aggregating_ ++ "_")%string
    | _, _ => ""
    end in
  let to_score_names_ :=
    match to_score_names self with
    | Some l => l
    | None => map (fun score_name => (prefix_ ++ score_name)%string) score_names_
    end in
  {| kind := kind self;
     main_score := main_score self;
     prediction_type_ok := prediction_type_ok self;
     single_reference_per_prediction := single_reference_per_prediction self;
     n_resamples := n_resamples self;
     ci_scores := ci_scores self;
     grouping := grouping self;
     subgroup_filtering := subgroup_filtering self;
     control_comparison := control_comparison self;
     score_names := Some score_names_;
     to_score_names := Some to_score_names_;
     prefix := prefix_;
     aggregating := Some aggregating_;
     compute_instance := compute_instance self;
     process_single_instances := process_single_instances self;
     compute := compute self;
     reduction_map := reduction_map self;
     implemented_reductions := implemented_reductions self;
     compute_bulk := compute_bulk self |}.

(** One turn of the stream loop of [compute_instance_scores], for the
    default [reference_field] and [prediction_field]; the state is
    [instances] and [global_score]. *)
Definition compute_instance_scores_step (self : metric)
  (st : list instance * loc) (i : instance) : result (list instance * loc) :=
  let '(instances, global_score) := st in
  let task_data_ := match task_data i with Some d => d | None => [] end in
  let refs := references i in
  let pred := prediction i in
  _ <- _validate_prediction self pred ;;
  _ <- _validate_reference self refs ;;
  instance_score_ <- compute_instance self refs pred task_data_ ;;
  main <- dict_getitem instance_score_ (main_score self) ;;
  let instance_score_ := dict_set instance_score_ "score" main in
  let instance_score_ :=
    dict_set instance_score_ "score_name" (VStr (main_score self)) in
  ' (i, sec, global_score) <- link_global_score global_score i ;;
  let i := update_instance_section i sec instance_score_ in
  Ok ((instances ++ [i])%list, global_score).

(** [InstanceMetric.compute_instance_scores]. *)
Definition compute_instance_scores (self : metric) (global_score : loc)
  (stream : list instance) : result (list instance * loc) :=
  for_each stream (compute_instance_scores_step self) ([], global_score).

(** [groups_global_scores[group_name][score_name]]. *)
Definition group_score_of (gs : gscore) (score_name : string) : result value :=
  match gs with
  | GDict d => dict_getitem d score_name
  | GFloat _ => Raise (TypeError "float object is not subscriptable")
  end.

(** The aggregated global score the first loop of [InstanceMetric.process]
    writes under [to_score_name]. *)
Definition InstanceMetric_global_score (self : metric)
  (groups_global_scores : list (string * gscore)) (score_name : string)
  : result value :=
  match grouping self with
  | None =>
      all_ <- dict_getitem groups_global_scores "all" ;;
      group_score_of all_ score_name
  | Some _ =>
      xs <- map_result (fun '(_, gs) => group_score_of gs score_name)
              groups_global_scores ;;
      m <- nan_mean xs ;;
      Ok (VFloat m)
  end.

(** [self.score_names.index(self.main_score)]. *)
Fixpoint index_of (x : string) (l : list string) : option nat :=
  match l with
  | [] => None
  | y :: l' =>
      if String.eqb x y then Some 0%nat
      else match index_of x l' with Some n => Some (S n) | None => None end
  end.

Definition InstanceMetric_process (self : metric) (h : heap)
  (stream : list instance) : result (heap * list instance) :=
  let '(h, global_score) := heap_alloc h [] in
  ' (instances, global_score) <- compute_instance_scores self global_score stream ;;
  groups_global_scores <- score_groups_globally self instances (score_names self) ;;
  names <- match score_names self with
           | Some l => Ok l
           | None => Raise (TypeError "zip argument #1 must support iteration")
           end ;;
  to_names <- match to_score_names self with
              | Some l => Ok l
              | None => Raise (TypeError "zip argument #2 must support iteration")
              end ;;
  h <- for_each (combine names to_names)
         (fun h '(score_name, to_score_name) =>
            v <- InstanceMetric_global_score self groups_global_scores score_name ;;
            Ok (heap_update h global_score [(to_score_name, v)]))
         h ;;
  h <- match index_of (main_score self) names with
       | None => Ok h
       | Some position =>
           match nth_error to_names position with
           | None => Raise (IndexError "list index out of range")
           | Some to_name =>
               v <- dict_getitem (store h global_score) to_name ;;
               let h := heap_update h global_score [("score", v)] in
               Ok (heap_update h global_score [("score_name", VStr to_name)])
           end
       end ;;
  h <- match ci_scores self with
       | None => Ok h
       | Some cis =>
           confidence_interval <-
             match grouping self with
             | None =>
                 match aggregating self with
                 | Some a =>
                     score_based_confidence_interval self instances (list_set cis)
                       (Some (aggregating_function a)) (prefix self)
                 | None => Raise (TypeError "NoneType object is not subscriptable")
                 end
             | Some g =>
                 if negb (ci_samples_from_groups_scores g) then
                   score_based_confidence_interval self instances (list_set cis)
                     (Some (average_groups_as_aggregation self)) (prefix self)
                 else
                   to_sample_from <-
                     map_result (fun '(_, gs) =>
                                   match gs with
                                   | GDict d => Ok (group_as_instance d)
                                   | GFloat _ => Raise (TypeError "float object is not subscriptable")
                                   end) groups_global_scores ;;
                   score_based_confidence_interval self to_sample_from (list_set cis)
                     (Some average_item_scores) (prefix self)
             end ;;
           Ok (heap_update h global_score confidence_interval)
       end ;;
  Ok (h, instances).

(* ---------------------------------------------------------------- *)
(** *** [BulkInstanceMetric.process] *)

(** The body of [for field_name in fields] under the [mean] reduction. *)
Definition reduce_mean_field (self : metric) (instances : list instance)
  (h : heap) (global_score : loc) (field_name : string) : result heap :=
  xs <- instance_scores instances field_name ;;
  m <- statistics_mean xs ;;
  let h := heap_update h global_score [(field_name, VFloat m)] in
  if String.eqb field_name (main_score self) then
    v <- dict_getitem (store h global_score) field_name ;;
    let h := heap_update h global_score [("score", v)] in
    Ok (heap_update h global_score [("score_name", VStr (main_score self))])
  else Ok h.

Definition BulkInstanceMetric_process (self : metric) (h : heap)
  (stream : list instance) : result (heap * list instance) :=
  let '(h, global_score) := heap_alloc h [] in
  match stream with
  | [] => Raise (ValueError "not enough values to unpack (expected 2, got 0)")
  | _ =>
      let refs := map references stream in
      let predictions := map prediction stream in
      let task_data_ :=
        map (fun i => match task_data i with Some d => d | None => [] end) stream in
      _ <- _validate_references_and_prediction self refs predictions ;;
      instance_scores_ <- compute_bulk self refs predictions task_data_ ;;
      instance_scores_ <-
        map_result
          (fun instance_score_ =>
             main <- dict_getitem instance_score_ (main_score self) ;;
             let instance_score_ := dict_set instance_score_ "score" main in
             Ok (dict_set instance_score_ "score_name" (VStr (main_score self))))
          instance_scores_ ;;
      ' (instances, global_score) <-
        for_each (combine stream instance_scores_)
          (fun '(instances, global_score) '(i, score_) =>
             ' (i, sec, global_score) <- link_global_score global_score i ;;
             let i := update_instance_section i sec score_ in
             Ok ((instances ++ [i])%list, global_score))
          ([], global_score) ;;
      h <- for_each (reduction_map self)
             (fun h '(reduction, fields) =>
                if negb (mem_string reduction (implemented_reductions self))
                then Raise (AssertionError "Reduction is not implemented")
                else if String.eqb reduction "mean" then
                  h <- for_each fields
                         (fun h field_name =>
                            reduce_mean_field self instances h global_score field_name)
                         h ;;
                  let ci_fields :=
                    match ci_scores self with
                    | Some cis => list_set cis
                    | None => [main_score self]
                    end in
                  confidence_interval <-
                    score_based_confidence_interval self instances ci_fields None "" ;;
                  Ok (heap_update h global_score confidence_interval)
                else Ok h)
             h ;;
      Ok (h, instances)
  end.

End WithExternals.

(* ------------------------------------------------------------------ *)
(** ** Control/comparison score calculators *)

(** [[score for score in scores if not np.isnan(score)]]. *)
Definition drop_nan (scores : list value) : result (list scoreval) :=
  xs <- map_result as_float scores ;;
  Ok (filter (fun s => negb (isnan s)) xs).

Definition score_is_zero (s : scoreval) : bool :=
  match s with
  | Num q => Qeq_bool q 0
  | NaN => false
  end.

(** [1 - comparison_mean / control_mean] on floats. *)
Definition one_minus_ratio (comparison_mean control_mean : scoreval)
  : result scoreval :=
  match comparison_mean, control_mean with
  | Num p, Num q =>
      if Qeq_bool q 0 then Raise (ZeroDivisionError "float division by zero")
      else Ok (Num (1 - p / q))
  | _, _ => Ok NaN
  end.

Definition performance_drop_rate (control_subgroup comparison_subgroup : list value)
  : result scoreval :=
  no_nan_control_subgroup <- drop_nan control_subgroup ;;
  no_nan_comparison_subgroup <- drop_nan comparison_subgroup ;;
  let group_scores_list := [no_nan_control_subgroup; no_nan_comparison_subgroup] in
  if existsb (fun scores => Nat.eqb (List.length scores) 0) group_scores_list
  then Ok NaN
  else
    control_mean <- statistics_mean (map VFloat no_nan_control_subgroup) ;;
    comparison_mean <- statistics_mean (map VFloat no_nan_comparison_subgroup) ;;
    if score_is_zero control_mean then
      if score_is_zero comparison_mean then Ok (Num 0)
      else Ok NaN
    else one_minus_ratio comparison_mean control_mean.

(* ------------------------------------------------------------------ *)
(** ** Configuration update and a concrete [dict_get] *)

Definition set_grouping (self : metric) (g : option grouping_cfg) : metric :=
  {| kind := kind self;
     main_score := main_score self;
     prediction_type_ok := prediction_type_ok self;
     single_reference_per_prediction := single_reference_per_prediction self;
     n_resamples := n_resamples self;
     ci_scores := ci_scores self;
     grouping := g;
     subgroup_filtering := subgroup_filtering self;
     control_comparison := control_comparison self;
     score_names := score_names self;
     to_score_names := to_score_names self;
     prefix := prefix self;
     aggregating := aggregating self;
     compute_instance := compute_instance self;
     process_single_instances := process_single_instances self;
     compute := compute self;
     reduction_map := reduction_map self;
     implemented_reductions := implemented_reductions self;
     compute_bulk := compute_bulk self |}.

(** [self.n_resamples = n]. *)
Definition set_n_resamples (self : metric) (n : option Z) : metric :=
  {| kind := kind self;
     main_score := main_score self;
     prediction_type_ok := prediction_type_ok self;
     single_reference_per_prediction := single_reference_per_prediction self;
     n_resamples := n;
     ci_scores := ci_scores self;
     grouping := grouping self;
     subgroup_filtering := subgroup_filtering self;
     control_comparison := control_comparison self;
     score_names := score_names self;
     to_score_names := to_score_names self;
     prefix := prefix self;
     aggregating := aggregating self;
     compute_instance := compute_instance self;
     process_single_instances := process_single_instances self;
     compute := compute self;
     reduction_map := reduction_map self;
     implemented_reductions := implemented_reductions self;
     compute_bulk := compute_bulk self |}.


(** Modelled from the spec: [dict_utils.dict_get] is not part of the
    sources; the specification describes it as a key path lookup with nested
    access like ["task_data/group_id"].  This instance resolves the paths
    [task_data/<key>] whose value is a string and raises on any other path;
    it serves the concrete evaluations below. *)
Definition task_data_get (i : instance) (path : string) : option string :=
  if String.prefix "task_data/" path then
    match task_data i with
    | Some d =>
        match dict_lookup d (substring 10 (String.length path - 10) path) with
        | Some (VStr s) => Some s
        | _ => None
        end
    | None => None
    end
  else None.

(** A bootstrap that is never reached when [n_resamples] is unset, and
    that returns the statistic of the population itself as both ends
    otherwise; it serves the concrete evaluations below. *)
Definition point_bootstrap (P : Type) (population : list P)
  (statistic : list P -> result scoreval) (n : Z) : result (scoreval * scoreval) :=
  s <- statistic population ;;
  Ok (s, s).

(* ------------------------------------------------------------------ *)
(** ** Concrete metrics and streams *)

(** [Accuracy.compute]. *)
Definition Accuracy_compute (main : string) (refs : list string) (pred : string)
  (task_data_ : pydict) : result pydict :=
  let hit := if mem_string pred refs then Num 1 else Num 0 in
  let result_ := [(main, VFloat hit)] in
  let result_ := dict_set result_ "score" (VFloat hit) in
  Ok (dict_set result_ "score_name" (VStr main)).

(** A metric with every optional attribute unset. *)
Definition bare_metric (k : metric_kind) (main : string) : metric :=
  {| kind := k;
     main_score := main;
     prediction_type_ok := fun _ => true;
     single_reference_per_prediction := false;
     n_resamples := None;
     ci_scores := None;
     grouping := None;
     subgroup_filtering := None;
     control_comparison := None;
     score_names := None;
     to_score_names := None;
     prefix := "";
     aggregating := None;
     compute_instance := Accuracy_compute main;
     process_single_instances := true;
     compute := fun _ _ _ => Raise (ComputeError "abstract");
     reduction_map := [];
     implemented_reductions := ["mean"];
     compute_bulk := fun _ _ _ => Raise (ComputeError "abstract") |}.

(** The attributes class [Accuracy] declares: [score_names] and
    [ci_scores] are both [["accuracy"]].  The default of [n_resamples]
    comes from the settings, which are outside the sources; the metric is
    taken with [n_resamples] unset, as
    [disable_confidence_interval_calculation] leaves it, and
    [set_n_resamples] gives the metric that resamples. *)
Definition Accuracy_attributes : metric :=
  {| kind := InstanceMetric;
     main_score := "accuracy";
     prediction_type_ok := fun _ => true;
     single_reference_per_prediction := false;
     n_resamples := None;
     ci_scores := Some ["accuracy"];
     grouping := None;
     subgroup_filtering := None;
     control_comparison := None;
     score_names := Some ["accuracy"];
     to_score_names := None;
     prefix := "";
     aggregating := None;
     compute_instance := Accuracy_compute "accuracy";
     process_single_instances := true;
     compute := fun _ _ _ => Raise (ComputeError "abstract");
     reduction_map := [];
     implemented_reductions := ["mean"];
     compute_bulk := fun _ _ _ => Raise (ComputeError "abstract") |}.

(** Class [Accuracy], after [prepare]. *)
Definition Accuracy : metric :=
  InstanceMetric_prepare Accuracy_attributes.

(** Class [GroupMeanAccuracy], after [prepare]: [Accuracy] with the
    grouping the class declares. *)
Definition GroupMeanAccuracy : metric :=
  InstanceMetric_prepare
    (set_grouping Accuracy_attributes
       (Some {| group_by_field := "task_data/group_id";
                ci_samples_from_groups_scores := false |})).

(** An instance that already carries the instance score [s] under [name],
    with the given [task_data] and no [global] entry. *)
Definition scored (name : string) (s : scoreval) (td : pydict) : instance :=
  {| references := ["A"];
     prediction := "A";
     task_data := Some td;
     score := Some {| sglobal := None; sinstance := [(name, VFloat s)] |} |}.

(** An instance fresh from the producer: no [score] key yet. *)
Definition unscored (pred ref : string) : instance :=
  {| references := [ref];
     prediction := pred;
     task_data := None;
     score := None |}.

Definition empty_heap : heap := {| next_loc := 0%nat; store := fun _ => [] |}.

(** The last character of a string, [None] for the empty string. *)
Fixpoint last_char (s : string) : option ascii :=
  match s with
  | EmptyString => None
  | String c EmptyString => Some c
  | String _ s' => last_char s'
  end.

(** Instances that all carry a number equal to [v] under [score_name]. *)
Definition all_score (instances : list instance) (score_name : string) (v : Q)
  : Prop :=
  Forall (fun i => exists q, instance_score i score_name = Ok (VFloat (Num q))
                             /\ q == v) instances.

(** An instance that already carries the instance scores [d]. *)
Definition carrying (d : pydict) (td : pydict) : instance :=
  {| references := ["A"];
     prediction := "A";
     task_data := Some td;
     score := Some {| sglobal := None; sinstance := d |} |}.

(** Three instances with a varying accuracy and the same [f1]. *)
Definition constant_f1_stream : list instance :=
  [carrying [("accuracy", VFloat (Num 1)); ("f1", VFloat (Num (1 # 2)))] [];
   carrying [("accuracy", VFloat (Num 0)); ("f1", VFloat (Num (1 # 2)))] [];
   carrying [("accuracy", VFloat (Num 1)); ("f1", VFloat (Num (1 # 2)))] []].

(** A corpus-level score: the share of predictions found among their own
    references.  Like a macro-averaged metric it needs at least two
    predictions, and raises on fewer. *)
Definition corpus_compute (refs : list (list string)) (predictions : list string)
  (task_data_ : list pydict) : result pydict :=
  match predictions with
  | _ :: _ :: _ =>
      let hits :=
        List.length (filter (fun '(r, p) => mem_string p r)
                            (combine refs predictions)) in
      Ok [("f1", VFloat (Num (Qcount hits / Qcount (List.length predictions))))]
  | _ => Raise (ComputeError "needs at least two predictions")
  end.

(** A [GlobalMetric] built on [corpus_compute], without confidence
    intervals. *)
Definition CorpusF1 : metric :=
  {| kind := GlobalMetric;
     main_score := "f1";
     prediction_type_ok := fun _ => true;
     single_reference_per_prediction := false;
     n_resamples := None;
     ci_scores := None;
     grouping := None;
     subgroup_filtering := None;
     control_comparison := None;
     score_names := None;
     to_score_names := None;
     prefix := "";
     aggregating := None;
     compute_instance := fun _ _ _ => Raise (ComputeError "abstract");
     process_single_instances := true;
     compute := corpus_compute;
     reduction_map := [];
     implemented_reductions := ["mean"];
     compute_bulk := fun _ _ _ => Raise (ComputeError "abstract") |}.

(** What the stream loop of [GlobalMetric.process] makes of an instance
    while [global_score] is [G]. *)
Definition GlobalMetric_linked (self : metric) (G : loc) (i : instance) : instance :=
  let sec :=
    match score i with
    | Some sec => sec
    | None => {| sglobal := Some G; sinstance := [] |}
    end in
  set_score i
    {| sglobal := sglobal sec;
       sinstance :=
         dict_update (sinstance sec)
           (global_instance_score self (references i) (prediction i)
              (match task_data i with Some d => d | None => [] end)) |}.

(** The instances of a stream carry no score yet. *)
Definition unscored_stream (stream : list instance) : Prop :=
  forall i, In i stream -> score i = None.

(** Every instance of a stream refers to the global dictionary [G]. *)
Definition shares_global (G : loc) (stream : list instance) : Prop :=
  forall i, In i stream -> global_of i = Some G.

(** Every instance of a stream is either without a score or refers to the
    global dictionary [G]. *)
Definition links_to (G : loc) (stream : list instance) : Prop :=
  forall i, In i stream -> score i = None \/ global_of i = Some G.

(** A heap holding one global dictionary, written by an earlier metric. *)
Definition earlier_heap : heap :=
  {| next_loc := 1%nat;
     store := fun l =>
                if Nat.eqb l 0
                then [("accuracy", VFloat (Num 1)); ("score", VFloat (Num 1));
                      ("score_name", VStr "accuracy")]
                else [] |}.

(** An instance scored by an earlier metric: its [global] entry refers to
    the dictionary at location [g]. *)
Definition earlier_scored (g : loc) (pred ref : string) : instance :=
  {| references := [ref];
     prediction := pred;
     task_data := None;
     score := Some {| sglobal := Some g;
                      sinstance := [("accuracy", VFloat (Num 1));
                                    ("score", VFloat (Num 1));
                                    ("score_name", VStr "accuracy")] |} |}.

(** A heap holding two global dictionaries with the same contents, as
    left by an earlier metric when each instance was copied together with
    its score. *)
Definition copied_heap : heap :=
  {| next_loc := 2%nat;
     store := fun l =>
                if Nat.ltb l 2
                then [("accuracy", VFloat (Num 1)); ("score", VFloat (Num 1));
                      ("score_name", VStr "accuracy")]
                else [] |}.

(** The keys an interval written for [n] can occupy. *)
Definition ci_key_of (self : metric) (pre n k : string) : Prop :=
  k = ((pre ++ n) ++ "_ci_low")%string
  \/ k = ((pre ++ n) ++ "_ci_high")%string
  \/ (n = main_score self /\ (k = "score_ci_low" \/ k = "score_ci_high")).

(** [Metric.set_global_score], the static method [RemoteMetric.process]
    uses: every instance is given the same global dictionary.  An instance
    without a score gets an empty score section first. *)
Definition set_global_score (instances : list instance) (global_score : loc)
  : list instance :=
  map (fun i =>
         let sec :=
           match score i with
           | Some sec => sec
           | None => {| sglobal := None; sinstance := [] |}
           end in
         set_score i {| sglobal := Some global_score; sinstance := sinstance sec |})
      instances.

(* ------------------------------------------------------------------ *)
(** ** Reference descriptions of the grouping engine *)

(** The distinct elements of a list, in the order of their first
    appearance (the key order of a Python dictionary filled in list
    order). *)
Fixpoint first_seen (l : list string) : list string :=
  match l with
  | [] => []
  | x :: l' => x :: filter (fun y => negb (String.eqb y x)) (first_seen l')
  end.

(** [dict_get] finds the value [name] at [path] in the instance. *)
Definition has_value (dict_get : instance -> string -> option string)
  (path name : string) (i : instance) : bool :=
  match dict_get i path with
  | Some v => String.eqb v name
  | None => false
  end.

(** [dict_get] finds at [path] a value that belongs to [types]. *)
Definition value_among (dict_get : instance -> string -> option string)
  (path : string) (types : list string) (i : instance) : bool :=
  match dict_get i path with
  | Some v => mem_string v types
  | None => false
  end.

(** The value [dict_get] finds at [path], the empty string when it raises. *)
Definition value_at (dict_get : instance -> string -> option string)
  (path : string) (i : instance) : string :=
  match dict_get i path with
  | Some v => v
  | None => ""
  end.

(** The partition of a stream by the value at [path]: one group per
    distinct value, in the order of first appearance, holding the instances
    with that value in stream order. *)
Definition partition_by (dict_get : instance -> string -> option string)
  (path : string) (instances : list instance) : list (string * list instance) :=
  map (fun name => (name, filter (has_value dict_get path name) instances))
      (first_seen (map (value_at dict_get path) instances)).

(** Three scored instances of the groups g1, g2, g1; the first and the
    last are originals, the second is a paraphrase. *)
Definition grouped_stream : list instance :=
  [scored "accuracy" (Num 1) [("group_id", VStr "g1"); ("variant_type", VStr "original")];
   scored "accuracy" (Num 0) [("group_id", VStr "g2"); ("variant_type", VStr "paraphrase")];
   scored "accuracy" (Num 1) [("group_id", VStr "g1"); ("variant_type", VStr "original")]].

(* ------------------------------------------------------------------ *)
(** ** [MinAccuracy.min_item_score] *)

(** [np.min] of a list of floats that is not empty: the smallest entry, NaN
    as soon as one entry is NaN. *)
Fixpoint np_min (l : list scoreval) : scoreval :=
  match l with
  | [] => NaN
  | [x] => x
  | x :: l' =>
      match x, np_min l' with
      | Num p, Num q => Num (if Qle_bool p q then p else q)
      | _, _ => NaN
      end
  end.

Definition min_item_score (instances : list instance) (score_name : string)
  : result scoreval :=
  raw_scores <- instance_scores instances score_name ;;
  non_nan_raw_scores <- drop_nan raw_scores ;;
  if Nat.eqb (List.length non_nan_raw_scores) 0 then Ok NaN
  else Ok (np_min non_nan_raw_scores).

(** Three instances fresh from the producer, in the groups g1, g2, g1; the
    first and the last are answered correctly. *)
Definition fresh_grouped_stream : list instance :=
  [{| references := ["A"]; prediction := "A";
      task_data := Some [("group_id", VStr "g1")]; score := None |};
   {| references := ["A"]; prediction := "B";
      task_data := Some [("group_id", VStr "g2")]; score := None |};
   {| references := ["C"]; prediction := "C";
      task_data := Some [("group_id", VStr "g1")]; score := None |}].

(* ------------------------------------------------------------------ *)
(** ** Retrieval metrics: [RetrievalMetric], [MRR], [MAP], [RetrievalAtK] *)

(** Dictionaries with integer keys. *)
Fixpoint zdict_lookup {V} (d : list (Z * V)) (k : Z) : option V :=
  match d with
  | [] => None
  | (k', v) :: d' => if Z.eqb k k' then Some v else zdict_lookup d' k
  end.

Fixpoint zdict_set {V} (d : list (Z * V)) (k : Z) (v : V) : list (Z * V) :=
  match d with
  | [] => [(k, v)]
  | (k', v') :: d' =>
      if Z.eqb k k' then (k', v) :: d' else (k', v') :: zdict_set d' k v
  end.

(** [str(k)] of an integer. *)
Definition str_of_int (k : Z) : string := NilZero.string_of_int (Z.to_int k).

Definition zdict_getitem {V} (d : list (Z * V)) (k : Z) : result V :=
  match zdict_lookup d k with
  | Some v => Ok v
  | None => Raise (KeyError (str_of_int k))
  end.

(** [enumerate(l, start)]. *)
Fixpoint enumerate {A} (start : Z) (l : list A) : list (Z * A) :=
  match l with
  | [] => []
  | x :: l' => (start, x) :: enumerate (start + 1)%Z l'
  end.

(** [sum] of integers and of floats. *)
Definition Zsum (l : list Z) : Z := fold_left Z.add l 0%Z.

(** The six arguments [RetrievalMetric.compute] hands to [_compute]. *)
Record retrieval_arrays := {
  relevance_at_k : list (Z * Z);
  relevance_sum_at_k : list (Z * Z);
  precision_at_k : list (Z * Q);
  recall_at_k : list (Z * Q);
  match_at_k : list (Z * Q);
  rank : Z
}.

(** The loop [for k, relevance in relevance_at_k.items(): if relevance == 1:
    rank = k; break], from [rank = 0]. *)
Fixpoint first_relevant (relevance : list (Z * Z)) : Z :=
  match relevance with
  | [] => 0%Z
  | (k, r) :: rest => if Z.eqb r 1 then k else first_relevant rest
  end.

(** [RetrievalMetric.compute]: the prediction is a list of document ids,
    [references[0]] is the list of gold document ids. *)
Definition RetrievalMetric_compute
  (_compute : retrieval_arrays -> result pydict)
  (references_ : list (list string)) (prediction_ : list string) : result pydict :=
  match references_ with
  | [] => Raise (IndexError "list index out of range")
  | references_0 :: _ =>
      let pred_ids := prediction_ in
      let ref_ids := first_seen references_0 in
      let relevance_at_k_ :=
        map (fun '(k, doc_id) =>
               ((k + 1)%Z, if mem_string doc_id ref_ids then 1%Z else 0%Z))
            (enumerate 0%Z pred_ids) in
      let relevance_sum_at_k_ :=
        fold_left
          (fun acc '(k, value) =>
             zdict_set acc k
               ((match zdict_lookup acc (k - 1)%Z with
                 | Some s => s
                 | None => 0
                 end) + value)%Z)
          relevance_at_k_ [] in
      let precision_at_k_ :=
        map (fun '(k, value) => (k, inject_Z value / inject_Z k))
            relevance_sum_at_k_ in
      let n_refs := Z.of_nat (List.length ref_ids) in
      let recall_at_k_ :=
        map (fun '(k, value) =>
               (k, if (0 <? n_refs)%Z then inject_Z value / inject_Z n_refs else 0))
            relevance_sum_at_k_ in
      let rank_ := first_relevant relevance_at_k_ in
      let match_at_k_ :=
        map (fun '(k, value) => (k, if (0 <? value)%Z then 1 else 0))
            relevance_sum_at_k_ in
      _compute {| relevance_at_k := relevance_at_k_;
                  relevance_sum_at_k := relevance_sum_at_k_;
                  precision_at_k := precision_at_k_;
                  recall_at_k := recall_at_k_;
                  match_at_k := match_at_k_;
                  rank := rank_ |}
  end.

(** [MRR._compute]. *)
Definition MRR__compute (a : retrieval_arrays) : result pydict :=
  Ok [("mrr", VFloat (Num (if (0 <? rank a)%Z then 1 / inject_Z (rank a) else 0)))].

(** [MAP._compute]. *)
Definition MAP__compute (a : retrieval_arrays) : result pydict :=
  let result_ := 0 in
  result_ <-
    (if (0 <? List.length (relevance_at_k a))%nat then
       let total := Zsum (map snd (relevance_at_k a)) in
       if (0 <? total)%Z then
         terms <- map_result
                    (fun '(k, _) =>
                       r <- zdict_getitem (relevance_at_k a) k ;;
                       p <- zdict_getitem (precision_at_k a) k ;;
                       Ok (inject_Z r * p))
                    (relevance_at_k a) ;;
         let dot := Qsum terms in
         Ok (dot / inject_Z total)
       else Ok result_
     else Ok result_) ;;
  Ok [("map", VFloat (Num result_))].

(** [max] of a sequence of integers. *)
Definition zmax (l : list Z) : result Z :=
  match l with
  | [] => Raise (ValueError "max() arg is an empty sequence")
  | x :: l' => Ok (fold_left Z.max l' x)
  end.

(** [RetrievalAtK.score_name]. *)
Definition score_name (measure : string) (k : Z) : string :=
  (measure ++ "_at_" ++ str_of_int k)%string.

(** [RetrievalAtK._compute]. *)
Definition RetrievalAtK__compute (k_list : list Z) (a : retrieval_arrays)
  : result pydict :=
  for_each [(precision_at_k a, "precision");
            (recall_at_k a, "recall");
            (match_at_k a, "match")]
    (fun result_ '(measure_array, measure_name) =>
       max_k <- zmax (map fst measure_array) ;;
       for_each k_list
         (fun result_ k =>
            v <- zdict_getitem measure_array (Z.min k max_k) ;;
            Ok (dict_set result_ (score_name measure_name k) (VFloat (Num v))))
         result_)
    [].

(** The number of the first [k] predictions that are gold documents, a
    prediction counted as often as it appears. *)
Definition hits_in_top (k : nat) (gold predictions : list string) : nat :=
  List.length (filter (fun doc_id => mem_string doc_id gold) (firstn k predictions)).

(** The 0/1 relevance of each predicted document, in prediction order. *)
Definition relevances (gold predictions : list string) : list Z :=
  map (fun doc_id => if mem_string doc_id gold then 1%Z else 0%Z) predictions.

(** The running sums of a list of integers, from [a]. *)
Fixpoint prefix_sums (a : Z) (l : list Z) : list Z :=
  match l with
  | [] => []
  | v :: l' => (a + v)%Z :: prefix_sums (a + v)%Z l'
  end.

(** [instance["score"]["instance"]], empty when the instance has no score
    yet. *)
Definition instance_scores_of (i : instance) : pydict :=
  match score i with
  | Some sec => sinstance sec
  | None => []
  end.

(** [instance["task_data"] if "task_data" in instance else {}]. *)
Definition task_data_of (i : instance) : pydict :=
  match task_data i with
  | Some d => d
  | None => []
  end.

(** A bulk metric whose [compute] scores the first instance only. *)
Definition first_only_bulk_metric : metric :=
  {| kind := BulkInstanceMetric;
     main_score := "accuracy";
     prediction_type_ok := fun _ => true;
     single_reference_per_prediction := false;
     n_resamples := None;
     ci_scores := None;
     grouping := None;
     subgroup_filtering := None;
     control_comparison := None;
     score_names := None;
     to_score_names := None;
     prefix := "";
     aggregating := None;
     compute_instance := fun _ _ _ => Raise (ComputeError "abstract");
     process_single_instances := true;
     compute := fun _ _ _ => Raise (ComputeError "abstract");
     reduction_map := [("mean", ["accuracy"])];
     implemented_reductions := ["mean"];
     compute_bulk := fun _ _ _ => Ok [[("accuracy", VFloat (Num 1))]] |}.

(* ------------------------------------------------------------------ *)
(** ** [type_utils.isoftype] *)

(** The Python objects and the types [parse_type_string] can build
    ([Optional[t]] is [Union[t, None]]); generic types are taken with their
    arguments. *)
#[warnings="-register-all"]
Inductive pyobj :=
| ONone
| OBool (b : bool)
| OInt (z : Z)
| OFloat (x : scoreval)
| OStr (s : string)
| OList (elements : list pyobj)
| OTuple (elements : list pyobj)
| ODict (items : list (pyobj * pyobj)).

#[warnings="-register-all"]
Inductive pytype :=
| TAny
| TNoneType
| TBool
| TInt
| TFloat
| TStr
| TList (element_type : pytype)
| TDict (key_type value_type : pytype)
| TTuple (type_args : list pytype)
| TUnion (type_args : list pytype).

(** [isinstance(object, type)] for a class; [bool] is a subclass of [int]. *)
Definition isinstance_class (object : pyobj) (type : pytype) : bool :=
  match type, object with
  | TNoneType, ONone => true
  | TBool, OBool _ => true
  | TInt, OInt _ => true
  | TInt, OBool _ => true
  | TFloat, OFloat _ => true
  | TStr, OStr _ => true
  | _, _ => false
  end.

(** [isoftype]; of the origins of the types above, [list], [dict], [tuple]
    and [Union], none reaches the final [return None]. *)
Fixpoint isoftype (object : pyobj) (type : pytype) {struct type} : bool :=
  match type with
  | TAny => true
  | TUnion type_args =>
      existsb (fun sub_type => isoftype object sub_type) type_args
  | TList element_type =>
      match object with
      | OList elements => forallb (fun element => isoftype element element_type) elements
      | _ => false
      end
  | TDict key_type value_type =>
      match object with
      | ODict items =>
          forallb (fun '(key, value) =>
                     isoftype key key_type && isoftype value value_type)
                  items
      | _ => false
      end
  | TTuple type_args =>
      match object with
      | OTuple elements =>
          (fix zip_all (elements : list pyobj) (type_args : list pytype)
             {struct type_args} : bool :=
             match type_args, elements with
             | type_arg :: type_args', element :: elements' =>
                 isoftype element type_arg && zip_all elements' type_args'
             | _, _ => true
             end) elements type_args
      | _ => false
      end
  | _ => isinstance_class object type
  end.

(** A reference list the metric accepts: a single reference when the metric
    asks for one, and every reference of the prediction type. *)
Definition valid_reference (self : metric) (reference : list string) : Prop :=
  (single_reference_per_prediction self = true -> List.length reference = 1%nat)
  /\ Forall (fun ref => prediction_type_ok self ref = true) reference.

(** Inputs the metric accepts: as many reference lists as predictions, every
    reference list and every prediction accepted. *)
Definition valid_references_and_predictions (self : metric)
  (refs : list (list string)) (predictions : list string) : Prop :=
  List.length refs = List.length predictions
  /\ Forall (valid_reference self) refs
  /\ Forall (fun p => prediction_type_ok self p = true) predictions.

(* ------------------------------------------------------------------ *)
(** ** [RemoteMetric] *)

(** [Metric.update_instance_scores]: the instances and the score
    dictionaries are paired by [zip]; an instance without a partner is left
    as it is. *)
Fixpoint update_instance_scores (instances : list instance)
  (instances_scores_ : list pydict) : list instance :=
  match instances, instances_scores_ with
  | i :: instances', new_scores :: instances_scores' =>
      let sec :=
        match score i with
        | Some sec => sec
        | None => {| sglobal := None; sinstance := [] |}
        end in
      update_instance_section i sec new_scores
      :: update_instance_scores instances' instances_scores'
  | _, _ => instances
  end.

(** One [InstanceInput] of a [MetricRequest]. *)
Record instance_input := {
  input_prediction : string;
  input_references : list string;
  input_additional_inputs : pydict
}.

(** The [MetricResponse] of the remote service. *)
Record metric_response := {
  instances_scores : list pydict;
  global_score : pydict
}.

(** [RemoteMetric.create_metric_request]. *)
Fixpoint create_metric_request (predictions : list string)
  (refs : list (list string)) (additional_inputs : list pydict)
  : list instance_input :=
  match predictions, refs, additional_inputs with
  | p :: predictions', r :: refs', a :: additional_inputs' =>
      {| input_prediction := p; input_references := r;
         input_additional_inputs := a |}
      :: create_metric_request predictions' refs' additional_inputs'
  | _, _, _ => []
  end.

(** [RemoteMetric.process].  [consume_stream] is called with its default
    [task_data_field_name], [additional_inputs], a key the instances here
    do not have: every instance contributes an empty dictionary.  The
    global score of the response is a dictionary object of its own. *)
Definition RemoteMetric_process
  (get_metric_response : list instance_input -> result metric_response)
  (h : heap) (stream : list instance) : result (heap * list instance) :=
  let predictions := map prediction stream in
  let refs := map references stream in
  let additional_inputs := map (fun _ : instance => @nil (string * value)) stream in
  let instances := stream in
  let metric_request := create_metric_request predictions refs additional_inputs in
  metric_response_ <- get_metric_response metric_request ;;
  let instances :=
    update_instance_scores instances (instances_scores metric_response_) in
  let '(h, global_score_) := heap_alloc h (global_score metric_response_) in
  Ok (h, set_global_score instances global_score_).

(* ------------------------------------------------------------------ *)
(** ** [JaccardIndex] *)

(** [a.intersection(b)] on sets kept as duplicate-free lists. *)
Definition intersection (a b : list string) : list string :=
  filter (fun x => mem_string x b) a.

(** [max] of a list of floats: the first of the largest entries. *)
Definition pymax (l : list Q) : result Q :=
  match l with
  | [] => Raise (ValueError "max() arg is an empty sequence")
  | x :: l' => Ok (fold_left (fun m y => if Qle_bool y m then m else y) l' x)
  end.

(** [JaccardIndex.compute]: the prediction and each reference are
    collections of items; [set(...)] is the list of the distinct items. *)
Definition JaccardIndex_compute (references_ : list (list string))
  (prediction_ : list string) : result pydict :=
  let prediction_ := first_seen prediction_ in
  let references_ := map first_seen references_ in
  scores <-
    map_result
      (fun reference =>
         let common := Z.of_nat (List.length (intersection reference prediction_)) in
         let denominator :=
           (Z.of_nat (List.length reference) + Z.of_nat (List.length prediction_)
            - common)%Z in
         if (denominator =? 0)%Z then Raise (ZeroDivisionError "division by zero")
         else Ok (inject_Z common / inject_Z denominator))
      references_ ;;
  best <- pymax scores ;;
  let result_ := [("jaccard_index", VFloat (Num best))] in
  let result_ := dict_set result_ "score" (VFloat (Num best)) in
  Ok (dict_set result_ "score_name" (VStr "jaccard_index")).

(* ------------------------------------------------------------------ *)
(** ** [StringContainment] *)

(** [needle in haystack] on strings. *)
Definition str_contains (needle haystack : string) : bool :=
  match String.index 0 needle haystack with
  | Some _ => true
  | None => false
  end.

(** [StringContainment.compute]. *)
Definition StringContainment_compute (refs : list string) (pred : string)
  (task_data_ : pydict) : result pydict :=
  let hit :=
    if existsb (fun reference => str_contains reference pred) refs
    then Num 1 else Num 0 in
  let result_ := [("string_containment", VFloat hit)] in
  let result_ := dict_set result_ "score" (VFloat hit) in
  Ok (dict_set result_ "score_name" (VStr "string_containment")).

(* ------------------------------------------------------------------ *)
(** ** [collections.Counter], [CustomF1] and [TokenOverlap] *)

(** A [Counter]: the elements in the order of their first appearance, with
    their counts; a missing element counts 0. *)
Definition counter := list (string * Z).

Definition counter_get (c : counter) (k : string) : Z :=
  match dict_lookup c k with
  | Some n => n
  | None => 0%Z
  end.

(** [Counter(l)]. *)
Definition Counter (l : list string) : counter :=
  fold_left (fun c x => dict_set c x (counter_get c x + 1)%Z) l [].

(** [CustomF1.calculate_groups_ratio]. *)
Definition calculate_groups_ratio (actual_group total_group : counter) : Z * Z :=
  (Zsum (map (fun '(k, _) =>
                Z.min (counter_get actual_group k) (counter_get total_group k))
             actual_group),
   Zsum (map snd actual_group)).

(** [CustomF1.precision], [CustomF1.recall] and [CustomF1.f1]. *)
Definition CustomF1_precision (zero_division : Q) (pn pd rn rd : Z) : result Q :=
  if ((pn =? 0) && (pd =? 0))%Z then Ok zero_division
  else if (pd =? 0)%Z then Raise (ZeroDivisionError "division by zero")
       else Ok (inject_Z pn / inject_Z pd).

Definition CustomF1_recall (zero_division : Q) (pn pd rn rd : Z) : result Q :=
  if ((rn =? 0) && (rd =? 0))%Z then Ok zero_division
  else if (rd =? 0)%Z then Raise (ZeroDivisionError "division by zero")
       else Ok (inject_Z rn / inject_Z rd).

Definition CustomF1_f1 (zero_division : Q) (pn pd rn rd : Z) : result Q :=
  precision_ <- CustomF1_precision zero_division pn pd rn rd ;;
  recall_ <- CustomF1_recall zero_division pn pd rn rd ;;
  if Qeq_bool (precision_ + recall_) 0 then Ok zero_division
  else Ok (2 * precision_ * recall_ / (precision_ + recall_)).

(** [Counter(a) & Counter(b)]: the smaller count of every element of the
    left counter, kept when it is positive. *)
Definition counter_and (a b : counter) : counter :=
  fold_left
    (fun result_ '(elem, count) =>
       let other_count := counter_get b elem in
       let newcount := if (count <? other_count)%Z then count else other_count in
       if (0 <? newcount)%Z then dict_set result_ elem newcount else result_)
    a [].

(** [TokenOverlap._compute_single_ref] on the token lists
    [normalize_answer(str(prediction)).split()] and
    [normalize_answer(str(reference)).split()]. *)
Definition _compute_single_ref (reference_tokens prediction_tokens : list string)
  : Q * Q * Q :=
  let common := counter_and (Counter prediction_tokens) (Counter reference_tokens) in
  let num_same := Zsum (map snd common) in
  if (num_same =? 0)%Z then (0, 0, 0)
  else
    let pr := 1 * inject_Z num_same
              / inject_Z (Z.of_nat (List.length prediction_tokens)) in
    let rc := 1 * inject_Z num_same
              / inject_Z (Z.of_nat (List.length reference_tokens)) in
    let f1 := (2 * pr * rc) / (pr + rc) in
    (pr, rc, f1).

(** The number of occurrences of [x] in [l]. *)
Definition occurrences (l : list string) (x : string) : Z :=
  Z.of_nat (count_occ string_dec l x).

(** The size of the common part of two lists counted with repetition: each
    distinct element of [a] counts as often as it appears in both. *)
Definition common_count (a b : list string) : Z :=
  Zsum (map (fun k => Z.min (occurrences a k) (occurrences b k)) (first_seen a)).

(* ------------------------------------------------------------------ *)
(** ** [HuggingfaceBulkMetric.compute]: from a dictionary of lists to a list
       of dictionaries *)

(** The conversion at the end of [HuggingfaceBulkMetric.compute], applied
    to the [scores] the underlying metric returned. *)
Definition dict_of_lists_to_list_of_dicts (hf_metric_fields : list string)
  (scores : list (string * list value)) : result (list pydict) :=
  first_field <- match hf_metric_fields with
                 | f :: _ => Ok f
                 | [] => Raise (IndexError "list index out of range")
                 end ;;
  first_values <- dict_getitem scores first_field ;;
  let results : list pydict := repeat [] (List.length first_values) in
  for_each hf_metric_fields
    (fun (results : list pydict) key =>
       values <- dict_getitem scores key ;;
       map_result
         (fun '(result_id, result_) =>
            match nth_error values result_id with
            | Some v => Ok (dict_set result_ key v)
            | None => Raise (IndexError "list index out of range")
            end)
         (combine (seq 0 (List.length results)) results))
    results.

(* ------------------------------------------------------------------ *)
(** ** [F1]: the encoding of class names *)

(** [self.str_to_id] and [self.id_to_str]. *)
Record str_ids := {
  str_to_id : list (string * Z);
  id_to_str : list (Z * string)
}.

(** [F1.get_str_id]. *)
Definition get_str_id (self : str_ids) (str : string) : result (str_ids * Z) :=
  let self :=
    if negb (dict_mem (str_to_id self) str) then
      let id := Z.of_nat (List.length (str_to_id self)) in
      {| str_to_id := dict_set (str_to_id self) str id;
         id_to_str := zdict_set (id_to_str self) id str |}
    else self in
  id <- dict_getitem (str_to_id self) str ;;
  Ok (self, id).

(** [[self.get_str_id(x) for x in strs]]. *)
Definition get_str_ids (self : str_ids) (strs : list string)
  : result (str_ids * list Z) :=
  for_each strs
    (fun '(self, ids) str =>
       ' (self, id) <- get_str_id self str ;;
       Ok (self, (ids ++ [id])%list))
    (self, []).

(** The head of [F1.compute]: the references, then the predictions, are
    turned into class ids. *)
Definition F1_format (references_ : list (list string)) (predictions : list string)
  : result (str_ids * list Z * list Z) :=
  let self := {| str_to_id := []; id_to_str := [] |} in
  ' (self, formatted_references) <-
    for_each references_
      (fun '(self, ids) reference =>
         match reference with
         | reference_0 :: _ =>
             ' (self, id) <- get_str_id self reference_0 ;;
             Ok (self, (ids ++ [id])%list)
         | [] => Raise (IndexError "list index out of range")
         end)
      (self, []) ;;
  ' (self, formatted_predictions) <- get_str_ids self predictions ;;
  Ok (self, formatted_references, formatted_predictions).

(** The class names in the order of their ids, as [get_str_id] leaves them
    after having seen the names [K] for the first time in this order. *)
Definition str_ids_of (K : list string) : str_ids :=
  {| str_to_id := combine K (map Z.of_nat (seq 0 (List.length K)));
     id_to_str := combine (map Z.of_nat (seq 0 (List.length K))) K |}.

(** The position of [x] in [l], the length of [l] when it is not there. *)
Definition position (l : list string) (x : string) : Z :=
  match index_of x l with
  | Some n => Z.of_nat n
  | None => Z.of_nat (List.length l)
  end.

(* ------------------------------------------------------------------ *)
(** ** [NDCG] *)

(** [query_to_predictions_and_references[query][0].append(pred)] and
    [...[1].append(reference)] on a [defaultdict(lambda: [[], []])]; the
    query is a string, or [None] when the task data have no [query]. *)
Fixpoint append_to_query
  (grouped : list (option string * (list (option Q) * list Q)))
  (query : option string) (pred : option Q) (reference : Q)
  : list (option string * (list (option Q) * list Q)) :=
  match grouped with
  | [] => [(query, ([pred], [reference]))]
  | (q, (preds, refs)) :: rest =>
      if match query, q with
         | Some a, Some b => String.eqb a b
         | None, None => true
         | _, _ => false
         end
      then (q, ((preds ++ [pred])%list, (refs ++ [reference])%list)) :: rest
      else (q, (preds, refs)) :: append_to_query rest query pred reference
  end.

(** [zip(references, predictions, task_data)]. *)
Fixpoint zip3 {A B C} (l1 : list A) (l2 : list B) (l3 : list C)
  : list (A * B * C) :=
  match l1, l2, l3 with
  | a :: l1', b :: l2', c :: l3' => (a, b, c) :: zip3 l1' l2' l3'
  | _, _, _ => []
  end.

(** [min] of a list of floats that is not empty. *)
Fixpoint Qmin_list (x : Q) (l : list Q) : Q :=
  match l with
  | [] => x
  | y :: l' => Qmin_list (if Qlt_le_dec y x then y else x) l'
  end.

(** [[pred for pred in q_predictions if pred is not None]]. *)
Fixpoint numeric_predictions (q_predictions : list (option Q)) : list Q :=
  match q_predictions with
  | [] => []
  | Some p :: l => p :: numeric_predictions l
  | None :: l => numeric_predictions l
  end.

(** The predictions handed to the evaluation when some of them are [None]:
    [[1 + (pred - min_value) if pred is not None else 0 for pred in
    q_predictions]]. *)
Definition none_ranked_last (min_value : Q) (q_predictions : list (option Q))
  : list Q :=
  map (fun pred => match pred with
                   | Some p => 1 + (p - min_value)
                   | None => 0
                   end) q_predictions.

(** [inputs_dict.get("query")]. *)
Definition query_of (inputs_dict : pydict) : option string :=
  match dict_lookup inputs_dict "query" with
  | Some (VStr q) => Some q
  | _ => None
  end.

(** [NDCG.compute]; [eval] is [sklearn.metrics.ndcg_score] on one query. *)
Definition NDCG_compute (eval : list Q -> list Q -> result scoreval)
  (references_ : list (list Q)) (predictions : list (option Q))
  (task_data_ : list pydict) : result pydict :=
  references_ <- map_result
                   (fun reference =>
                      match reference with
                      | r :: _ => Ok r
                      | [] => Raise (IndexError "list index out of range")
                      end) references_ ;;
  let query_to_predictions_and_references :=
    fold_left
      (fun grouped '(reference, pred, inputs_dict) =>
         let query := query_of inputs_dict in
         append_to_query grouped query pred reference)
      (zip3 references_ predictions task_data_) [] in
  scores <-
    for_each query_to_predictions_and_references
      (fun scores '(_, (q_predictions, q_references)) =>
         if Nat.eqb (List.length q_references) 1 then Ok scores
         else if existsb (fun pred => match pred with None => true | Some _ => false end)
                         q_predictions
         then
           match numeric_predictions q_predictions with
           | [] | [_] => Ok (scores ++ [Num 0])%list
           | p :: rest =>
               let min_value := Qmin_list p rest in
               let q_predictions := none_ranked_last min_value q_predictions in
               s <- eval q_references q_predictions ;;
               Ok (scores ++ [s])%list
           end
         else
           s <- eval q_references (numeric_predictions q_predictions) ;;
           Ok (scores ++ [s])%list)
      [] ;;
  if (0 <? List.length scores)%nat then
    m <- statistics_mean (map VFloat scores) ;;
    Ok [("nDCG", VFloat m)]
  else Ok [("nDCG", VFloat NaN)].

(* ------------------------------------------------------------------ *)
(** ** [SentenceBert]: references flattened and regrouped *)

(** [l[a:b]] for [0 <= a <= b]. *)
Definition slice {A} (l : list A) (a b : nat) : list A :=
  firstn (b - a) (skipn a l).

(** The loop that fills [ref_group_boundaries]. *)
Definition ref_group_boundaries {A} (references_ : list (list A))
  : list (nat * nat) :=
  snd (fold_left
         (fun '(count, boundaries) ref_group =>
            ((count + List.length ref_group)%nat,
             (boundaries ++ [(count, (count + List.length ref_group)%nat)])%list))
         references_ (0%nat, [])).

(** [SentenceBert.compute]; [encode] is [self.model.encode] and
    [cos_sim_max] is [self.util.cos_sim(pred_emb, refs_group_emb).max().item()]. *)
Definition SentenceBert_compute {E : Type}
  (encode : list string -> list E) (cos_sim_max : E -> list E -> result Q)
  (references_ : list (list string)) (predictions : list string)
  : result (list pydict) :=
  let boundaries := ref_group_boundaries references_ in
  let preds_emb := encode predictions in
  let refs_emb := encode (List.concat references_) in
  scores <- map_result
              (fun '(pred_emb, ref_group_bounds) =>
                 let refs_group_emb :=
                   slice refs_emb (fst ref_group_bounds) (snd ref_group_bounds) in
                 cos_sim_max pred_emb refs_group_emb)
              (combine preds_emb boundaries) ;;
  Ok (map (fun score_ => [("score", VFloat (Num score_))]) scores).

(* ------------------------------------------------------------------ *)
(** ** [Perplexity]: scores flattened and regrouped *)

(** [Perplexity.compute]; [apply_source] and [apply_target] are
    [Template.apply] with the source and the target template, [compute_lm]
    is [self.lm.compute_lm].  An instance score is the pair of its
    [reference_scores] and of its main score. *)
Definition Perplexity_compute
  (apply_source apply_target : string -> string -> string)
  (compute_lm : list string -> list string -> list Q)
  (references_ : list (list string)) (predictions : list string)
  : result (list (list Q * Q)) :=
  let '(sources, targets) :=
    fold_left
      (fun '(sources, targets) '(prediction_, instance_references) =>
         fold_left
           (fun '(sources, targets) instance_reference =>
              ((sources ++ [apply_source prediction_ instance_reference])%list,
               (targets ++ [apply_target prediction_ instance_reference])%list))
           instance_references (sources, targets))
      (combine predictions references_) ([], []) in
  let scores := compute_lm sources targets in
  ' (_, all_instances_scores) <-
    for_each references_
      (fun '(index, all_instances_scores) instance_references =>
         ' (index, instance_scores_list) <-
           for_each instance_references
             (fun '(index, instance_scores_list) _ =>
                match nth_error scores index with
                | Some s => Ok (S index, (instance_scores_list ++ [s])%list)
                | None => Raise (IndexError "list index out of range")
                end)
             (index, []) ;;
         best <- pymax instance_scores_list ;;
         Ok (index, (all_instances_scores ++ [(instance_scores_list, best)])%list))
      (0%nat, []) ;;
  Ok all_instances_scores.

(* ------------------------------------------------------------------ *)
(** ** [BinaryMaxAccuracy] *)

(** A triple of [fp]: a float prediction, its position, and the change of
    the number of correct predictions when the threshold moves past it. *)
Definition fp_entry := (Q * nat * Z)%type.

Definition fp_pred (t : fp_entry) : Q := fst (fst t).
Definition fp_delta (t : fp_entry) : Z := snd t.

(** [a <= b] on tuples. *)
Definition fp_leb (a b : fp_entry) : bool :=
  let '(pa, ia, da) := a in
  let '(pb, ib, db) := b in
  match Qcompare pa pb with
  | Lt => true
  | Gt => false
  | Eq => match Nat.compare ia ib with
          | Lt => true
          | Gt => false
          | Eq => Z.leb da db
          end
  end.

Fixpoint fp_insert (t : fp_entry) (l : list fp_entry) : list fp_entry :=
  match l with
  | [] => [t]
  | x :: l' => if fp_leb t x then t :: l else x :: fp_insert t l'
  end.

(** [fp.sort()]. *)
Definition fp_sort (l : list fp_entry) : list fp_entry :=
  fold_right fp_insert [] l.

(** The inner [while]: [rest] is [fp[i:]] and [prev] is [fp[i - 1][0]]. *)
Fixpoint sweep_block (rest : list fp_entry) (prev : Q) (delta : Z)
  : list fp_entry * Z :=
  match rest with
  | t :: rest' =>
      if Qle_bool (fp_pred t) prev
      then sweep_block rest' (fp_pred t) (delta + fp_delta t)%Z
      else (rest, delta)
  | [] => ([], delta)
  end.

(** The outer [while], with [rest] for [fp[i:]]; every turn takes at least
    one triple, so [fuel] turns suffice when [fuel] is the length of
    [rest]. *)
Fixpoint sweep (fuel : nat) (n : Z) (rightmost_thr : Q) (rest : list fp_entry)
  (current_acc best_acc : Z) (best_thr : Q) : Z * Q :=
  match fuel with
  | O => (best_acc, best_thr)
  | S fuel' =>
      match rest with
      | [] => (best_acc, best_thr)
      | t :: rest' =>
          if (best_acc <? n)%Z then
            let delta := fp_delta t in
            let '(rest'', delta) := sweep_block rest' (fp_pred t) delta in
            let current_acc := (current_acc + delta)%Z in
            let '(best_acc, best_thr) :=
              if (best_acc <? current_acc)%Z
              then (current_acc,
                    match rest'' with
                    | next :: _ => fp_pred next
                    | [] => rightmost_thr
                    end)
              else (best_acc, best_thr) in
            sweep fuel' n rightmost_thr rest'' current_acc best_acc best_thr
          else (best_acc, best_thr)
      end
  end.

(** [BinaryMaxAccuracy.compute]; the references hold the integers
    [int(r[0])]. *)
Definition BinaryMaxAccuracy_compute (references_ : list (list Z))
  (predictions : list Q) : result pydict :=
  references_ <- map_result
                   (fun r => match r with
                             | r_0 :: _ => Ok r_0
                             | [] => Raise (IndexError "list index out of range")
                             end) references_ ;;
  fp <- map_result
          (fun '(i, p) =>
             match nth_error references_ i with
             | Some r => Ok (p, i, if (r =? 1)%Z then (-1)%Z else 1%Z)
             | None => Raise (IndexError "list index out of range")
             end)
          (combine (seq 0 (List.length predictions)) predictions) ;;
  let fp := fp_sort fp in
  last_ <- match rev fp with
           | t :: _ => Ok t
           | [] => Raise (IndexError "list index out of range")
           end ;;
  let rightmost_thr :=
    if Qlt_le_dec (fp_pred last_) 1 then 1 else fp_pred last_ + (1 # 100) in
  first_ <- match fp with
            | t :: _ => Ok t
            | [] => Raise (IndexError "list index out of range")
            end ;;
  let current_thr := fp_pred first_ in
  let current_acc :=
    Zsum (map (fun r => if (r =? 1)%Z then 1%Z else 0%Z) references_) in
  let best_acc := current_acc in
  let best_thr := current_thr in
  let n := Z.of_nat (List.length predictions) in
  let '(best_acc, best_thr) :=
    sweep (List.length fp) n rightmost_thr fp current_acc best_acc best_thr in
  Ok [("max_accuracy_binary", VFloat (Num (inject_Z best_acc / inject_Z n)));
      ("best_thr_max_acc", VFloat (Num best_thr))].

(** The number of predictions that the test [prediction >= thr] sends to
    the reference they are paired with. *)
Definition accuracy_at (thr : Q) (predictions : list Q) (refs : list Z) : Z :=
  Zsum (map (fun '(p, r) =>
               if Bool.eqb (Qle_bool thr p) (r =? 1)%Z then 1%Z else 0%Z)
            (combine predictions refs)).

(** What one triple adds to the accuracy at threshold [thr]. *)
Definition fp_score (thr : Q) (t : fp_entry) : Z :=
  if Qle_bool thr (fp_pred t)
  then (if (fp_delta t =? -1)%Z then 1%Z else 0%Z)
  else (if (fp_delta t =? 1)%Z then 1%Z else 0%Z).

(** The accuracy at threshold [thr], counted on a list of triples. *)
Definition acc_of (thr : Q) (l : list fp_entry) : Z := Zsum (map (fp_score thr) l).

(** The number of triples paired with the reference 1. *)
Definition positives (l : list fp_entry) : Z :=
  Zsum (map (fun t => if (fp_delta t =? -1)%Z then 1%Z else 0%Z) l).

(** Predictions in ascending order. *)
Fixpoint fp_sorted (l : list fp_entry) : Prop :=
  match l with
  | [] => True
  | a :: l' => Forall (fun b => fp_pred a <= fp_pred b) l' /\ fp_sorted l'
  end.

(** The triples of [fp] before sorting, for predictions numbered from
    [start]. *)
Definition fp_list (start : nat) (predictions : list Q) (refs : list Z)
  : list fp_entry :=
  map (fun '(i, (p, r)) => (p, i, if (r =? 1)%Z then (-1)%Z else 1%Z))
      (combine (seq start (List.length predictions)) (combine predictions refs)).

(** [CorpusF1] asked to compare the subgroup [original] with the subgroup
    [paraphrase]. *)
Definition CorpusF1_control_comparison : metric :=
  {| kind := GlobalMetric;
     main_score := "f1";
     prediction_type_ok := fun _ => true;
     single_reference_per_prediction := false;
     n_resamples := None;
     ci_scores := None;
     grouping := None;
     subgroup_filtering := None;
     control_comparison :=
       Some {| cc_subgroup_column := "task_data/variant_type";
               control_subgroup_types := ["original"];
               comparison_subgroup_types := ["paraphrase"];
               control_comparison_score_calculator := performance_drop_rate |};
     score_names := None;
     to_score_names := None;
     prefix := "";
     aggregating := None;
     compute_instance := fun _ _ _ => Raise (ComputeError "abstract");
     process_single_instances := true;
     compute := corpus_compute;
     reduction_map := [];
     implemented_reductions := ["mean"];
     compute_bulk := fun _ _ _ => Raise (ComputeError "abstract") |}.

(* ------------------------------------------------------------------ *)
(** ** [GlobalMetric.process] after its stream loop *)

(** Every instance of a stream that arrives with a [score] has a [global]
    entry in it (otherwise [instance["score"]["global"]] raises). *)
Definition linkable (stream : list instance) : Prop :=
  forall i, In i stream -> score i = None \/ exists g, global_of i = Some g.

(** The statements of [GlobalMetric.process] that follow the stream loop,
    on the lists the loop has collected: validation, the global score of
    the whole stream, and its confidence interval. *)
Definition GlobalMetric_score_stream
  (dict_get : instance -> string -> option string)
  (bootstrap : forall P : Type, list P -> (list P -> result scoreval) -> Z ->
                                result (scoreval * scoreval))
  (self : metric) (h : heap) (global_score : loc)
  (refs : list (list string)) (predictions : list string)
  (task_data_ : list pydict) (instances : list instance)
  : result (heap * list instance) :=
  _ <- _validate_references_and_prediction self refs predictions ;;
  result_ <- average_groups_global_scores dict_get self instances None ;;
  h <- update_global h global_score result_ ;;
  score_name <-
    match dict_lookup (store h global_score) "score_name" with
    | Some (VStr n) => Ok n
    | Some _ => Raise (TypeError "score_name is not a string")
    | None => Raise (KeyError "score_name")
    end ;;
  groups_global_scores <- score_groups_globally dict_get self instances None ;;
  from_groups <-
    match ci_scores self, grouping self with
    | Some cis, Some g =>
        if ci_samples_from_groups_scores g
        then groups_scores_are_floats cis groups_global_scores
        else Ok false
    | _, _ => Ok false
    end ;;
  confidence_interval <-
    (if from_groups then
       let to_sample_from :=
         flat_map (fun '(_, gs) =>
                     match gs with
                     | GDict d => [group_as_instance d]
                     | GFloat _ => []
                     end) groups_global_scores in
       score_based_confidence_interval bootstrap self to_sample_from
         (list_set (match ci_scores self with Some cis => cis | None => [] end))
         (Some average_item_scores) "fixed_group_"
     else
       compute_global_confidence_intervals dict_get bootstrap self refs predictions
         task_data_ score_name) ;;
  let h := heap_update h global_score confidence_interval in
  Ok (h, instances).

(** [CorpusF1] with resampling switched on. *)
Definition CorpusF1_with_ci : metric := set_n_resamples CorpusF1 (Some 100%Z).

(** A bulk metric whose [compute] scores the first instance 1 and gives the
    second NaN; the field is reduced by the mean. *)
Definition nan_bulk_metric : metric :=
  {| kind := BulkInstanceMetric;
     main_score := "f";
     prediction_type_ok := fun _ => true;
     single_reference_per_prediction := false;
     n_resamples := None;
     ci_scores := None;
     grouping := None;
     subgroup_filtering := None;
     control_comparison := None;
     score_names := None;
     to_score_names := None;
     prefix := "";
     aggregating := None;
     compute_instance := fun _ _ _ => Raise (ComputeError "abstract");
     process_single_instances := true;
     compute := fun _ _ _ => Raise (ComputeError "abstract");
     reduction_map := [("mean", ["f"])];
     implemented_reductions := ["mean"];
     compute_bulk := fun _ _ _ => Ok [[("f", VFloat (Num 1))]; [("f", VFloat NaN)]] |}.

(* ================================================================== *)
(** * Properties *)

(* ------------------------------------------------------------------ *)
(** ** The error monad and dictionaries *)

Lemma bind_ok {A B} (c : result A) (k : A -> result B) (b : B) :
  bind c k = Ok b -> exists a, c = Ok a /\ k a = Ok b.
Proof.
  destruct c as [a | e]; simpl; intros H.
  - exists a. split; [reflexivity | exact H].
  - discriminate H.
Qed.

Lemma map_result_map {A B} (f : A -> result B) (g : A -> B) (xs : list A) :
  (forall x, In x xs -> f x = Ok (g x)) ->
  map_result f xs = Ok (map g xs).
Proof.
  induction xs as [| x xs IH]; simpl; intros H.
  - reflexivity.
  - rewrite (H x (or_introl eq_refl)). simpl.
    rewrite IH by (intros y Hy; apply H; right; exact Hy).
    reflexivity.
Qed.

Lemma map_result_as_float (xs : list scoreval) :
  map_result as_float (map VFloat xs) = Ok xs.
Proof.
  induction xs as [| x xs IH]; simpl.
  - reflexivity.
  - rewrite IH. reflexivity.
Qed.

Lemma dict_lookup_set_same {V} (d : list (string * V)) (k : string) (v : V) :
  dict_lookup (dict_set d k v) k = Some v.
Proof.
  induction d as [| [k' v'] d IH]; simpl.
  - rewrite String.eqb_refl. reflexivity.
  - destruct (String.eqb k k') eqn:E; simpl; rewrite E.
    + reflexivity.
    + exact IH.
Qed.

Lemma dict_lookup_set_other {V} (d : list (string * V)) (k k' : string) (v : V) :
  k' <> k ->
  dict_lookup (dict_set d k v) k' = dict_lookup d k'.
Proof.
  intros Hne.
  induction d as [| [k0 v0] d IH]; simpl.
  - destruct (String.eqb k' k) eqn:E; [| reflexivity].
    apply String.eqb_eq in E. contradiction.
  - destruct (String.eqb k k0) eqn:E; simpl.
    + apply String.eqb_eq in E. subst k0.
      destruct (String.eqb k' k) eqn:E'; [| reflexivity].
      apply String.eqb_eq in E'. contradiction.
    + destruct (String.eqb k' k0); [reflexivity | exact IH].
Qed.

(** After [d.update(new)], a key of [new] reads what [new] holds for it. *)
Lemma dict_lookup_update_new {V} (new d : list (string * V)) (k : string) (v : V) :
  dict_lookup new k = Some v ->
  NoDup (map fst new) ->
  dict_lookup (dict_update d new) k = Some v.
Proof.
  unfold dict_update. revert d.
  induction new as [| [k0 v0] new IH]; simpl; intros d Hk Hnd.
  - discriminate Hk.
  - inversion Hnd as [| ? ? Hnotin Hnd']; subst.
    destruct (String.eqb k k0) eqn:E.
    + apply String.eqb_eq in E. subst k0. injection Hk as ->.
      clear IH. revert d.
      assert (Hkeep : forall (l : list (string * V)) d0,
                 ~ In k (map fst l) ->
                 dict_lookup d0 k = Some v ->
                 dict_lookup (fold_left (fun acc kv => dict_set acc (fst kv) (snd kv)) l d0) k
                 = Some v).
      { induction l as [| [k1 v1] l IHl]; simpl; intros d0 Hn Hd0.
        - exact Hd0.
        - apply IHl.
          + intros Hin. apply Hn. right. exact Hin.
          + rewrite dict_lookup_set_other; [exact Hd0 |].
            intros ->. apply Hn. left. reflexivity. }
      intros d. apply Hkeep; [exact Hnotin | apply dict_lookup_set_same].
    + apply IH; assumption.
Qed.

(* ------------------------------------------------------------------ *)
(** ** Sums and means *)

Lemma Qsum_replace_nan (l : list scoreval) :
  Qsum (replace_nan l) == Qsum (non_nan l).
Proof.
  induction l as [| [| q] l IH]; simpl.
  - reflexivity.
  - rewrite IH. ring.
  - rewrite IH. reflexivity.
Qed.

Lemma count_not_nan_non_nan (l : list scoreval) :
  count_not_nan l = List.length (non_nan l).
Proof.
  unfold count_not_nan.
  induction l as [| [| q] l IH]; simpl; [reflexivity | exact IH |].
  rewrite IH. reflexivity.
Qed.

(** [np.nanmean] is the arithmetic mean of the entries that are not NaN. *)
Lemma np_nanmean_non_nan (l : list scoreval) :
  non_nan l <> [] ->
  exists q, np_nanmean l = Num q /\ q == arithmetic_mean (non_nan l).
Proof.
  intros Hne. unfold np_nanmean, arithmetic_mean.
  rewrite count_not_nan_non_nan.
  destruct (non_nan l) as [| x xs] eqn:E; [contradiction |].
  simpl List.length. simpl Nat.eqb.
  eexists. split; [reflexivity |].
  rewrite Qsum_replace_nan, E. reflexivity.
Qed.

Lemma np_nanmean_all_nan (l : list scoreval) :
  non_nan l = [] -> np_nanmean l = NaN.
Proof.
  intros E. unfold np_nanmean. rewrite count_not_nan_non_nan, E. reflexivity.
Qed.

Lemma non_nan_app (a b : list scoreval) :
  non_nan (a ++ b) = (non_nan a ++ non_nan b)%list.
Proof.
  induction a as [| [| q] a IH]; simpl; [reflexivity | exact IH |].
  rewrite IH. reflexivity.
Qed.

Lemma non_nan_map_Num (l : list Q) : non_nan (map Num l) = l.
Proof.
  induction l as [| q l IH]; simpl; [reflexivity |].
  rewrite IH. reflexivity.
Qed.

(** What [average_item_scores] computes on float scores. *)
Lemma average_item_scores_np_nanmean (instances : list instance)
  (score_name : string) (xs : list scoreval) :
  instance_scores instances score_name = Ok (map VFloat xs) ->
  average_item_scores instances score_name = Ok (np_nanmean xs).
Proof.
  intros Hxs. unfold average_item_scores, nan_mean. rewrite Hxs. simpl.
  rewrite map_result_as_float. reflexivity.
Qed.

Lemma average_item_scores_non_nan_mean (instances : list instance)
  (score_name : string) (xs : list scoreval) :
  instance_scores instances score_name = Ok (map VFloat xs) ->
  non_nan xs <> [] ->
  exists q, average_item_scores instances score_name = Ok (Num q)
            /\ q == arithmetic_mean (non_nan xs).
Proof.
  intros Hxs Hne.
  rewrite (average_item_scores_np_nanmean _ _ _ Hxs).
  destruct (np_nanmean_non_nan xs Hne) as [q [Hq Hm]].
  exists q. rewrite Hq. split; [reflexivity | exact Hm].
Qed.

(** C3.  For every list of instances that carry a float under the
    requested score name, [average_item_scores] (the default aggregating
    function of [InstanceMetric], built on [nan_mean]) returns the
    arithmetic mean of the scores that are not NaN, and NaN when there is
    none.  In particular, when exactly one score is NaN and the others are
    numbers, the result is the mean of the others: the NaN is left out of
    both the sum and the count, it is not counted as a 0. *)
Theorem average_item_scores_mean_of_non_nan :
  forall (instances : list instance) (score_name : string) (xs : list scoreval),
    instance_scores instances score_name = Ok (map VFloat xs) ->
    (non_nan xs <> [] ->
     exists q, average_item_scores instances score_name = Ok (Num q)
               /\ q == arithmetic_mean (non_nan xs))
    /\ (non_nan xs = [] -> average_item_scores instances score_name = Ok NaN)
    /\ (forall before after : list Q,
           xs = (map Num before ++ NaN :: map Num after)%list ->
           (before ++ after)%list <> [] ->
           exists q, average_item_scores instances score_name = Ok (Num q)
                     /\ q == Qsum (before ++ after)
                            / Qcount (List.length (before ++ after))).
Proof.
  intros instances score_name xs Hxs.
  assert (Havg : average_item_scores instances score_name = Ok (np_nanmean xs))
    by (apply average_item_scores_np_nanmean; exact Hxs).
  rewrite Havg.
  split; [| split].
  - intros Hne. destruct (np_nanmean_non_nan xs Hne) as [q [Hq Hm]].
    exists q. rewrite Hq. split; [reflexivity | exact Hm].
  - intros Hall. rewrite (np_nanmean_all_nan xs Hall). reflexivity.
  - intros before after -> Hne.
    assert (Hnn : non_nan (map Num before ++ NaN :: map Num after)
                  = (before ++ after)%list).
    { rewrite non_nan_app. simpl. rewrite !non_nan_map_Num. reflexivity. }
    assert (Hne' : non_nan (map Num before ++ NaN :: map Num after) <> []).
    { rewrite Hnn. exact Hne. }
    destruct (np_nanmean_non_nan _ Hne') as [q [Hq Hm]].
    exists q. rewrite Hq. split; [reflexivity |].
    rewrite Hm, Hnn. reflexivity.
Qed.

(** Three instances scoring 1, NaN and 1/2: the aggregate is 3/4, the mean
    of the two numbers, and not 1/2, the mean with the NaN counted as 0. *)
Lemma average_item_scores_mean_of_non_nan_witness :
  exists q,
    average_item_scores
      [scored "accuracy" (Num 1) []; scored "accuracy" NaN [];
       scored "accuracy" (Num (1 # 2)) []] "accuracy" = Ok (Num q)
    /\ q == 3 # 4 /\ ~ q == 1 # 2.
Proof.
  destruct (average_item_scores_mean_of_non_nan
              [scored "accuracy" (Num 1) []; scored "accuracy" NaN [];
               scored "accuracy" (Num (1 # 2)) []]
              "accuracy" [Num 1; NaN; Num (1 # 2)] eq_refl)
    as [_ [_ H]].
  destruct (H [1] [1 # 2] eq_refl) as [q [Hq Hm]].
  - discriminate.
  - exists q. split; [exact Hq |].
    split.
    + rewrite Hm. vm_compute. reflexivity.
    + rewrite Hm. vm_compute. discriminate.
Defined.

(* ------------------------------------------------------------------ *)
(** ** [statistics.mean]: NaN is not excluded *)

Lemma fold_score_add_nan (xs : list scoreval) :
  fold_left score_add xs NaN = NaN.
Proof.
  induction xs as [| x xs IH]; simpl; [reflexivity | exact IH].
Qed.

Lemma fold_score_add_in_nan (xs : list scoreval) (a : scoreval) :
  In NaN xs -> fold_left score_add xs a = NaN.
Proof.
  revert a. induction xs as [| x xs IH]; simpl; intros a Hin.
  - contradiction.
  - destruct Hin as [-> | Hin].
    + destruct a; simpl; apply fold_score_add_nan.
    + apply IH. exact Hin.
Qed.

Lemma fold_score_add_num (l : list Q) (a : Q) :
  exists q, fold_left score_add (map Num l) (Num a) = Num q /\ q == a + Qsum l.
Proof.
  revert a. induction l as [| x l IH]; simpl; intros a.
  - exists a. split; [reflexivity | ring].
  - destruct (IH (a + x)) as [q [Hq Hs]].
    exists q. split; [exact Hq |]. rewrite Hs. ring.
Qed.

Lemma statistics_mean_in_nan (xs : list scoreval) :
  In NaN xs -> statistics_mean (map VFloat xs) = Ok NaN.
Proof.
  intros Hin. unfold statistics_mean. rewrite map_result_as_float. simpl.
  destruct xs as [| x xs]; [contradiction |].
  rewrite (fold_score_add_in_nan _ _ Hin). reflexivity.
Qed.

Lemma statistics_mean_num (l : list Q) :
  l <> [] ->
  exists q, statistics_mean (map VFloat (map Num l)) = Ok (Num q)
            /\ q == arithmetic_mean l.
Proof.
  intros Hne. unfold statistics_mean. rewrite map_result_as_float. simpl.
  destruct l as [| x l]; [contradiction |].
  destruct (fold_score_add_num (x :: l) 0) as [q [Hq Hs]].
  change (map Num (x :: l)) with (Num x :: map Num l) in *.
  rewrite Hq. simpl score_div_count.
  eexists. split; [reflexivity |].
  unfold arithmetic_mean, Qcount. rewrite Hs, length_map.
  setoid_replace (0 + Qsum (x :: l)) with (Qsum (x :: l)) by ring.
  reflexivity.
Qed.

Lemma in_nan_dec (xs : list scoreval) : {In NaN xs} + {~ In NaN xs}.
Proof.
  induction xs as [| [| q] xs IH].
  - right. intros H. exact H.
  - left. left. reflexivity.
  - destruct IH as [Hin | Hnin].
    + left. right. exact Hin.
    + right. intros [H | H]; [discriminate H | contradiction].
Defined.

Lemma no_nan_map_Num (xs : list scoreval) :
  ~ In NaN xs -> xs = map Num (non_nan xs).
Proof.
  induction xs as [| [| q] xs IH]; simpl; intros Hnin.
  - reflexivity.
  - exfalso. apply Hnin. left. reflexivity.
  - f_equal. apply IH. intros Hin. apply Hnin. right. exact Hin.
Qed.

Lemma heap_update_store_same (h : heap) (g : loc) (new : pydict) :
  store (heap_update h g new) g = dict_update (store h g) new.
Proof.
  simpl. rewrite Nat.eqb_refl. reflexivity.
Qed.

(* ------------------------------------------------------------------ *)
(** ** [performance_drop_rate] *)

Lemma filter_not_nan (xs : list scoreval) :
  filter (fun s => negb (isnan s)) xs = map Num (non_nan xs).
Proof.
  induction xs as [| [| q] xs IH]; simpl; [reflexivity | exact IH |].
  rewrite IH. reflexivity.
Qed.

Lemma drop_nan_floats (xs : list scoreval) :
  drop_nan (map VFloat xs) = Ok (map Num (non_nan xs)).
Proof.
  unfold drop_nan. rewrite map_result_as_float. cbn [bind].
  rewrite filter_not_nan. reflexivity.
Qed.

Lemma length_zero_map_Num (l : list Q) :
  Nat.eqb (List.length (map Num l)) 0 = false <-> l <> [].
Proof.
  destruct l; simpl; split; intros H; try discriminate; try reflexivity.
  contradiction.
Qed.

(** [performance_drop_rate] on two lists of floats whose numbers are not
    all NaN: the means of the numbers decide the result. *)
Lemma performance_drop_rate_means (control comparison : list scoreval) :
  non_nan control <> [] ->
  non_nan comparison <> [] ->
  exists mc mp,
    mc == arithmetic_mean (non_nan control)
    /\ mp == arithmetic_mean (non_nan comparison)
    /\ performance_drop_rate (map VFloat control) (map VFloat comparison)
       = (if Qeq_bool mc 0
          then if Qeq_bool mp 0 then Ok (Num 0) else Ok NaN
          else Ok (Num (1 - mp / mc))).
Proof.
  intros Hc Hp.
  destruct (statistics_mean_num _ Hc) as [mc [Hmc Ec]].
  destruct (statistics_mean_num _ Hp) as [mp [Hmp Ep]].
  exists mc, mp. split; [exact Ec |]. split; [exact Ep |].
  unfold performance_drop_rate.
  rewrite !drop_nan_floats. cbn [bind existsb].
  rewrite (proj2 (length_zero_map_Num _) Hc), (proj2 (length_zero_map_Num _) Hp).
  cbn [orb]. rewrite Hmc, Hmp. cbn [bind score_is_zero one_minus_ratio].
  destruct (Qeq_bool mc 0); reflexivity.
Qed.

(** C6.  [performance_drop_rate] returns one half for the control scores
    [1, 1, 1, 1] and the comparison scores [0.5, 0.5, 0.5, 0.5]; when the
    mean of the control scores is 0 it returns 0 if the mean of the
    comparison scores is 0 as well, and NaN if that mean is not 0.  The
    means are those of the scores that are not NaN, as the function drops
    the NaN scores first. *)
Theorem performance_drop_rate_cases :
  (exists q,
      performance_drop_rate
        (map VFloat [Num 1; Num 1; Num 1; Num 1])
        (map VFloat [Num (1 # 2); Num (1 # 2); Num (1 # 2); Num (1 # 2)])
      = Ok (Num q) /\ q == 1 # 2)
  /\ (forall control comparison : list scoreval,
         non_nan control <> [] ->
         non_nan comparison <> [] ->
         arithmetic_mean (non_nan control) == 0 ->
         (arithmetic_mean (non_nan comparison) == 0 ->
          performance_drop_rate (map VFloat control) (map VFloat comparison)
          = Ok (Num 0))
         /\ (~ arithmetic_mean (non_nan comparison) == 0 ->
             performance_drop_rate (map VFloat control) (map VFloat comparison)
             = Ok NaN)).
Proof.
  split.
  - eexists. split; [vm_compute; reflexivity | vm_compute; reflexivity].
  - intros control comparison Hc Hp Hzero.
    destruct (performance_drop_rate_means control comparison Hc Hp)
      as [mc [mp [Ec [Ep Hrun]]]].
    rewrite Hrun.
    assert (Hmc : Qeq_bool mc 0 = true).
    { apply Qeq_bool_iff. rewrite Ec. exact Hzero. }
    rewrite Hmc. split; intros Hcmp.
    + assert (Hmp : Qeq_bool mp 0 = true).
      { apply Qeq_bool_iff. rewrite Ep. exact Hcmp. }
      rewrite Hmp. reflexivity.
    + destruct (Qeq_bool mp 0) eqn:Hmp; [| reflexivity].
      exfalso. apply Hcmp. rewrite <- Ep. apply Qeq_bool_iff. exact Hmp.
Qed.

(** Control scores [0, NaN, 0]: against the comparison scores [0, 0] the
    result is 0, against [1, 0] it is NaN. *)
Lemma performance_drop_rate_cases_witness :
  performance_drop_rate (map VFloat [Num 0; NaN; Num 0]) (map VFloat [Num 0; Num 0])
  = Ok (Num 0)
  /\ performance_drop_rate (map VFloat [Num 0; NaN; Num 0]) (map VFloat [Num 1; Num 0])
     = Ok NaN.
Proof.
  split.
  - apply (proj2 performance_drop_rate_cases [Num 0; NaN; Num 0] [Num 0; Num 0]).
    + discriminate.
    + discriminate.
    + vm_compute. reflexivity.
    + vm_compute. reflexivity.
  - apply (proj2 performance_drop_rate_cases [Num 0; NaN; Num 0] [Num 1; Num 0]).
    + discriminate.
    + discriminate.
    + vm_compute. reflexivity.
    + vm_compute. discriminate.
Defined.

(* ------------------------------------------------------------------ *)
(** ** When no confidence interval is computed *)



(* ------------------------------------------------------------------ *)
(** ** Scores without variance *)

Lemma string_length_append (a b : string) :
  String.length (a ++ b) = (String.length a + String.length b)%nat.
Proof.
  induction a as [| c a IH]; simpl; [reflexivity |].
  rewrite IH. reflexivity.
Qed.

Lemma string_append_cancel_l (a x y : string) :
  (a ++ x = a ++ y)%string -> x = y.
Proof.
  induction a as [| c a IH]; simpl; intros H.
  - exact H.
  - injection H as H. apply IH. exact H.
Qed.

Lemma string_append_cancel_r (s a b : string) :
  (a ++ s = b ++ s)%string -> a = b.
Proof.
  revert b. induction a as [| c a IH]; intros [| c' b] H.
  - reflexivity.
  - exfalso. apply (f_equal String.length) in H.
    simpl in H. rewrite string_length_append in H. lia.
  - exfalso. apply (f_equal String.length) in H.
    simpl in H. rewrite string_length_append in H. lia.
  - simpl in H. injection H as -> H. f_equal. apply IH. exact H.
Qed.

Lemma last_char_append (a b : string) :
  b <> EmptyString -> last_char (a ++ b) = last_char b.
Proof.
  intros Hb. induction a as [| c a IH]; simpl.
  - reflexivity.
  - destruct (a ++ b)%string eqn:E.
    + exfalso. destruct a; simpl in E; [contradiction | discriminate E].
    + exact IH.
Qed.

Lemma low_is_not_high (a b : string) :
  (a ++ "_ci_low" <> b ++ "_ci_high")%string.
Proof.
  intros H. apply (f_equal last_char) in H.
  rewrite !last_char_append in H by discriminate.
  discriminate H.
Qed.

Lemma unique_values_all_equal (l : list value) :
  l <> [] ->
  (forall x y, In x l -> In y l -> value_eqb x y = true) ->
  List.length (unique_values l) = 1%nat.
Proof.
  induction l as [| x l IH]; intros Hne Heq; [contradiction |].
  simpl. destruct l as [| y l'].
  - reflexivity.
  - assert (Hex : existsb (value_eqb x) (y :: l') = true).
    { apply existsb_exists. exists y. split; [left; reflexivity |].
      apply Heq; [left; reflexivity | right; left; reflexivity]. }
    rewrite Hex. apply IH; [discriminate |].
    intros a b Ha Hb. apply Heq; right; assumption.
Qed.

Lemma all_score_instance_scores (instances : list instance) (score_name : string)
  (v : Q) :
  all_score instances score_name v ->
  exists vs, instance_scores instances score_name = Ok vs
             /\ List.length vs = List.length instances
             /\ Forall (fun x => exists q, x = VFloat (Num q) /\ q == v) vs.
Proof.
  unfold all_score, instance_scores.
  induction 1 as [| i instances [q [Hq Hv]] _ [vs [Hvs [Hlen Hall]]]]; simpl.
  - exists []. repeat split. constructor.
  - rewrite Hq, Hvs. simpl. exists (VFloat (Num q) :: vs).
    split; [reflexivity |]. split; [simpl; rewrite Hlen; reflexivity |].
    constructor; [exists q; split; [reflexivity | exact Hv] | exact Hall].
Qed.

Lemma all_score_equal (instances : list instance) (score_name : string) (v : Q) :
  instances <> [] ->
  all_score instances score_name v ->
  _all_instance_scores_equal instances score_name = Ok true.
Proof.
  intros Hne Hall.
  destruct (all_score_instance_scores _ _ _ Hall) as [vs [Hvs [Hlen Hforall]]].
  unfold _all_instance_scores_equal. rewrite Hvs. cbn [bind].
  assert (Hkeep : filter is_not_np_nan vs = vs).
  { clear -Hforall. induction Hforall as [| x vs [q [-> _]] _ IH]; simpl.
    - reflexivity.
    - rewrite IH. reflexivity. }
  rewrite Hkeep, unique_values_all_equal; [reflexivity | |].
  - intros ->. destruct instances; [contradiction | discriminate Hlen].
  - rewrite Forall_forall in Hforall.
    intros x y Hx Hy.
    destruct (Hforall x Hx) as [p [-> Hp]].
    destruct (Hforall y Hy) as [q [-> Hq]].
    simpl. apply Qeq_bool_iff. rewrite Hp, Hq. reflexivity.
Qed.

Lemma for_each_skip {S} (body : S -> string -> result S) (name : string)
  (names : list string) :
  (forall s, body s name = Ok s) ->
  forall s, for_each names body s = for_each (remove string_dec name names) body s.
Proof.
  intros Hskip. induction names as [| n names IH]; intros s; simpl.
  - reflexivity.
  - destruct (string_dec name n) as [<- | Hne].
    + rewrite Hskip. cbn [bind]. apply IH.
    + simpl. destruct (body s n); cbn [bind]; [apply IH | reflexivity].
Qed.

(** A key that no iteration of the loop writes stays absent. *)
Lemma ci_loop_key_absent
  (bootstrap : forall P : Type, list P -> (list P -> result scoreval) -> Z ->
                                result (scoreval * scoreval))
  (self : metric) (instances : list instance)
  (aggregation_func : list instance -> string -> result scoreval)
  (pre key : string) (names : list string) :
  (forall n, In n names ->
             key <> ((pre ++ n) ++ "_ci_low")%string
             /\ key <> ((pre ++ n) ++ "_ci_high")%string) ->
  key <> "score_ci_low" ->
  key <> "score_ci_high" ->
  forall acc d,
    dict_lookup acc key = None ->
    for_each names
      (fun result_ score_name =>
         all_equal <- _all_instance_scores_equal instances score_name ;;
         if all_equal then Ok result_
         else
           ' (low, high) <- bootstrap instance instances
                              (fun resampled_instances =>
                                 aggregation_func resampled_instances score_name)
                              (match n_resamples self with
                               | Some n => n
                               | None => 0%Z
                               end) ;;
           if String.eqb score_name (main_score self)
           then Ok (dict_set
                      (dict_set
                         (dict_set
                            (dict_set result_ ((pre ++ score_name) ++ "_ci_low")%string
                                      (VFloat low))
                            ((pre ++ score_name) ++ "_ci_high")%string (VFloat high))
                         "score_ci_low" (VFloat low))
                      "score_ci_high" (VFloat high))
           else Ok (dict_set
                      (dict_set result_ ((pre ++ score_name) ++ "_ci_low")%string
                                (VFloat low))
                      ((pre ++ score_name) ++ "_ci_high")%string (VFloat high)))
      acc = Ok d ->
    dict_lookup d key = None.
Proof.
  intros Hnames Hlow Hhigh.
  induction names as [| n names IH]; simpl; intros acc d Hacc Hrun.
  - injection Hrun as <-. exact Hacc.
  - destruct (Hnames n (or_introl eq_refl)) as [Hn1 Hn2].
    specialize (IH (fun m Hm => Hnames m (or_intror Hm))).
    destruct (_all_instance_scores_equal instances n) as [[|] | e];
      cbn [bind] in Hrun; try discriminate Hrun.
    + apply (IH acc d Hacc Hrun).
    + destruct (bootstrap instance instances _ _) as [[low high] | e];
        cbn [bind] in Hrun; try discriminate Hrun.
      destruct (String.eqb n (main_score self)); cbn [bind] in Hrun.
      * eapply IH; [| exact Hrun].
        rewrite !dict_lookup_set_other by assumption. exact Hacc.
      * eapply IH; [| exact Hrun].
        rewrite !dict_lookup_set_other by assumption. exact Hacc.
Qed.

Lemma dict_mem_set {V} (d : list (string * V)) (k k' : string) (v : V) :
  dict_mem (dict_set d k v) k' = true -> k' = k \/ dict_mem d k' = true.
Proof.
  unfold dict_mem. destruct (string_dec k' k) as [-> | Hne].
  - intros _. left. reflexivity.
  - rewrite dict_lookup_set_other by exact Hne. intros H. right. exact H.
Qed.

(** Every key of the result was written for one of the names of the loop. *)
Lemma ci_loop_key_provenance
  (bootstrap : forall P : Type, list P -> (list P -> result scoreval) -> Z ->
                                result (scoreval * scoreval))
  (self : metric) (instances : list instance)
  (aggregation_func : list instance -> string -> result scoreval)
  (pre : string) (all_names names : list string) :
  (forall n, In n names -> In n all_names) ->
  forall acc d,
    (forall k, dict_mem acc k = true ->
               exists n, In n all_names /\ ci_key_of self pre n k) ->
    for_each names
      (fun result_ score_name =>
         all_equal <- _all_instance_scores_equal instances score_name ;;
         if all_equal then Ok result_
         else
           ' (low, high) <- bootstrap instance instances
                              (fun resampled_instances =>
                                 aggregation_func resampled_instances score_name)
                              (match n_resamples self with
                               | Some n => n
                               | None => 0%Z
                               end) ;;
           if String.eqb score_name (main_score self)
           then Ok (dict_set
                      (dict_set
                         (dict_set
                            (dict_set result_ ((pre ++ score_name) ++ "_ci_low")%string
                                      (VFloat low))
                            ((pre ++ score_name) ++ "_ci_high")%string (VFloat high))
                         "score_ci_low" (VFloat low))
                      "score_ci_high" (VFloat high))
           else Ok (dict_set
                      (dict_set result_ ((pre ++ score_name) ++ "_ci_low")%string
                                (VFloat low))
                      ((pre ++ score_name) ++ "_ci_high")%string (VFloat high)))
      acc = Ok d ->
    forall k, dict_mem d k = true ->
              exists n, In n all_names /\ ci_key_of self pre n k.
Proof.
  induction names as [| n names IH]; simpl; intros Hsub acc d Hacc Hrun.
  - injection Hrun as <-. exact Hacc.
  - specialize (IH (fun m Hm => Hsub m (or_intror Hm))).
    pose proof (Hsub n (or_introl eq_refl)) as Hn.
    destruct (_all_instance_scores_equal instances n) as [[|] | e];
      cbn [bind] in Hrun; try discriminate Hrun.
    + apply (IH acc d Hacc Hrun).
    + destruct (bootstrap instance instances _ _) as [[low high] | e];
        cbn [bind] in Hrun; try discriminate Hrun.
      destruct (String.eqb n (main_score self)) eqn:Emain; cbn [bind] in Hrun.
      * apply String.eqb_eq in Emain.
        eapply IH; [| exact Hrun].
        intros k Hk.
        apply dict_mem_set in Hk. destruct Hk as [-> | Hk];
          [exists n; split; [exact Hn | right; right; split; [exact Emain | right; reflexivity]] |].
        apply dict_mem_set in Hk. destruct Hk as [-> | Hk];
          [exists n; split; [exact Hn | right; right; split; [exact Emain | left; reflexivity]] |].
        apply dict_mem_set in Hk. destruct Hk as [-> | Hk];
          [exists n; split; [exact Hn | right; left; reflexivity] |].
        apply dict_mem_set in Hk. destruct Hk as [-> | Hk];
          [exists n; split; [exact Hn | left; reflexivity] |].
        apply Hacc. exact Hk.
      * eapply IH; [| exact Hrun].
        intros k Hk.
        apply dict_mem_set in Hk. destruct Hk as [-> | Hk];
          [exists n; split; [exact Hn | right; left; reflexivity] |].
        apply dict_mem_set in Hk. destruct Hk as [-> | Hk];
          [exists n; split; [exact Hn | left; reflexivity] |].
        apply Hacc. exact Hk.
Qed.

Lemma dict_lookup_update_absent {V} (new d : list (string * V)) (k : string) :
  dict_lookup new k = None ->
  dict_lookup (dict_update d new) k = dict_lookup d k.
Proof.
  unfold dict_update. revert d.
  induction new as [| [k0 v0] new IH]; simpl; intros d Hk.
  - reflexivity.
  - destruct (String.eqb k k0) eqn:E; [discriminate Hk |].
    rewrite IH by exact Hk.
    apply dict_lookup_set_other. intros ->. rewrite String.eqb_refl in E.
    discriminate E.
Qed.

(** The dictionary of confidence intervals only has keys ending in
    [_ci_low] or [_ci_high]. *)
Lemma score_based_confidence_interval_key_absent
  (bootstrap : forall P : Type, list P -> (list P -> result scoreval) -> Z ->
                                result (scoreval * scoreval))
  (self : metric) (instances : list instance) (names : list string)
  (aggregation_func : option (list instance -> string -> result scoreval))
  (pre key : string) (d : pydict) :
  (forall x, key <> (x ++ "_ci_low")%string) ->
  (forall x, key <> (x ++ "_ci_high")%string) ->
  score_based_confidence_interval bootstrap self instances names aggregation_func pre
  = Ok d ->
  dict_lookup d key = None.
Proof.
  intros Hlow Hhigh H. unfold score_based_confidence_interval in H.
  destruct (negb (_can_compute_confidence_intervals self (List.length instances))).
  - inversion H; subst d. reflexivity.
  - eapply (ci_loop_key_absent bootstrap self instances _ pre key names);
      [ | | | | exact H].
    + intros n _. split; [apply Hlow | apply Hhigh].
    + apply (Hlow "score").
    + apply (Hhigh "score").
    + reflexivity.
Qed.

(** C5.  When every instance carries the same number under a requested
    score name, [score_based_confidence_interval] skips that name: the
    result is the one obtained from the other requested names alone, which
    are processed as usual; every key of the result was written for one of
    those other names; and the result holds neither [<name>_ci_low] nor
    [<name>_ci_high].  (The keys [score_ci_low] and [score_ci_high] are
    written for the main score; they differ from the keys of the skipped
    name as long as the prefixed name is not the word [score] itself.) *)
Theorem zero_variance_score_skipped :
  forall (bootstrap : forall P : Type, list P -> (list P -> result scoreval) -> Z ->
                                       result (scoreval * scoreval))
         (self : metric) (instances : list instance) (names : list string)
         (aggregation_func : option (list instance -> string -> result scoreval))
         (ci_score_prefix name : string) (v : Q),
    all_score instances name v ->
    score_based_confidence_interval bootstrap self instances names
      aggregation_func ci_score_prefix
    = score_based_confidence_interval bootstrap self instances
        (remove string_dec name names) aggregation_func ci_score_prefix
    /\ forall d,
        score_based_confidence_interval bootstrap self instances names
          aggregation_func ci_score_prefix = Ok d ->
        (forall k, dict_mem d k = true ->
                   exists n, In n names /\ n <> name
                             /\ ci_key_of self ci_score_prefix n k)
        /\ ((ci_score_prefix ++ name)%string <> "score" ->
            dict_lookup d ((ci_score_prefix ++ name) ++ "_ci_low")%string = None
            /\ dict_lookup d ((ci_score_prefix ++ name) ++ "_ci_high")%string = None).
Proof.
  intros bootstrap self instances names agg pre name v Hall.
  assert (Hsame :
            score_based_confidence_interval bootstrap self instances names agg pre
            = score_based_confidence_interval bootstrap self instances
                (remove string_dec name names) agg pre).
  { unfold score_based_confidence_interval.
    destruct (_can_compute_confidence_intervals self (List.length instances)) eqn:Hcan;
      cbn [negb]; [| reflexivity].
    apply for_each_skip. intros s.
    rewrite (all_score_equal instances name v); [reflexivity | | exact Hall].
    intros ->. unfold _can_compute_confidence_intervals in Hcan.
    destruct (n_resamples self); [| discriminate Hcan].
    simpl in Hcan. rewrite andb_false_r in Hcan. discriminate Hcan. }
  split; [exact Hsame |].
  intros d Hd. rewrite Hsame in Hd.
  unfold score_based_confidence_interval in Hd.
  destruct (negb (_can_compute_confidence_intervals self (List.length instances))).
  { injection Hd as <-. split.
    - intros k Hk. discriminate Hk.
    - intros _. split; reflexivity. }
  assert (Hother : forall n, In n (remove string_dec name names) ->
                             In n names /\ n <> name).
  { intros n Hin. apply in_remove in Hin. exact Hin. }
  split.
  - intros k Hk.
    destruct (ci_loop_key_provenance bootstrap self instances _ pre
                (remove string_dec name names) (remove string_dec name names)
                (fun n Hn => Hn) [] d
                (fun k0 (H0 : dict_mem [] k0 = true) => ltac:(discriminate H0))
                Hd k Hk) as [n [Hn Hkey]].
    exists n. destruct (Hother n Hn) as [Hin Hne].
    split; [exact Hin |]. split; [exact Hne | exact Hkey].
  - intros Hscore. split.
    + eapply ci_loop_key_absent; [| | | | exact Hd]; try reflexivity.
      * intros n Hn. split.
        -- intros E. apply string_append_cancel_r, string_append_cancel_l in E.
           apply (proj2 (Hother n Hn)). symmetry. exact E.
        -- apply low_is_not_high.
      * intros E. apply (string_append_cancel_r "_ci_low" _ "score") in E.
        contradiction.
      * apply (low_is_not_high _ "score").
    + eapply ci_loop_key_absent; [| | | | exact Hd]; try reflexivity.
      * intros n Hn. split.
        -- intros E. symmetry in E. revert E. apply low_is_not_high.
        -- intros E. apply string_append_cancel_r, string_append_cancel_l in E.
           apply (proj2 (Hother n Hn)). symmetry. exact E.
      * intros E. symmetry in E. revert E. apply (low_is_not_high "score").
      * intros E. apply (string_append_cancel_r "_ci_high" _ "score") in E.
        contradiction.
Qed.

(** Accuracy varies and [f1] is one half on every instance: the interval
    of the accuracy is computed, [f1] gets no key. *)
Lemma zero_variance_score_skipped_witness :
  exists d,
    score_based_confidence_interval point_bootstrap
      (set_n_resamples Accuracy (Some 100%Z)) constant_f1_stream
      ["f1"; "accuracy"] None "" = Ok d
    /\ dict_lookup d "f1_ci_low" = None
    /\ dict_lookup d "f1_ci_high" = None
    /\ dict_mem d "accuracy_ci_low" = true
    /\ dict_mem d "accuracy_ci_high" = true.
Proof.
  assert (Hall : all_score constant_f1_stream "f1" (1 # 2)).
  { repeat constructor; eexists; (split; [reflexivity | reflexivity]). }
  eexists. split; [vm_compute; reflexivity |].
  match goal with
  | |- dict_lookup ?d _ = None /\ _ =>
      destruct (proj2 (zero_variance_score_skipped point_bootstrap
                         (set_n_resamples Accuracy (Some 100%Z))
                         constant_f1_stream ["f1"; "accuracy"] None "" "f1"
                         (1 # 2) Hall) d) as [Hl Hh]
  end.
  - vm_compute. reflexivity.
  - destruct Hh as [Hlow Hhigh]; [discriminate |].
    split; [exact Hlow |]. split; [exact Hhigh |]. split; reflexivity.
Defined.

(* ------------------------------------------------------------------ *)
(** ** Grouping: a missing [group_by_field] *)

(** The grouping loop on a first instance without the field: the handler
    reads [group_name] before any assignment to it. *)
Lemma group_instances_first_missing
  (dict_get : instance -> string -> option string) (g : grouping_cfg)
  (i : instance) (rest : list instance) :
  dict_get i (group_by_field g) = None ->
  group_instances dict_get g (i :: rest) = Raise (UnboundLocalError "group_name").
Proof.
  intros H. unfold group_instances. simpl. rewrite H. reflexivity.
Qed.

(** The grouping loop on a later instance without the field: the message
    carries the group of the instance before it. *)
Lemma group_instances_second_missing
  (dict_get : instance -> string -> option string) (g : grouping_cfg)
  (i j : instance) (rest : list instance) (name : string) :
  dict_get i (group_by_field g) = Some name ->
  dict_get j (group_by_field g) = None ->
  group_instances dict_get g (i :: j :: rest)
  = Raise (ValueErrorMissing ArgGrouping j name).
Proof.
  intros Hi Hj. unfold group_instances. simpl. rewrite Hi. simpl.
  rewrite Hj. reflexivity.
Qed.

(** The sibling loop of [subgroup_filtering] names the configured column. *)
Lemma filter_group_first_missing
  (dict_get : instance -> string -> option string) (sf : subgroup_filtering_cfg)
  (i : instance) (rest : list instance) :
  dict_get i (sf_subgroup_column sf) = None ->
  filter_group dict_get sf (i :: rest)
  = Raise (ValueErrorMissing ArgSubgroupFiltering i (sf_subgroup_column sf)).
Proof.
  intros H. unfold filter_group. simpl. rewrite H. reflexivity.
Qed.

(** C7, as the code behaves.  With [GroupMeanAccuracy] (grouping by
    [task_data/group_id]): a stream whose first instance has no [group_id]
    makes [score_groups_globally] fail with an [UnboundLocalError], which is
    not a [ValueError]; a stream whose second instance has no [group_id]
    makes it fail with a [ValueError] whose message shows that instance and
    ["g1"], the group of the first instance, where the missing field
    [task_data/group_id] was to be named. *)
Theorem score_groups_globally_missing_group_field :
  score_groups_globally task_data_get GroupMeanAccuracy
    [scored "accuracy" (Num 1) []] (Some ["accuracy"])
  = Raise (UnboundLocalError "group_name")
  /\ is_value_error
       (score_groups_globally task_data_get GroupMeanAccuracy
          [scored "accuracy" (Num 1) []] (Some ["accuracy"])) = false
  /\ score_groups_globally task_data_get GroupMeanAccuracy
       [scored "accuracy" (Num 1) [("group_id", VStr "g1")];
        scored "accuracy" (Num 0) []] (Some ["accuracy"])
     = Raise (ValueErrorMissing ArgGrouping (scored "accuracy" (Num 0) []) "g1")
  /\ group_by_field
       {| group_by_field := "task_data/group_id";
          ci_samples_from_groups_scores := false |} <> "g1".
Proof.
  split; [reflexivity |]. split; [reflexivity |]. split; [reflexivity |].
  discriminate.
Qed.

(* ------------------------------------------------------------------ *)
(** ** Grouping idempotence *)

(** The dictionary of one group of an instance metric: each requested
    name is read back with the aggregate computed for it. *)
Lemma aggregate_names_lookup
  (agg : list instance -> string -> result scoreval) (members : list instance)
  (n : string) (s : scoreval) (names : list string) :
  agg members n = Ok s ->
  forall acc d,
    for_each names
      (fun (d : pydict) score_name =>
         s <- agg members score_name ;; Ok (dict_set d score_name (VFloat s)))
      acc = Ok d ->
    In n names \/ dict_lookup acc n = Some (VFloat s) ->
    dict_lookup d n = Some (VFloat s).
Proof.
  intros Hn. induction names as [| x names IH]; simpl; intros acc d Hrun Hin.
  - injection Hrun as <-. destruct Hin as [[] | H]. exact H.
  - destruct (agg members x) as [sx | e] eqn:Ex; cbn [bind] in Hrun;
      [| discriminate Hrun].
    apply (IH _ _ Hrun).
    destruct (string_dec n x) as [-> | Hne].
    + right. rewrite Hn in Ex. injection Ex as <-. apply dict_lookup_set_same.
    + destruct Hin as [[E | Hin] | Hacc].
      * exfalso. apply Hne. symmetry. exact E.
      * left. exact Hin.
      * right. rewrite dict_lookup_set_other by exact Hne. exact Hacc.
Qed.

(** With grouping unset, whatever the subgroup configuration, the mapping
    returned for an instance metric has the single key ["all"]. *)
Lemma ungrouped_one_group
  (dict_get : instance -> string -> option string) (self : metric)
  (instances : list instance) (names : option (list string))
  (groups : list (string * gscore)) :
  kind self = InstanceMetric ->
  grouping self = None ->
  score_groups_globally dict_get self instances names = Ok groups ->
  exists d, groups = [("all", GDict d)].
Proof.
  intros Hk Hg. unfold score_groups_globally. rewrite Hg. cbn [bind].
  intros H.
  apply bind_ok in H. destruct H as [filtered [Hf H]].
  apply bind_ok in H. destruct H as [split_ [Hs H]].
  assert (Hone : exists g, split_ = [("all", g)]).
  { assert (Hfil : exists members, filtered = [("all", members)]).
    { destruct (subgroup_filtering self) as [sf |].
      - cbn [map_result] in Hf.
        apply bind_ok in Hf. destruct Hf as [[gn fg] [Hfg Hf]].
        apply bind_ok in Hfg. destruct Hfg as [fg' [_ Hfg]].
        injection Hfg as <- <-. cbn [bind] in Hf. injection Hf as <-.
        eexists. reflexivity.
      - injection Hf as <-. eexists. reflexivity. }
    destruct Hfil as [members ->].
    destruct (control_comparison self) as [cc |].
    - cbn [map_result] in Hs.
      apply bind_ok in Hs. destruct Hs as [[gn g] [Hg' Hs]].
      apply bind_ok in Hg'. destruct Hg' as [g' [_ Hg']].
      injection Hg' as <- <-. cbn [bind] in Hs. injection Hs as <-.
      eexists. reflexivity.
    - injection Hs as <-. eexists. reflexivity. }
  destruct Hone as [g ->].
  cbn [for_each] in H.
  apply bind_ok in H. destruct H as [acc [Hstep H]]. injection H as <-.
  apply bind_ok in Hstep. destruct Hstep as [s [Hscore Hstep]].
  unfold score_one_group in Hscore. rewrite Hk in Hscore.
  destruct names as [names |]; [| discriminate Hscore].
  apply bind_ok in Hscore. destruct Hscore as [d [_ Hscore]].
  injection Hscore as <-. injection Hstep as <-.
  exists d. reflexivity.
Qed.

(** C1.  An instance metric with grouping unset aggregates through the
    single implicit group ["all"].  Whatever the subgroup configuration,
    [score_groups_globally] returns a one-group mapping [{"all": ...}] and
    [average_groups_global_scores] returns that group's score unchanged.
    Without subgroup configuration the entries of the group are the
    aggregating function applied to the whole stream, and the global score
    that [InstanceMetric.process] reads from the mapping is the aggregate of
    the whole stream: the ungrouped aggregate and the aggregate of the
    group ["all"] are the same value. *)
Theorem ungrouped_is_single_group_all :
  forall (dict_get : instance -> string -> option string) (self : metric)
         (instances : list instance),
    kind self = InstanceMetric ->
    grouping self = None ->
    (forall names groups,
        score_groups_globally dict_get self instances names = Ok groups ->
        exists d, groups = [("all", GDict d)])
    /\ (forall n all_,
           score_groups_globally dict_get self instances (Some [n])
           = Ok [("all", all_)] ->
           average_groups_global_scores dict_get self instances (Some n) = Ok all_)
    /\ (forall a : aggregating_cfg,
           subgroup_filtering self = None ->
           control_comparison self = None ->
           aggregating self = Some a ->
           (forall names,
               score_groups_globally dict_get self instances (Some names)
               = (d <- for_each names
                         (fun (d : pydict) score_name =>
                            s <- aggregating_function a instances score_name ;;
                            Ok (dict_set d score_name (VFloat s)))
                         [] ;;
                  Ok [("all", GDict d)]))
           /\ (forall n s,
                  aggregating_function a instances n = Ok s ->
                  average_groups_global_scores dict_get self instances (Some n)
                  = Ok (GDict [(n, VFloat s)]))
           /\ (forall names groups n s,
                  score_groups_globally dict_get self instances (Some names)
                  = Ok groups ->
                  In n names ->
                  aggregating_function a instances n = Ok s ->
                  InstanceMetric_global_score self groups n = Ok (VFloat s))).
Proof.
  intros dict_get self instances Hk Hg.
  split; [| split].
  - intros names groups H. apply (ungrouped_one_group _ _ _ _ _ Hk Hg H).
  - intros n all_ H. unfold average_groups_global_scores. rewrite H. reflexivity.
  - intros a Hsf Hcc Ha.
    assert (Hsgg : forall names,
               score_groups_globally dict_get self instances (Some names)
               = (d <- for_each names
                         (fun (d : pydict) score_name =>
                            s <- aggregating_function a instances score_name ;;
                            Ok (dict_set d score_name (VFloat s)))
                         [] ;;
                  Ok [("all", GDict d)])).
    { intros names. unfold score_groups_globally, score_one_group.
      rewrite Hk, Hg, Hsf, Hcc, Ha. cbn [bind map for_each].
      destruct (for_each names
                  (fun (d : pydict) score_name =>
                     s <- aggregating_function a instances score_name ;;
                     Ok (dict_set d score_name (VFloat s))) []) as [d | e];
        reflexivity. }
    split; [exact Hsgg |]. split.
    + intros n s Hs. unfold average_groups_global_scores.
      rewrite Hsgg. cbn [for_each bind]. rewrite Hs. reflexivity.
    + intros names groups n s Hrun Hin Hs.
      rewrite Hsgg in Hrun. apply bind_ok in Hrun.
      destruct Hrun as [d [Hd Hgroups]]. injection Hgroups as <-.
      unfold InstanceMetric_global_score. rewrite Hg.
      cbn. unfold dict_getitem.
      rewrite (aggregate_names_lookup _ _ n s names Hs [] d Hd (or_introl Hin)).
      reflexivity.
Qed.

(** On [Accuracy] and a stream scoring 1, 0, 1: the only group is ["all"],
    its score is the mean 2/3, and that is the aggregated global score. *)
Lemma ungrouped_is_single_group_all_witness :
  exists s,
    average_item_scores
      [scored "accuracy" (Num 1) []; scored "accuracy" (Num 0) [];
       scored "accuracy" (Num 1) []] "accuracy" = Ok s
    /\ score_eq s (Num (2 # 3))
    /\ score_groups_globally task_data_get Accuracy
         [scored "accuracy" (Num 1) []; scored "accuracy" (Num 0) [];
          scored "accuracy" (Num 1) []] (Some ["accuracy"])
       = Ok [("all", GDict [("accuracy", VFloat s)])]
    /\ average_groups_global_scores task_data_get Accuracy
         [scored "accuracy" (Num 1) []; scored "accuracy" (Num 0) [];
          scored "accuracy" (Num 1) []] (Some "accuracy")
       = Ok (GDict [("accuracy", VFloat s)])
    /\ InstanceMetric_global_score Accuracy
         [("all", GDict [("accuracy", VFloat s)])] "accuracy" = Ok (VFloat s).
Proof.
  destruct (ungrouped_is_single_group_all task_data_get Accuracy
              [scored "accuracy" (Num 1) []; scored "accuracy" (Num 0) [];
               scored "accuracy" (Num 1) []] eq_refl eq_refl)
    as [_ [Hsame Hplain]].
  destruct (Hplain {| aggregating_function_name := "mean";
                      aggregating_function := average_item_scores |}
              eq_refl eq_refl eq_refl) as [Hgroups [_ Hglobal]].
  eexists. split; [vm_compute; reflexivity |].
  split; [vm_compute; reflexivity |].
  split; [rewrite Hgroups; vm_compute; reflexivity |].
  split.
  - apply Hsame. rewrite Hgroups. vm_compute. reflexivity.
  - apply (Hglobal ["accuracy"]).
    + rewrite Hgroups. vm_compute. reflexivity.
    + left. reflexivity.
    + vm_compute. reflexivity.
Defined.

(** The grouping loop when every instance names the same group. *)
Lemma group_instances_single
  (dict_get : instance -> string -> option string) (g : grouping_cfg)
  (name : string) (instances : list instance) :
  instances <> [] ->
  (forall i, In i instances -> dict_get i (group_by_field g) = Some name) ->
  group_instances dict_get g instances = Ok [(name, instances)].
Proof.
  intros Hne Hall. unfold group_instances.
  destruct instances as [| i rest]; [contradiction |].
  simpl. rewrite (Hall i (or_introl eq_refl)). cbn [bind append_to_group].
  assert (Hloop : forall l acc,
             (forall j, In j l -> dict_get j (group_by_field g) = Some name) ->
             for_each l
               (fun '(group_name, grouped) i0 =>
                  match dict_get i0 (group_by_field g) with
                  | Some name0 =>
                      Ok (Some name0, append_to_group grouped name0 i0)
                  | None =>
                      match group_name with
                      | Some stale => Raise (ValueErrorMissing ArgGrouping i0 stale)
                      | None => Raise (UnboundLocalError "group_name")
                      end
                  end)
               (Some name, [(name, acc)])
             = Ok (Some name, [(name, (acc ++ l)%list)])).
  { induction l as [| j l IH]; intros acc Hl; simpl.
    - rewrite app_nil_r. reflexivity.
    - rewrite (Hl j (or_introl eq_refl)). cbn [bind append_to_group].
      rewrite String.eqb_refl.
      rewrite IH by (intros k Hk; apply Hl; right; exact Hk).
      rewrite <- app_assoc. reflexivity. }
  rewrite Hloop by (intros j Hj; apply Hall; right; exact Hj).
  reflexivity.
Qed.

(** Grouping idempotence with an explicit grouping: when the configured
    field puts every instance of a stream that is not empty in one group,
    the average over groups is what the metric returns with grouping
    unset. *)
Lemma explicit_single_group_same_average
  (dict_get : instance -> string -> option string) (self : metric)
  (g : grouping_cfg) (name : string) (instances : list instance)
  (score_name : option string) :
  grouping self = None ->
  instances <> [] ->
  (forall i, In i instances -> dict_get i (group_by_field g) = Some name) ->
  average_groups_global_scores dict_get (set_grouping self (Some g)) instances
    score_name
  = average_groups_global_scores dict_get self instances score_name.
Proof.
  intros Hg Hne Hall.
  unfold average_groups_global_scores, score_groups_globally.
  destruct self as [k ms pt sr nr cs gr sf cc sn tsn pf ag ci psi co rm ir cb].
  cbn [grouping set_grouping subgroup_filtering control_comparison kind
       main_score prediction_type_ok single_reference_per_prediction
       n_resamples ci_scores score_names to_score_names prefix aggregating
       compute_instance process_single_instances compute reduction_map
       implemented_reductions compute_bulk] in *.
  subst gr. rewrite (group_instances_single dict_get g name instances Hne Hall).
  cbn [bind map_result map].
  destruct sf as [sf |]; cbn [bind map_result map].
  - destruct (filter_group dict_get sf instances) as [fg | e]; cbn [bind]; [| reflexivity].
    destruct cc as [cc |]; cbn [bind map_result map for_each].
    + destruct (split_group dict_get cc fg) as [sg | e]; cbn [bind for_each];
        [| reflexivity].
      match goal with
      | |- context [score_one_group ?m ?n ?x] =>
          change (score_one_group m n x)
            with (score_one_group
                    (Build_metric k ms pt sr nr cs None (Some sf) (Some cc) sn tsn
                       pf ag ci psi co rm ir cb) n x)
      end.
      destruct (score_one_group _ _ sg) as [[s |] | e]; reflexivity.
    + match goal with
      | |- context [score_one_group ?m ?n ?x] =>
          change (score_one_group m n x)
            with (score_one_group
                    (Build_metric k ms pt sr nr cs None (Some sf) None sn tsn
                       pf ag ci psi co rm ir cb) n x)
      end.
      destruct (score_one_group _ _ (Plain fg)) as [[s |] | e]; reflexivity.
  - destruct cc as [cc |]; cbn [bind map_result map for_each].
    + destruct (split_group dict_get cc instances) as [sg | e]; cbn [bind for_each];
        [| reflexivity].
      match goal with
      | |- context [score_one_group ?m ?n ?x] =>
          change (score_one_group m n x)
            with (score_one_group
                    (Build_metric k ms pt sr nr cs None None (Some cc) sn tsn
                       pf ag ci psi co rm ir cb) n x)
      end.
      destruct (score_one_group _ _ sg) as [[s |] | e]; reflexivity.
    + match goal with
      | |- context [score_one_group ?m ?n ?x] =>
          change (score_one_group m n x)
            with (score_one_group
                    (Build_metric k ms pt sr nr cs None None None sn tsn
                       pf ag ci psi co rm ir cb) n x)
      end.
      destruct (score_one_group _ _ (Plain instances)) as [[s |] | e]; reflexivity.
Qed.

(* ------------------------------------------------------------------ *)
(** ** [GlobalMetric.process]: the stream loop *)

Lemma GlobalMetric_consume_step_linked (self : metric) (G : loc)
  (refs : list (list string)) (predictions : list string)
  (task_data_ : list pydict) (instances : list instance) (i : instance) :
  score i = None \/ global_of i = Some G ->
  GlobalMetric_consume_step self (G, refs, predictions, task_data_, instances) i
  = Ok (G,
        (refs ++ [references i])%list,
        (predictions ++ [prediction i])%list,
        (task_data_ ++ [match task_data i with Some d => d | None => [] end])%list,
        (instances ++ [GlobalMetric_linked self G i])%list).
Proof.
  intros Hlink.
  unfold GlobalMetric_consume_step, link_global_score, GlobalMetric_linked, global_of in *.
  destruct i as [r p td [[g sinst] |]]; cbn in *.
  - destruct Hlink as [H | H]; [discriminate H |]. rewrite H. reflexivity.
  - reflexivity.
Qed.

(** The loop never aborts on a stream whose instances are linkable, whatever
    [compute] does on the singletons. *)
Lemma GlobalMetric_consume_loop (self : metric) (G : loc) (stream : list instance) :
  links_to G stream ->
  forall refs predictions task_data_ instances,
    for_each stream (GlobalMetric_consume_step self)
      (G, refs, predictions, task_data_, instances)
    = Ok (G,
          (refs ++ map references stream)%list,
          (predictions ++ map prediction stream)%list,
          (task_data_
             ++ map (fun i => match task_data i with Some d => d | None => [] end)
                    stream)%list,
          (instances ++ map (GlobalMetric_linked self G) stream)%list).
Proof.
  induction stream as [| i stream IH]; intros Hlinks refs predictions tds instances.
  - simpl. rewrite !app_nil_r. reflexivity.
  - cbn [for_each].
    rewrite GlobalMetric_consume_step_linked by (apply Hlinks; left; reflexivity).
    cbn [bind]. rewrite IH by (intros j Hj; apply Hlinks; right; exact Hj).
    cbn [map]. rewrite <- !app_assoc. reflexivity.
Qed.

(** The preview dictionary written when [_compute] raised: [None] under
    [score] and under the main score. *)
Lemma failed_preview_lookup (main : string) :
  let d := dict_set [("score", VNone); ("score_name", VStr main)] main VNone in
  dict_lookup d "score" = Some VNone
  /\ dict_lookup d main = Some VNone
  /\ NoDup (map fst d).
Proof.
  cbn zeta. cbn [dict_set].
  destruct (String.eqb main "score") eqn:E1.
  - apply String.eqb_eq in E1. subst main.
    repeat split. repeat constructor; cbn; intuition discriminate.
  - destruct (String.eqb main "score_name") eqn:E2.
    + apply String.eqb_eq in E2. subst main.
      repeat split. repeat constructor; cbn; intuition discriminate.
    + cbn [dict_lookup map fst].
      rewrite E1, E2, !String.eqb_refl.
      repeat split.
      apply String.eqb_neq in E1, E2.
      constructor.
      * intros [H | [H | []]]; [discriminate H | apply E1; exact H].
      * constructor.
        -- intros [H | []]. apply E2. exact H.
        -- constructor; [intros [] | constructor].
Qed.

Lemma global_instance_score_failed (self : metric) (refs : list string)
  (pred : string) (td : pydict) (e : exn) :
  process_single_instances self = true ->
  _compute self [refs] [pred] [td] = Raise e ->
  global_instance_score self refs pred td
  = dict_set [("score", VNone); ("score_name", VStr (main_score self))]
             (main_score self) VNone.
Proof.
  intros Hp He. unfold global_instance_score. rewrite Hp, He. reflexivity.
Qed.

Lemma dict_set_fresh {V} (d : list (string * V)) (k : string) (v : V) :
  ~ In k (map fst d) -> dict_set d k v = (d ++ [(k, v)])%list.
Proof.
  induction d as [| [k' v'] d IH]; simpl; intros Hn.
  - reflexivity.
  - destruct (String.eqb k k') eqn:E.
    + apply String.eqb_eq in E. exfalso. apply Hn. left. symmetry. exact E.
    + rewrite IH; [reflexivity |]. intros H. apply Hn. right. exact H.
Qed.

Lemma dict_update_fresh {V} (new d : list (string * V)) :
  NoDup (map fst new) ->
  (forall k, In k (map fst new) -> ~ In k (map fst d)) ->
  dict_update d new = (d ++ new)%list.
Proof.
  unfold dict_update. revert d.
  induction new as [| [k v] new IH]; simpl; intros d Hnd Hfresh.
  - rewrite app_nil_r. reflexivity.
  - inversion Hnd as [| ? ? Hk Hnd']; subst.
    rewrite dict_set_fresh by (apply Hfresh; left; reflexivity).
    rewrite IH.
    + rewrite <- app_assoc. reflexivity.
    + exact Hnd'.
    + intros k' Hk' Hin. rewrite map_app in Hin. apply in_app_or in Hin.
      destruct Hin as [Hin | [<- | []]].
      * apply (Hfresh k'); [right; exact Hk' | exact Hin].
      * apply Hk. exact Hk'.
Qed.

Lemma dict_update_nil {V} (new : list (string * V)) :
  NoDup (map fst new) -> dict_update [] new = new.
Proof.
  intros Hnd. rewrite dict_update_fresh; [reflexivity | exact Hnd |].
  intros k _ [].
Qed.

Lemma _compute_score_name (self : metric) (refs : list (list string))
  (predictions : list string) (task_data_ : list pydict) (d : pydict) :
  _compute self refs predictions task_data_ = Ok d ->
  dict_lookup d "score_name" = Some (VStr (main_score self)).
Proof.
  unfold _compute. intros H.
  apply bind_ok in H. destruct H as [r [_ H]].
  apply bind_ok in H. destruct H as [m [_ H]].
  injection H as <-. apply dict_lookup_set_same.
Qed.

Lemma GlobalMetric_linked_fields (self : metric) (G : loc) (stream : list instance) :
  map references (map (GlobalMetric_linked self G) stream) = map references stream
  /\ map prediction (map (GlobalMetric_linked self G) stream) = map prediction stream
  /\ map (fun i => match task_data i with Some d => d | None => [] end)
         (map (GlobalMetric_linked self G) stream)
     = map (fun i => match task_data i with Some d => d | None => [] end) stream.
Proof.
  rewrite !map_map. repeat split; apply map_ext; intros i; reflexivity.
Qed.

(** The only group of a global metric without grouping: the whole stream,
    scored by one call of [_compute]. *)
Lemma ungrouped_global_score
  (dict_get : instance -> string -> option string) (self : metric)
  (instances : list instance) (d : pydict) :
  kind self = GlobalMetric ->
  grouping self = None ->
  subgroup_filtering self = None ->
  control_comparison self = None ->
  instances <> [] ->
  _validate_references_and_prediction self (map references instances)
    (map prediction instances) = Ok tt ->
  _compute self (map references instances) (map prediction instances)
    (map (fun i => match task_data i with Some d => d | None => [] end) instances)
  = Ok d ->
  score_groups_globally dict_get self instances None = Ok [("all", GDict d)]
  /\ average_groups_global_scores dict_get self instances None = Ok (GDict d).
Proof.
  intros Hk Hg Hsf Hcc Hne Hval Hcomp.
  assert (H : score_groups_globally dict_get self instances None
              = Ok [("all", GDict d)]).
  { unfold score_groups_globally, score_one_group.
    rewrite Hk, Hg, Hsf, Hcc. cbn [bind map for_each].
    destruct instances as [| i rest]; [contradiction |].
    unfold consume_stream. rewrite Hval. cbn [bind]. rewrite Hcomp. reflexivity. }
  split; [exact H |].
  unfold average_groups_global_scores. rewrite H. reflexivity.
Qed.

Lemma instance_score_linked (self : metric) (G : loc) (i : instance)
  (k : string) (v : value) :
  dict_lookup (global_instance_score self (references i) (prediction i)
                 (match task_data i with Some d => d | None => [] end)) k = Some v ->
  NoDup (map fst (global_instance_score self (references i) (prediction i)
                    (match task_data i with Some d => d | None => [] end))) ->
  instance_score (GlobalMetric_linked self G i) k = Ok v.
Proof.
  intros Hk Hnd. unfold instance_score, GlobalMetric_linked, dict_getitem.
  cbn [score set_score sinstance].
  rewrite (dict_lookup_update_new _ _ k v Hk Hnd). reflexivity.
Qed.

(** C2, as the code behaves.  On the stream of two instances scored by
    [CorpusF1], whose [compute] raises on a singleton, [process] returns;
    the preview score it records for the first instance, under [score] and
    under the main score [f1], is [None], which is not NaN. *)
Lemma preview_score_of_failed_instance_is_not_nan :
  exists h' i1 i2,
    GlobalMetric_process task_data_get point_bootstrap CorpusF1 empty_heap
      [unscored "A" "A"; unscored "B" "X"] = Ok (h', [i1; i2])
    /\ _compute CorpusF1 [["A"]] ["A"] [[]]
       = Raise (ComputeError "needs at least two predictions")
    /\ instance_score i1 "score" = Ok VNone
    /\ instance_score i1 "f1" = Ok VNone
    /\ instance_score i1 "score" <> Ok (VFloat NaN)
    /\ instance_score i1 "f1" <> Ok (VFloat NaN).
Proof.
  eexists. eexists. eexists.
  split; [vm_compute; reflexivity |].
  split; [reflexivity |].
  split; [reflexivity |].
  split; [reflexivity |].
  split; discriminate.
Qed.

(* ------------------------------------------------------------------ *)
(** ** The shared global score *)

Lemma global_of_GlobalMetric_linked (self : metric) (G : loc) (i : instance) :
  score i = None \/ global_of i = Some G ->
  global_of (GlobalMetric_linked self G i) = Some G.
Proof.
  unfold GlobalMetric_linked, global_of.
  destruct i as [r p td [[g sinst] |]]; cbn; intros [H | H];
    try discriminate H; try reflexivity; exact H.
Qed.

(** A first instance that already refers to [G] switches the loop to [G]. *)
Lemma GlobalMetric_consume_step_scored (self : metric) (g0 G : loc)
  (refs : list (list string)) (predictions : list string)
  (task_data_ : list pydict) (instances : list instance) (i : instance) :
  global_of i = Some G ->
  GlobalMetric_consume_step self (g0, refs, predictions, task_data_, instances) i
  = Ok (G,
        (refs ++ [references i])%list,
        (predictions ++ [prediction i])%list,
        (task_data_ ++ [match task_data i with Some d => d | None => [] end])%list,
        (instances ++ [GlobalMetric_linked self G i])%list).
Proof.
  intros Hlink.
  unfold GlobalMetric_consume_step, link_global_score, GlobalMetric_linked, global_of in *.
  destruct i as [r p td [[g sinst] |]]; cbn in *; [| discriminate Hlink].
  rewrite Hlink. reflexivity.
Qed.

(** The instances [GlobalMetric.process] collects, in the two situations of
    an evaluation run: the stream arrives without scores, or all its
    instances already refer to one global dictionary. *)
Lemma GlobalMetric_consume_shares (self : metric) (g0 G : loc)
  (stream : list instance) :
  (g0 = G /\ links_to G stream) \/ (stream <> [] /\ shares_global G stream) ->
  exists refs predictions task_data_,
    GlobalMetric_consume self g0 stream
    = Ok (G, refs, predictions, task_data_, map (GlobalMetric_linked self G) stream)
    /\ shares_global G (map (GlobalMetric_linked self G) stream).
Proof.
  intros H.
  assert (Hlinks : links_to G stream).
  { destruct H as [[_ Hl] | [_ Hs]]; [exact Hl |].
    intros i Hi. right. apply Hs. exact Hi. }
  assert (Hshare : shares_global G (map (GlobalMetric_linked self G) stream)).
  { intros i' Hi'. apply in_map_iff in Hi'. destruct Hi' as [i [<- Hi]].
    apply global_of_GlobalMetric_linked. apply Hlinks. exact Hi. }
  unfold GlobalMetric_consume.
  destruct H as [[-> _] | [Hne Hs]].
  - rewrite GlobalMetric_consume_loop by exact Hlinks.
    do 3 eexists. split; [reflexivity | exact Hshare].
  - destruct stream as [| i rest]; [contradiction |].
    cbn [for_each].
    rewrite (GlobalMetric_consume_step_scored self g0 G)
      by (apply Hs; left; reflexivity).
    cbn [bind].
    rewrite GlobalMetric_consume_loop
      by (intros j Hj; apply Hlinks; right; exact Hj).
    do 3 eexists. split; [reflexivity | exact Hshare].
Qed.

Lemma link_global_score_inv (g : loc) (i i' : instance) (sec : score_section)
  (g' : loc) :
  link_global_score g i = Ok (i', sec, g') ->
  sglobal sec = Some g'
  /\ (score i = None -> g' = g)
  /\ (forall G, global_of i = Some G -> g' = G).
Proof.
  unfold link_global_score, global_of.
  destruct (score i) as [s |].
  - destruct (sglobal s) as [l |] eqn:E; intros H; [| discriminate H].
    injection H as <- <- <-. split; [exact E |].
    split; [intros Hn; discriminate Hn |].
    intros G HG. congruence.
  - intros H. injection H as <- <- <-. cbn.
    split; [reflexivity |]. split; [reflexivity |].
    intros G HG. discriminate HG.
Qed.

Lemma compute_instance_scores_step_inv (self : metric)
  (instances instances' : list instance) (g g' : loc) (i : instance) :
  compute_instance_scores_step self (instances, g) i = Ok (instances', g') ->
  exists i',
    instances' = (instances ++ [i'])%list
    /\ global_of i' = Some g'
    /\ (score i = None -> g' = g)
    /\ (forall G, global_of i = Some G -> g' = G).
Proof.
  unfold compute_instance_scores_step. intros H.
  apply bind_ok in H. destruct H as [_ [_ H]].
  apply bind_ok in H. destruct H as [_ [_ H]].
  apply bind_ok in H. destruct H as [sc [_ H]].
  apply bind_ok in H. destruct H as [m [_ H]].
  apply bind_ok in H. destruct H as [[[i0 sec] g1] [Hlink H]].
  injection H as <- <-.
  destruct (link_global_score_inv _ _ _ _ _ Hlink) as [Hsec [Hnone Hsome]].
  eexists. split; [reflexivity |]. split; [exact Hsec |].
  split; assumption.
Qed.

Lemma compute_instance_scores_loop (self : metric) (G : loc)
  (stream : list instance) :
  links_to G stream ->
  forall instances instances' g',
    for_each stream (compute_instance_scores_step self) (instances, G)
    = Ok (instances', g') ->
    g' = G /\ (shares_global G instances -> shares_global G instances').
Proof.
  induction stream as [| i stream IH]; intros Hlinks instances instances' g' H.
  - simpl in H. injection H as <- <-. split; [reflexivity | intros Hs; exact Hs].
  - cbn [for_each] in H. apply bind_ok in H. destruct H as [[insts1 g1] [Hstep H]].
    apply compute_instance_scores_step_inv in Hstep.
    destruct Hstep as [i' [-> [Hi' [Hnone Hsome]]]].
    assert (Hg1 : g1 = G).
    { destruct (Hlinks i (or_introl eq_refl)) as [Hn | Hs];
        [apply Hnone; exact Hn | apply Hsome; exact Hs]. }
    subst g1.
    destruct (IH (fun j Hj => Hlinks j (or_intror Hj)) _ _ _ H) as [-> Hshare].
    split; [reflexivity |].
    intros Hs. apply Hshare. intros j Hj. apply in_app_or in Hj.
    destruct Hj as [Hj | [<- | []]]; [apply Hs; exact Hj | exact Hi'].
Qed.

Lemma compute_instance_scores_shares (self : metric) (g0 G : loc)
  (stream instances : list instance) (g' : loc) :
  (g0 = G /\ links_to G stream) \/ (stream <> [] /\ shares_global G stream) ->
  compute_instance_scores self g0 stream = Ok (instances, g') ->
  g' = G /\ shares_global G instances.
Proof.
  unfold compute_instance_scores. intros [[-> Hlinks] | [Hne Hs]] H.
  - destruct (compute_instance_scores_loop self G stream Hlinks _ _ _ H)
      as [-> Hshare].
    split; [reflexivity |]. apply Hshare. intros j [].
  - destruct stream as [| i rest]; [contradiction |].
    cbn [for_each] in H. apply bind_ok in H. destruct H as [[insts1 g1] [Hstep H]].
    apply compute_instance_scores_step_inv in Hstep.
    destruct Hstep as [i' [-> [Hi' [_ Hsome]]]].
    assert (Hg1 : g1 = G) by (apply Hsome, Hs; left; reflexivity).
    subst g1.
    assert (Hlinks : links_to G rest).
    { intros j Hj. right. apply Hs. right. exact Hj. }
    destruct (compute_instance_scores_loop self G rest Hlinks _ _ _ H)
      as [-> Hshare].
    split; [reflexivity |]. apply Hshare.
    intros j [<- | []]. exact Hi'.
Qed.

Lemma GlobalMetric_process_instances
  (dict_get : instance -> string -> option string)
  (bootstrap : forall P : Type, list P -> (list P -> result scoreval) -> Z ->
                                result (scoreval * scoreval))
  (self : metric) (h h' : heap) (stream out : list instance) :
  GlobalMetric_process dict_get bootstrap self h stream = Ok (h', out) ->
  exists g refs predictions task_data_,
    GlobalMetric_consume self (next_loc h) stream
    = Ok (g, refs, predictions, task_data_, out).
Proof.
  unfold GlobalMetric_process, heap_alloc. intros H.
  destruct (GlobalMetric_consume self (next_loc h) stream)
    as [[[[[g refs] predictions] tds] instances] | e]; cbn [bind] in H;
    [| discriminate H].
  apply bind_ok in H. destruct H as [_ [_ H]].
  apply bind_ok in H. destruct H as [r [_ H]].
  apply bind_ok in H. destruct H as [h1 [_ H]].
  apply bind_ok in H. destruct H as [sn [_ H]].
  apply bind_ok in H. destruct H as [groups [_ H]].
  apply bind_ok in H. destruct H as [fg [_ H]].
  apply bind_ok in H. destruct H as [ci [_ H]].
  injection H as _ <-.
  exists g, refs, predictions, tds. reflexivity.
Qed.

Lemma InstanceMetric_process_instances
  (dict_get : instance -> string -> option string)
  (bootstrap : forall P : Type, list P -> (list P -> result scoreval) -> Z ->
                                result (scoreval * scoreval))
  (self : metric) (h h' : heap) (stream out : list instance) :
  InstanceMetric_process dict_get bootstrap self h stream = Ok (h', out) ->
  exists g, compute_instance_scores self (next_loc h) stream = Ok (out, g).
Proof.
  unfold InstanceMetric_process, heap_alloc. intros H.
  destruct (compute_instance_scores self (next_loc h) stream)
    as [[instances g] | e]; cbn [bind] in H; [| discriminate H].
  apply bind_ok in H. destruct H as [groups [_ H]].
  apply bind_ok in H. destruct H as [names [_ H]].
  apply bind_ok in H. destruct H as [to_names [_ H]].
  apply bind_ok in H. destruct H as [h1 [_ H]].
  apply bind_ok in H. destruct H as [h2 [_ H]].
  apply bind_ok in H. destruct H as [h3 [_ H]].
  injection H as _ <-.
  exists g. reflexivity.
Qed.

(** The sibling path: [set_global_score] links every instance, scored or
    not, to the one dictionary it is given. *)
Lemma set_global_score_shares (instances : list instance) (G : loc) :
  shares_global G (set_global_score instances G).
Proof.
  intros i Hi. unfold set_global_score in Hi.
  apply in_map_iff in Hi. destruct Hi as [j [<- _]]. reflexivity.
Qed.

(** C8, as the code behaves.  On a stream whose first instance arrives
    without a score and whose second instance was scored by an earlier
    metric, the first yielded instance refers to the dictionary created by
    this run and the second to the earlier one; only the earlier one
    receives the global score, the dictionary of the first instance stays
    empty.  On a stream whose two instances carry their own copies of an
    earlier global dictionary, the yielded instances keep referring to the
    two copies and only the copy of the last instance receives the global
    score.  [GlobalMetric.process] and [InstanceMetric.process] agree on
    this. *)
Theorem unshared_global_not_relinked :
  (exists h' i1 i2,
      GlobalMetric_process task_data_get point_bootstrap CorpusF1 earlier_heap
        [unscored "A" "A"; earlier_scored 0%nat "B" "X"] = Ok (h', [i1; i2])
      /\ global_of i1 = Some 1%nat
      /\ global_of i2 = Some 0%nat
      /\ store h' 1%nat = []
      /\ dict_lookup (store h' 0%nat) "f1" = Some (VFloat (Num (1 # 2))))
  /\ (exists h' i1 i2,
         InstanceMetric_process task_data_get point_bootstrap Accuracy earlier_heap
           [unscored "A" "A"; earlier_scored 0%nat "B" "X"] = Ok (h', [i1; i2])
         /\ global_of i1 = Some 1%nat
         /\ global_of i2 = Some 0%nat
         /\ store h' 1%nat = []
         /\ dict_lookup (store h' 0%nat) "accuracy" = Some (VFloat (Num (1 # 2))))
  /\ (exists h' i1 i2,
         GlobalMetric_process task_data_get point_bootstrap CorpusF1 copied_heap
           [earlier_scored 0%nat "A" "A"; earlier_scored 1%nat "B" "X"]
         = Ok (h', [i1; i2])
         /\ global_of i1 = Some 0%nat
         /\ global_of i2 = Some 1%nat
         /\ dict_lookup (store h' 0%nat) "f1" = None
         /\ dict_lookup (store h' 1%nat) "f1" = Some (VFloat (Num (1 # 2))))
  /\ (exists h' i1 i2,
         InstanceMetric_process task_data_get point_bootstrap
           (InstanceMetric_prepare (bare_metric InstanceMetric "exact_match"))
           copied_heap
           [earlier_scored 0%nat "A" "A"; earlier_scored 1%nat "B" "X"]
         = Ok (h', [i1; i2])
         /\ global_of i1 = Some 0%nat
         /\ global_of i2 = Some 1%nat
         /\ dict_lookup (store h' 0%nat) "exact_match" = None
         /\ dict_lookup (store h' 1%nat) "exact_match"
            = Some (VFloat (Num (1 # 2)))).
Proof.
  split; [| split; [| split]].
  - do 3 eexists. split; [vm_compute; reflexivity |]. repeat split.
  - do 3 eexists. split; [vm_compute; reflexivity |]. repeat split.
  - do 3 eexists. split; [vm_compute; reflexivity |]. repeat split.
  - do 3 eexists. split; [vm_compute; reflexivity |]. repeat split.
Qed.

(** The sharing a run relies on.  In the two situations of an evaluation
    run, a stream that arrives without scores ([G] is then the dictionary the run creates) and
    a stream whose instances all refer to one global dictionary [G] already,
    every instance yielded by [GlobalMetric.process] or by
    [InstanceMetric.process] refers to [G]: the [global] entries are one
    dictionary object, and an update made through the reference of one
    yielded instance is read through the reference of any other. *)
Theorem global_score_shared_by_reference :
  forall (dict_get : instance -> string -> option string)
         (bootstrap : forall P : Type,
             list P -> (list P -> result scoreval) -> Z ->
             result (scoreval * scoreval))
         (self : metric) (h h' : heap) (stream out : list instance) (G : loc),
    GlobalMetric_process dict_get bootstrap self h stream = Ok (h', out)
    \/ InstanceMetric_process dict_get bootstrap self h stream = Ok (h', out) ->
    (G = next_loc h /\ unscored_stream stream)
    \/ (stream <> [] /\ shares_global G stream) ->
    shares_global G out
    /\ forall i j gi gj new,
        In i out -> In j out ->
        global_of i = Some gi -> global_of j = Some gj ->
        store (heap_update h' gi new) gj = dict_update (store h' gj) new.
Proof.
  intros dict_get bootstrap self h h' stream out G Hrun Hstream.
  assert (Hpre : (next_loc h = G /\ links_to G stream)
                 \/ (stream <> [] /\ shares_global G stream)).
  { destruct Hstream as [[-> Hfresh] | Hs]; [left | right; exact Hs].
    split; [reflexivity |]. intros i Hi. left. apply Hfresh. exact Hi. }
  assert (Hshare : shares_global G out).
  { destruct Hrun as [Hrun | Hrun].
    - apply GlobalMetric_process_instances in Hrun.
      destruct Hrun as [g [refs [predictions [tds Hconsume]]]].
      destruct (GlobalMetric_consume_shares self (next_loc h) G stream Hpre)
        as [refs' [predictions' [tds' [Hok Hs]]]].
      rewrite Hok in Hconsume. injection Hconsume as _ _ _ _ <-. exact Hs.
    - apply InstanceMetric_process_instances in Hrun.
      destruct Hrun as [g Hscores].
      apply (compute_instance_scores_shares self (next_loc h) G stream out g Hpre
               Hscores). }
  split; [exact Hshare |].
  intros i j gi gj new Hi Hj Hgi Hgj.
  rewrite (Hshare i Hi) in Hgi. rewrite (Hshare j Hj) in Hgj.
  injection Hgi as <-. injection Hgj as <-.
  apply heap_update_store_same.
Qed.

(* ------------------------------------------------------------------ *)
(** ** [GlobalMetric.process]: a failing singleton does not stop the run *)

(** The stream loop of [GlobalMetric.process] on any linkable stream,
    whatever [compute] does on the singletons: it collects the whole stream
    and ends on the dictionary of one of the instances it hands on. *)
Lemma GlobalMetric_consume_linkable (self : metric) (stream : list instance) :
  linkable stream ->
  forall (G : loc) refs predictions task_data_ instances,
  exists (G' : loc) (out : list instance),
    for_each stream (GlobalMetric_consume_step self)
      (G, refs, predictions, task_data_, instances)
    = Ok (G',
          (refs ++ map references stream)%list,
          (predictions ++ map prediction stream)%list,
          (task_data_
             ++ map (fun i => match task_data i with Some d => d | None => [] end)
                    stream)%list,
          (instances ++ out)%list)
    /\ Forall2 (fun i i' => exists g, i' = GlobalMetric_linked self g i) stream out
    /\ ((stream = [] /\ G' = G)
        \/ exists i', In i' out /\ global_of i' = Some G').
Proof.
  induction stream as [| i stream IH];
    intros Hlink G refs predictions tds instances.
  - exists G, []. cbn [for_each map]. rewrite !app_nil_r.
    split; [reflexivity |]. split; [constructor |]. left. split; reflexivity.
  - assert (Hstep : exists G1,
               GlobalMetric_consume_step self (G, refs, predictions, tds, instances) i
               = Ok (G1,
                     (refs ++ [references i])%list,
                     (predictions ++ [prediction i])%list,
                     (tds ++ [match task_data i with Some d => d | None => [] end])%list,
                     (instances ++ [GlobalMetric_linked self G1 i])%list)
               /\ global_of (GlobalMetric_linked self G1 i) = Some G1).
    { destruct (Hlink i (or_introl eq_refl)) as [Hnone | [g Hg]].
      - exists G. split.
        + apply GlobalMetric_consume_step_linked. left. exact Hnone.
        + apply global_of_GlobalMetric_linked. left. exact Hnone.
      - exists g. split.
        + apply GlobalMetric_consume_step_scored. exact Hg.
        + apply global_of_GlobalMetric_linked. right. exact Hg. }
    destruct Hstep as [G1 [Hstep HG1]].
    destruct (IH (fun j Hj => Hlink j (or_intror Hj)) G1
                 (refs ++ [references i])%list
                 (predictions ++ [prediction i])%list
                 (tds ++ [match task_data i with Some d => d | None => [] end])%list
                 (instances ++ [GlobalMetric_linked self G1 i])%list)
      as [G' [out [Hrun [Hout Hlast]]]].
    exists G', (GlobalMetric_linked self G1 i :: out).
    cbn [for_each]. rewrite Hstep. cbn [bind]. rewrite Hrun.
    cbn [map]. rewrite <- !app_assoc. cbn [app].
    split; [reflexivity |].
    split.
    + constructor; [exists G1; reflexivity | exact Hout].
    + right. destruct Hlast as [[_ ->] | [i' [Hi' Hg']]].
      * exists (GlobalMetric_linked self G1 i). split; [left; reflexivity | exact HG1].
      * exists i'. split; [right; exact Hi' | exact Hg'].
Qed.

(** The instances the loop hands on have the references, the prediction
    and the task data they arrived with. *)
Lemma GlobalMetric_linked_stream_fields (self : metric)
  (stream out : list instance) :
  Forall2 (fun i i' => exists g, i' = GlobalMetric_linked self g i) stream out ->
  map references out = map references stream
  /\ map prediction out = map prediction stream
  /\ map (fun i => match task_data i with Some d => d | None => [] end) out
     = map (fun i => match task_data i with Some d => d | None => [] end) stream.
Proof.
  induction 1 as [| i i' stream out [g ->] _ [IHr [IHp IHt]]].
  - repeat split.
  - cbn [map]. rewrite IHr, IHp, IHt. repeat split.
Qed.

(** C2, amended.  For every [GlobalMetric] with [process_single_instances]
    enabled:
    - when [_compute] raises on the singleton of an instance, the preview
      score recorded for that instance, under [score] and under the main
      score, is [None];
    - whatever the configuration of the metric, on every stream whose
      scored instances have a [global] entry the stream loop runs to its
      end, collects the references, predictions and task data of the whole
      stream, and [process] goes on with the statements after the loop:
      its outcome is the outcome of scoring the whole stream;
    - for a metric without grouping, when the computation over the whole
      stream and the computation of its confidence interval succeed,
      [process] returns: the instances whose singleton raised carry [None]
      as their preview, and the global dictionary (one that a returned
      instance refers to) has received the result of the computation over
      the whole stream and then the confidence interval. *)
Theorem preview_score_none_and_processing_continues :
  forall (self : metric),
    process_single_instances self = true ->
    (forall (G : loc) (i : instance) (e : exn),
        _compute self [references i] [prediction i]
          [match task_data i with Some d => d | None => [] end] = Raise e ->
        instance_score (GlobalMetric_linked self G i) "score" = Ok VNone
        /\ instance_score (GlobalMetric_linked self G i) (main_score self) = Ok VNone)
    /\ (forall (dict_get : instance -> string -> option string)
               (bootstrap : forall P : Type,
                   list P -> (list P -> result scoreval) -> Z ->
                   result (scoreval * scoreval))
               (h : heap) (stream : list instance),
           linkable stream ->
           exists (G : loc) (out : list instance),
             GlobalMetric_consume self (next_loc h) stream
             = Ok (G, map references stream, map prediction stream,
                   map (fun i => match task_data i with Some d => d | None => [] end)
                       stream,
                   out)
             /\ Forall2 (fun i i' => exists g, i' = GlobalMetric_linked self g i)
                        stream out
             /\ GlobalMetric_process dict_get bootstrap self h stream
                = GlobalMetric_score_stream dict_get bootstrap self
                    (fst (heap_alloc h [])) G
                    (map references stream) (map prediction stream)
                    (map (fun i => match task_data i with Some d => d | None => [] end)
                         stream)
                    out)
    /\ (forall (dict_get : instance -> string -> option string)
               (bootstrap : forall P : Type,
                   list P -> (list P -> result scoreval) -> Z ->
                   result (scoreval * scoreval))
               (h : heap) (stream : list instance) (d ci : pydict),
           kind self = GlobalMetric ->
           grouping self = None ->
           subgroup_filtering self = None ->
           control_comparison self = None ->
           linkable stream ->
           stream <> [] ->
           _validate_references_and_prediction self (map references stream)
             (map prediction stream) = Ok tt ->
           _compute self (map references stream) (map prediction stream)
             (map (fun i => match task_data i with Some d => d | None => [] end)
                  stream) = Ok d ->
           NoDup (map fst d) ->
           compute_global_confidence_intervals dict_get bootstrap self
             (map references stream) (map prediction stream)
             (map (fun i => match task_data i with Some d => d | None => [] end)
                  stream) (main_score self) = Ok ci ->
           exists (h' : heap) (G : loc) (out : list instance),
             GlobalMetric_process dict_get bootstrap self h stream = Ok (h', out)
             /\ Forall2
                  (fun i i' =>
                     references i' = references i
                     /\ prediction i' = prediction i
                     /\ task_data i' = task_data i
                     /\ forall e,
                         _compute self [references i] [prediction i]
                           [match task_data i with Some d => d | None => [] end]
                         = Raise e ->
                         instance_score i' "score" = Ok VNone
                         /\ instance_score i' (main_score self) = Ok VNone)
                  stream out
             /\ (exists i', In i' out /\ global_of i' = Some G)
             /\ store h' G
                = dict_update (dict_update (store (fst (heap_alloc h [])) G) d) ci).
Proof.
  intros self Hp.
  assert (Hpreview : forall (G : loc) (i : instance) (e : exn),
             _compute self [references i] [prediction i]
               [match task_data i with Some d => d | None => [] end] = Raise e ->
             instance_score (GlobalMetric_linked self G i) "score" = Ok VNone
             /\ instance_score (GlobalMetric_linked self G i) (main_score self)
                = Ok VNone).
  { intros G i e He.
    pose proof (failed_preview_lookup (main_score self)) as Hfail.
    cbn zeta in Hfail. destruct Hfail as [Hs [Hm Hnd]].
    split; apply instance_score_linked;
      rewrite (global_instance_score_failed self _ _ _ e Hp He); assumption. }
  assert (Hloop : forall (dict_get : instance -> string -> option string)
               (bootstrap : forall P : Type,
                   list P -> (list P -> result scoreval) -> Z ->
                   result (scoreval * scoreval))
               (h : heap) (stream : list instance),
           linkable stream ->
           exists (G : loc) (out : list instance),
             GlobalMetric_consume self (next_loc h) stream
             = Ok (G, map references stream, map prediction stream,
                   map (fun i => match task_data i with Some d => d | None => [] end)
                       stream,
                   out)
             /\ Forall2 (fun i i' => exists g, i' = GlobalMetric_linked self g i)
                        stream out
             /\ ((stream = [] /\ G = next_loc h)
                 \/ exists i', In i' out /\ global_of i' = Some G)
             /\ GlobalMetric_process dict_get bootstrap self h stream
                = GlobalMetric_score_stream dict_get bootstrap self
                    (fst (heap_alloc h [])) G
                    (map references stream) (map prediction stream)
                    (map (fun i => match task_data i with Some d => d | None => [] end)
                         stream)
                    out).
  { intros dict_get bootstrap h stream Hlink.
    destruct (GlobalMetric_consume_linkable self stream Hlink (next_loc h) [] [] [] [])
      as [G [out [Hrun [Hout Hlast]]]].
    cbn [app] in Hrun.
    exists G, out. unfold GlobalMetric_consume.
    split; [exact Hrun |]. split; [exact Hout |]. split; [exact Hlast |].
    unfold GlobalMetric_process, GlobalMetric_consume. cbn [heap_alloc fst].
    rewrite Hrun. reflexivity. }
  split; [exact Hpreview |].
  split.
  { intros dict_get bootstrap h stream Hlink.
    destruct (Hloop dict_get bootstrap h stream Hlink)
      as [G [out [Hrun [Hout [_ Heq]]]]].
    exists G, out. auto. }
  intros dict_get bootstrap h stream d ci Hk Hg Hsf Hcc Hlink Hne Hval Hcomp Hnd Hci.
  destruct (Hloop dict_get bootstrap h stream Hlink)
    as [G [out [_ [Hout [Hlast Heq]]]]].
  destruct (GlobalMetric_linked_stream_fields self stream out Hout) as [Er [Ep Et]].
  assert (Hout_ne : out <> []).
  { inversion Hout; subst; [contradiction | discriminate]. }
  destruct (ungrouped_global_score dict_get self out d Hk Hg Hsf Hcc Hout_ne)
    as [Hgroups Havg].
  { rewrite Er, Ep. exact Hval. }
  { rewrite Er, Ep, Et. exact Hcomp. }
  set (h0 := fst (heap_alloc h [])) in *.
  assert (Hname : dict_lookup (dict_update (store h0 G) d) "score_name"
                  = Some (VStr (main_score self))).
  { apply dict_lookup_update_new; [| exact Hnd].
    apply (_compute_score_name _ _ _ _ _ Hcomp). }
  exists (heap_update (heap_update h0 G d) G ci), G, out.
  split.
  { rewrite Heq. unfold GlobalMetric_score_stream.
    rewrite Hval. cbn [bind]. rewrite Havg. cbn [bind update_global].
    rewrite heap_update_store_same, Hname. cbn [bind].
    rewrite Hgroups. cbn [bind].
    assert (Hfrom : match ci_scores self, grouping self with
                    | Some cis, Some g =>
                        if ci_samples_from_groups_scores g
                        then groups_scores_are_floats cis [("all", GDict d)]
                        else Ok false
                    | _, _ => Ok false
                    end = Ok false).
    { rewrite Hg. destruct (ci_scores self); reflexivity. }
    rewrite Hfrom. cbn [bind]. rewrite Hci. reflexivity. }
  split.
  { clear -Hout Hpreview.
    induction Hout as [| i i' stream out [g ->] _ IH]; constructor; [| exact IH].
    split; [reflexivity |]. split; [reflexivity |]. split; [reflexivity |].
    intros e He. apply (Hpreview g i e He). }
  split.
  { destruct Hlast as [[Hnil _] | Hlast]; [contradiction | exact Hlast]. }
  rewrite !heap_update_store_same. reflexivity.
Qed.

(** [CorpusF1] with resampling, on a stream whose first instance was scored
    by an earlier metric: [compute] raises on both singletons, both previews
    are [None], the run completes, and the global dictionary of the earlier
    metric has received the score one half and its interval. *)
Lemma preview_score_none_and_processing_continues_witness :
  exists h' G i1 i2,
    GlobalMetric_process task_data_get point_bootstrap CorpusF1_with_ci earlier_heap
      [earlier_scored 0%nat "A" "A"; unscored "B" "X"] = Ok (h', [i1; i2])
    /\ instance_score i1 "score" = Ok VNone
    /\ instance_score i1 "f1" = Ok VNone
    /\ instance_score i2 "score" = Ok VNone
    /\ instance_score i2 "f1" = Ok VNone
    /\ global_of i2 = Some G
    /\ dict_lookup (store h' G) "f1" = Some (VFloat (Num (1 # 2)))
    /\ dict_lookup (store h' G) "f1_ci_low" = Some (VFloat (Num (1 # 2))).
Proof.
  destruct (preview_score_none_and_processing_continues CorpusF1_with_ci eq_refl)
    as [_ [_ Hrun]].
  destruct (Hrun task_data_get point_bootstrap earlier_heap
              [earlier_scored 0%nat "A" "A"; unscored "B" "X"]
              [("f1", VFloat (Num (1 # 2))); ("score", VFloat (Num (1 # 2)));
               ("score_name", VStr "f1")]
              [("score_ci_low", VFloat (Num (1 # 2)));
               ("score_ci_high", VFloat (Num (1 # 2)));
               ("f1_ci_low", VFloat (Num (1 # 2)));
               ("f1_ci_high", VFloat (Num (1 # 2)))]
              eq_refl eq_refl eq_refl eq_refl)
    as [h' [G [out [Hok [Hout [[i' [Hi' HG]] Hstore]]]]]].
  - intros i [<- | [<- | []]]; [right; exists 0%nat; reflexivity | left; reflexivity].
  - discriminate.
  - reflexivity.
  - reflexivity.
  - repeat constructor; cbn; intuition discriminate.
  - reflexivity.
  - inversion Hout as [| a i1 l l1 [_ [_ [_ H1]]] Hrest]; subst.
    inversion Hrest as [| b i2 l l2 [_ [_ [_ H2]]] Hnil]; subst.
    inversion Hnil; subst.
    destruct (H1 (ComputeError "needs at least two predictions") eq_refl)
      as [H1s H1m].
    destruct (H2 (ComputeError "needs at least two predictions") eq_refl)
      as [H2s H2m].
    assert (Hc : exists h0 j1 j2,
               GlobalMetric_process task_data_get point_bootstrap CorpusF1_with_ci
                 earlier_heap [earlier_scored 0%nat "A" "A"; unscored "B" "X"]
               = Ok (h0, [j1; j2])
               /\ global_of j1 = Some 0%nat /\ global_of j2 = Some 0%nat).
    { do 3 eexists. split; [vm_compute; reflexivity |]. split; reflexivity. }
    destruct Hc as [h0 [j1 [j2 [Hc [Hj1 Hj2]]]]].
    rewrite Hok in Hc. injection Hc as _ <- <-.
    assert (EG : G = 0%nat).
    { destruct Hi' as [<- | [<- | []]]; congruence. }
    subst G.
    exists h', 0%nat, i1, i2.
    split; [exact Hok |].
    split; [exact H1s |]. split; [exact H1m |].
    split; [exact H2s |]. split; [exact H2m |].
    split; [exact Hj2 |].
    rewrite Hstore. split; reflexivity.
Defined.

(* ------------------------------------------------------------------ *)
(** ** [BulkInstanceMetric.process]: the mean reduction keeps NaN *)

Lemma map_result_as_float_inv (vs : list value) (xs : list scoreval) :
  map_result as_float vs = Ok xs -> vs = map VFloat xs.
Proof.
  revert xs. induction vs as [| v vs IH]; intros xs H.
  - simpl in H. injection H as <-. reflexivity.
  - cbn [map_result] in H. apply bind_ok in H. destruct H as [x [Hx H]].
    apply bind_ok in H. destruct H as [xs' [Hxs H]]. injection H as <-.
    destruct v; try discriminate Hx. injection Hx as ->.
    cbn [map]. rewrite (IH _ Hxs). reflexivity.
Qed.

(** A loop that returned has run its body on every element. *)
Lemma for_each_In_ok {A S} (body : S -> A -> result S) (l : list A) (x : A)
  (s s' : S) :
  for_each l body s = Ok s' -> In x l -> exists s1 s2, body s1 x = Ok s2.
Proof.
  revert s. induction l as [| y l IH]; intros s H Hin; [destruct Hin |].
  cbn [for_each] in H. apply bind_ok in H. destruct H as [s1 [Hy H]].
  destruct Hin as [-> | Hin].
  - exists s, s1. exact Hy.
  - apply (IH s1 H Hin).
Qed.

(** A property of the state that every turn keeps or sets holds at the end
    of a loop that starts with it or goes through a turn that sets it. *)
Lemma for_each_establishes {A S} (P : S -> Prop) (sets : A -> Prop)
  (body : S -> A -> result S) (l : list A) :
  (forall s x s', In x l -> body s x = Ok s' -> sets x \/ P s -> P s') ->
  forall s s',
    for_each l body s = Ok s' ->
    P s \/ (exists x, In x l /\ sets x) ->
    P s'.
Proof.
  induction l as [| y l IH]; intros Hbody s s' H Hstart.
  - simpl in H. injection H as <-.
    destruct Hstart as [Hs | [x [[] _]]]. exact Hs.
  - cbn [for_each] in H. apply bind_ok in H. destruct H as [s1 [Hy H]].
    apply (IH (fun s x s' Hx => Hbody s x s' (or_intror Hx)) s1 s' H).
    destruct Hstart as [Hs | [x [[<- | Hx] Hset]]].
    + left. apply (Hbody s y s1 (or_introl eq_refl) Hy). right. exact Hs.
    + left. apply (Hbody s y s1 (or_introl eq_refl) Hy). left. exact Hset.
    + right. exists x. split; assumption.
Qed.

(** The loop that links the instances to the global dictionary ends on the
    dictionary of the last instance it hands on. *)
Lemma bulk_link_loop_last (pairs : list (instance * pydict)) :
  forall (acc : list instance) (g0 : loc) (out : list instance) (g : loc),
    for_each pairs
      (fun '(instances, global_score) '(i, score_) =>
         ' (i, sec, global_score) <- link_global_score global_score i ;;
         let i := update_instance_section i sec score_ in
         Ok ((instances ++ [i])%list, global_score))
      (acc, g0) = Ok (out, g) ->
    (pairs = [] /\ out = acc /\ g = g0)
    \/ exists front i', out = (front ++ [i'])%list /\ global_of i' = Some g.
Proof.
  induction pairs as [| [i sc] pairs IH]; intros acc g0 out g H.
  - simpl in H. injection H as <- <-. left. repeat split.
  - right. cbn [for_each] in H. apply bind_ok in H.
    destruct H as [[acc1 g1] [Hstep H]].
    apply bind_ok in Hstep. destruct Hstep as [[[i1 sec] g2] [Hlink Hstep]].
    injection Hstep as <- <-.
    assert (Hg : global_of (update_instance_section i1 sec sc) = Some g2).
    { unfold link_global_score in Hlink.
      destruct (score i) as [s |] eqn:Es.
      - destruct (sglobal s) as [g' |] eqn:Eg; [| discriminate Hlink].
        injection Hlink as <- <- <-. unfold global_of. cbn. exact Eg.
      - injection Hlink as <- <- <-. reflexivity. }
    destruct (IH _ _ _ _ H) as [[-> [-> ->]] | Hlast].
    + do 2 eexists. split; [reflexivity | exact Hg].
    + exact Hlast.
Qed.

(** One turn of the mean reduction sets the entry of its own field to the
    mean of that field and leaves the entries of the other fields alone. *)
Lemma reduce_mean_field_entry (self : metric) (instances : list instance)
  (h h1 : heap) (G : loc) (f field_name : string) (vs : list value) (m : scoreval) :
  instance_scores instances field_name = Ok vs ->
  statistics_mean vs = Ok m ->
  field_name <> "score_name" ->
  (field_name = "score" -> main_score self = "score") ->
  reduce_mean_field self instances h G f = Ok h1 ->
  f = field_name \/ dict_lookup (store h G) field_name = Some (VFloat m) ->
  dict_lookup (store h1 G) field_name = Some (VFloat m).
Proof.
  intros Hvs Hm Hsn Hscore Hrun Hstart.
  unfold reduce_mean_field in Hrun.
  apply bind_ok in Hrun. destruct Hrun as [xs [Hxs Hrun]].
  apply bind_ok in Hrun. destruct Hrun as [m' [Hm' Hrun]].
  assert (Hfirst : dict_lookup
                     (store (heap_update h G [(f, VFloat m')]) G) field_name
                   = Some (VFloat m)).
  { rewrite heap_update_store_same. unfold dict_update. cbn [fold_left fst snd].
    destruct (string_dec f field_name) as [-> | Hne].
    - rewrite Hvs in Hxs. injection Hxs as <-. rewrite Hm in Hm'.
      injection Hm' as <-. apply dict_lookup_set_same.
    - rewrite dict_lookup_set_other by (intros E; apply Hne; symmetry; exact E).
      destruct Hstart as [E | Hs]; [contradiction | exact Hs]. }
  destruct (String.eqb f (main_score self)) eqn:Emain.
  - apply String.eqb_eq in Emain.
    apply bind_ok in Hrun. destruct Hrun as [v [Hv Hrun]].
    injection Hrun as <-.
    rewrite !heap_update_store_same. unfold dict_update at 1. cbn [fold_left fst snd].
    rewrite dict_lookup_set_other by exact Hsn.
    unfold dict_update at 1. cbn [fold_left fst snd].
    destruct (string_dec field_name "score") as [Es | Es].
    + (* the field is [score], and so is the main score and [f] *)
      assert (Ef : f = field_name).
      { rewrite Emain, (Hscore Es). symmetry. exact Es. }
      clear Emain. subst f. unfold dict_getitem in Hv. rewrite Hfirst in Hv.
      injection Hv as <-. rewrite Es. apply dict_lookup_set_same.
    + rewrite dict_lookup_set_other by exact Es.
      rewrite <- heap_update_store_same. exact Hfirst.
  - injection Hrun as <-. exact Hfirst.
Qed.

(** C10.  Whenever [BulkInstanceMetric.process] returns, for every field
    the [mean] reduction lists, the global dictionary (the one the last
    returned instance refers to) holds under that field the plain arithmetic
    mean ([statistics.mean]) of the instance scores of all returned
    instances: when no score is NaN it is their mean, and as soon as one
    score is NaN it is NaN.  The later fields, the [score] and [score_name]
    entries and the confidence intervals leave the entry alone.  On the same
    instances the default aggregation of [InstanceMetric] leaves the NaN out
    and returns the mean of the others.  The field is assumed not to be
    called [score_name], not to be called [score] unless the main score is,
    and not to be a confidence-interval key. *)
Theorem bulk_mean_reduction_includes_nan :
  forall (bootstrap : forall P : Type, list P -> (list P -> result scoreval) -> Z ->
                                       result (scoreval * scoreval))
         (self : metric) (h h' : heap) (stream out : list instance)
         (fields : list string) (field_name : string),
    BulkInstanceMetric_process bootstrap self h stream = Ok (h', out) ->
    In ("mean", fields) (reduction_map self) ->
    In field_name fields ->
    field_name <> "score_name" ->
    (field_name = "score" -> main_score self = "score") ->
    (forall x, field_name <> (x ++ "_ci_low")%string) ->
    (forall x, field_name <> (x ++ "_ci_high")%string) ->
    exists (G : loc) (front : list instance) (last_ : instance)
           (xs : list scoreval) (m : scoreval),
      out = (front ++ [last_])%list
      /\ global_of last_ = Some G
      /\ instance_scores out field_name = Ok (map VFloat xs)
      /\ dict_lookup (store h' G) field_name = Some (VFloat m)
      /\ (In NaN xs -> m = NaN)
      /\ (forall l, xs = map Num l ->
                    exists q, m = Num q /\ q == arithmetic_mean l)
      /\ (In NaN xs -> non_nan xs <> [] ->
          exists q, average_item_scores out field_name = Ok (Num q)
                    /\ q == arithmetic_mean (non_nan xs)).
Proof.
  intros bootstrap self h h' stream out fields field_name
         H Hmean Hfield Hsn Hscore Hlow Hhigh.
  unfold BulkInstanceMetric_process in H. cbn [heap_alloc] in H.
  destruct stream as [| i0 stream0]; [discriminate H |].
  set (stream := i0 :: stream0) in *.
  apply bind_ok in H. destruct H as [_ [_ H]].
  apply bind_ok in H. destruct H as [scores [_ H]].
  apply bind_ok in H. destruct H as [scores' [_ H]].
  apply bind_ok in H. destruct H as [[instances G] [Hloop H]].
  apply bind_ok in H. destruct H as [h1 [Hred H]].
  injection H as -> ->.
  (* the reduction ran on the field *)
  destruct (for_each_In_ok _ _ _ _ _ Hred Hmean) as [ha [hb Hbody]].
  destruct (negb (mem_string "mean" (implemented_reductions self)));
    [discriminate Hbody |].
  cbn [String.eqb Ascii.eqb Bool.eqb] in Hbody.
  apply bind_ok in Hbody. destruct Hbody as [hc [Hfields _]].
  destruct (for_each_In_ok _ _ _ _ _ Hfields Hfield) as [hd [he Hone]].
  pose proof Hone as Hone'.
  unfold reduce_mean_field in Hone'.
  apply bind_ok in Hone'. destruct Hone' as [vs [Hvs Hone']].
  apply bind_ok in Hone'. destruct Hone' as [m [Hm _]].
  assert (Hxs : exists xs, vs = map VFloat xs /\ xs <> []
                           /\ statistics_mean (map VFloat xs) = Ok m).
  { pose proof Hm as Hm'. unfold statistics_mean in Hm'.
    apply bind_ok in Hm'. destruct Hm' as [xs [Hxs Hm']].
    exists xs. pose proof (map_result_as_float_inv _ _ Hxs) as E.
    split; [exact E |]. split.
    - intros ->. discriminate Hm'.
    - rewrite <- E. exact Hm. }
  destruct Hxs as [xs [-> [Hne Hm']]].
  (* the instances end on the one that refers to [G] *)
  destruct (bulk_link_loop_last _ _ _ _ _ Hloop) as [[_ [Hnil _]] | Hlast].
  { exfalso. subst out. destruct xs; [contradiction | discriminate Hvs]. }
  destruct Hlast as [front [last_ [Hout HG]]].
  exists G, front, last_, xs, m.
  split; [exact Hout |]. split; [exact HG |]. split; [exact Hvs |].
  split.
  { (* the entry at the end of the reductions *)
    eapply (for_each_establishes
              (fun h => dict_lookup (store h G) field_name = Some (VFloat m))
              (fun x => x = ("mean", fields))); [| exact Hred |].
    - intros s [reduction fs] s' _ Hturn Hstart.
      destruct (negb (mem_string reduction (implemented_reductions self)));
        [discriminate Hturn |].
      destruct (String.eqb reduction "mean") eqn:Er.
      + apply bind_ok in Hturn. destruct Hturn as [s1 [Hfs Hturn]].
        apply bind_ok in Hturn. destruct Hturn as [ci [Hci Hturn]].
        injection Hturn as <-.
        rewrite heap_update_store_same.
        rewrite dict_lookup_update_absent
          by (eapply score_based_confidence_interval_key_absent; eassumption).
        eapply (for_each_establishes
                  (fun h => dict_lookup (store h G) field_name = Some (VFloat m))
                  (fun f => f = field_name)); [| exact Hfs |].
        * intros t f t' _ Hf Hs.
          apply (reduce_mean_field_entry self out t t' G f field_name
                   (map VFloat xs) m Hvs Hm' Hsn Hscore Hf Hs).
        * destruct Hstart as [E | Hs].
          -- right. exists field_name. injection E as _ ->.
             split; [exact Hfield | reflexivity].
          -- left. exact Hs.
      + injection Hturn as <-.
        destruct Hstart as [E | Hs]; [| exact Hs].
        injection E as -> _. discriminate Er.
    - right. exists ("mean", fields). split; [exact Hmean | reflexivity]. }
  assert (Hvals : (In NaN xs -> m = NaN)
                  /\ (forall l, xs = map Num l ->
                        exists q, m = Num q /\ q == arithmetic_mean l)).
  { split.
    - intros Hin. rewrite (statistics_mean_in_nan xs Hin) in Hm'.
      injection Hm' as <-. reflexivity.
    - intros l ->.
      assert (Hl : l <> []) by (intros ->; apply Hne; reflexivity).
      destruct (statistics_mean_num l Hl) as [q [Hq Hq']].
      rewrite Hq in Hm'. injection Hm' as <-.
      exists q. split; [reflexivity | exact Hq']. }
  destruct Hvals as [Hnan Hnum].
  split; [exact Hnan |]. split; [exact Hnum |].
  intros _ Hnn.
  destruct (average_item_scores_non_nan_mean out field_name xs Hvs Hnn)
    as [q [Hq Hq']].
  exists q. split; assumption.
Qed.

(** Two instances, scored 1 and NaN by [compute]: the run completes and the
    reduced global score is NaN, while the mean that leaves NaN out is 1. *)
Lemma bulk_mean_reduction_includes_nan_witness :
  exists h' out G,
    BulkInstanceMetric_process point_bootstrap nan_bulk_metric empty_heap
      [unscored "a" "a"; unscored "b" "c"] = Ok (h', out)
    /\ dict_lookup (store h' G) "f" = Some (VFloat NaN)
    /\ exists q, average_item_scores out "f" = Ok (Num q) /\ q == 1.
Proof.
  assert (H : exists h' out,
             BulkInstanceMetric_process point_bootstrap nan_bulk_metric empty_heap
               [unscored "a" "a"; unscored "b" "c"] = Ok (h', out)
             /\ instance_scores out "f" = Ok (map VFloat [Num 1; NaN])).
  { do 2 eexists. split; [vm_compute; reflexivity | reflexivity]. }
  destruct H as [h' [out [H Hscores]]].
  destruct (bulk_mean_reduction_includes_nan point_bootstrap nan_bulk_metric
              empty_heap h' [unscored "a" "a"; unscored "b" "c"] out ["f"] "f" H)
    as [G [front [last_ [xs [m [_ [_ [Hxs [Hlook [Hnan [_ Havg]]]]]]]]]]].
  - left. reflexivity.
  - left. reflexivity.
  - discriminate.
  - discriminate.
  - intros x E. apply (f_equal last_char) in E.
    rewrite last_char_append in E by discriminate. discriminate E.
  - intros x E. apply (f_equal last_char) in E.
    rewrite last_char_append in E by discriminate. discriminate E.
  - rewrite Hscores in Hxs. injection Hxs as Hxs.
    assert (E : xs = [Num 1; NaN]).
    { destruct xs as [| a [| b [| c xs]]]; try discriminate Hxs.
      injection Hxs as -> ->. reflexivity. }
    subst xs.
    exists h', out, G. split; [exact H |].
    split.
    + rewrite Hlook, Hnan; [reflexivity | right; left; reflexivity].
    + destruct Havg as [q [Hq Hq']]; [right; left; reflexivity | discriminate |].
      exists q. split; [exact Hq |]. rewrite Hq'. vm_compute. reflexivity.
Defined.

(* ================================================================== *)
(** * Further properties of the aggregation engine *)

(* ------------------------------------------------------------------ *)
(** ** Grouping is a partition *)

Lemma for_each_app {A S} (body : S -> A -> result S) (l1 l2 : list A) (s : S) :
  for_each (l1 ++ l2) body s = (s' <- for_each l1 body s ;; for_each l2 body s').
Proof.
  revert s. induction l1 as [| x l1 IH]; intros s; simpl.
  - reflexivity.
  - destruct (body s x) as [s1 | e]; simpl; [apply IH | reflexivity].
Qed.

Lemma first_seen_In (l : list string) (x : string) :
  In x (first_seen l) <-> In x l.
Proof.
  induction l as [| y l IH]; simpl; [tauto |].
  rewrite filter_In, IH.
  destruct (string_dec y x) as [-> | Hne]; [tauto |].
  split.
  - intros [H | [H _]]; [left; exact H | right; exact H].
  - intros [H | H]; [contradiction |].
    right. split; [exact H |].
    apply negb_true_iff, String.eqb_neq. intros ->. apply Hne. reflexivity.
Qed.

Lemma filter_keep_all {A} (p : A -> bool) (l : list A) :
  (forall x, In x l -> p x = true) -> filter p l = l.
Proof.
  induction l as [| x l IH]; simpl; intros H; [reflexivity |].
  rewrite (H x (or_introl eq_refl)), IH; [reflexivity |].
  intros y Hy. apply H. right. exact Hy.
Qed.

Lemma first_seen_snoc (l : list string) (x : string) :
  first_seen (l ++ [x])
  = if mem_string x l then first_seen l else (first_seen l ++ [x])%list.
Proof.
  induction l as [| y l IH]; simpl.
  - reflexivity.
  - rewrite IH. unfold mem_string in *. simpl.
    destruct (String.eqb x y) eqn:Exy; simpl.
    + apply String.eqb_eq in Exy. subst y.
      destruct (existsb (String.eqb x) l).
      * reflexivity.
      * rewrite filter_app. simpl. rewrite String.eqb_refl. simpl.
        rewrite app_nil_r. reflexivity.
    + destruct (existsb (String.eqb x) l).
      * reflexivity.
      * rewrite filter_app. simpl. rewrite Exy. reflexivity.
Qed.

Lemma first_seen_NoDup (l : list string) : NoDup (first_seen l).
Proof.
  induction l as [| x l IH]; simpl; constructor.
  - intros H. apply filter_In in H. destruct H as [_ H].
    rewrite String.eqb_refl in H. discriminate H.
  - apply NoDup_filter. exact IH.
Qed.

Lemma mem_string_In (x : string) (l : list string) :
  mem_string x l = true <-> In x l.
Proof.
  unfold mem_string. rewrite existsb_exists. split.
  - intros [y [Hy E]]. apply String.eqb_eq in E. subst y. exact Hy.
  - intros H. exists x. split; [exact H | apply String.eqb_refl].
Qed.

(** [append_to_group] on groups with distinct names: the instance joins the
    group of its name, or opens a new group at the end. *)
Lemma append_to_group_map (f : string -> list instance) (name : string)
  (i : instance) (names : list string) :
  NoDup names ->
  append_to_group (map (fun n => (n, f n)) names) name i
  = if mem_string name names
    then map (fun n => (n, if String.eqb n name then (f n ++ [i])%list else f n)) names
    else (map (fun n => (n, f n)) names ++ [(name, [i])])%list.
Proof.
  induction names as [| n names IH]; intros Hnd; simpl.
  - reflexivity.
  - inversion Hnd as [| ? ? Hnotin Hnd']; subst.
    unfold mem_string in *. simpl.
    destruct (String.eqb name n) eqn:E; simpl.
    + apply String.eqb_eq in E. subst n. rewrite String.eqb_refl. f_equal.
      apply map_ext_in. intros m Hm.
      destruct (String.eqb m name) eqn:Em; [| reflexivity].
      apply String.eqb_eq in Em. subst m. contradiction.
    + rewrite String.eqb_sym, E. rewrite (IH Hnd').
      destruct (existsb (String.eqb name) names); reflexivity.
Qed.

Lemma partition_by_snoc
  (dict_get : instance -> string -> option string) (path name : string)
  (l : list instance) (i : instance) :
  (forall j, In j l -> dict_get j path <> None) ->
  dict_get i path = Some name ->
  append_to_group (partition_by dict_get path l) name i
  = partition_by dict_get path (l ++ [i]).
Proof.
  intros Hl Hi. unfold partition_by.
  rewrite append_to_group_map by apply first_seen_NoDup.
  assert (Hkeys : map (value_at dict_get path) (l ++ [i])
                  = (map (value_at dict_get path) l ++ [name])%list).
  { rewrite map_app. simpl. unfold value_at at 2. rewrite Hi. reflexivity. }
  rewrite Hkeys, first_seen_snoc.
  assert (Hstep : forall n,
             filter (has_value dict_get path n) (l ++ [i])
             = if String.eqb n name
               then (filter (has_value dict_get path n) l ++ [i])%list
               else filter (has_value dict_get path n) l).
  { intros n. rewrite filter_app. simpl. unfold has_value at 2. rewrite Hi.
    rewrite (String.eqb_sym name n).
    destruct (String.eqb n name); [reflexivity | apply app_nil_r]. }
  destruct (mem_string name (map (value_at dict_get path) l)) eqn:Hmem.
  - assert (Hin : mem_string name (first_seen (map (value_at dict_get path) l)) = true).
    { apply (proj2 (mem_string_In _ _)), (proj2 (first_seen_In _ _)),
        (proj1 (mem_string_In _ _)). exact Hmem. }
    rewrite Hin. apply map_ext. intros n. rewrite Hstep. reflexivity.
  - assert (Hin : mem_string name (first_seen (map (value_at dict_get path) l)) = false).
    { apply not_true_is_false. intros H.
      apply (proj1 (mem_string_In _ _)) in H.
      apply (proj1 (first_seen_In _ _)) in H.
      apply (proj2 (mem_string_In _ _)) in H.
      rewrite H in Hmem. discriminate Hmem. }
    rewrite Hin. rewrite map_app. simpl. f_equal.
    + apply map_ext_in. intros n Hn. rewrite Hstep.
      destruct (String.eqb n name) eqn:E; [| reflexivity].
      apply String.eqb_eq in E. subst n.
      apply (proj1 (first_seen_In _ _)) in Hn.
      apply (proj2 (mem_string_In _ _)) in Hn.
      rewrite Hn in Hmem. discriminate Hmem.
    + rewrite Hstep, String.eqb_refl. f_equal. f_equal.
      assert (Hnone : filter (has_value dict_get path name) l = []).
      { apply not_true_iff_false in Hmem.
        assert (Hno : forall j, In j l -> has_value dict_get path name j = false).
        { intros j Hj. unfold has_value.
          destruct (dict_get j path) as [v |] eqn:Ev; [| reflexivity].
          apply String.eqb_neq. intros ->. apply Hmem.
          apply (proj2 (mem_string_In _ _)), in_map_iff.
          exists j. split; [| exact Hj].
          unfold value_at. rewrite Ev. reflexivity. }
        clear -Hno. induction l as [| j l IH]; simpl; [reflexivity |].
        rewrite (Hno j (or_introl eq_refl)). apply IH.
        intros k Hk. apply Hno. right. exact Hk. }
      rewrite Hnone. reflexivity.
Qed.

(** The grouping loop computes [partition_by]. *)
Lemma group_instances_partition_by
  (dict_get : instance -> string -> option string) (g : grouping_cfg)
  (instances : list instance) :
  (forall i, In i instances -> dict_get i (group_by_field g) <> None) ->
  group_instances dict_get g instances
  = Ok (partition_by dict_get (group_by_field g) instances).
Proof.
  intros Hall. set (path := group_by_field g) in *.
  unfold group_instances.
  assert (Hloop : forall l,
             (forall i, In i l -> dict_get i path <> None) ->
             for_each l
               (fun '(group_name, grouped) i =>
                  match dict_get i path with
                  | Some name => Ok (Some name, append_to_group grouped name i)
                  | None =>
                      match group_name with
                      | Some stale => Raise (ValueErrorMissing ArgGrouping i stale)
                      | None => Raise (UnboundLocalError "group_name")
                      end
                  end)
               (None, [])
             = Ok (match rev l with
                   | [] => None
                   | i :: _ => Some (value_at dict_get path i)
                   end,
                   partition_by dict_get path l)).
  { induction l as [| i l IH] using rev_ind; intros Hl.
    - reflexivity.
    - rewrite for_each_app, IH by (intros j Hj; apply Hl, in_or_app; left; exact Hj).
      cbn [bind for_each].
      destruct (dict_get i path) as [name |] eqn:Ei.
      + cbn [bind]. rewrite rev_app_distr. simpl.
        unfold value_at. rewrite Ei.
        rewrite partition_by_snoc;
          [reflexivity | | exact Ei].
        intros j Hj. apply Hl, in_or_app. left. exact Hj.
      + exfalso. apply (Hl i); [apply in_or_app; right; left; reflexivity | exact Ei]. }
  fold path. rewrite (Hloop instances Hall). reflexivity.
Qed.

(** X1.  The grouping loop of [score_groups_globally] partitions the
    stream: when [dict_get] finds the grouping field in every instance, the
    groups are keyed by the distinct values of the field in the order of
    their first appearance, and each group holds exactly the instances with
    that value, in stream order.  Hence the group names are distinct, no
    group is empty, and every instance is in the group of its value. *)
Theorem group_instances_is_partition :
  forall (dict_get : instance -> string -> option string) (g : grouping_cfg)
         (instances : list instance),
    (forall i, In i instances -> dict_get i (group_by_field g) <> None) ->
    group_instances dict_get g instances
    = Ok (partition_by dict_get (group_by_field g) instances)
    /\ NoDup (map fst (partition_by dict_get (group_by_field g) instances))
    /\ (forall name members,
           In (name, members) (partition_by dict_get (group_by_field g) instances) ->
           members <> []
           /\ members = filter (has_value dict_get (group_by_field g) name) instances)
    /\ (forall i name,
           In i instances ->
           dict_get i (group_by_field g) = Some name ->
           exists members,
             In (name, members) (partition_by dict_get (group_by_field g) instances)
             /\ In i members).
Proof.
  intros dict_get g instances Hall.
  set (path := group_by_field g) in *.
  split; [| split; [| split]].
  - apply group_instances_partition_by. exact Hall.
  - unfold partition_by. rewrite map_map. simpl. rewrite map_id.
    apply first_seen_NoDup.
  - intros name members Hin. unfold partition_by in Hin.
    apply in_map_iff in Hin. destruct Hin as [n [E Hn]].
    injection E as <- <-. split; [| reflexivity].
    apply first_seen_In, in_map_iff in Hn. destruct Hn as [i [Ei Hi]].
    intros Hnil.
    assert (Hf : In i (filter (has_value dict_get path n) instances)).
    { apply filter_In. split; [exact Hi |]. unfold has_value.
      unfold value_at in Ei.
      destruct (dict_get i path) as [v |] eqn:Ev.
      - subst v. apply String.eqb_refl.
      - exfalso. apply (Hall i Hi). exact Ev. }
    rewrite Hnil in Hf. exact Hf.
  - intros i name Hi Ei.
    exists (filter (has_value dict_get path name) instances). split.
    + unfold partition_by. apply in_map_iff. exists name. split; [reflexivity |].
      apply first_seen_In, in_map_iff. exists i. split; [| exact Hi].
      unfold value_at. fold path. rewrite Ei. reflexivity.
    + apply filter_In. split; [exact Hi |]. unfold has_value. fold path.
      rewrite Ei. apply String.eqb_refl.
Qed.

(** [GroupMeanAccuracy] groups by [task_data/group_id]: the stream of the
    groups g1, g2, g1 is split into g1 (two instances) and g2 (one). *)
Lemma group_instances_is_partition_witness :
  group_instances task_data_get
    {| group_by_field := "task_data/group_id";
       ci_samples_from_groups_scores := false |} grouped_stream
  = Ok [("g1", [nth 0 grouped_stream (unscored "" "");
                nth 2 grouped_stream (unscored "" "")]);
        ("g2", [nth 1 grouped_stream (unscored "" "")])].
Proof.
  destruct (group_instances_is_partition task_data_get
              {| group_by_field := "task_data/group_id";
                 ci_samples_from_groups_scores := false |} grouped_stream)
    as [Hrun _].
  - intros i [<- | [<- | [<- | []]]]; discriminate.
  - rewrite Hrun. reflexivity.
Defined.

(* ------------------------------------------------------------------ *)
(** ** Subgroup filtering and the control/comparison split *)

Lemma filter_group_loop
  (dict_get : instance -> string -> option string) (sf : subgroup_filtering_cfg)
  (l : list instance) :
  (forall i, In i l -> dict_get i (sf_subgroup_column sf) <> None) ->
  forall acc,
    for_each l
      (fun filtered_group i =>
         match dict_get i (sf_subgroup_column sf) with
         | None =>
             Raise (ValueErrorMissing ArgSubgroupFiltering i (sf_subgroup_column sf))
         | Some subgroup_type =>
             if mem_string subgroup_type (subgroup_types sf)
             then Ok (filtered_group ++ [i])%list
             else Ok filtered_group
         end)
      acc
    = Ok (acc ++ filter (value_among dict_get (sf_subgroup_column sf)
                           (subgroup_types sf)) l)%list.
Proof.
  induction l as [| i l IH]; intros Hl acc; simpl.
  - rewrite app_nil_r. reflexivity.
  - destruct (dict_get i (sf_subgroup_column sf)) as [v |] eqn:Ei.
    + assert (Hv : value_among dict_get (sf_subgroup_column sf) (subgroup_types sf) i
                   = mem_string v (subgroup_types sf))
        by (unfold value_among; rewrite Ei; reflexivity).
      rewrite Hv.
      destruct (mem_string v (subgroup_types sf)); cbn [bind].
      * rewrite IH by (intros j Hj; apply Hl; right; exact Hj).
        rewrite <- app_assoc. reflexivity.
      * apply IH. intros j Hj. apply Hl. right. exact Hj.
    + exfalso. apply (Hl i (or_introl eq_refl)). exact Ei.
Qed.

(** X2.  Subgroup filtering keeps, in stream order, exactly the instances
    whose value at [subgroup_column] is one of [subgroup_types]; and when an
    instance lacks the column, the first such instance stops the filtering
    with a [ValueError] that shows this instance and the configured
    column. *)
Theorem filter_group_keeps_subgroup_types :
  forall (dict_get : instance -> string -> option string)
         (sf : subgroup_filtering_cfg) (members : list instance),
    ((forall i, In i members -> dict_get i (sf_subgroup_column sf) <> None) ->
     filter_group dict_get sf members
     = Ok (filter (value_among dict_get (sf_subgroup_column sf) (subgroup_types sf))
                  members))
    /\ (forall before i after,
           members = (before ++ i :: after)%list ->
           (forall j, In j before -> dict_get j (sf_subgroup_column sf) <> None) ->
           dict_get i (sf_subgroup_column sf) = None ->
           filter_group dict_get sf members
           = Raise (ValueErrorMissing ArgSubgroupFiltering i (sf_subgroup_column sf))).
Proof.
  intros dict_get sf members. split.
  - intros Hall. unfold filter_group.
    rewrite (filter_group_loop dict_get sf members Hall []). reflexivity.
  - intros before i after -> Hbefore Hi. unfold filter_group.
    rewrite for_each_app, (filter_group_loop dict_get sf before Hbefore []).
    cbn [bind for_each]. rewrite Hi. reflexivity.
Qed.

(** Keeping the originals of [grouped_stream]; and a stream whose second
    instance has no [variant_type]. *)
Lemma filter_group_keeps_subgroup_types_witness :
  filter_group task_data_get
    {| sf_subgroup_column := "task_data/variant_type";
       subgroup_types := ["original"] |} grouped_stream
  = Ok [nth 0 grouped_stream (unscored "" ""); nth 2 grouped_stream (unscored "" "")]
  /\ filter_group task_data_get
       {| sf_subgroup_column := "task_data/variant_type";
          subgroup_types := ["original"] |}
       [nth 0 grouped_stream (unscored "" ""); scored "accuracy" (Num 1) []]
     = Raise (ValueErrorMissing ArgSubgroupFiltering (scored "accuracy" (Num 1) [])
                "task_data/variant_type").
Proof.
  split.
  - rewrite (proj1 (filter_group_keeps_subgroup_types task_data_get
                      {| sf_subgroup_column := "task_data/variant_type";
                         subgroup_types := ["original"] |} grouped_stream)).
    + reflexivity.
    + intros i [<- | [<- | [<- | []]]]; discriminate.
  - apply (proj2 (filter_group_keeps_subgroup_types task_data_get
                    {| sf_subgroup_column := "task_data/variant_type";
                       subgroup_types := ["original"] |}
                    [nth 0 grouped_stream (unscored "" "");
                     scored "accuracy" (Num 1) []])
             [nth 0 grouped_stream (unscored "" "")]
             (scored "accuracy" (Num 1) []) []).
    + reflexivity.
    + intros j [<- | []]. discriminate.
    + reflexivity.
Defined.

Lemma split_group_loop
  (dict_get : instance -> string -> option string) (cc : control_comparison_cfg)
  (l : list instance) :
  (forall i, In i l -> dict_get i (cc_subgroup_column cc) <> None) ->
  forall control comparison,
    for_each l
      (fun '(control_group, comparison_group) i =>
         match dict_get i (cc_subgroup_column cc) with
         | None =>
             Raise (ValueErrorMissing ArgControlComparison i (cc_subgroup_column cc))
         | Some subgroup_type =>
             if mem_string subgroup_type (control_subgroup_types cc)
             then Ok ((control_group ++ [i])%list, comparison_group)
             else if mem_string subgroup_type (comparison_subgroup_types cc)
             then Ok (control_group, (comparison_group ++ [i])%list)
             else Ok (control_group, comparison_group)
         end)
      (control, comparison)
    = Ok ((control
             ++ filter (value_among dict_get (cc_subgroup_column cc)
                          (control_subgroup_types cc)) l)%list,
          (comparison
             ++ filter (fun i =>
                          negb (value_among dict_get (cc_subgroup_column cc)
                                  (control_subgroup_types cc) i)
                          && value_among dict_get (cc_subgroup_column cc)
                               (comparison_subgroup_types cc) i) l)%list).
Proof.
  induction l as [| i l IH]; intros Hl control comparison; simpl.
  - rewrite !app_nil_r. reflexivity.
  - destruct (dict_get i (cc_subgroup_column cc)) as [v |] eqn:Ei.
    + assert (Hc : value_among dict_get (cc_subgroup_column cc)
                     (control_subgroup_types cc) i
                   = mem_string v (control_subgroup_types cc))
        by (unfold value_among; rewrite Ei; reflexivity).
      assert (Hp : value_among dict_get (cc_subgroup_column cc)
                     (comparison_subgroup_types cc) i
                   = mem_string v (comparison_subgroup_types cc))
        by (unfold value_among; rewrite Ei; reflexivity).
      rewrite Hc, Hp.
      destruct (mem_string v (control_subgroup_types cc)); cbn [bind negb andb].
      * rewrite IH by (intros j Hj; apply Hl; right; exact Hj).
        rewrite <- app_assoc. reflexivity.
      * destruct (mem_string v (comparison_subgroup_types cc)); cbn [bind].
        -- rewrite IH by (intros j Hj; apply Hl; right; exact Hj).
           rewrite <- app_assoc. reflexivity.
        -- apply IH. intros j Hj. apply Hl. right. exact Hj.
    + exfalso. apply (Hl i (or_introl eq_refl)). exact Ei.
Qed.

(** X3.  The control/comparison split of a group: the control list holds
    the instances whose value at [subgroup_column] is a control type, the
    comparison list holds those whose value is a comparison type and not a
    control type (a type listed on both sides counts as control), both in
    stream order; instances of neither kind are dropped, and no instance is
    in both lists. *)
Theorem split_group_control_first :
  forall (dict_get : instance -> string -> option string)
         (cc : control_comparison_cfg) (members : list instance),
    (forall i, In i members -> dict_get i (cc_subgroup_column cc) <> None) ->
    exists control comparison,
      split_group dict_get cc members = Ok (Split control comparison)
      /\ control
         = filter (value_among dict_get (cc_subgroup_column cc)
                     (control_subgroup_types cc)) members
      /\ comparison
         = filter (fun i =>
                     negb (value_among dict_get (cc_subgroup_column cc)
                             (control_subgroup_types cc) i)
                     && value_among dict_get (cc_subgroup_column cc)
                          (comparison_subgroup_types cc) i) members
      /\ (forall i, In i control -> ~ In i comparison)
      /\ (forall i, In i members ->
                    value_among dict_get (cc_subgroup_column cc)
                      (control_subgroup_types cc) i = false ->
                    value_among dict_get (cc_subgroup_column cc)
                      (comparison_subgroup_types cc) i = false ->
                    ~ In i control /\ ~ In i comparison).
Proof.
  intros dict_get cc members Hall.
  do 2 eexists. split.
  - unfold split_group. rewrite (split_group_loop dict_get cc members Hall [] []).
    reflexivity.
  - split; [reflexivity |]. split; [reflexivity |]. split.
    + intros i Hc Hp. apply filter_In in Hc. apply filter_In in Hp.
      destruct Hc as [_ Hc]. destruct Hp as [_ Hp].
      rewrite Hc in Hp. discriminate Hp.
    + intros i Hi Hc Hp. split; intros H; apply filter_In in H; destruct H as [_ H].
      * rewrite Hc in H. discriminate H.
      * rewrite Hp, andb_false_r in H. discriminate H.
Qed.

(** The control/comparison split of [FixedGroupPDRParaphraseAccuracy] on
    [grouped_stream]: two originals in the control list, the paraphrase in
    the comparison list. *)
Lemma split_group_control_first_witness :
  split_group task_data_get
    {| cc_subgroup_column := "task_data/variant_type";
       control_subgroup_types := ["original"];
       comparison_subgroup_types := ["paraphrase"];
       control_comparison_score_calculator := performance_drop_rate |}
    grouped_stream
  = Ok (Split [nth 0 grouped_stream (unscored "" "");
               nth 2 grouped_stream (unscored "" "")]
              [nth 1 grouped_stream (unscored "" "")]).
Proof.
  destruct (split_group_control_first task_data_get
              {| cc_subgroup_column := "task_data/variant_type";
                 control_subgroup_types := ["original"];
                 comparison_subgroup_types := ["paraphrase"];
                 control_comparison_score_calculator := performance_drop_rate |}
              grouped_stream)
    as [control [comparison [Hrun [Hc [Hp _]]]]].
  - intros i [<- | [<- | [<- | []]]]; discriminate.
  - rewrite Hrun, Hc, Hp. reflexivity.
Defined.

(* ------------------------------------------------------------------ *)
(** ** Minimum and maximum of the instance scores *)

Lemma np_min_least (l : list Q) :
  l <> [] ->
  exists lo, np_min (map Num l) = Num lo
             /\ In lo l /\ forall q, In q l -> lo <= q.
Proof.
  induction l as [| x l IH]; intros Hne; [contradiction |].
  destruct l as [| y l'].
  - exists x. split; [reflexivity |]. split; [left; reflexivity |].
    intros q [<- | []]. apply Qle_refl.
  - destruct IH as [lo [Hlo [Hin Hall]]]; [discriminate |].
    change (np_min (map Num (x :: y :: l')))
      with (match np_min (map Num (y :: l')) with
            | Num q => Num (if Qle_bool x q then x else q)
            | NaN => NaN
            end).
    rewrite Hlo.
    destruct (Qle_bool x lo) eqn:E.
    + exists x. split; [reflexivity |]. split; [left; reflexivity |].
      apply Qle_bool_iff in E.
      intros q [<- | Hq]; [apply Qle_refl |].
      apply Qle_trans with lo; [exact E | apply Hall; exact Hq].
    + exists lo. split; [reflexivity |]. split; [right; exact Hin |].
      intros q [<- | Hq]; [| apply Hall; exact Hq].
      apply Qlt_le_weak, Qnot_le_lt. intros H. apply Qle_bool_iff in H.
      rewrite H in E. discriminate E.
Qed.

Lemma np_nanmax_greatest (xs : list scoreval) :
  non_nan xs <> [] ->
  exists hi, np_nanmax xs = Num hi
             /\ In hi (non_nan xs) /\ forall q, In q (non_nan xs) -> q <= hi.
Proof.
  induction xs as [| [| x] xs IH]; intros Hne; simpl in *.
  - contradiction.
  - apply IH. exact Hne.
  - destruct (non_nan xs) as [| y l] eqn:E.
    + assert (Hnan : np_nanmax xs = NaN).
      { clear -E. induction xs as [| [| z] xs IH]; simpl in *;
          [reflexivity | apply IH; exact E | discriminate E]. }
      rewrite Hnan. exists x. split; [reflexivity |].
      split; [left; reflexivity |].
      intros q [<- | []]. apply Qle_refl.
    + destruct IH as [hi [Hhi [Hin Hall]]]; [discriminate |].
      rewrite Hhi. destruct (Qle_bool x hi) eqn:Ex.
      * exists hi. split; [reflexivity |]. split; [right; exact Hin |].
        apply Qle_bool_iff in Ex.
        intros q [<- | Hq]; [exact Ex | apply Hall; exact Hq].
      * exists x. split; [reflexivity |]. split; [left; reflexivity |].
        assert (Hlt : hi < x).
        { apply Qnot_le_lt. intros H. apply Qle_bool_iff in H.
          rewrite H in Ex. discriminate Ex. }
        intros q [<- | Hq]; [apply Qle_refl |].
        apply Qle_trans with hi; [apply Hall; exact Hq | apply Qlt_le_weak; exact Hlt].
Qed.

(** X5.  On instances whose scores are floats, not all NaN, the
    aggregating functions [min_item_score] of [MinAccuracy] and
    [max_item_scores] leave the NaN scores out and return the least and
    the greatest of the others: each result is one of the scores, and every
    score that is not NaN lies between the two. *)
Theorem min_and_max_item_scores_bound_the_scores :
  forall (instances : list instance) (score_name : string) (xs : list scoreval),
    instance_scores instances score_name = Ok (map VFloat xs) ->
    non_nan xs <> [] ->
    exists lo hi,
      min_item_score instances score_name = Ok (Num lo)
      /\ max_item_scores instances score_name = Ok (Num hi)
      /\ In lo (non_nan xs) /\ In hi (non_nan xs)
      /\ (forall q, In q (non_nan xs) -> lo <= q /\ q <= hi).
Proof.
  intros instances score_name xs Hxs Hne.
  destruct (np_min_least (non_nan xs) Hne) as [lo [Hlo [Hlo_in Hlower]]].
  destruct (np_nanmax_greatest xs Hne) as [hi [Hhi [Hhi_in Hupper]]].
  exists lo, hi.
  split.
  { unfold min_item_score. rewrite Hxs. cbn [bind].
    rewrite drop_nan_floats. cbn [bind].
    rewrite (proj2 (length_zero_map_Num _) Hne), Hlo. reflexivity. }
  split.
  { unfold max_item_scores, nan_max. rewrite Hxs. cbn [bind].
    rewrite map_result_as_float. cbn [bind].
    destruct xs as [| x xs]; [contradiction |]. rewrite Hhi. reflexivity. }
  split; [exact Hlo_in |]. split; [exact Hhi_in |].
  intros q Hq. split; [apply Hlower | apply Hupper]; exact Hq.
Qed.

(** Scores 1, NaN and 1/2: the minimum is at most 1/2 and the maximum at
    least 1, the NaN notwithstanding. *)
Lemma min_and_max_item_scores_bound_the_scores_witness :
  exists lo hi,
    min_item_score
      [scored "accuracy" (Num 1) []; scored "accuracy" NaN [];
       scored "accuracy" (Num (1 # 2)) []] "accuracy" = Ok (Num lo)
    /\ max_item_scores
         [scored "accuracy" (Num 1) []; scored "accuracy" NaN [];
          scored "accuracy" (Num (1 # 2)) []] "accuracy" = Ok (Num hi)
    /\ lo <= 1 # 2 /\ 1 <= hi.
Proof.
  destruct (min_and_max_item_scores_bound_the_scores
              [scored "accuracy" (Num 1) []; scored "accuracy" NaN [];
               scored "accuracy" (Num (1 # 2)) []] "accuracy"
              [Num 1; NaN; Num (1 # 2)] eq_refl)
    as [lo [hi [Hmin [Hmax [_ [_ Hall]]]]]].
  - discriminate.
  - exists lo, hi. split; [exact Hmin |]. split; [exact Hmax |].
    split.
    + apply (Hall (1 # 2)). right. left. reflexivity.
    + apply (Hall 1). left. reflexivity.
Defined.

(* ------------------------------------------------------------------ *)
(** ** The grouped global score *)





(* ------------------------------------------------------------------ *)
(** ** [GlobalMetric._compute]: the [score] and [score_name] entries *)

(** X6.  [GlobalMetric._compute] passes on an exception of [compute]; it
    raises [KeyError] when the dictionary returned by [compute] has no entry
    for the main score; otherwise it returns that dictionary with [score]
    set to the value of the main score and [score_name] set to its name, all
    other entries unchanged (the main score is assumed not to be called
    [score_name]).  With [process_single_instances] enabled, a [compute]
    that omits the main score on a singleton therefore yields the same
    preview as one that raises: [None]. *)
Theorem _compute_mirrors_main_score :
  forall (self : metric) (refs : list (list string)) (predictions : list string)
         (task_data_ : list pydict),
    (forall e, compute self refs predictions task_data_ = Raise e ->
               _compute self refs predictions task_data_ = Raise e)
    /\ (forall r,
           compute self refs predictions task_data_ = Ok r ->
           dict_lookup r (main_score self) = None ->
           _compute self refs predictions task_data_
           = Raise (KeyError (main_score self)))
    /\ (forall r v,
           compute self refs predictions task_data_ = Ok r ->
           dict_lookup r (main_score self) = Some v ->
           main_score self <> "score_name" ->
           exists d,
             _compute self refs predictions task_data_ = Ok d
             /\ dict_lookup d "score" = Some v
             /\ dict_lookup d (main_score self) = Some v
             /\ dict_lookup d "score_name" = Some (VStr (main_score self))
             /\ forall k, k <> "score" -> k <> "score_name" ->
                          dict_lookup d k = dict_lookup r k)
    /\ (forall r ref pred td,
           refs = [ref] -> predictions = [pred] -> task_data_ = [td] ->
           process_single_instances self = true ->
           compute self refs predictions task_data_ = Ok r ->
           dict_lookup r (main_score self) = None ->
           dict_lookup (global_instance_score self ref pred td) "score" = Some VNone
           /\ dict_lookup (global_instance_score self ref pred td) (main_score self)
              = Some VNone).
Proof.
  intros self refs predictions tds.
  assert (Hmissing : forall r,
             compute self refs predictions tds = Ok r ->
             dict_lookup r (main_score self) = None ->
             _compute self refs predictions tds = Raise (KeyError (main_score self))).
  { intros r Hr Hnone. unfold _compute, dict_getitem. rewrite Hr. cbn [bind].
    rewrite Hnone. reflexivity. }
  split; [| split; [| split]].
  - intros e He. unfold _compute. rewrite He. reflexivity.
  - exact Hmissing.
  - intros r v Hr Hv Hmain. unfold _compute, dict_getitem.
    rewrite Hr. cbn [bind]. rewrite Hv. cbn [bind].
    eexists. split; [reflexivity |].
    split.
    { rewrite dict_lookup_set_other by discriminate. apply dict_lookup_set_same. }
    split.
    { rewrite dict_lookup_set_other by exact Hmain.
      destruct (string_dec (main_score self) "score") as [E | E].
      - rewrite E. apply dict_lookup_set_same.
      - rewrite dict_lookup_set_other by exact E. exact Hv. }
    split; [apply dict_lookup_set_same |].
    intros k Hk1 Hk2. rewrite !dict_lookup_set_other by assumption. reflexivity.
  - intros r ref pred td -> -> -> Hp Hr Hnone.
    pose proof (failed_preview_lookup (main_score self)) as Hfail.
    cbn zeta in Hfail. destruct Hfail as [Hs [Hm _]].
    rewrite (global_instance_score_failed self ref pred td _ Hp (Hmissing r Hr Hnone)).
    split; assumption.
Qed.

(** [CorpusF1] needs two predictions: on one it raises, and so does
    [_compute]; on two, [score] mirrors [f1]. *)
Lemma _compute_mirrors_main_score_witness :
  _compute CorpusF1 [["a"]] ["a"] [[]]
  = Raise (ComputeError "needs at least two predictions")
  /\ exists d v,
      _compute CorpusF1 [["a"]; ["b"]] ["a"; "c"] [[]; []] = Ok d
      /\ dict_lookup d "score" = Some v
      /\ dict_lookup d "f1" = Some v
      /\ dict_lookup d "score_name" = Some (VStr "f1").
Proof.
  split.
  - apply (proj1 (_compute_mirrors_main_score CorpusF1 [["a"]] ["a"] [[]])).
    reflexivity.
  - destruct (_compute_mirrors_main_score CorpusF1 [["a"]; ["b"]] ["a"; "c"]
                [[]; []]) as [_ [_ [H _]]].
    destruct (H _ _ eq_refl eq_refl) as [d [Hd [Hs [Hm [Hn _]]]]];
      [discriminate |].
    exists d. eexists. repeat split; eassumption.
Defined.

(* ------------------------------------------------------------------ *)
(** ** [InstanceMetric.process]: the [score] and [score_name] entries *)

(** X7.  When the main score is one of [score_names], the global dictionary
    left by [InstanceMetric.process] has [score_name] set to the
    [to_score_names] entry at the position of the main score (not to the
    main score's own name), and [score] holds the same value as the entry
    of that name; the confidence intervals written afterwards leave the
    three entries alone.  The target name is assumed not to be
    [score_name] and not to be a confidence-interval key itself. *)
Theorem InstanceMetric_process_score_alias :
  forall (dict_get : instance -> string -> option string)
         (bootstrap : forall P : Type, list P -> (list P -> result scoreval) -> Z ->
                                       result (scoreval * scoreval))
         (self : metric) (h h' : heap) (stream out : list instance)
         (names to_names : list string) (position : nat) (to_name : string),
    InstanceMetric_process dict_get bootstrap self h stream = Ok (h', out) ->
    score_names self = Some names ->
    to_score_names self = Some to_names ->
    index_of (main_score self) names = Some position ->
    nth_error to_names position = Some to_name ->
    to_name <> "score_name" ->
    (forall x, to_name <> (x ++ "_ci_low")%string) ->
    (forall x, to_name <> (x ++ "_ci_high")%string) ->
    exists (G : loc) (v : value),
      compute_instance_scores self (next_loc h) stream = Ok (out, G)
      /\ dict_lookup (store h' G) "score" = Some v
      /\ dict_lookup (store h' G) to_name = Some v
      /\ dict_lookup (store h' G) "score_name" = Some (VStr to_name).
Proof.
  intros dict_get bootstrap self h h' stream out names to_names position to_name
         H Hnames Hto Hidx Hnth Hsn Hlow Hhigh.
  unfold InstanceMetric_process in H. cbn [heap_alloc] in H.
  apply bind_ok in H. destruct H as [[instances G] [Hcis H]].
  apply bind_ok in H. destruct H as [ggs [Hggs H]].
  rewrite Hnames, Hto in H. cbn [bind] in H.
  apply bind_ok in H. destruct H as [h1 [Hloop H]].
  rewrite Hidx, Hnth in H.
  apply bind_ok in H. destruct H as [h2 [Hset H]].
  apply bind_ok in Hset. destruct Hset as [v [Hv Hset]].
  inversion Hset; subst h2; clear Hset.
  unfold dict_getitem in Hv.
  destruct (dict_lookup (store h1 G) to_name) as [v0 |] eqn:Hv0;
    [| discriminate Hv].
  inversion Hv; subst v0; clear Hv.
  apply bind_ok in H. destruct H as [h3 [Hci H]].
  inversion H; subst h' out; clear H.
  exists G, v.
  split; [exact Hcis |].
  set (h2 := heap_update (heap_update h1 G [("score", v)]) G
                         [("score_name", VStr to_name)]) in *.
  assert (Hs2 : dict_lookup (store h2 G) "score" = Some v
                /\ dict_lookup (store h2 G) to_name = Some v
                /\ dict_lookup (store h2 G) "score_name" = Some (VStr to_name)).
  { subst h2. rewrite !heap_update_store_same.
    unfold dict_update. cbn [fold_left fst snd].
    split; [| split].
    - rewrite dict_lookup_set_other by discriminate. apply dict_lookup_set_same.
    - rewrite dict_lookup_set_other by exact Hsn.
      destruct (string_dec to_name "score") as [E | E].
      + rewrite E. apply dict_lookup_set_same.
      + rewrite dict_lookup_set_other by exact E. exact Hv0.
    - apply dict_lookup_set_same. }
  assert (Hkeep : forall ci,
             (forall key, (forall x, key <> (x ++ "_ci_low")%string) ->
                          (forall x, key <> (x ++ "_ci_high")%string) ->
                          dict_lookup ci key = None) ->
             dict_lookup (store (heap_update h2 G ci) G) "score" = Some v
             /\ dict_lookup (store (heap_update h2 G ci) G) to_name = Some v
             /\ dict_lookup (store (heap_update h2 G ci) G) "score_name"
                = Some (VStr to_name)).
  { intros ci Hci_keys. rewrite heap_update_store_same.
    destruct Hs2 as [Ha [Hb Hc]].
    rewrite !dict_lookup_update_absent.
    - auto.
    - apply Hci_keys.
      + intros x E. apply (f_equal last_char) in E.
        rewrite last_char_append in E by discriminate. discriminate E.
      + intros x E. apply (f_equal last_char) in E.
        rewrite last_char_append in E by discriminate. discriminate E.
    - apply Hci_keys; assumption.
    - apply Hci_keys.
      + intros x E. apply (f_equal last_char) in E.
        rewrite last_char_append in E by discriminate. discriminate E.
      + intros x E. apply (f_equal last_char) in E.
        rewrite last_char_append in E by discriminate. discriminate E. }
  destruct (ci_scores self) as [cis |].
  - apply bind_ok in Hci. destruct Hci as [ci [Hci Hh3]].
    inversion Hh3; subst h3; clear Hh3.
    apply Hkeep. intros key Hl Hh.
    destruct (grouping self) as [g |].
    + destruct (negb (ci_samples_from_groups_scores g)).
      * eapply score_based_confidence_interval_key_absent; eassumption.
      * apply bind_ok in Hci. destruct Hci as [tsf [_ Hci]].
        eapply score_based_confidence_interval_key_absent; eassumption.
    + destruct (aggregating self) as [a |]; [| discriminate Hci].
      eapply score_based_confidence_interval_key_absent; eassumption.
  - inversion Hci; subst h3. exact Hs2.
Qed.

(** [GroupMeanAccuracy]: [score_name] is [group_mean_accuracy], not
    [accuracy]. *)
Lemma InstanceMetric_process_score_alias_witness :
  exists h' out G v,
    InstanceMetric_process task_data_get point_bootstrap GroupMeanAccuracy
      empty_heap fresh_grouped_stream = Ok (h', out)
    /\ compute_instance_scores GroupMeanAccuracy (next_loc empty_heap)
         fresh_grouped_stream = Ok (out, G)
    /\ dict_lookup (store h' G) "score" = Some v
    /\ dict_lookup (store h' G) "group_mean_accuracy" = Some v
    /\ dict_lookup (store h' G) "score_name" = Some (VStr "group_mean_accuracy").
Proof.
  eexists. eexists.
  assert (H : InstanceMetric_process task_data_get point_bootstrap GroupMeanAccuracy
                empty_heap fresh_grouped_stream = Ok (?[h'], ?[out]))
    by (vm_compute; reflexivity).
  destruct (InstanceMetric_process_score_alias task_data_get point_bootstrap
              GroupMeanAccuracy empty_heap _ fresh_grouped_stream _
              ["accuracy"] ["group_mean_accuracy"] 0%nat "group_mean_accuracy"
              H eq_refl eq_refl eq_refl eq_refl)
    as [G [v [Hc [Hs [Ht Hn]]]]].
  - discriminate.
  - intros x E. apply (f_equal last_char) in E.
    rewrite last_char_append in E by discriminate. discriminate E.
  - intros x E. apply (f_equal last_char) in E.
    rewrite last_char_append in E by discriminate. discriminate E.
  - exists G, v. repeat split; assumption.
Defined.

(* ------------------------------------------------------------------ *)
(** ** Retrieval metrics *)

Lemma mem_string_first_seen (x : string) (l : list string) :
  mem_string x (first_seen l) = mem_string x l.
Proof.
  destruct (mem_string x l) eqn:E.
  - apply mem_string_In, first_seen_In, mem_string_In. exact E.
  - apply not_true_iff_false. intros H. apply not_true_iff_false in E. apply E.
    apply mem_string_In, first_seen_In, mem_string_In. exact H.
Qed.

(** The rank is the 1-based position of the first gold prediction. *)
Lemma first_relevant_first_hit (gold before after : list string) (p : string)
  (start : Z) :
  (forall x, In x before -> ~ In x gold) ->
  In p gold ->
  first_relevant
    (map (fun '(k, doc_id) =>
            ((k + 1)%Z, if mem_string doc_id (first_seen gold) then 1%Z else 0%Z))
         (enumerate start (before ++ p :: after)))
  = (start + Z.of_nat (S (List.length before)))%Z.
Proof.
  intros Hbefore Hp. revert start.
  induction before as [| b before IH]; intros start.
  - cbn [app enumerate map first_relevant List.length].
    rewrite mem_string_first_seen.
    rewrite (proj2 (mem_string_In p gold) Hp). cbn [Z.eqb Pos.eqb]. lia.
  - cbn [app enumerate map first_relevant].
    rewrite mem_string_first_seen.
    assert (Hb : mem_string b gold = false).
    { apply not_true_iff_false. intros H. apply mem_string_In in H.
      exact (Hbefore b (or_introl eq_refl) H). }
    rewrite Hb. cbn [Z.eqb].
    rewrite IH by (intros x Hx; apply Hbefore; right; exact Hx).
    cbn [List.length]. lia.
Qed.

Lemma first_relevant_no_hit (gold predictions : list string) (start : Z) :
  (forall x, In x predictions -> ~ In x gold) ->
  first_relevant
    (map (fun '(k, doc_id) =>
            ((k + 1)%Z, if mem_string doc_id (first_seen gold) then 1%Z else 0%Z))
         (enumerate start predictions))
  = 0%Z.
Proof.
  revert start. induction predictions as [| b predictions IH]; intros start Hnone.
  - reflexivity.
  - cbn [enumerate map first_relevant].
    rewrite mem_string_first_seen.
    assert (Hb : mem_string b gold = false).
    { apply not_true_iff_false. intros H. apply mem_string_In in H.
      exact (Hnone b (or_introl eq_refl) H). }
    rewrite Hb. cbn [Z.eqb].
    apply IH. intros x Hx. apply Hnone. right. exact Hx.
Qed.

(** X8.  [MRR] is the reciprocal of the 1-based position of the first
    predicted document that is a gold document, and 0 when no predicted
    document is one; duplicates in the gold list, further hits and the rest
    of the references do not matter. *)
Theorem MRR_reciprocal_rank_of_first_hit :
  forall (gold : list string) (rest : list (list string)),
    (forall (before after : list string) (p : string),
        (forall x, In x before -> ~ In x gold) ->
        In p gold ->
        RetrievalMetric_compute MRR__compute (gold :: rest) (before ++ p :: after)
        = Ok [("mrr",
               VFloat (Num (1 / inject_Z (Z.of_nat (S (List.length before))))))])
    /\ (forall predictions : list string,
           (forall x, In x predictions -> ~ In x gold) ->
           RetrievalMetric_compute MRR__compute (gold :: rest) predictions
           = Ok [("mrr", VFloat (Num 0))]).
Proof.
  intros gold rest. split.
  - intros before after p Hbefore Hp.
    unfold RetrievalMetric_compute, MRR__compute. cbn [rank].
    rewrite (first_relevant_first_hit gold before after p 0 Hbefore Hp).
    replace (0 + Z.of_nat (S (List.length before)))%Z
      with (Z.of_nat (S (List.length before))) by lia.
    assert (H : (0 <? Z.of_nat (S (List.length before)))%Z = true)
      by (apply Z.ltb_lt; lia).
    rewrite H. reflexivity.
  - intros predictions Hnone.
    unfold RetrievalMetric_compute, MRR__compute. cbn [rank].
    rewrite (first_relevant_no_hit gold predictions 0 Hnone).
    reflexivity.
Qed.

(** The first gold document is retrieved second: the score is 1/2. *)
Lemma MRR_reciprocal_rank_of_first_hit_witness :
  RetrievalMetric_compute MRR__compute [["d1"; "d2"; "d1"]] ["x"; "d2"; "d1"]
  = Ok [("mrr", VFloat (Num (1 / inject_Z 2)))]
  /\ RetrievalMetric_compute MRR__compute [["d1"; "d2"; "d1"]] ["x"; "y"]
     = Ok [("mrr", VFloat (Num 0))].
Proof.
  destruct (MRR_reciprocal_rank_of_first_hit ["d1"; "d2"; "d1"] []) as [Hhit Hnone].
  split.
  - apply (Hhit ["x"] ["d1"] "d2").
    + intros x [<- | []] [H | [H | [H | []]]]; discriminate H.
    + right. left. reflexivity.
  - apply (Hnone ["x"; "y"]).
    intros x [<- | [<- | []]] [H | [H | [H | []]]]; discriminate H.
Defined.

(** *** The arrays of [RetrievalMetric.compute] as lists *)

Lemma enumerate_app {A} (l1 l2 : list A) (start : Z) :
  enumerate start (l1 ++ l2)
  = (enumerate start l1 ++ enumerate (start + Z.of_nat (List.length l1)) l2)%list.
Proof.
  revert start. induction l1 as [| x l1 IH]; intros start.
  - simpl. replace (start + 0)%Z with start by lia. reflexivity.
  - cbn [app enumerate List.length]. rewrite IH.
    replace (start + 1 + Z.of_nat (List.length l1))%Z
      with (start + Z.of_nat (S (List.length l1)))%Z by lia.
    reflexivity.
Qed.

Lemma enumerate_length {A} (l : list A) (start : Z) :
  List.length (enumerate start l) = List.length l.
Proof.
  revert start. induction l as [| x l IH]; intros start; simpl;
    [reflexivity | rewrite IH; reflexivity].
Qed.

Lemma enumerate_keys_bounds {A} (l : list A) (start k : Z) (v : A) :
  In (k, v) (enumerate start l) ->
  (start <= k < start + Z.of_nat (List.length l))%Z.
Proof.
  revert start. induction l as [| x l IH]; intros start; simpl.
  - intros [].
  - intros [H | H].
    + inversion H; subst. lia.
    + apply IH in H. lia.
Qed.

Lemma zdict_lookup_enumerate {A} (l : list A) (start : Z) (i : nat) :
  zdict_lookup (enumerate start l) (start + Z.of_nat i) = nth_error l i.
Proof.
  revert start i. induction l as [| x l IH]; intros start i.
  - destruct i; reflexivity.
  - cbn [enumerate zdict_lookup]. destruct i as [| i].
    + replace (start + Z.of_nat 0)%Z with start by lia.
      rewrite Z.eqb_refl. reflexivity.
    + assert (E : (start + Z.of_nat (S i) =? start)%Z = false)
        by (apply Z.eqb_neq; lia).
      rewrite E.
      replace (start + Z.of_nat (S i))%Z with (start + 1 + Z.of_nat i)%Z by lia.
      apply IH.
Qed.

Lemma zdict_lookup_enumerate_below {A} (l : list A) (start k : Z) :
  (k < start)%Z -> zdict_lookup (enumerate start l) k = None.
Proof.
  revert start. induction l as [| x l IH]; intros start Hk.
  - reflexivity.
  - cbn [enumerate zdict_lookup].
    assert (E : (k =? start)%Z = false) by (apply Z.eqb_neq; lia).
    rewrite E. apply IH. lia.
Qed.

Lemma zdict_set_enumerate_snoc {A} (l : list A) (start : Z) (v : A) :
  zdict_set (enumerate start l) (start + Z.of_nat (List.length l)) v
  = enumerate start (l ++ [v]).
Proof.
  revert start. induction l as [| x l IH]; intros start.
  - simpl. replace (start + 0)%Z with start by lia. reflexivity.
  - cbn [enumerate zdict_set app List.length].
    assert (E : (start + Z.of_nat (S (List.length l)) =? start)%Z = false)
      by (apply Z.eqb_neq; lia).
    rewrite E.
    replace (start + Z.of_nat (S (List.length l)))%Z
      with (start + 1 + Z.of_nat (List.length l))%Z by lia.
    rewrite IH. reflexivity.
Qed.

Lemma relevance_at_k_enumerate (gold predictions : list string) (start : Z) :
  map (fun '(k, doc_id) =>
         ((k + 1)%Z, if mem_string doc_id (first_seen gold) then 1%Z else 0%Z))
      (enumerate start predictions)
  = enumerate (start + 1) (relevances gold predictions).
Proof.
  revert start. induction predictions as [| p predictions IH]; intros start.
  - reflexivity.
  - cbn [enumerate map relevances]. rewrite mem_string_first_seen.
    rewrite IH. reflexivity.
Qed.

(** The last running sum so far, 0 at the start. *)
Lemma relevance_sum_at_k_loop (rels prev : list Z) :
  fold_left
    (fun acc '(k, value) =>
       zdict_set acc k
         ((match zdict_lookup acc (k - 1)%Z with
           | Some s => s
           | None => 0
           end) + value)%Z)
    (enumerate (1 + Z.of_nat (List.length prev)) rels)
    (enumerate 1 prev)
  = enumerate 1 (prev ++ prefix_sums (last prev 0%Z) rels).
Proof.
  revert prev. induction rels as [| v rels IH]; intros prev.
  - simpl. rewrite app_nil_r. reflexivity.
  - cbn [enumerate fold_left prefix_sums].
    assert (Hlast : match zdict_lookup (enumerate 1 prev)
                            (1 + Z.of_nat (List.length prev) - 1) with
                    | Some s => s
                    | None => 0%Z
                    end = last prev 0%Z).
    { destruct prev as [| x prev] using rev_ind.
      - reflexivity.
      - rewrite last_last, length_app. cbn [List.length].
        replace (1 + Z.of_nat (List.length prev + 1) - 1)%Z
          with (1 + Z.of_nat (List.length prev))%Z by lia.
        rewrite zdict_lookup_enumerate.
        rewrite nth_error_app2 by lia. rewrite Nat.sub_diag. reflexivity. }
    rewrite Hlast.
    rewrite zdict_set_enumerate_snoc.
    specialize (IH (prev ++ [(last prev 0 + v)%Z])%list).
    rewrite length_app in IH. cbn [List.length] in IH.
    replace (1 + Z.of_nat (List.length prev + 1))%Z
      with (1 + Z.of_nat (List.length prev) + 1)%Z in IH by lia.
    rewrite IH. rewrite last_last. rewrite <- app_assoc. reflexivity.
Qed.

Lemma prefix_sums_length (a : Z) (l : list Z) :
  List.length (prefix_sums a l) = List.length l.
Proof.
  revert a. induction l as [| v l IH]; intros a; simpl;
    [reflexivity | rewrite IH; reflexivity].
Qed.

(** The running sum at position [i] counts the hits among the first [i + 1]
    predictions. *)
Lemma prefix_sums_hits (gold predictions : list string) (a : Z) (i : nat) :
  (i < List.length predictions)%nat ->
  nth_error (prefix_sums a (relevances gold predictions)) i
  = Some (a + Z.of_nat (hits_in_top (S i) gold predictions))%Z.
Proof.
  revert a i. induction predictions as [| p predictions IH]; intros a i Hi.
  - simpl in Hi. lia.
  - cbn [relevances map prefix_sums].
    destruct i as [| i].
    + cbn [nth_error]. unfold hits_in_top. cbn [firstn filter].
      destruct (mem_string p gold); cbn [List.length]; f_equal; lia.
    + cbn [nth_error]. fold (relevances gold predictions).
      rewrite IH by (simpl in Hi; lia).
      unfold hits_in_top. cbn [firstn filter].
      destruct (mem_string p gold); cbn [List.length]; f_equal; lia.
Qed.

(** *** [RetrievalAtK] *)

Lemma str_of_int_inj (a b : Z) : str_of_int a = str_of_int b -> a = b.
Proof.
  unfold str_of_int. intros H.
  assert (Hnn : forall z, Z.to_int z <> Decimal.Pos Decimal.Nil
                          /\ Z.to_int z <> Decimal.Neg Decimal.Nil).
  { intros [| p | p]; simpl; split; try discriminate;
      intros E; injection E as E;
      exact (DecimalPos.Unsigned.to_uint_nonnil p E). }
  apply (f_equal NilZero.int_of_string) in H.
  rewrite !NilZero.isi in H by apply Hnn.
  injection H as H.
  apply (f_equal Z.of_int) in H. rewrite !DecimalZ.of_to in H. exact H.
Qed.

Lemma score_name_inj (measure : string) (a b : Z) :
  score_name measure a = score_name measure b -> a = b.
Proof.
  unfold score_name. intros H.
  apply string_append_cancel_l in H. apply string_append_cancel_l in H.
  apply str_of_int_inj. exact H.
Qed.

(** A key that is not written keeps its binding. *)
Lemma dict_lookup_fold_set_other (name : Z -> string) (val : Z -> value)
  (ks : list Z) (acc : pydict) (key : string) :
  (forall k, In k ks -> name k <> key) ->
  dict_lookup (fold_left (fun acc k => dict_set acc (name k) (val k)) ks acc) key
  = dict_lookup acc key.
Proof.
  revert acc. induction ks as [| k ks IH]; intros acc Hne.
  - reflexivity.
  - cbn [fold_left]. rewrite IH by (intros k' Hk'; apply Hne; right; exact Hk').
    apply dict_lookup_set_other. intros E. apply (Hne k (or_introl eq_refl)).
    symmetry. exact E.
Qed.

(** A key written for [k0] holds the value of [k0] when the names tell the
    keys apart. *)
Lemma dict_lookup_fold_set_same (name : Z -> string) (val : Z -> value)
  (ks : list Z) (acc : pydict) (k0 : Z) :
  (forall a b, name a = name b -> a = b) ->
  In k0 ks ->
  dict_lookup (fold_left (fun acc k => dict_set acc (name k) (val k)) ks acc)
              (name k0)
  = Some (val k0).
Proof.
  intros Hinj. revert acc. induction ks as [| k ks IH]; intros acc Hin.
  - destruct Hin.
  - cbn [fold_left].
    destruct (in_dec Z.eq_dec k0 ks) as [Hin' | Hnot].
    + apply IH. exact Hin'.
    + destruct Hin as [-> | Hin]; [| contradiction].
      rewrite dict_lookup_fold_set_other.
      * apply dict_lookup_set_same.
      * intros k Hk E. apply Hinj in E. subst k. contradiction.
Qed.

Lemma zdict_lookup_map_enumerate {A B} (f : Z -> A -> B) (l : list A)
  (start : Z) (i : nat) :
  zdict_lookup (map (fun '(k, v) => (k, f k v)) (enumerate start l))
               (start + Z.of_nat i)
  = option_map (f (start + Z.of_nat i)%Z) (nth_error l i).
Proof.
  revert start i. induction l as [| x l IH]; intros start i.
  - destruct i; reflexivity.
  - cbn [enumerate map zdict_lookup]. destruct i as [| i].
    + replace (start + Z.of_nat 0)%Z with start by lia.
      rewrite Z.eqb_refl. reflexivity.
    + assert (E : (start + Z.of_nat (S i) =? start)%Z = false)
        by (apply Z.eqb_neq; lia).
      rewrite E.
      replace (start + Z.of_nat (S i))%Z with (start + 1 + Z.of_nat i)%Z by lia.
      apply IH.
Qed.

Lemma fold_left_Zmax_le (l : list Z) (a : Z) :
  (forall x, In x l -> (x <= a)%Z) -> fold_left Z.max l a = a.
Proof.
  revert a. induction l as [| x l IH]; intros a H.
  - reflexivity.
  - cbn [fold_left]. rewrite Z.max_l by (apply H; left; reflexivity).
    apply IH. intros y Hy. apply H. right. exact Hy.
Qed.

Lemma fold_left_Zmax_enumerate {A} (l : list A) (start a : Z) :
  (a < start)%Z -> l <> [] ->
  fold_left Z.max (map fst (enumerate start l)) a
  = (start + Z.of_nat (List.length l) - 1)%Z.
Proof.
  revert start a. induction l as [| x l IH]; intros start a Ha Hne.
  - contradiction.
  - cbn [enumerate map fst fold_left]. rewrite Z.max_r by lia.
    destruct l as [| y l].
    + simpl. lia.
    + rewrite IH by (try lia; discriminate).
      cbn [List.length]. lia.
Qed.

(** The largest key of an array over a prediction list that is not empty is
    the number of predictions. *)
Lemma zmax_keys_map_enumerate {A B} (f : Z -> A -> B) (l : list A) :
  l <> [] ->
  zmax (map fst (map (fun '(k, v) => (k, f k v)) (enumerate 1 l)))
  = Ok (Z.of_nat (List.length l)).
Proof.
  intros Hne.
  assert (E : map fst (map (fun '(k, v) => (k, f k v)) (enumerate 1 l))
              = map fst (enumerate 1 l)).
  { rewrite map_map. apply map_ext. intros [k v]. reflexivity. }
  rewrite E. destruct l as [| x l]; [contradiction |].
  cbn [enumerate map fst zmax]. f_equal.
  destruct l as [| y l].
  - reflexivity.
  - rewrite fold_left_Zmax_enumerate by (try lia; discriminate).
    cbn [List.length]. lia.
Qed.

(** The inner loop of [RetrievalAtK._compute] over cut-offs that are all
    at least 1. *)
Lemma RetrievalAtK_inner_loop {A} (f : Z -> A -> Q) (l : list A) (d : A)
  (measure_name : string) (k_list : list Z) (acc : pydict) :
  (forall k, In k k_list -> (1 <= k)%Z) ->
  l <> [] ->
  for_each k_list
    (fun result_ k =>
       v <- zdict_getitem (map (fun '(k, v) => (k, f k v)) (enumerate 1 l))
              (Z.min k (Z.of_nat (List.length l))) ;;
       Ok (dict_set result_ (score_name measure_name k) (VFloat (Num v))))
    acc
  = Ok (fold_left
          (fun acc k =>
             dict_set acc (score_name measure_name k)
               (VFloat (Num (f (Z.min k (Z.of_nat (List.length l)))
                               (nth (Z.to_nat (Z.min k (Z.of_nat (List.length l)) - 1))
                                    l d)))))
          k_list acc).
Proof.
  intros Hk Hne. revert acc. induction k_list as [| k k_list IH]; intros acc.
  - reflexivity.
  - cbn [for_each fold_left].
    assert (H1 : (1 <= k)%Z) by (apply Hk; left; reflexivity).
    assert (Hlen : (0 < List.length l)%nat)
      by (destruct l; [contradiction | simpl; lia]).
    set (m := Z.min k (Z.of_nat (List.length l))).
    assert (Hm : (1 <= m <= Z.of_nat (List.length l))%Z) by (subst m; lia).
    unfold zdict_getitem.
    replace m with (1 + Z.of_nat (Z.to_nat (m - 1)))%Z at 1 by lia.
    rewrite zdict_lookup_map_enumerate.
    assert (Hnth : nth_error l (Z.to_nat (m - 1)) = Some (nth (Z.to_nat (m - 1)) l d)).
    { apply nth_error_nth'. lia. }
    rewrite Hnth. cbn [option_map bind].
    replace (1 + Z.of_nat (Z.to_nat (m - 1)))%Z with m by lia.
    apply IH. intros k' Hk'. apply Hk. right. exact Hk'.
Qed.

(** [RetrievalMetric.compute] hands lists indexed from 1 to [_compute]. *)
Lemma RetrievalMetric_compute_arrays
  (_compute : retrieval_arrays -> result pydict)
  (gold : list string) (rest : list (list string)) (predictions : list string) :
  RetrievalMetric_compute _compute (gold :: rest) predictions
  = let rels := relevances gold predictions in
    let sums := prefix_sums 0 rels in
    let n_refs := Z.of_nat (List.length (first_seen gold)) in
    _compute
      {| relevance_at_k := enumerate 1 rels;
         relevance_sum_at_k := enumerate 1 sums;
         precision_at_k :=
           map (fun '(k, value) => (k, inject_Z value / inject_Z k))
               (enumerate 1 sums);
         recall_at_k :=
           map (fun '(k, value) =>
                  (k, if (0 <? n_refs)%Z
                      then inject_Z value / inject_Z n_refs else 0))
               (enumerate 1 sums);
         match_at_k :=
           map (fun '(k, value) => (k, if (0 <? value)%Z then 1 else 0))
               (enumerate 1 sums);
         rank := first_relevant (enumerate 1 rels) |}.
Proof.
  unfold RetrievalMetric_compute.
  rewrite relevance_at_k_enumerate.
  change (0 + 1)%Z with 1%Z.
  pose proof (relevance_sum_at_k_loop (relevances gold predictions) []) as Hsum.
  cbn [List.length Z.of_nat app last] in Hsum.
  change (1 + 0)%Z with 1%Z in Hsum.
  change (enumerate 1 (@nil Z)) with (@nil (Z * Z)) in Hsum.
  rewrite Hsum. reflexivity.
Qed.

(** X9.  For a prediction list that is not empty and cut-offs that are all
    at least 1, [RetrievalAtK] reports for each cut-off [k], with [m] the
    smaller of [k] and the number of predictions and [hits] the number of
    gold documents among the first [m] predictions (a repeated prediction
    counted each time): precision [hits / m], recall [hits] over the number
    of distinct gold documents (0 when there is none), and match 1 or 0 as
    [hits] is positive or not.  A cut-off beyond the prediction list is
    scored as the whole list, and recall can exceed 1 when gold documents
    are predicted more than once. *)
Theorem RetrievalAtK_scores :
  forall (gold : list string) (rest : list (list string))
         (predictions : list string) (k_list : list Z),
    predictions <> [] ->
    (forall k, In k k_list -> (1 <= k)%Z) ->
    exists d,
      RetrievalMetric_compute (RetrievalAtK__compute k_list) (gold :: rest) predictions
      = Ok d
      /\ forall k, In k k_list ->
           let m := Z.min k (Z.of_nat (List.length predictions)) in
           let hits := Z.of_nat (hits_in_top (Z.to_nat m) gold predictions) in
           let n_refs := Z.of_nat (List.length (first_seen gold)) in
           dict_lookup d (score_name "precision" k)
           = Some (VFloat (Num (inject_Z hits / inject_Z m)))
           /\ dict_lookup d (score_name "recall" k)
              = Some (VFloat (Num (if (0 <? n_refs)%Z
                                   then inject_Z hits / inject_Z n_refs else 0)))
           /\ dict_lookup d (score_name "match" k)
              = Some (VFloat (Num (if (0 <? hits)%Z then 1 else 0))).
Proof.
  intros gold rest predictions k_list Hne Hk.
  rewrite RetrievalMetric_compute_arrays. cbn zeta.
  set (rels := relevances gold predictions).
  set (sums := prefix_sums 0 rels).
  set (n_refs := Z.of_nat (List.length (first_seen gold))).
  assert (Hlen : List.length sums = List.length predictions).
  { subst sums rels. rewrite prefix_sums_length. unfold relevances.
    apply length_map. }
  assert (Hsne : sums <> []).
  { intros E. rewrite E in Hlen. destruct predictions; [contradiction | discriminate]. }
  unfold RetrievalAtK__compute.
  cbn [for_each precision_at_k recall_at_k match_at_k].
  rewrite !zmax_keys_map_enumerate by exact Hsne. cbn [bind].
  rewrite (RetrievalAtK_inner_loop _ sums 0%Z "precision" k_list [] Hk Hsne).
  cbn [bind].
  rewrite (RetrievalAtK_inner_loop _ sums 0%Z "recall" k_list _ Hk Hsne).
  cbn [bind].
  rewrite (RetrievalAtK_inner_loop _ sums 0%Z "match" k_list _ Hk Hsne).
  eexists. split; [reflexivity |].
  intros k Hin. cbn zeta.
  rewrite Hlen.
  set (m := Z.min k (Z.of_nat (List.length predictions))).
  assert (H1 : (1 <= k)%Z) by (apply Hk; exact Hin).
  assert (Hplen : (0 < List.length predictions)%nat)
    by (destruct predictions; [contradiction | simpl; lia]).
  assert (Hm : (1 <= m <= Z.of_nat (List.length predictions))%Z) by (subst m; lia).
  assert (Hnth : nth (Z.to_nat (m - 1)) sums 0%Z
                 = Z.of_nat (hits_in_top (Z.to_nat m) gold predictions)).
  { apply nth_error_nth. subst sums rels.
    rewrite prefix_sums_hits by lia.
    replace (S (Z.to_nat (m - 1))) with (Z.to_nat m) by lia.
    reflexivity. }
  assert (Hpr : forall k', score_name "recall" k' <> score_name "precision" k)
    by (intros k' E; unfold score_name in E; cbn [String.append] in E;
        discriminate E).
  assert (Hpm : forall k', score_name "match" k' <> score_name "precision" k)
    by (intros k' E; unfold score_name in E; cbn [String.append] in E;
        discriminate E).
  assert (Hrm : forall k', score_name "match" k' <> score_name "recall" k)
    by (intros k' E; unfold score_name in E; cbn [String.append] in E;
        discriminate E).
  split; [| split].
  - rewrite dict_lookup_fold_set_other by (intros k' _; apply Hpm).
    rewrite dict_lookup_fold_set_other by (intros k' _; apply Hpr).
    rewrite (dict_lookup_fold_set_same (score_name "precision") _ k_list [] k
               (score_name_inj "precision") Hin).
    fold m. rewrite Hnth. reflexivity.
  - rewrite dict_lookup_fold_set_other by (intros k' _; apply Hrm).
    rewrite (dict_lookup_fold_set_same (score_name "recall") _ k_list _ k
               (score_name_inj "recall") Hin).
    fold m. rewrite Hnth. reflexivity.
  - rewrite (dict_lookup_fold_set_same (score_name "match") _ k_list _ k
               (score_name_inj "match") Hin).
    fold m. rewrite Hnth. reflexivity.
Qed.

(** One gold document predicted twice: recall at 2 is 2, and the cut-off 5
    is scored like the cut-off 2. *)
Lemma RetrievalAtK_scores_witness :
  exists d,
    RetrievalMetric_compute (RetrievalAtK__compute [2; 5]%Z) [["d1"]] ["d1"; "d1"]
    = Ok d
    /\ dict_lookup d "recall_at_2" = Some (VFloat (Num (inject_Z 2 / inject_Z 1)))
    /\ dict_lookup d "recall_at_5" = Some (VFloat (Num (inject_Z 2 / inject_Z 1)))
    /\ dict_lookup d "precision_at_5" = Some (VFloat (Num (inject_Z 2 / inject_Z 2))).
Proof.
  destruct (RetrievalAtK_scores ["d1"] [] ["d1"; "d1"] [2; 5]%Z)
    as [d [Hd Hk]].
  - discriminate.
  - intros k [<- | [<- | []]]; lia.
  - exists d. split; [exact Hd |].
    destruct (Hk 2%Z (or_introl eq_refl)) as [_ [Hr2 _]].
    destruct (Hk 5%Z (or_intror (or_introl eq_refl))) as [Hp5 [Hr5 _]].
    split; [exact Hr2 | split; [exact Hr5 | exact Hp5]].
Defined.

Lemma zdict_lookup_map_enumerate_below {A B} (f : Z -> A -> B) (l : list A)
  (start key : Z) :
  (key < start)%Z ->
  zdict_lookup (map (fun '(k, v) => (k, f k v)) (enumerate start l)) key = None.
Proof.
  revert start. induction l as [| x l IH]; intros start Hs.
  - reflexivity.
  - cbn [enumerate map zdict_lookup].
    assert (E : (key =? start)%Z = false) by (apply Z.eqb_neq; lia).
    rewrite E. apply IH. lia.
Qed.

(** X10.  [RetrievalAtK] fails on an empty prediction list with the
    [ValueError] of [max] on an empty sequence, whatever the cut-offs; and
    on a prediction list that is not empty, the first cut-off below 1
    raises [KeyError] with that cut-off. *)
Theorem RetrievalAtK_errors :
  forall (gold : list string) (rest : list (list string)),
    (forall k_list,
        RetrievalMetric_compute (RetrievalAtK__compute k_list) (gold :: rest) []
        = Raise (ValueError "max() arg is an empty sequence"))
    /\ (forall predictions before k after,
           predictions <> [] ->
           (forall k', In k' before -> (1 <= k')%Z) ->
           (k < 1)%Z ->
           RetrievalMetric_compute (RetrievalAtK__compute (before ++ k :: after))
             (gold :: rest) predictions
           = Raise (KeyError (str_of_int k))).
Proof.
  intros gold rest. split.
  - intros k_list. reflexivity.
  - intros predictions before k after Hne Hbefore Hk.
    rewrite RetrievalMetric_compute_arrays. cbn zeta.
    set (sums := prefix_sums 0 (relevances gold predictions)).
    assert (Hlen : List.length sums = List.length predictions).
    { subst sums. rewrite prefix_sums_length. unfold relevances.
      apply length_map. }
    assert (Hsne : sums <> []).
    { intros E. rewrite E in Hlen.
      destruct predictions; [contradiction | discriminate]. }
    unfold RetrievalAtK__compute.
    cbn [for_each precision_at_k recall_at_k match_at_k].
    rewrite zmax_keys_map_enumerate by exact Hsne. cbn [bind].
    rewrite for_each_app.
    rewrite (RetrievalAtK_inner_loop _ sums 0%Z "precision" before [] Hbefore Hsne).
    cbn [bind for_each].
    assert (Hmin : Z.min k (Z.of_nat (List.length sums)) = k) by lia.
    rewrite Hmin. unfold zdict_getitem.
    rewrite zdict_lookup_map_enumerate_below by exact Hk. reflexivity.
Qed.

(** The cut-off 0 after the cut-off 3. *)
Lemma RetrievalAtK_errors_witness :
  RetrievalMetric_compute (RetrievalAtK__compute [3; 0; 1]%Z) [["d1"]] ["d1"; "d2"]
  = Raise (KeyError "0").
Proof.
  destruct (RetrievalAtK_errors ["d1"] []) as [_ H].
  apply (H ["d1"; "d2"] [3%Z] 0%Z [1%Z]).
  - discriminate.
  - intros k' [<- | []]. lia.
  - lia.
Defined.

(** *** [MAP] *)

Lemma fold_left_Zadd (l : list Z) (a : Z) :
  fold_left Z.add l a = (a + fold_left Z.add l 0)%Z.
Proof.
  revert a. induction l as [| x l IH]; intros a; cbn [fold_left].
  - lia.
  - rewrite (IH (a + x)%Z), (IH (0 + x)%Z). lia.
Qed.

Lemma Zsum_cons (x : Z) (l : list Z) : Zsum (x :: l) = (x + Zsum l)%Z.
Proof.
  unfold Zsum. cbn [fold_left]. rewrite fold_left_Zadd. lia.
Qed.

Lemma In_enumerate {A} (l : list A) (start k : Z) (v : A) :
  In (k, v) (enumerate start l) ->
  exists i, k = (start + Z.of_nat i)%Z /\ nth_error l i = Some v.
Proof.
  revert start. induction l as [| x l IH]; intros start; simpl.
  - intros [].
  - intros [H | H].
    + inversion H; subst. exists 0%nat. split; [lia | reflexivity].
    + apply IH in H. destruct H as [i [Hk Hi]].
      exists (S i). split; [lia | exact Hi].
Qed.

(** A running sum of 0/1 entries from a start between 0 and [bound] stays
    between 0 and [bound] plus the number of entries. *)
Lemma prefix_sums_bounds (l : list Z) (a bound : Z) (i : nat) (s : Z) :
  (forall r, In r l -> (0 <= r <= 1)%Z) ->
  (0 <= a <= bound)%Z ->
  nth_error (prefix_sums a l) i = Some s ->
  (0 <= s <= bound + Z.of_nat (S i))%Z.
Proof.
  revert a bound i. induction l as [| v l IH]; intros a bound i Hl Ha Hs.
  - destruct i; discriminate Hs.
  - pose proof (Hl v (or_introl eq_refl)) as Hv.
    cbn [prefix_sums] in Hs. destruct i as [| i].
    + cbn [nth_error] in Hs. inversion Hs; subst. lia.
    + cbn [nth_error] in Hs.
      apply (IH (a + v)%Z (bound + 1)%Z i) in Hs;
        [lia | intros r Hr; apply Hl; right; exact Hr | lia].
Qed.

Lemma relevances_01 (gold predictions : list string) (r : Z) :
  In r (relevances gold predictions) -> (0 <= r <= 1)%Z.
Proof.
  unfold relevances. intros H. apply in_map_iff in H.
  destruct H as [p [<- _]]. destruct (mem_string p gold); lia.
Qed.

Lemma Qsum_le_pointwise {A} (f g : A -> Q) (l : list A) :
  (forall x, In x l -> f x <= g x) ->
  Qsum (map f l) <= Qsum (map g l).
Proof.
  induction l as [| x l IH]; intros H; simpl.
  - apply Qle_refl.
  - apply Qplus_le_compat.
    + apply H. left. reflexivity.
    + apply IH. intros y Hy. apply H. right. exact Hy.
Qed.

Lemma Qsum_inject_Z (l : list Z) :
  Qsum (map inject_Z l) == inject_Z (Zsum l).
Proof.
  induction l as [| x l IH].
  - reflexivity.
  - rewrite Zsum_cons, inject_Z_plus. simpl. rewrite IH. reflexivity.
Qed.

Lemma Qsum_nonneg (l : list Q) : (forall q, In q l -> 0 <= q) -> 0 <= Qsum l.
Proof.
  induction l as [| x l IH]; intros H; simpl.
  - apply Qle_refl.
  - replace 0 with (0 + 0) by reflexivity. apply Qplus_le_compat.
    + apply H. left. reflexivity.
    + apply IH. intros y Hy. apply H. right. exact Hy.
Qed.

(** X11.  [MAP] never raises on an instance with a reference list, and its
    score lies between 0 and 1, also when documents are predicted more than
    once (where the recall of [RetrievalAtK] does not). *)
Theorem MAP_score_between_0_and_1 :
  forall (gold : list string) (rest : list (list string))
         (predictions : list string),
  exists q,
    RetrievalMetric_compute MAP__compute (gold :: rest) predictions
    = Ok [("map", VFloat (Num q))]
    /\ 0 <= q /\ q <= 1.
Proof.
  intros gold rest predictions.
  rewrite RetrievalMetric_compute_arrays. cbn zeta.
  set (rels := relevances gold predictions).
  set (sums := prefix_sums 0 rels).
  unfold MAP__compute. cbn [relevance_at_k precision_at_k].
  destruct (0 <? List.length (enumerate 1 rels))%nat;
    [| exists 0; split; [reflexivity | split; [apply Qle_refl | discriminate]]].
  destruct (0 <? Zsum (map snd (enumerate 1 rels)))%Z eqn:Htotal;
    [| exists 0; split; [reflexivity | split; [apply Qle_refl | discriminate]]].
  apply Z.ltb_lt in Htotal.
  set (term := fun kv : Z * Z =>
                 inject_Z (snd kv)
                 * (inject_Z (nth (Z.to_nat (fst kv - 1)) sums 0%Z)
                    / inject_Z (fst kv))).
  assert (Hlen : List.length sums = List.length rels)
    by (subst sums; apply prefix_sums_length).
  assert (Hterms :
            map_result
              (fun '(k, _) =>
                 r <- zdict_getitem (enumerate 1 rels) k ;;
                 p <- zdict_getitem
                        (map (fun '(k, value) => (k, inject_Z value / inject_Z k))
                             (enumerate 1 sums)) k ;;
                 Ok (inject_Z r * p))
              (enumerate 1 rels)
            = Ok (map term (enumerate 1 rels))).
  { apply map_result_map. intros [k v] Hin.
    destruct (In_enumerate _ _ _ _ Hin) as [i [-> Hi]].
    unfold zdict_getitem.
    rewrite zdict_lookup_enumerate, Hi. cbn [bind].
    rewrite zdict_lookup_map_enumerate.
    assert (Hi' : (i < List.length sums)%nat).
    { rewrite Hlen. apply nth_error_Some. rewrite Hi. discriminate. }
    rewrite (nth_error_nth' sums 0%Z Hi'). cbn [option_map bind].
    unfold term. cbn [fst snd].
    replace (Z.to_nat (1 + Z.of_nat i - 1)) with i by lia.
    reflexivity. }
  rewrite Hterms. cbn [bind].
  eexists. split; [reflexivity |].
  assert (Hbound : forall kv, In kv (enumerate 1 rels) ->
                              0 <= term kv /\ term kv <= inject_Z (snd kv)).
  { intros [k v] Hin.
    destruct (In_enumerate _ _ _ _ Hin) as [i [-> Hi]].
    assert (Hv : (0 <= v <= 1)%Z).
    { apply (relevances_01 gold predictions). eapply nth_error_In. exact Hi. }
    assert (Hi' : (i < List.length sums)%nat).
    { rewrite Hlen. apply nth_error_Some. rewrite Hi. discriminate. }
    pose proof (nth_error_nth' sums 0%Z Hi') as Hs.
    apply (prefix_sums_bounds rels 0 0 i) in Hs;
      [| apply relevances_01 | lia].
    unfold term. cbn [fst snd].
    replace (Z.to_nat (1 + Z.of_nat i - 1)) with i by lia.
    set (s := nth i sums 0%Z) in *.
    assert (Hk : 0 < inject_Z (1 + Z.of_nat i)).
    { change 0 with (inject_Z 0). rewrite <- Zlt_Qlt. lia. }
    assert (Hp0 : 0 <= inject_Z s / inject_Z (1 + Z.of_nat i)).
    { apply Qle_shift_div_l; [exact Hk |]. rewrite Qmult_0_l.
      change 0 with (inject_Z 0). rewrite <- Zle_Qle. lia. }
    assert (Hp1 : inject_Z s / inject_Z (1 + Z.of_nat i) <= 1).
    { apply Qle_shift_div_r; [exact Hk |]. rewrite Qmult_1_l.
      rewrite <- Zle_Qle. lia. }
    assert (Hv0 : 0 <= inject_Z v).
    { change 0 with (inject_Z 0). rewrite <- Zle_Qle. lia. }
    split.
    - apply Qmult_le_0_compat; assumption.
    - apply Qle_trans with (1 * inject_Z v).
      + rewrite (Qmult_comm (inject_Z v)).
        apply Qmult_le_compat_r; assumption.
      + rewrite Qmult_1_l. apply Qle_refl. }
  assert (Htot : 0 < inject_Z (Zsum (map snd (enumerate 1 rels)))).
  { change 0 with (inject_Z 0). rewrite <- Zlt_Qlt. exact Htotal. }
  split.
  - apply Qle_shift_div_l; [exact Htot |]. rewrite Qmult_0_l.
    apply Qsum_nonneg. intros q Hq. apply in_map_iff in Hq.
    destruct Hq as [kv [<- Hkv]]. apply Hbound. exact Hkv.
  - apply Qle_shift_div_r; [exact Htot |]. rewrite Qmult_1_l.
    rewrite <- Qsum_inject_Z. rewrite map_map.
    apply Qsum_le_pointwise. intros kv Hkv. apply Hbound. exact Hkv.
Qed.

(* ------------------------------------------------------------------ *)
(** ** What [InstanceMetric.process] leaves untouched *)

Lemma compute_instance_scores_step_keeps (self : metric)
  (instances instances' : list instance) (g g' : loc) (i : instance) :
  compute_instance_scores_step self (instances, g) i = Ok (instances', g') ->
  exists i' new,
    instances' = (instances ++ [i'])%list
    /\ references i' = references i
    /\ prediction i' = prediction i
    /\ task_data i' = task_data i
    /\ compute_instance self (references i) (prediction i) (task_data_of i) = Ok new
    /\ forall k, k <> "score" -> k <> "score_name" ->
                 dict_lookup new k = None ->
                 dict_lookup (instance_scores_of i') k
                 = dict_lookup (instance_scores_of i) k.
Proof.
  unfold compute_instance_scores_step. intros H.
  apply bind_ok in H. destruct H as [_ [_ H]].
  apply bind_ok in H. destruct H as [_ [_ H]].
  apply bind_ok in H. destruct H as [new [Hnew H]].
  apply bind_ok in H. destruct H as [m [_ H]].
  apply bind_ok in H. destruct H as [[[i0 sec] g1] [Hlink H]].
  injection H as <- <-.
  eexists. exists new. split; [reflexivity |].
  assert (Hi0 : references i0 = references i /\ prediction i0 = prediction i
                /\ task_data i0 = task_data i
                /\ sinstance sec = instance_scores_of i).
  { unfold link_global_score, instance_scores_of in *.
    destruct (score i) as [s |] eqn:Es.
    - destruct (sglobal s); [| discriminate Hlink].
      injection Hlink as <- <- _. auto.
    - injection Hlink as <- <- _. cbn. auto. }
  destruct Hi0 as [Hr [Hp [Ht Hs]]].
  unfold update_instance_section, set_score, instance_scores_of. cbn.
  split; [exact Hr |]. split; [exact Hp |]. split; [exact Ht |].
  split; [exact Hnew |].
  intros k Hk1 Hk2 Hnone.
  rewrite dict_lookup_update_absent; [rewrite Hs; reflexivity |].
  rewrite !dict_lookup_set_other by assumption. exact Hnone.
Qed.

(** X12.  [InstanceMetric.process] yields one instance per instance of the
    stream, in stream order, with the same references, prediction and task
    data; in its instance scores, every name that [compute] did not return
    (other than [score] and [score_name]) keeps the value an earlier metric
    gave it. *)
Theorem InstanceMetric_process_keeps_earlier_scores :
  forall (dict_get : instance -> string -> option string)
         (bootstrap : forall P : Type, list P -> (list P -> result scoreval) -> Z ->
                                       result (scoreval * scoreval))
         (self : metric) (h h' : heap) (stream out : list instance),
    InstanceMetric_process dict_get bootstrap self h stream = Ok (h', out) ->
    Forall2
      (fun i i' =>
         references i' = references i
         /\ prediction i' = prediction i
         /\ task_data i' = task_data i
         /\ exists new,
             compute_instance self (references i) (prediction i) (task_data_of i)
             = Ok new
             /\ forall k, k <> "score" -> k <> "score_name" ->
                          dict_lookup new k = None ->
                          dict_lookup (instance_scores_of i') k
                          = dict_lookup (instance_scores_of i) k)
      stream out.
Proof.
  intros dict_get bootstrap self h h' stream out H.
  destruct (InstanceMetric_process_instances _ _ _ _ _ _ _ H) as [g Hc].
  unfold compute_instance_scores in Hc.
  assert (Hloop : forall stream acc g0 out g,
             for_each stream (compute_instance_scores_step self) (acc, g0)
             = Ok (out, g) ->
             exists tail,
               out = (acc ++ tail)%list
               /\ Forall2
                    (fun i i' =>
                       references i' = references i
                       /\ prediction i' = prediction i
                       /\ task_data i' = task_data i
                       /\ exists new,
                           compute_instance self (references i) (prediction i)
                             (task_data_of i) = Ok new
                           /\ forall k, k <> "score" -> k <> "score_name" ->
                                        dict_lookup new k = None ->
                                        dict_lookup (instance_scores_of i') k
                                        = dict_lookup (instance_scores_of i) k)
                    stream tail).
  { clear. induction stream as [| i stream IH]; intros acc g0 out g H.
    - simpl in H. injection H as <- <-. exists []. rewrite app_nil_r.
      split; [reflexivity | constructor].
    - cbn [for_each] in H. apply bind_ok in H.
      destruct H as [[acc1 g1] [Hstep H]].
      apply compute_instance_scores_step_keeps in Hstep.
      destruct Hstep as [i' [new [-> [Hr [Hp [Ht [Hnew Hkeep]]]]]]].
      destruct (IH _ _ _ _ H) as [tail [-> Htail]].
      exists (i' :: tail). rewrite <- app_assoc. split; [reflexivity |].
      constructor; [| exact Htail].
      split; [exact Hr |]. split; [exact Hp |]. split; [exact Ht |].
      exists new. split; assumption. }
  destruct (Hloop _ _ _ _ _ Hc) as [tail [-> Htail]]. exact Htail.
Qed.

(** An exact-match metric run after [accuracy]: the earlier [accuracy]
    score of the instance is still there. *)
Lemma InstanceMetric_process_keeps_earlier_scores_witness :
  exists h' i',
    InstanceMetric_process task_data_get point_bootstrap
      (InstanceMetric_prepare (bare_metric InstanceMetric "exact_match"))
      earlier_heap [earlier_scored 0%nat "a" "b"] = Ok (h', [i'])
    /\ dict_lookup (instance_scores_of i') "accuracy" = Some (VFloat (Num 1))
    /\ dict_lookup (instance_scores_of i') "exact_match" = Some (VFloat (Num 0)).
Proof.
  eexists. eexists.
  assert (H : InstanceMetric_process task_data_get point_bootstrap
                (InstanceMetric_prepare (bare_metric InstanceMetric "exact_match"))
                earlier_heap [earlier_scored 0%nat "a" "b"] = Ok (?[h'], [?[i']]))
    by (vm_compute; reflexivity).
  split; [exact H |].
  pose proof (InstanceMetric_process_keeps_earlier_scores _ _ _ _ _ _ _ H) as HF.
  inversion HF as [| i i' l l' [_ [_ [_ [new [Hnew Hkeep]]]]] _]; subst.
  split.
  - rewrite (Hkeep "accuracy"); [reflexivity | discriminate | discriminate |].
    vm_compute in Hnew. injection Hnew as <-. reflexivity.
  - reflexivity.
Defined.

(* ------------------------------------------------------------------ *)
(** ** [BulkInstanceMetric.process]: instances without a score dictionary *)

Lemma map_result_length {A B} (f : A -> result B) (xs : list A) (ys : list B) :
  map_result f xs = Ok ys -> List.length ys = List.length xs.
Proof.
  revert ys. induction xs as [| x xs IH]; intros ys H.
  - simpl in H. injection H as <-. reflexivity.
  - cbn [map_result] in H. apply bind_ok in H. destruct H as [y [_ H]].
    apply bind_ok in H. destruct H as [ys' [Hys H]].
    injection H as <-. simpl. rewrite (IH _ Hys). reflexivity.
Qed.

Lemma map_fst_combine {A B} (l1 : list A) (l2 : list B) :
  map fst (combine l1 l2) = firstn (List.length l2) l1.
Proof.
  revert l2. induction l1 as [| x l1 IH]; intros [| y l2]; simpl;
    try reflexivity.
  rewrite IH. reflexivity.
Qed.

(** X13.  [BulkInstanceMetric.process] pairs the stream with the score
    dictionaries [compute] returns by [zip]: when [compute] returns fewer
    dictionaries than there are instances, only the first instances are
    yielded, as many as there are dictionaries, and the rest of the stream
    is dropped without an error. *)
Theorem BulkInstanceMetric_process_yields_scored_prefix :
  forall (bootstrap : forall P : Type, list P -> (list P -> result scoreval) -> Z ->
                                       result (scoreval * scoreval))
         (self : metric) (h h' : heap) (stream out : list instance),
    BulkInstanceMetric_process bootstrap self h stream = Ok (h', out) ->
    exists scores,
      compute_bulk self (map references stream) (map prediction stream)
        (map task_data_of stream) = Ok scores
      /\ Forall2
           (fun i i' =>
              references i' = references i
              /\ prediction i' = prediction i
              /\ task_data i' = task_data i)
           (firstn (List.length scores) stream) out.
Proof.
  intros bootstrap self h h' stream out H.
  unfold BulkInstanceMetric_process in H. cbn [heap_alloc] in H.
  destruct stream as [| i0 stream0]; [discriminate H |].
  set (stream := i0 :: stream0) in *.
  apply bind_ok in H. destruct H as [_ [_ H]].
  apply bind_ok in H. destruct H as [scores [Hscores H]].
  apply bind_ok in H. destruct H as [scores' [Hscores' H]].
  apply bind_ok in H. destruct H as [[instances g] [Hloop H]].
  apply bind_ok in H. destruct H as [h1 [_ H]].
  injection H as _ <-.
  exists scores. split; [exact Hscores |].
  assert (Hlen : List.length scores = List.length scores')
    by (symmetry; apply (map_result_length _ _ _ Hscores')).
  rewrite Hlen.
  rewrite <- map_fst_combine.
  assert (Hgen : forall pairs acc g0 out g,
             for_each pairs
               (fun '(instances, global_score) '(i, score_) =>
                  ' (i, sec, global_score) <- link_global_score global_score i ;;
                  let i := update_instance_section i sec score_ in
                  Ok ((instances ++ [i])%list, global_score))
               (acc, g0) = Ok (out, g) ->
             exists tail,
               out = (acc ++ tail)%list
               /\ Forall2
                    (fun i i' =>
                       references i' = references i
                       /\ prediction i' = prediction i
                       /\ task_data i' = task_data i)
                    (map fst pairs) tail).
  { clear. induction pairs as [| [i sc] pairs IH]; intros acc g0 out g H.
    - simpl in H. injection H as <- <-. exists []. rewrite app_nil_r.
      split; [reflexivity | constructor].
    - cbn [for_each] in H. apply bind_ok in H.
      destruct H as [[acc1 g1] [Hstep H]].
      apply bind_ok in Hstep. destruct Hstep as [[[i1 sec] g2] [Hlink Hstep]].
      injection Hstep as <- <-.
      destruct (IH _ _ _ _ H) as [tail [-> Htail]].
      eexists (_ :: tail). rewrite <- app_assoc. split; [reflexivity |].
      cbn [map fst]. constructor; [| exact Htail].
      unfold link_global_score in Hlink.
      destruct (score i) as [s |].
      + destruct (sglobal s); [| discriminate Hlink].
        injection Hlink as <- _ _. cbn. auto.
      + injection Hlink as <- _ _. cbn. auto. }
  destruct (Hgen _ _ _ _ _ Hloop) as [tail [-> Htail]]. exact Htail.
Qed.

(** [compute] returns one dictionary for two instances: the second instance
    is not yielded. *)
Lemma BulkInstanceMetric_process_yields_scored_prefix_witness :
  exists h' i',
    BulkInstanceMetric_process point_bootstrap first_only_bulk_metric empty_heap
      [unscored "a" "a"; unscored "b" "c"] = Ok (h', [i'])
    /\ prediction i' = "a".
Proof.
  eexists. eexists.
  assert (H : BulkInstanceMetric_process point_bootstrap first_only_bulk_metric
                empty_heap [unscored "a" "a"; unscored "b" "c"]
              = Ok (?[h'], [?[i']]))
    by (vm_compute; reflexivity).
  split; [exact H |].
  destruct (BulkInstanceMetric_process_yields_scored_prefix _ _ _ _ _ _ H)
    as [scores [Hscores HF]].
  cbn in Hscores. injection Hscores as <-.
  inversion HF as [| i i' l l' [_ [Hp _]] _]; subst. exact Hp.
Defined.

(* ------------------------------------------------------------------ *)
(** ** [isoftype] on tuples *)

(** X14.  [isoftype] checks a tuple against [Tuple[...]] element by element
    through [zip], and never compares the lengths: elements beyond the
    type arguments are ignored, and type arguments beyond the elements are
    not required.  So the empty tuple is of every tuple type, and a tuple
    is of type [Tuple[t1, ..., tn]] as soon as its first [n] elements
    are. *)
Theorem isoftype_tuple_ignores_length :
  forall (elements more_elements : list pyobj) (type_args more_type_args : list pytype),
    List.length elements = List.length type_args ->
    isoftype (OTuple (elements ++ more_elements)) (TTuple type_args)
    = isoftype (OTuple elements) (TTuple type_args)
    /\ isoftype (OTuple elements) (TTuple (type_args ++ more_type_args))
       = isoftype (OTuple elements) (TTuple type_args).
Proof.
  intros elements more_elements type_args more_type_args.
  revert type_args. induction elements as [| e elements IH];
    intros [| t type_args] Hlen; try discriminate Hlen.
  - split.
    + destruct more_elements; reflexivity.
    + destruct more_type_args; reflexivity.
  - injection Hlen as Hlen. destruct (IH type_args Hlen) as [IH1 IH2].
    cbn [isoftype app] in *. rewrite IH1, IH2. split; reflexivity.
Qed.

(** A pair of an integer and a string, with a third element or alone with
    the integer, is accepted as [Tuple[int, str]]. *)
Lemma isoftype_tuple_ignores_length_witness :
  isoftype (OTuple [OInt 1; OStr "a"; ONone]) (TTuple [TInt; TStr]) = true
  /\ isoftype (OTuple [OInt 1]) (TTuple [TInt; TStr]) = true.
Proof.
  split.
  - exact (eq_trans
             (proj1 (isoftype_tuple_ignores_length [OInt 1; OStr "a"] [ONone]
                       [TInt; TStr] [] eq_refl))
             eq_refl).
  - exact (eq_trans
             (proj2 (isoftype_tuple_ignores_length [OInt 1] [] [TInt] [TStr]
                       eq_refl))
             eq_refl).
Defined.

(* ------------------------------------------------------------------ *)
(** ** Validation of references and predictions *)

(** A loop of checks succeeds exactly when every check does, and fails with
    a [ValueError] when the checks only fail so. *)
Lemma for_each_checks {A} (check : A -> result unit) (xs : list A) :
  (forall x, In x xs -> check x = Ok tt \/ exists msg, check x = Raise (ValueError msg)) ->
  (for_each xs (fun _ x => check x) tt = Ok tt
   /\ Forall (fun x => check x = Ok tt) xs)
  \/ ((exists msg, for_each xs (fun _ x => check x) tt = Raise (ValueError msg))
      /\ ~ Forall (fun x => check x = Ok tt) xs).
Proof.
  induction xs as [| x xs IH]; intros Hch.
  - left. split; [reflexivity | constructor].
  - cbn [for_each].
    destruct (Hch x (or_introl eq_refl)) as [Hx | [msg Hx]]; rewrite Hx; cbn [bind].
    + destruct (IH (fun y Hy => Hch y (or_intror Hy))) as [[Hok Hall] | [Hbad Hnot]].
      * left. split; [exact Hok | constructor; assumption].
      * right. split; [exact Hbad |].
        intros Hall. apply Hnot. inversion Hall; assumption.
    + right. split; [exists msg; reflexivity |].
      intros Hall. inversion Hall as [| ? ? Hx' _]; subst.
      rewrite Hx in Hx'. discriminate Hx'.
Qed.

Lemma _validate_reference_cases (self : metric) (reference : list string) :
  (_validate_reference self reference = Ok tt /\ valid_reference self reference)
  \/ ((exists msg, _validate_reference self reference = Raise (ValueError msg))
      /\ ~ valid_reference self reference).
Proof.
  unfold _validate_reference, valid_reference.
  destruct (single_reference_per_prediction self) eqn:Hs; cbn [andb].
  - destruct (Nat.eqb (List.length reference) 1) eqn:Hl; cbn [negb].
    + apply Nat.eqb_eq in Hl.
      destruct (for_each_checks
                  (fun ref => if prediction_type_ok self ref then Ok tt
                              else Raise (ValueError "Each reference is expected to be of the prediction type"))
                  reference) as [[Hok Hall] | [Hbad Hnot]].
      * intros x _. destruct (prediction_type_ok self x);
          [left; reflexivity | right; eexists; reflexivity].
      * left. split; [exact Hok |]. split; [intros _; exact Hl |].
        eapply Forall_impl; [| exact Hall]. intros a Ha. cbn in Ha.
        destruct (prediction_type_ok self a); [reflexivity | discriminate Ha].
      * right. split; [exact Hbad |]. intros [_ Hall]. apply Hnot.
        eapply Forall_impl; [| exact Hall]. intros a Ha. cbn. rewrite Ha.
        reflexivity.
    + right. split; [eexists; reflexivity |].
      intros [Hone _]. apply Nat.eqb_neq in Hl. apply Hl, Hone. reflexivity.
  - destruct (for_each_checks
                (fun ref => if prediction_type_ok self ref then Ok tt
                            else Raise (ValueError "Each reference is expected to be of the prediction type"))
                reference) as [[Hok Hall] | [Hbad Hnot]].
    + intros x _. destruct (prediction_type_ok self x);
        [left; reflexivity | right; eexists; reflexivity].
    + left. split; [exact Hok |]. split; [intros H; discriminate H |].
      eapply Forall_impl; [| exact Hall]. intros a Ha. cbn in Ha.
      destruct (prediction_type_ok self a); [reflexivity | discriminate Ha].
    + right. split; [exact Hbad |]. intros [_ Hall]. apply Hnot.
      eapply Forall_impl; [| exact Hall]. intros a Ha. cbn. rewrite Ha.
      reflexivity.
Qed.

Lemma _validate_references_and_prediction_cases (self : metric)
  (refs : list (list string)) (predictions : list string) :
  (_validate_references_and_prediction self refs predictions = Ok tt
   /\ valid_references_and_predictions self refs predictions)
  \/ ((exists msg, _validate_references_and_prediction self refs predictions
                   = Raise (ValueError msg))
      /\ ~ valid_references_and_predictions self refs predictions).
Proof.
  unfold _validate_references_and_prediction, valid_references_and_predictions.
  destruct (Nat.eqb (List.length refs) (List.length predictions)) eqn:Hl;
    cbn [negb].
  - apply Nat.eqb_eq in Hl.
    destruct (for_each_checks (_validate_reference self) refs)
      as [[Hok Hall] | [[msg Hbad] Hnot]].
    + intros r _. destruct (_validate_reference_cases self r) as [[H _] | [H _]];
        [left; exact H | right; exact H].
    + rewrite Hok. cbn [bind].
      assert (Hrefs : Forall (valid_reference self) refs).
      { eapply Forall_impl; [| exact Hall]. intros r Hr. cbn in Hr.
        destruct (_validate_reference_cases self r) as [[_ H] | [[m H] _]];
          [exact H | rewrite H in Hr; discriminate Hr]. }
      destruct (for_each_checks (_validate_prediction self) predictions)
        as [[Hokp Hallp] | [Hbadp Hnotp]].
      * intros p _. unfold _validate_prediction.
        destruct (prediction_type_ok self p);
          [left; reflexivity | right; eexists; reflexivity].
      * left. split; [exact Hokp |]. split; [exact Hl |]. split; [exact Hrefs |].
        eapply Forall_impl; [| exact Hallp]. intros p Hp. cbn in Hp.
        unfold _validate_prediction in Hp.
        destruct (prediction_type_ok self p); [reflexivity | discriminate Hp].
      * right. split; [exact Hbadp |]. intros [_ [_ Hp]]. apply Hnotp.
        eapply Forall_impl; [| exact Hp]. intros p Hpp. cbn.
        unfold _validate_prediction. rewrite Hpp. reflexivity.
    + right. rewrite Hbad. cbn [bind]. split; [exists msg; reflexivity |].
      intros [_ [Hrefs _]]. apply Hnot.
      eapply Forall_impl; [| exact Hrefs]. intros r Hr. cbn.
      destruct (_validate_reference_cases self r) as [[H _] | [_ H]];
        [exact H | contradiction].
  - right. split; [eexists; reflexivity |].
    intros [Heq _]. apply Nat.eqb_neq in Hl. contradiction.
Qed.

(** X15.  [_validate_references_and_prediction] accepts exactly the inputs
    with as many reference lists as predictions, where every prediction and
    every reference is of the prediction type and, for a metric with
    [single_reference_per_prediction], every reference list has one
    element; every other input is rejected with a [ValueError]. *)
Theorem _validate_references_and_prediction_accepts_exactly :
  forall (self : metric) (refs : list (list string)) (predictions : list string),
    (_validate_references_and_prediction self refs predictions = Ok tt
     <-> valid_references_and_predictions self refs predictions)
    /\ (~ valid_references_and_predictions self refs predictions ->
        exists msg,
          _validate_references_and_prediction self refs predictions
          = Raise (ValueError msg)).
Proof.
  intros self refs predictions.
  destruct (_validate_references_and_prediction_cases self refs predictions)
    as [[Hok Hvalid] | [[msg Hbad] Hnot]].
  - split; [split; intros _; assumption | intros Hn; contradiction].
  - split.
    + split; [intros H; rewrite Hbad in H; discriminate H | intros H; contradiction].
    + intros _. exists msg. exact Hbad.
Qed.

(** Two references for a metric that wants a single one. *)
Lemma _validate_references_and_prediction_accepts_exactly_witness :
  exists msg,
    _validate_references_and_prediction
      {| kind := InstanceMetric; main_score := "accuracy";
         prediction_type_ok := fun _ => true;
         single_reference_per_prediction := true;
         n_resamples := None; ci_scores := None; grouping := None;
         subgroup_filtering := None; control_comparison := None;
         score_names := None; to_score_names := None; prefix := "";
         aggregating := None;
         compute_instance := Accuracy_compute "accuracy";
         process_single_instances := true;
         compute := fun _ _ _ => Raise (ComputeError "abstract");
         reduction_map := []; implemented_reductions := ["mean"];
         compute_bulk := fun _ _ _ => Raise (ComputeError "abstract") |}
      [["a"; "b"]] ["a"]
    = Raise (ValueError msg).
Proof.
  apply (proj2 (_validate_references_and_prediction_accepts_exactly _ _ _)).
  intros [_ [Hrefs _]]. inversion Hrefs as [| r l [Hone _] _]; subst.
  specialize (Hone eq_refl). discriminate Hone.
Defined.

(** X16.  [GlobalMetric.process] validates only after the stream loop: on a
    stream of instances without scores (or already linked to the new global
    dictionary) whose references or predictions the metric does not accept,
    it raises the [ValueError] of the validation, whatever [compute] did on
    the single instances, and yields nothing. *)
Theorem GlobalMetric_process_rejects_invalid_stream :
  forall (dict_get : instance -> string -> option string)
         (bootstrap : forall P : Type, list P -> (list P -> result scoreval) -> Z ->
                                       result (scoreval * scoreval))
         (self : metric) (h : heap) (stream : list instance),
    links_to (next_loc h) stream ->
    ~ valid_references_and_predictions self (map references stream)
        (map prediction stream) ->
    exists msg,
      GlobalMetric_process dict_get bootstrap self h stream = Raise (ValueError msg).
Proof.
  intros dict_get bootstrap self h stream Hlinks Hinvalid.
  destruct (_validate_references_and_prediction_cases self (map references stream)
              (map prediction stream)) as [[_ Hvalid] | [[msg Hbad] _]];
    [contradiction |].
  exists msg.
  unfold GlobalMetric_process, GlobalMetric_consume. cbn [heap_alloc].
  rewrite (GlobalMetric_consume_loop self (next_loc h) stream Hlinks).
  cbn [bind app]. rewrite Hbad. reflexivity.
Qed.

(** A stream whose only instance has two references, for a corpus metric
    that wants a single one. *)
Lemma GlobalMetric_process_rejects_invalid_stream_witness :
  exists msg,
    GlobalMetric_process task_data_get point_bootstrap
      {| kind := GlobalMetric; main_score := "f1";
         prediction_type_ok := fun _ => true;
         single_reference_per_prediction := true;
         n_resamples := None; ci_scores := None; grouping := None;
         subgroup_filtering := None; control_comparison := None;
         score_names := None; to_score_names := None; prefix := "";
         aggregating := None;
         compute_instance := fun _ _ _ => Raise (ComputeError "abstract");
         process_single_instances := true;
         compute := corpus_compute;
         reduction_map := []; implemented_reductions := ["mean"];
         compute_bulk := fun _ _ _ => Raise (ComputeError "abstract") |}
      empty_heap
      [{| references := ["a"; "b"]; prediction := "a"; task_data := None;
          score := None |}]
    = Raise (ValueError msg).
Proof.
  apply GlobalMetric_process_rejects_invalid_stream.
  - intros i [<- | []]. left. reflexivity.
  - intros [_ [Hrefs _]]. inversion Hrefs as [| r l [Hone _] _]; subst.
    specialize (Hone eq_refl). discriminate Hone.
Defined.

(* ------------------------------------------------------------------ *)
(** ** [RemoteMetric.process] *)

Lemma update_instance_scores_nth (instances : list instance)
  (scores : list pydict) (k : nat) (i : instance) :
  nth_error instances k = Some i ->
  exists i',
    nth_error (update_instance_scores instances scores) k = Some i'
    /\ references i' = references i
    /\ prediction i' = prediction i
    /\ task_data i' = task_data i
    /\ instance_scores_of i'
       = match nth_error scores k with
         | Some new_scores => dict_update (instance_scores_of i) new_scores
         | None => instance_scores_of i
         end.
Proof.
  revert scores k. induction instances as [| j instances IH]; intros scores k Hk.
  - destruct k; discriminate Hk.
  - destruct scores as [| new scores].
    + exists i. cbn [update_instance_scores]. split; [exact Hk |].
      destruct k; cbn; auto.
    + destruct k as [| k].
      * cbn in Hk. injection Hk as ->. eexists. cbn [update_instance_scores nth_error].
        split; [reflexivity |].
        unfold update_instance_section, set_score, instance_scores_of. cbn.
        destruct (score i); cbn; auto.
      * cbn [update_instance_scores nth_error] in *. apply IH. exact Hk.
Qed.

Lemma set_global_score_nth (instances : list instance) (G : loc) (k : nat)
  (i : instance) :
  nth_error instances k = Some i ->
  exists i',
    nth_error (set_global_score instances G) k = Some i'
    /\ references i' = references i
    /\ prediction i' = prediction i
    /\ task_data i' = task_data i
    /\ instance_scores_of i' = instance_scores_of i.
Proof.
  intros Hk. unfold set_global_score. rewrite nth_error_map, Hk. cbn [option_map].
  eexists. split; [reflexivity |].
  unfold set_score, instance_scores_of. cbn. destruct (score i); cbn; auto.
Qed.

(** X17.  [RemoteMetric.process] yields every instance of the stream with
    its references, prediction and task data.  The instance at position [k]
    has its instance scores updated with the [k]-th score dictionary of the
    response, and is left without new scores when the response has no such
    dictionary.  All yielded instances refer to one new global dictionary
    whose content is the global score of the response alone: the global
    dictionaries written by earlier metrics are left as they were and no
    yielded instance refers to them any more. *)
Theorem RemoteMetric_process_replaces_global_score :
  forall (get_metric_response : list instance_input -> result metric_response)
         (h : heap) (stream : list instance) (response : metric_response),
    get_metric_response
      (create_metric_request (map prediction stream) (map references stream)
         (map (fun _ => []) stream)) = Ok response ->
    exists h' out,
      RemoteMetric_process get_metric_response h stream = Ok (h', out)
      /\ shares_global (next_loc h) out
      /\ store h' (next_loc h) = global_score response
      /\ (forall l, l <> next_loc h -> store h' l = store h l)
      /\ forall k i,
           nth_error stream k = Some i ->
           exists i',
             nth_error out k = Some i'
             /\ references i' = references i
             /\ prediction i' = prediction i
             /\ task_data i' = task_data i
             /\ instance_scores_of i'
                = match nth_error (instances_scores response) k with
                  | Some new_scores => dict_update (instance_scores_of i) new_scores
                  | None => instance_scores_of i
                  end.
Proof.
  intros get_metric_response h stream response Hresp.
  unfold RemoteMetric_process. rewrite Hresp. cbn [bind heap_alloc].
  eexists. eexists. split; [reflexivity |].
  split; [apply set_global_score_shares |].
  split; [cbn; rewrite Nat.eqb_refl; reflexivity |].
  split.
  - intros l Hl. cbn. apply Nat.eqb_neq in Hl. rewrite Hl. reflexivity.
  - intros k i Hk.
    destruct (update_instance_scores_nth stream (instances_scores response) k i Hk)
      as [i1 [H1 [Hr1 [Hp1 [Ht1 Hs1]]]]].
    destruct (set_global_score_nth _ (next_loc h) k i1 H1)
      as [i2 [H2 [Hr2 [Hp2 [Ht2 Hs2]]]]].
    exists i2. split; [exact H2 |].
    split; [congruence |]. split; [congruence |]. split; [congruence |].
    rewrite Hs2. exact Hs1.
Qed.

(** A service that scores the first instance only and reports the global
    score [f1]: the accuracy of the earlier metric is not in the global
    dictionary the instances now refer to. *)
Lemma RemoteMetric_process_replaces_global_score_witness :
  exists h' i1 i2,
    RemoteMetric_process
      (fun _ => Ok {| instances_scores := [[("f1", VFloat (Num 1))]];
                      global_score := [("f1", VFloat (Num 1))] |})
      earlier_heap [earlier_scored 0%nat "a" "a"; earlier_scored 0%nat "b" "c"]
    = Ok (h', [i1; i2])
    /\ global_of i1 = Some 1%nat
    /\ global_of i2 = Some 1%nat
    /\ dict_lookup (store h' 1%nat) "accuracy" = None
    /\ dict_lookup (store h' 0%nat) "accuracy" = Some (VFloat (Num 1))
    /\ dict_lookup (instance_scores_of i1) "f1" = Some (VFloat (Num 1))
    /\ dict_lookup (instance_scores_of i2) "f1" = None.
Proof.
  destruct (RemoteMetric_process_replaces_global_score
              (fun _ => Ok {| instances_scores := [[("f1", VFloat (Num 1))]];
                              global_score := [("f1", VFloat (Num 1))] |})
              earlier_heap
              [earlier_scored 0%nat "a" "a"; earlier_scored 0%nat "b" "c"]
              _ eq_refl)
    as [h' [out [Hrun [Hshare [Hnew [Hold Hnth]]]]]].
  assert (Hout : exists i1 i2, out = [i1; i2]
                               /\ dict_lookup (instance_scores_of i1) "f1"
                                  = Some (VFloat (Num 1))
                               /\ dict_lookup (instance_scores_of i2) "f1" = None).
  { cbn in Hrun. injection Hrun as _ <-. do 2 eexists.
    split; [reflexivity |]. split; reflexivity. }
  destruct Hout as [i1 [i2 [-> [Hf1 Hf2]]]].
  exists h', i1, i2. split; [exact Hrun |].
  split; [apply Hshare; left; reflexivity |].
  split; [apply Hshare; right; left; reflexivity |].
  split; [change 1%nat with (next_loc earlier_heap); rewrite Hnew; reflexivity |].
  split; [rewrite (Hold 0%nat) by discriminate; reflexivity |].
  split; assumption.
Defined.

(* ------------------------------------------------------------------ *)
(** ** [JaccardIndex] *)

Lemma intersection_In (a b : list string) (x : string) :
  In x (intersection a b) <-> In x a /\ In x b.
Proof.
  unfold intersection. rewrite filter_In, mem_string_In. reflexivity.
Qed.

Lemma intersection_length_l (a b : list string) :
  (List.length (intersection a b) <= List.length a)%nat.
Proof.
  unfold intersection. induction a as [| x a IH]; simpl; [lia |].
  destruct (mem_string x b); simpl; lia.
Qed.

Lemma intersection_length_r (a b : list string) :
  NoDup a -> (List.length (intersection a b) <= List.length b)%nat.
Proof.
  intros Hnd. apply NoDup_incl_length.
  - unfold intersection. apply NoDup_filter. exact Hnd.
  - intros x Hx. apply intersection_In in Hx. apply Hx.
Qed.

Lemma intersection_full (a b : list string) :
  List.length (intersection a b) = List.length a -> incl a b.
Proof.
  unfold intersection. induction a as [| x a IH]; simpl; intros H y Hy.
  - destruct Hy.
  - destruct (mem_string x b) eqn:E.
    + simpl in H. destruct Hy as [<- | Hy].
      * apply mem_string_In. exact E.
      * apply IH; [lia | exact Hy].
    + pose proof (intersection_length_l a b) as Hle. unfold intersection in Hle.
      lia.
Qed.

Lemma intersection_incl_length (a b : list string) :
  incl a b -> List.length (intersection a b) = List.length a.
Proof.
  intros Hincl. unfold intersection. rewrite filter_keep_all; [reflexivity |].
  intros x Hx. apply mem_string_In. apply Hincl. exact Hx.
Qed.

(** [max] returns an entry that bounds all entries. *)
Lemma pymax_spec (l : list Q) (m : Q) :
  pymax l = Ok m -> In m l /\ forall x, In x l -> x <= m.
Proof.
  destruct l as [| x l]; [discriminate |]. cbn [pymax]. intros H.
  injection H as <-.
  revert x. induction l as [| y l IH]; intros x.
  - simpl. split; [left; reflexivity |].
    intros z [<- | []]. apply Qle_refl.
  - cbn [fold_left].
    destruct (Qle_bool y x) eqn:E.
    + apply Qle_bool_iff in E. destruct (IH x) as [Hin Hmax].
      split.
      * destruct Hin as [Hin | Hin]; [left; exact Hin | right; right; exact Hin].
      * intros z [<- | [<- | Hz]].
        -- apply Hmax. left. reflexivity.
        -- apply Qle_trans with x; [exact E | apply Hmax; left; reflexivity].
        -- apply Hmax. right. exact Hz.
    + assert (Hxy : x <= y).
      { destruct (Qlt_le_dec y x) as [Hlt | Hle]; [| exact Hle].
        apply Qlt_le_weak in Hlt. apply Qle_bool_iff in Hlt.
        rewrite Hlt in E. discriminate E. }
      destruct (IH y) as [Hin Hmax].
      split.
      * right. exact Hin.
      * intros z [<- | [<- | Hz]].
        -- apply Qle_trans with y; [exact Hxy | apply Hmax; left; reflexivity].
        -- apply Hmax. left. reflexivity.
        -- apply Hmax. right. exact Hz.
Qed.

(** The score of one reference: between 0 and 1, and 1 exactly for a
    reference with the items of the prediction. *)
Lemma jaccard_ratio (r p : list string) :
  NoDup r -> NoDup p ->
  (r <> [] \/ p <> []) ->
  let common := Z.of_nat (List.length (intersection r p)) in
  let denominator :=
    (Z.of_nat (List.length r) + Z.of_nat (List.length p) - common)%Z in
  (denominator =? 0)%Z = false
  /\ 0 <= inject_Z common / inject_Z denominator
  /\ inject_Z common / inject_Z denominator <= 1
  /\ (inject_Z common / inject_Z denominator == 1
      <-> forall x, In x r <-> In x p).
Proof.
  intros Hr Hp Hne. cbn zeta.
  pose proof (intersection_length_l r p) as Hl.
  pose proof (intersection_length_r r p Hr) as Hrr.
  set (c := List.length (intersection r p)) in *.
  assert (Hpos : (0 < Z.of_nat (List.length r) + Z.of_nat (List.length p)
                      - Z.of_nat c)%Z).
  { destruct Hne as [H | H].
    - assert (0 < List.length r)%nat
        by (destruct r; [contradiction | cbn [List.length]; lia]).
      lia.
    - assert (0 < List.length p)%nat
        by (destruct p; [contradiction | cbn [List.length]; lia]).
      lia. }
  set (d := (Z.of_nat (List.length r) + Z.of_nat (List.length p) - Z.of_nat c)%Z)
    in *.
  assert (Hd : 0 < inject_Z d).
  { change 0 with (inject_Z 0). rewrite <- Zlt_Qlt. exact Hpos. }
  split; [apply Z.eqb_neq; lia |].
  split.
  { apply Qle_shift_div_l; [exact Hd |]. rewrite Qmult_0_l.
    change 0 with (inject_Z 0). rewrite <- Zle_Qle. lia. }
  split.
  { apply Qle_shift_div_r; [exact Hd |]. rewrite Qmult_1_l.
    rewrite <- Zle_Qle. subst d. lia. }
  split.
  - intros Hone.
    assert (Hcd : Z.of_nat c = d).
    { assert (Hnz : ~ inject_Z d == 0)
        by (intros E; rewrite E in Hd; apply (Qlt_irrefl 0); exact Hd).
      apply inject_Z_injective.
      rewrite <- (Qmult_div_r (inject_Z (Z.of_nat c)) (inject_Z d) Hnz).
      rewrite Hone. apply Qmult_1_r. }
    assert (Hcr : c = List.length r) by (subst d; lia).
    assert (Hcp : List.length r = List.length p) by (subst d; lia).
    assert (Hrp : incl r p) by (apply intersection_full; exact Hcr).
    assert (Hpr : incl p r).
    { apply NoDup_length_incl; [exact Hr | lia | exact Hrp]. }
    intros x. split; [apply Hrp | apply Hpr].
  - intros Hsame.
    assert (Hrp : incl r p) by (intros x Hx; apply Hsame; exact Hx).
    assert (Hpr : incl p r) by (intros x Hx; apply Hsame; exact Hx).
    assert (Hcr : c = List.length r)
      by (subst c; apply intersection_incl_length; exact Hrp).
    assert (Hlen : List.length r = List.length p).
    { apply Nat.le_antisymm; apply NoDup_incl_length; assumption. }
    assert (Hcd : Z.of_nat c = d) by (subst d; lia).
    rewrite Hcd. unfold Qdiv. apply Qmult_inv_r.
    intros E; rewrite E in Hd; apply (Qlt_irrefl 0); exact Hd.
Qed.

(** X18.  [JaccardIndex] raises the [ValueError] of [max] without
    references, and [ZeroDivisionError] when the prediction and one of the
    references are both empty.  Otherwise its score lies between 0 and 1,
    and it is 1 exactly when some reference has the same items as the
    prediction, however often and in whatever order they are listed. *)
Theorem JaccardIndex_score :
  forall (references_ : list (list string)) (prediction_ : list string),
    (references_ = [] ->
     JaccardIndex_compute references_ prediction_
     = Raise (ValueError "max() arg is an empty sequence"))
    /\ (prediction_ = [] -> In [] references_ ->
        JaccardIndex_compute references_ prediction_
        = Raise (ZeroDivisionError "division by zero"))
    /\ (references_ <> [] ->
        (forall r, In r references_ -> r <> [] \/ prediction_ <> []) ->
        exists q,
          JaccardIndex_compute references_ prediction_
          = Ok [("jaccard_index", VFloat (Num q)); ("score", VFloat (Num q));
                ("score_name", VStr "jaccard_index")]
          /\ 0 <= q /\ q <= 1
          /\ (q == 1 <->
              exists r, In r references_ /\ forall x, In x r <-> In x prediction_)).
Proof.
  intros references_ prediction_.
  split; [intros ->; reflexivity |].
  split.
  - intros -> Hin. unfold JaccardIndex_compute. cbn [first_seen].
    induction references_ as [| r references_ IH]; [destruct Hin |].
    cbn [map map_result].
    destruct r as [| x r].
    + reflexivity.
    + destruct Hin as [Hin | Hin]; [discriminate Hin |].
      assert (Hne : first_seen (x :: r) <> []) by (simpl; discriminate).
      destruct (jaccard_ratio (first_seen (x :: r)) []
                  (first_seen_NoDup _) (NoDup_nil _) (or_introl Hne))
        as [Hd _].
      cbn zeta in Hd. rewrite Hd. cbn [bind].
      specialize (IH Hin).
      destruct (map_result _ (map first_seen references_)) as [scores | e] eqn:E.
      * cbn [bind] in IH. cbn [bind].
        destruct scores; cbn [pymax bind] in IH; discriminate IH.
      * cbn [bind] in IH |- *. exact IH.
  - intros Hne Hall. unfold JaccardIndex_compute.
    set (p := first_seen prediction_).
    set (ratio := fun reference : list string =>
                    inject_Z (Z.of_nat (List.length (intersection reference p)))
                    / inject_Z (Z.of_nat (List.length reference)
                                + Z.of_nat (List.length p)
                                - Z.of_nat (List.length (intersection reference p)))).
    assert (Hfacts : forall r, In r references_ ->
                let fr := first_seen r in
                ((Z.of_nat (List.length fr) + Z.of_nat (List.length p)
                  - Z.of_nat (List.length (intersection fr p)) =? 0)%Z = false)
                /\ 0 <= ratio fr /\ ratio fr <= 1
                /\ (ratio fr == 1 <-> forall x, In x r <-> In x prediction_)).
    { intros r Hr. cbn zeta.
      assert (Hne' : first_seen r <> [] \/ p <> []).
      { destruct (Hall r Hr) as [H | H].
        - left. destruct r; [contradiction | simpl; discriminate].
        - right. subst p. destruct prediction_; [contradiction | simpl; discriminate]. }
      destruct (jaccard_ratio (first_seen r) p (first_seen_NoDup _)
                  (first_seen_NoDup _) Hne') as [Hd [H0 [H1 Hiff]]].
      cbn zeta in Hd, H0, H1, Hiff.
      split; [exact Hd |]. split; [exact H0 |]. split; [exact H1 |].
      split.
      - intros H x. pose proof (proj1 Hiff H x) as Hx. subst p.
        rewrite !first_seen_In in Hx. exact Hx.
      - intros H. apply (proj2 Hiff). intros x. subst p.
        rewrite !first_seen_In. apply H. }
    match goal with
    | |- context [map_result ?f ?l] =>
        assert (Hscores : map_result f l = Ok (map ratio l))
    end.
    { apply map_result_map. intros fr Hfr. apply in_map_iff in Hfr.
      destruct Hfr as [r [<- Hr]]. destruct (Hfacts r Hr) as [Hd _].
      cbn zeta in Hd |- *. rewrite Hd. reflexivity. }
    rewrite Hscores. cbn [bind].
    destruct (pymax (map ratio (map first_seen references_))) as [best | e] eqn:Hbest.
    + cbn [bind]. exists best. split; [reflexivity |].
      apply pymax_spec in Hbest. destruct Hbest as [Hin Hmax].
      rewrite map_map in Hin. apply in_map_iff in Hin.
      destruct Hin as [r0 [Hr0 Hin0]].
      destruct (Hfacts r0 Hin0) as [_ [H0 [H1 Hiff0]]]. cbn zeta in H0, H1, Hiff0.
      rewrite Hr0 in H0, H1, Hiff0.
      split; [exact H0 |]. split; [exact H1 |].
      split.
      * intros Hone. exists r0. split; [exact Hin0 |]. apply Hiff0. exact Hone.
      * intros [r [Hr Hsame]].
        destruct (Hfacts r Hr) as [_ [_ [_ Hiff]]]. cbn zeta in Hiff.
        apply Qle_antisym; [exact H1 |].
        rewrite <- (proj2 Hiff Hsame).
        apply Hmax. rewrite map_map. apply in_map_iff. exists r.
        split; [reflexivity | exact Hr].
    + destruct references_; [contradiction | discriminate Hbest].
Qed.

(** The prediction lists the items of the second reference in another
    order and twice: the score is 1. *)
Lemma JaccardIndex_score_witness :
  exists q,
    JaccardIndex_compute [["a"; "c"]; ["a"; "b"]] ["b"; "a"; "b"]
    = Ok [("jaccard_index", VFloat (Num q)); ("score", VFloat (Num q));
          ("score_name", VStr "jaccard_index")]
    /\ q == 1.
Proof.
  destruct (JaccardIndex_score [["a"; "c"]; ["a"; "b"]] ["b"; "a"; "b"])
    as [_ [_ H]].
  destruct H as [q [Hq [_ [_ Hone]]]].
  - discriminate.
  - intros r _. right. discriminate.
  - exists q. split; [exact Hq |]. apply Hone.
    exists ["a"; "b"]. split; [right; left; reflexivity |].
    intros x. simpl. tauto.
Defined.

(* ------------------------------------------------------------------ *)
(** ** [Accuracy] and [StringContainment] *)

Lemma string_prefix_refl (s : string) : String.prefix s s = true.
Proof.
  induction s as [| c s IH]; simpl; [reflexivity |].
  destruct (ascii_dec c c) as [_ | Hne]; [exact IH | contradiction].
Qed.

Lemma str_contains_refl (s : string) : str_contains s s = true.
Proof.
  unfold str_contains. destruct s as [| c s]; [reflexivity |].
  cbn [index]. rewrite string_prefix_refl. reflexivity.
Qed.

(** X19.  On every instance the score of [StringContainment] is at least
    the score of [Accuracy]: both are 0 or 1, and a prediction that equals a
    reference contains it. *)
Theorem Accuracy_le_StringContainment :
  forall (refs : list string) (pred : string) (task_data_ : pydict),
  exists a c,
    Accuracy_compute "accuracy" refs pred task_data_
    = Ok [("accuracy", VFloat (Num a)); ("score", VFloat (Num a));
          ("score_name", VStr "accuracy")]
    /\ StringContainment_compute refs pred task_data_
       = Ok [("string_containment", VFloat (Num c)); ("score", VFloat (Num c));
             ("score_name", VStr "string_containment")]
    /\ (a = 0 \/ a = 1) /\ (c = 0 \/ c = 1) /\ a <= c.
Proof.
  intros refs pred task_data_.
  unfold Accuracy_compute, StringContainment_compute.
  destruct (mem_string pred refs) eqn:Hacc.
  - assert (Hc : existsb (fun reference => str_contains reference pred) refs = true).
    { apply existsb_exists. exists pred. split.
      - apply mem_string_In. exact Hacc.
      - apply str_contains_refl. }
    rewrite Hc. exists 1, 1. cbn.
    split; [reflexivity |]. split; [reflexivity |].
    split; [right; reflexivity |]. split; [right; reflexivity |]. apply Qle_refl.
  - destruct (existsb (fun reference => str_contains reference pred) refs).
    + exists 0, 1. cbn.
      split; [reflexivity |]. split; [reflexivity |].
      split; [left; reflexivity |]. split; [right; reflexivity |]. discriminate.
    + exists 0, 0. cbn.
      split; [reflexivity |]. split; [reflexivity |].
      split; [left; reflexivity |]. split; [left; reflexivity |]. apply Qle_refl.
Qed.

(* ------------------------------------------------------------------ *)
(** ** Counters *)

Lemma Zsum_app (l1 l2 : list Z) : Zsum (l1 ++ l2) = (Zsum l1 + Zsum l2)%Z.
Proof.
  induction l1 as [| x l1 IH]; [reflexivity |].
  cbn [app]. rewrite !Zsum_cons, IH. lia.
Qed.

Lemma Zsum_le_pointwise {A} (f g : A -> Z) (l : list A) :
  (forall x, In x l -> (f x <= g x)%Z) ->
  (Zsum (map f l) <= Zsum (map g l))%Z.
Proof.
  induction l as [| x l IH]; intros H; [cbn; lia |].
  cbn [map]. rewrite !Zsum_cons.
  pose proof (H x (or_introl eq_refl)).
  pose proof (IH (fun y Hy => H y (or_intror Hy))). lia.
Qed.

Lemma Zsum_nonneg (l : list Z) : (forall x, In x l -> (0 <= x)%Z) -> (0 <= Zsum l)%Z.
Proof.
  induction l as [| x l IH]; intros H; [cbn; lia |].
  rewrite Zsum_cons.
  pose proof (H x (or_introl eq_refl)).
  pose proof (IH (fun y Hy => H y (or_intror Hy))). lia.
Qed.

(** Two duplicate-free lists that differ only by elements where [h] is 0
    give the same sum of [h]. *)
Lemma Zsum_same_support (h : string -> Z) (K1 K2 : list string) :
  NoDup K1 -> NoDup K2 ->
  (forall k, In k K1 -> ~ In k K2 -> h k = 0%Z) ->
  (forall k, In k K2 -> ~ In k K1 -> h k = 0%Z) ->
  Zsum (map h K1) = Zsum (map h K2).
Proof.
  intros Hnd1. revert K2. induction Hnd1 as [| x K1 Hx Hnd1 IH]; intros K2 Hnd2 H12 H21.
  - cbn. symmetry.
    assert (Hall : forall k, In k K2 -> h k = 0%Z) by (intros k Hk; apply H21; auto).
    clear -Hall. induction K2 as [| y K2 IH]; [reflexivity |].
    cbn [map]. rewrite Zsum_cons, (Hall y (or_introl eq_refl)).
    rewrite IH by (intros k Hk; apply Hall; right; exact Hk). reflexivity.
  - cbn [map]. rewrite Zsum_cons.
    destruct (in_dec string_dec x K2) as [Hin | Hnot].
    + destruct (in_split _ _ Hin) as [l1 [l2 ->]].
      pose proof (NoDup_remove_1 _ _ _ Hnd2) as Hnd2'.
      pose proof (NoDup_remove_2 _ _ _ Hnd2) as Hx2.
      rewrite map_app, Zsum_app. cbn [map]. rewrite Zsum_cons.
      rewrite (IH (l1 ++ l2)%list Hnd2').
      * rewrite map_app, Zsum_app. lia.
      * intros k Hk Hnk. apply H12; [right; exact Hk |].
        intros Hk2. apply Hnk. apply in_app_or in Hk2. apply in_or_app.
        destruct Hk2 as [Hk2 | [Hk2 | Hk2]]; [left; exact Hk2 | | right; exact Hk2].
        subst k. contradiction.
      * intros k Hk Hnk. apply H21.
        -- apply in_app_or in Hk. apply in_or_app.
           destruct Hk as [Hk | Hk]; [left; exact Hk | right; right; exact Hk].
        -- intros [Hk1 | Hk1]; [subst k; contradiction | contradiction].
    + rewrite (H12 x (or_introl eq_refl) Hnot).
      rewrite (IH K2 Hnd2).
      * lia.
      * intros k Hk Hnk. apply H12; [right; exact Hk | exact Hnk].
      * intros k Hk Hnk. apply H21; [exact Hk |].
        intros [Hk1 | Hk1]; [subst k; contradiction | contradiction].
Qed.

Lemma dict_lookup_map_keys {V} (f : string -> V) (K : list string) (x : string) :
  dict_lookup (map (fun k => (k, f k)) K) x
  = if mem_string x K then Some (f x) else None.
Proof.
  induction K as [| k K IH]; [reflexivity |].
  cbn [map dict_lookup]. unfold mem_string in *. cbn [existsb].
  destruct (String.eqb x k) eqn:E.
  - apply String.eqb_eq in E. subst k. reflexivity.
  - cbn [orb]. exact IH.
Qed.

Lemma dict_set_map_keys {V} (f : string -> V) (K : list string) (x : string) (v : V) :
  NoDup K ->
  dict_set (map (fun k => (k, f k)) K) x v
  = if mem_string x K
    then map (fun k => (k, if String.eqb k x then v else f k)) K
    else (map (fun k => (k, f k)) K ++ [(x, v)])%list.
Proof.
  induction K as [| k K IH]; intros Hnd; [reflexivity |].
  inversion Hnd as [| ? ? Hnotin Hnd']; subst.
  cbn [map dict_set]. unfold mem_string in *. cbn [existsb].
  destruct (String.eqb x k) eqn:E; cbn [orb].
  - apply String.eqb_eq in E. subst k. rewrite String.eqb_refl. f_equal.
    apply map_ext_in. intros m Hm.
    destruct (String.eqb m x) eqn:Em; [| reflexivity].
    apply String.eqb_eq in Em. subst m. contradiction.
  - rewrite String.eqb_sym, E. rewrite (IH Hnd').
    destruct (existsb (String.eqb x) K); reflexivity.
Qed.

Lemma occurrences_snoc (l : list string) (x k : string) :
  occurrences (l ++ [x]) k
  = (occurrences l k + if String.eqb k x then 1 else 0)%Z.
Proof.
  unfold occurrences. rewrite count_occ_app. cbn [count_occ].
  destruct (string_dec x k) as [-> | Hne].
  - rewrite String.eqb_refl. lia.
  - assert (E : String.eqb k x = false)
      by (apply String.eqb_neq; intros ->; contradiction).
    rewrite E. lia.
Qed.

Lemma occurrences_not_In (l : list string) (x : string) :
  ~ In x l -> occurrences l x = 0%Z.
Proof.
  intros H. unfold occurrences.
  rewrite (proj1 (count_occ_not_In string_dec l x) H). reflexivity.
Qed.

Lemma occurrences_nonneg (l : list string) (x : string) : (0 <= occurrences l x)%Z.
Proof. unfold occurrences. lia. Qed.

(** [Counter(l)] lists the distinct elements of [l] in the order of their
    first appearance, each with its number of occurrences. *)
Lemma Counter_spec (l : list string) :
  Counter l = map (fun k => (k, occurrences l k)) (first_seen l).
Proof.
  induction l as [| x l IH] using rev_ind; [reflexivity |].
  unfold Counter in *. rewrite fold_left_app. cbn [fold_left]. rewrite IH.
  unfold counter_get. rewrite dict_lookup_map_keys, mem_string_first_seen.
  rewrite dict_set_map_keys by apply first_seen_NoDup.
  rewrite mem_string_first_seen, first_seen_snoc.
  destruct (mem_string x l) eqn:E.
  - apply map_ext. intros k. rewrite occurrences_snoc.
    destruct (String.eqb k x) eqn:Ek.
    + apply String.eqb_eq in Ek. subst k. reflexivity.
    + f_equal. lia.
  - assert (Hx : ~ In x l).
    { intros H. apply mem_string_In in H. rewrite H in E. discriminate E. }
    rewrite map_app. cbn [map]. f_equal.
    + apply map_ext_in. intros k Hk. rewrite occurrences_snoc.
      assert (Ek : String.eqb k x = false).
      { apply String.eqb_neq. intros ->. apply Hx. apply first_seen_In. exact Hk. }
      rewrite Ek. f_equal. lia.
    + rewrite occurrences_snoc, String.eqb_refl, (occurrences_not_In l x Hx).
      reflexivity.
Qed.

Lemma counter_get_Counter (l : list string) (x : string) :
  counter_get (Counter l) x = occurrences l x.
Proof.
  unfold counter_get. rewrite Counter_spec, dict_lookup_map_keys.
  rewrite mem_string_first_seen.
  destruct (mem_string x l) eqn:E; [reflexivity |].
  symmetry. apply occurrences_not_In. intros H. apply mem_string_In in H.
  rewrite H in E. discriminate E.
Qed.

(** The counts of a counter add up to the length of the list. *)
Lemma Zsum_occurrences (l : list string) :
  Zsum (map (occurrences l) (first_seen l)) = Z.of_nat (List.length l).
Proof.
  assert (Hstep : forall (c : counter) x,
             Zsum (map snd (dict_set c x (counter_get c x + 1)%Z))
             = (Zsum (map snd c) + 1)%Z).
  { intros c x. unfold counter_get.
    induction c as [| [k n] c IH]; [reflexivity |].
    cbn [dict_set dict_lookup].
    destruct (String.eqb x k) eqn:E.
    - cbn [map snd]. rewrite !Zsum_cons. lia.
    - cbn [map snd]. rewrite !Zsum_cons, IH. lia. }
  assert (Hfold : forall l (c : counter),
             Zsum (map snd (fold_left
                              (fun c x => dict_set c x (counter_get c x + 1)%Z) l c))
             = (Zsum (map snd c) + Z.of_nat (List.length l))%Z).
  { clear l. induction l as [| x l IH]; intros c.
    - cbn [fold_left List.length]. lia.
    - cbn [fold_left List.length]. rewrite IH, Hstep. lia. }
  pose proof (Hfold l []) as H. fold (Counter l) in H.
  rewrite Counter_spec, map_map in H. cbn [snd] in H.
  exact H.
Qed.

Lemma common_count_sym (a b : list string) : common_count a b = common_count b a.
Proof.
  unfold common_count.
  rewrite (Zsum_same_support
             (fun k => Z.min (occurrences a k) (occurrences b k))
             (first_seen a) (first_seen b)).
  - apply f_equal, map_ext. intros k. apply Z.min_comm.
  - apply first_seen_NoDup.
  - apply first_seen_NoDup.
  - intros k _ Hk. rewrite first_seen_In in Hk.
    rewrite (occurrences_not_In b k Hk).
    apply Z.min_r. apply occurrences_nonneg.
  - intros k _ Hk. rewrite first_seen_In in Hk.
    rewrite (occurrences_not_In a k Hk).
    apply Z.min_l. apply occurrences_nonneg.
Qed.

Lemma common_count_bounds (a b : list string) :
  (0 <= common_count a b <= Z.of_nat (List.length a))%Z.
Proof.
  unfold common_count. split.
  - apply Zsum_nonneg. intros x Hx. apply in_map_iff in Hx.
    destruct Hx as [k [<- _]].
    pose proof (occurrences_nonneg a k). pose proof (occurrences_nonneg b k). lia.
  - rewrite <- Zsum_occurrences. apply Zsum_le_pointwise.
    intros k _. apply Z.le_min_l.
Qed.

(** X20.  [CustomF1.calculate_groups_ratio] on the counters of two lists of
    elements returns the number of elements the lists have in common,
    counted with repetition, over the length of the first list.  The
    numerator is the same when the two lists are exchanged, so the precision
    and the recall of a group always share their numerator, and it never
    exceeds either denominator. *)
Theorem calculate_groups_ratio_common_over_actual :
  forall (actual total : list string),
    calculate_groups_ratio (Counter actual) (Counter total)
    = (common_count actual total, Z.of_nat (List.length actual))
    /\ fst (calculate_groups_ratio (Counter total) (Counter actual))
       = fst (calculate_groups_ratio (Counter actual) (Counter total))
    /\ (0 <= common_count actual total <= Z.of_nat (List.length actual))%Z
    /\ (common_count actual total <= Z.of_nat (List.length total))%Z.
Proof.
  assert (Hratio : forall a b,
             calculate_groups_ratio (Counter a) (Counter b)
             = (common_count a b, Z.of_nat (List.length a))).
  { intros a b. unfold calculate_groups_ratio. f_equal.
    - unfold common_count. rewrite (Counter_spec a) at 1. rewrite map_map.
      f_equal. apply map_ext. intros k. rewrite !counter_get_Counter. reflexivity.
    - rewrite Counter_spec, map_map. cbn [snd]. apply Zsum_occurrences. }
  intros actual total.
  split; [apply Hratio |].
  split; [rewrite !Hratio; cbn [fst]; apply common_count_sym |].
  split; [apply common_count_bounds |].
  rewrite common_count_sym. apply common_count_bounds.
Qed.

(* ------------------------------------------------------------------ *)
(** ** [CustomF1.f1] *)

Lemma count_ratio_bounds (n d : Z) :
  (0 <= n <= d)%Z -> (0 < d)%Z ->
  0 <= inject_Z n / inject_Z d /\ inject_Z n / inject_Z d <= 1.
Proof.
  intros Hn Hd.
  assert (Hdq : 0 < inject_Z d).
  { change 0 with (inject_Z 0). rewrite <- Zlt_Qlt. exact Hd. }
  split.
  - apply Qle_shift_div_l; [exact Hdq |]. rewrite Qmult_0_l.
    change 0 with (inject_Z 0). rewrite <- Zle_Qle. lia.
  - apply Qle_shift_div_r; [exact Hdq |]. rewrite Qmult_1_l.
    rewrite <- Zle_Qle. lia.
Qed.

(** The harmonic mean of two numbers that are not negative and not both 0
    lies between them. *)
Lemma harmonic_mean_between (p r : Q) :
  0 <= p -> 0 <= r -> ~ p + r == 0 -> p <= r ->
  p <= 2 * p * r / (p + r) /\ 2 * p * r / (p + r) <= r.
Proof.
  intros Hp Hr Hnz Hle.
  assert (Hpos : 0 < p + r).
  { destruct (Qlt_le_dec 0 (p + r)) as [H | H]; [exact H |].
    exfalso. apply Hnz. apply Qle_antisym; [exact H |].
    replace 0 with (0 + 0) by reflexivity. apply Qplus_le_compat; assumption. }
  split.
  - apply Qle_shift_div_l; [exact Hpos |]. nra.
  - apply Qle_shift_div_r; [exact Hpos |]. nra.
Qed.

(** X21.  For counts with [0 <= pn <= pd] and [0 <= rn <= rd] (the counts
    [calculate_groups_ratio] returns) and [zero_division] between 0 and 1,
    [CustomF1.precision], [recall] and [f1] do not raise and lie between 0
    and 1; [f1] is [zero_division] when the precision and the recall are
    both 0, and 0 when exactly one of them is. *)
Theorem CustomF1_scores_between_0_and_1 :
  forall (zero_division : Q) (pn pd rn rd : Z),
    0 <= zero_division -> zero_division <= 1 ->
    (0 <= pn <= pd)%Z -> (0 <= rn <= rd)%Z ->
    exists p r f,
      CustomF1_precision zero_division pn pd rn rd = Ok p
      /\ CustomF1_recall zero_division pn pd rn rd = Ok r
      /\ CustomF1_f1 zero_division pn pd rn rd = Ok f
      /\ 0 <= p /\ p <= 1 /\ 0 <= r /\ r <= 1 /\ 0 <= f /\ f <= 1
      /\ (p + r == 0 -> f = zero_division)
      /\ (~ p + r == 0 -> p == 0 \/ r == 0 -> f == 0).
Proof.
  intros zd pn pd rn rd Hzd0 Hzd1 Hp Hr.
  assert (Hprec : exists p, CustomF1_precision zd pn pd rn rd = Ok p
                            /\ 0 <= p /\ p <= 1).
  { unfold CustomF1_precision.
    destruct (pd =? 0)%Z eqn:Ed.
    - apply Z.eqb_eq in Ed. assert (En : (pn =? 0)%Z = true) by (apply Z.eqb_eq; lia).
      rewrite En. cbn [andb]. exists zd. auto.
    - rewrite andb_false_r. apply Z.eqb_neq in Ed.
      eexists. split; [reflexivity |]. apply count_ratio_bounds; lia. }
  assert (Hrec : exists r, CustomF1_recall zd pn pd rn rd = Ok r
                           /\ 0 <= r /\ r <= 1).
  { unfold CustomF1_recall.
    destruct (rd =? 0)%Z eqn:Ed.
    - apply Z.eqb_eq in Ed. assert (En : (rn =? 0)%Z = true) by (apply Z.eqb_eq; lia).
      rewrite En. cbn [andb]. exists zd. auto.
    - rewrite andb_false_r. apply Z.eqb_neq in Ed.
      eexists. split; [reflexivity |]. apply count_ratio_bounds; lia. }
  destruct Hprec as [p [Hpeq [Hp0 Hp1]]]. destruct Hrec as [r [Hreq [Hr0 Hr1]]].
  exists p, r. unfold CustomF1_f1. rewrite Hpeq, Hreq. cbn [bind].
  destruct (Qeq_bool (p + r) 0) eqn:E.
  - apply Qeq_bool_iff in E. exists zd.
    do 3 (split; [reflexivity |]).
    do 6 (split; [assumption |]).
    split; [intros _; reflexivity | intros Hnz; contradiction].
  - assert (Hnz : ~ p + r == 0).
    { intros H. apply Qeq_bool_iff in H. rewrite H in E. discriminate E. }
    exists (2 * p * r / (p + r)).
    assert (Hbetween : (p <= r -> p <= 2 * p * r / (p + r) /\ 2 * p * r / (p + r) <= r)
                       /\ (r <= p -> r <= 2 * p * r / (p + r)
                                     /\ 2 * p * r / (p + r) <= p)).
    { split.
      - apply harmonic_mean_between; assumption.
      - intros Hle.
        assert (Hnz' : ~ r + p == 0) by (rewrite Qplus_comm; exact Hnz).
        destruct (harmonic_mean_between r p Hr0 Hp0 Hnz' Hle) as [H1 H2].
        assert (Heq : 2 * r * p / (r + p) == 2 * p * r / (p + r)).
        { rewrite (Qplus_comm r p). apply Qmult_comp; [ring | reflexivity]. }
        rewrite Heq in H1, H2. split; assumption. }
    destruct Hbetween as [Hpr Hrp].
    assert (Hf : 0 <= 2 * p * r / (p + r) /\ 2 * p * r / (p + r) <= 1).
    { destruct (Qlt_le_dec r p) as [Hlt | Hle].
      - destruct (Hrp (Qlt_le_weak _ _ Hlt)) as [H1 H2].
        split; [apply Qle_trans with r | apply Qle_trans with p]; assumption.
      - destruct (Hpr Hle) as [H1 H2].
        split; [apply Qle_trans with p | apply Qle_trans with r]; assumption. }
    destruct Hf as [Hf0 Hf1].
    do 3 (split; [reflexivity |]).
    do 6 (split; [assumption |]).
    split; [intros H; contradiction |].
    intros _ Hzero.
    assert (Hnum : 2 * p * r == 0).
    { destruct Hzero as [Ez | Ez]; rewrite Ez; ring. }
    unfold Qdiv. rewrite Hnum. apply Qmult_0_l.
Qed.

(** Two of five predicted elements are right and two of four expected
    ones are found: the three scores are in range. *)
Lemma CustomF1_scores_between_0_and_1_witness :
  exists p r f,
    CustomF1_precision 0 2 5 2 4 = Ok p
    /\ CustomF1_recall 0 2 5 2 4 = Ok r
    /\ CustomF1_f1 0 2 5 2 4 = Ok f
    /\ p == 2 # 5 /\ r == 1 # 2 /\ 0 <= f /\ f <= 1.
Proof.
  destruct (CustomF1_scores_between_0_and_1 0 2 5 2 4)
    as [p [r [f [Hp [Hr [Hf [_ [_ [_ [_ [Hf0 [Hf1 _]]]]]]]]]]]].
  - apply Qle_refl.
  - discriminate.
  - lia.
  - lia.
  - exists p, r, f. split; [exact Hp |]. split; [exact Hr |]. split; [exact Hf |].
    cbn in Hp, Hr. injection Hp as <-. injection Hr as <-.
    split; [reflexivity |]. split; [reflexivity |]. split; assumption.
Defined.

(* ------------------------------------------------------------------ *)
(** ** [TokenOverlap._compute_single_ref] *)

(** The counts of [Counter(a) & Counter(b)] add up to the number of common
    elements. *)
Lemma counter_and_loop (f g : string -> Z) (K : list string) :
  (forall k, (0 <= f k)%Z) -> (forall k, (0 <= g k)%Z) ->
  NoDup K ->
  forall acc : counter,
    (forall k, In k K -> ~ In k (map fst acc)) ->
    Zsum (map snd
            (fold_left
               (fun result_ '(elem, count) =>
                  let other_count := g elem in
                  let newcount :=
                    if (count <? other_count)%Z then count else other_count in
                  if (0 <? newcount)%Z then dict_set result_ elem newcount
                  else result_)
               (map (fun k => (k, f k)) K) acc))
    = (Zsum (map snd acc) + Zsum (map (fun k => Z.min (f k) (g k)) K))%Z.
Proof.
  intros Hf Hg Hnd. induction Hnd as [| k K Hk Hnd IH]; intros acc Hfresh.
  - cbn [map fold_left]. change (Zsum []) with 0%Z. lia.
  - cbn [map fold_left]. cbn zeta.
    assert (Hmin : (if (f k <? g k)%Z then f k else g k) = Z.min (f k) (g k)).
    { destruct (f k <? g k)%Z eqn:E.
      - apply Z.ltb_lt in E. lia.
      - apply Z.ltb_ge in E. lia. }
    rewrite Hmin. rewrite Zsum_cons.
    destruct (0 <? Z.min (f k) (g k))%Z eqn:Epos.
    + rewrite dict_set_fresh by (apply Hfresh; left; reflexivity).
      rewrite IH.
      * rewrite map_app, Zsum_app. cbn [map snd]. rewrite Zsum_cons. cbn. lia.
      * intros k' Hk' Hin. rewrite map_app in Hin. apply in_app_or in Hin.
        destruct Hin as [Hin | [Hin | []]].
        -- exact (Hfresh k' (or_intror Hk') Hin).
        -- cbn in Hin. subst k'. contradiction.
    + apply Z.ltb_ge in Epos.
      pose proof (Hf k). pose proof (Hg k).
      rewrite IH by (intros k' Hk'; apply Hfresh; right; exact Hk'). lia.
Qed.

Lemma counter_and_common_count (a b : list string) :
  Zsum (map snd (counter_and (Counter a) (Counter b))) = common_count a b.
Proof.
  unfold counter_and. rewrite (Counter_spec a).
  rewrite (counter_and_loop (occurrences a) (counter_get (Counter b)) (first_seen a)).
  - unfold common_count. cbn [map]. change (Zsum []) with 0%Z.
    rewrite Z.add_0_l. f_equal. apply map_ext. intros k.
    rewrite counter_get_Counter. reflexivity.
  - apply occurrences_nonneg.
  - intros k. rewrite counter_get_Counter. apply occurrences_nonneg.
  - apply first_seen_NoDup.
  - intros k _ [].
Qed.

Lemma _compute_single_ref_unfold (reference_tokens prediction_tokens : list string) :
  _compute_single_ref reference_tokens prediction_tokens
  = let n := common_count prediction_tokens reference_tokens in
    if (n =? 0)%Z then (0, 0, 0)
    else
      let pr := 1 * inject_Z n / inject_Z (Z.of_nat (List.length prediction_tokens)) in
      let rc := 1 * inject_Z n / inject_Z (Z.of_nat (List.length reference_tokens)) in
      (pr, rc, (2 * pr * rc) / (pr + rc)).
Proof.
  unfold _compute_single_ref. cbn zeta. rewrite counter_and_common_count.
  reflexivity.
Qed.

(** X22.  [TokenOverlap._compute_single_ref], as a function of the two
    token lists, with [n] the number of tokens they have in common counted
    with repetition: all three scores are 0 when [n] is 0; otherwise the
    precision is [n] over the number of prediction tokens, the recall [n]
    over the number of reference tokens and the f1 the harmonic mean the
    code forms of the two, each above 0 and at most 1.  Exchanging
    prediction and reference exchanges precision and recall and keeps the
    f1. *)
Theorem _compute_single_ref_overlap :
  forall (reference_tokens prediction_tokens : list string),
    let n := common_count prediction_tokens reference_tokens in
    let np := Z.of_nat (List.length prediction_tokens) in
    let nr := Z.of_nat (List.length reference_tokens) in
    (n = 0%Z -> _compute_single_ref reference_tokens prediction_tokens = (0, 0, 0))
    /\ (n <> 0%Z ->
        exists pr rc f1,
          _compute_single_ref reference_tokens prediction_tokens = (pr, rc, f1)
          /\ pr == inject_Z n / inject_Z np
          /\ rc == inject_Z n / inject_Z nr
          /\ f1 == (2 * pr * rc) / (pr + rc)
          /\ 0 < pr /\ pr <= 1 /\ 0 < rc /\ rc <= 1 /\ 0 < f1 /\ f1 <= 1)
    /\ exists pr rc f1 f1',
        _compute_single_ref reference_tokens prediction_tokens = (pr, rc, f1)
        /\ _compute_single_ref prediction_tokens reference_tokens = (rc, pr, f1')
        /\ f1' == f1.
Proof.
  intros r p. cbn zeta.
  pose proof (common_count_bounds p r) as Hbp.
  pose proof (common_count_bounds r p) as Hbr.
  rewrite (common_count_sym r p) in Hbr.
  set (n := common_count p r) in *.
  set (np := Z.of_nat (List.length p)) in *.
  set (nr := Z.of_nat (List.length r)) in *.
  split; [| split].
  - intros Hn. rewrite _compute_single_ref_unfold. cbn zeta. fold n.
    rewrite Hn. reflexivity.
  - intros Hn. rewrite _compute_single_ref_unfold. cbn zeta. fold n np nr.
    assert (En : (n =? 0)%Z = false) by (apply Z.eqb_neq; exact Hn).
    rewrite En.
    assert (Hnq : 0 < inject_Z n)
      by (change 0 with (inject_Z 0); rewrite <- Zlt_Qlt; lia).
    assert (Hpq : 0 < inject_Z np)
      by (change 0 with (inject_Z 0); rewrite <- Zlt_Qlt; lia).
    assert (Hrq : 0 < inject_Z nr)
      by (change 0 with (inject_Z 0); rewrite <- Zlt_Qlt; lia).
    assert (Hnp : inject_Z n <= inject_Z np) by (rewrite <- Zle_Qle; lia).
    assert (Hnr : inject_Z n <= inject_Z nr) by (rewrite <- Zle_Qle; lia).
    assert (Hpnz : ~ inject_Z np == 0)
      by (intros E; rewrite E in Hpq; apply (Qlt_irrefl 0); exact Hpq).
    assert (Hrnz : ~ inject_Z nr == 0)
      by (intros E; rewrite E in Hrq; apply (Qlt_irrefl 0); exact Hrq).
    assert (Hnnz : ~ inject_Z n == 0)
      by (intros E; rewrite E in Hnq; apply (Qlt_irrefl 0); exact Hnq).
    assert (Hsum : 0 < inject_Z np + inject_Z nr).
    { replace 0 with (0 + 0) by reflexivity.
      apply Qplus_lt_le_compat; [exact Hpq | apply Qlt_le_weak; exact Hrq]. }
    assert (Hsnz : ~ inject_Z np + inject_Z nr == 0)
      by (intros E; rewrite E in Hsum; apply (Qlt_irrefl 0); exact Hsum).
    do 3 eexists. split; [reflexivity |].
    assert (Hpr : 1 * inject_Z n / inject_Z np == inject_Z n / inject_Z np)
      by (rewrite Qmult_1_l; reflexivity).
    assert (Hrc : 1 * inject_Z n / inject_Z nr == inject_Z n / inject_Z nr)
      by (rewrite Qmult_1_l; reflexivity).
    assert (Hf1 : 2 * (1 * inject_Z n / inject_Z np) * (1 * inject_Z n / inject_Z nr)
                  / (1 * inject_Z n / inject_Z np + 1 * inject_Z n / inject_Z nr)
                  == inject_Z (2 * n) / inject_Z (np + nr)).
    { rewrite inject_Z_mult, inject_Z_plus. change (inject_Z 2) with 2.
      field. repeat split; try assumption.
      intros E. apply Hsnz.
      assert (Hprod : inject_Z n * (inject_Z np + inject_Z nr) == 0)
        by (rewrite <- E; ring).
      apply Qmult_integral in Hprod. destruct Hprod; [contradiction | assumption]. }
    split; [exact Hpr |]. split; [exact Hrc |]. split; [reflexivity |].
    rewrite Hf1, Hpr, Hrc.
    split; [apply Qlt_shift_div_l; [exact Hpq | rewrite Qmult_0_l; exact Hnq] |].
    split; [apply Qle_shift_div_r; [exact Hpq | rewrite Qmult_1_l; exact Hnp] |].
    split; [apply Qlt_shift_div_l; [exact Hrq | rewrite Qmult_0_l; exact Hnq] |].
    split; [apply Qle_shift_div_r; [exact Hrq | rewrite Qmult_1_l; exact Hnr] |].
    rewrite inject_Z_mult, inject_Z_plus. change (inject_Z 2) with 2.
    split.
    + apply Qlt_shift_div_l; [exact Hsum |]. rewrite Qmult_0_l. lra.
    + apply Qle_shift_div_r; [exact Hsum |]. lra.
  - rewrite !_compute_single_ref_unfold. cbn zeta.
    rewrite (common_count_sym r p). fold n np nr.
    destruct (n =? 0)%Z eqn:En.
    + exists 0, 0, 0, 0. split; [reflexivity |]. split; reflexivity.
    + do 4 eexists. split; [reflexivity |]. split; [reflexivity |].
      rewrite (Qplus_comm (1 * inject_Z n / inject_Z nr)).
      apply Qmult_comp; [ring | reflexivity].
Qed.

(** The prediction [b c] against the reference [a b b]: one common token,
    precision one half, recall one third. *)
Lemma _compute_single_ref_overlap_witness :
  exists pr rc f1,
    _compute_single_ref ["a"; "b"; "b"] ["b"; "c"] = (pr, rc, f1)
    /\ pr == 1 # 2 /\ rc == 1 # 3 /\ 0 < f1 /\ f1 <= 1.
Proof.
  destruct (_compute_single_ref_overlap ["a"; "b"; "b"] ["b"; "c"]) as [_ [H _]].
  destruct H as [pr [rc [f1 [He [Hp [Hr [_ [_ [_ [_ [_ [Hf0 Hf1]]]]]]]]]]]].
  - vm_compute. discriminate.
  - exists pr, rc, f1. split; [exact He |].
    split; [rewrite Hp; vm_compute; reflexivity |].
    split; [rewrite Hr; vm_compute; reflexivity |].
    split; assumption.
Defined.

(* ------------------------------------------------------------------ *)
(** ** [HuggingfaceBulkMetric.compute]: the transposition *)

Lemma transpose_one_field (key : string) (values : list value)
  (results : list pydict) (start : nat) :
  (List.length results + start <= List.length values)%nat ->
  exists results' : list pydict,
    map_result
      (fun '(result_id, result_) =>
         match nth_error values result_id with
         | Some v => Ok (dict_set result_ key v)
         | None => Raise (IndexError "list index out of range")
         end)
      (combine (seq start (List.length results)) results)
    = Ok results'
    /\ List.length results' = List.length results
    /\ forall i r, nth_error results i = Some r ->
         exists r' : pydict,
           nth_error results' i = Some r'
           /\ dict_lookup r' key = nth_error values (start + i)
           /\ forall k, k <> key -> dict_lookup r' k = dict_lookup r k.
Proof.
  revert start. induction results as [| r0 results IH]; intros start Hlen.
  - exists []. split; [reflexivity |]. split; [reflexivity |].
    intros i r Hi. destruct i; discriminate Hi.
  - cbn [List.length seq combine map_result].
    cbn [List.length] in Hlen.
    destruct (nth_error values start) as [v |] eqn:Hv.
    + destruct (IH (S start)) as [rs' [Hrs [Hl Hnth]]]; [lia |].
      cbn [bind]. rewrite Hrs. cbn [bind].
      eexists. split; [reflexivity |]. split; [cbn; rewrite Hl; reflexivity |].
      intros i r Hi. destruct i as [| i].
      * cbn in Hi. injection Hi as <-. eexists. split; [reflexivity |].
        split.
        -- rewrite dict_lookup_set_same, Nat.add_0_r, Hv. reflexivity.
        -- intros k Hk. apply dict_lookup_set_other. exact Hk.
      * cbn [nth_error] in Hi |- *. destruct (Hnth i r Hi) as [r' [H1 [H2 H3]]].
        exists r'. split; [exact H1 |]. split; [| exact H3].
        rewrite H2. f_equal. lia.
    + exfalso. apply nth_error_None in Hv. lia.
Qed.

(** X23.  The conversion at the end of [HuggingfaceBulkMetric.compute]
    transposes the scores: when every field of [hf_metric_fields] has a
    list of the same length [n] in the scores of the underlying metric (and
    there is at least one field), it returns [n] dictionaries, and the
    [i]-th dictionary maps every field to the [i]-th entry of the field's
    list. *)
Theorem dict_of_lists_to_list_of_dicts_transposes :
  forall (hf_metric_fields : list string) (scores : list (string * list value))
         (n : nat),
    hf_metric_fields <> [] ->
    (forall key, In key hf_metric_fields ->
                 exists values, dict_lookup scores key = Some values
                                /\ List.length values = n) ->
    exists results : list pydict,
      dict_of_lists_to_list_of_dicts hf_metric_fields scores = Ok results
      /\ List.length results = n
      /\ forall i r key values,
           nth_error results i = Some r ->
           In key hf_metric_fields ->
           dict_lookup scores key = Some values ->
           dict_lookup r key = nth_error values i.
Proof.
  intros fields scores n Hne Hfields.
  unfold dict_of_lists_to_list_of_dicts.
  destruct fields as [| f0 fields0] eqn:Ef; [contradiction |]. rewrite <- Ef in *.
  cbn [bind].
  destruct (Hfields f0) as [v0 [Hv0 Hl0]]; [rewrite Ef; left; reflexivity |].
  unfold dict_getitem at 1. rewrite Hv0. cbn [bind]. rewrite Hl0.
  clear Ef Hne f0 fields0 v0 Hv0 Hl0.
  assert (Hgen : forall fields (results : list pydict),
             (forall key, In key fields ->
                          exists values, dict_lookup scores key = Some values
                                         /\ List.length values = n) ->
             List.length results = n ->
             exists results' : list pydict,
               for_each fields
                 (fun (results : list pydict) key =>
                    values <- dict_getitem scores key ;;
                    map_result
                      (fun '(result_id, result_) =>
                         match nth_error values result_id with
                         | Some v => Ok (dict_set result_ key v)
                         | None => Raise (IndexError "list index out of range")
                         end)
                      (combine (seq 0 (List.length results)) results))
                 results = Ok results'
               /\ List.length results' = n
               /\ forall i r', nth_error results' i = Some r' ->
                    exists r, nth_error results i = Some r
                    /\ (forall key values, In key fields ->
                          dict_lookup scores key = Some values ->
                          dict_lookup r' key = nth_error values i)
                    /\ (forall k, ~ In k fields -> dict_lookup r' k = dict_lookup r k)).
  { clear fields Hfields. induction fields as [| key fields IH]; intros results Hf Hlen.
    - exists results. split; [reflexivity |]. split; [exact Hlen |].
      intros i r' Hi. exists r'. split; [exact Hi |].
      split; [intros key values [] | intros k _; reflexivity].
    - cbn [for_each].
      destruct (Hf key (or_introl eq_refl)) as [values [Hvalues Hvl]].
      unfold dict_getitem at 1. rewrite Hvalues. cbn [bind].
      destruct (transpose_one_field key values results 0) as [rs1 [Hrs1 [Hl1 Hn1]]];
        [lia |].
      rewrite Hrs1. cbn [bind].
      destruct (IH rs1 (fun k Hk => Hf k (or_intror Hk))) as [rs2 [Hrs2 [Hl2 Hn2]]];
        [lia |].
      exists rs2. split; [exact Hrs2 |]. split; [exact Hl2 |].
      intros i r2 Hi2.
      destruct (Hn2 i r2 Hi2) as [r1 [Hi1 [Hin2 Hout2]]].
      assert (Hi0 : exists r0, nth_error results i = Some r0).
      { destruct (nth_error results i) as [r0 |] eqn:E; [exists r0; reflexivity |].
        apply nth_error_None in E.
        assert (Hsome : nth_error rs1 i <> None) by (rewrite Hi1; discriminate).
        apply nth_error_Some in Hsome. lia. }
      destruct Hi0 as [r0 Hi0].
      destruct (Hn1 i r0 Hi0) as [r1' [Hi1' [Hkey Hother]]].
      rewrite Hi1 in Hi1'. injection Hi1' as <-.
      exists r0. split; [exact Hi0 |]. split.
      + intros k vs [<- | Hk] Hvs.
        * destruct (in_dec string_dec key fields) as [Hin | Hnot].
          -- apply (Hin2 key vs Hin Hvs).
          -- rewrite (Hout2 key Hnot), Hkey.
             rewrite Hvalues in Hvs. injection Hvs as <-. reflexivity.
        * apply (Hin2 k vs Hk Hvs).
      + intros k Hk. rewrite (Hout2 k (fun H => Hk (or_intror H))).
        apply Hother. intros ->. apply Hk. left. reflexivity. }
  destruct (Hgen fields (repeat [] n) Hfields (repeat_length _ _))
    as [results [Hres [Hlen Hnth]]].
  exists results. split; [exact Hres |]. split; [exact Hlen |].
  intros i r key values Hi Hkey Hvalues.
  destruct (Hnth i r Hi) as [r0 [_ [Hin _]]].
  apply (Hin key values Hkey Hvalues).
Qed.

(** Two fields with two scores each. *)
Lemma dict_of_lists_to_list_of_dicts_transposes_witness :
  dict_of_lists_to_list_of_dicts ["f1"; "precision"]
    [("precision", [VFloat (Num 1); VFloat (Num 0)]);
     ("f1", [VFloat (Num (1 # 2)); VFloat (Num (1 # 3))])]
  = Ok [[("f1", VFloat (Num (1 # 2))); ("precision", VFloat (Num 1))];
        [("f1", VFloat (Num (1 # 3))); ("precision", VFloat (Num 0))]].
Proof.
  destruct (dict_of_lists_to_list_of_dicts_transposes ["f1"; "precision"]
              [("precision", [VFloat (Num 1); VFloat (Num 0)]);
               ("f1", [VFloat (Num (1 # 2)); VFloat (Num (1 # 3))])] 2%nat)
    as [results [Hres _]].
  - discriminate.
  - intros key [<- | [<- | []]]; eexists; split; reflexivity.
  - reflexivity.
Defined.

(* ------------------------------------------------------------------ *)
(** ** [F1]: class names and class ids *)

Lemma index_of_Some_In (x : string) (l : list string) (n : nat) :
  index_of x l = Some n -> (n < List.length l)%nat /\ nth_error l n = Some x.
Proof.
  revert n. induction l as [| y l IH]; intros n H; [discriminate H |].
  cbn [index_of] in H. destruct (String.eqb x y) eqn:E.
  - injection H as <-. apply String.eqb_eq in E. subst y.
    split; [cbn; lia | reflexivity].
  - destruct (index_of x l) as [m |]; [| discriminate H].
    injection H as <-. destruct (IH m eq_refl) as [Hlt Hnth].
    split; [cbn; lia | exact Hnth].
Qed.

Lemma index_of_In (x : string) (l : list string) :
  In x l -> exists n, index_of x l = Some n.
Proof.
  induction l as [| y l IH]; intros H; [destruct H |].
  cbn [index_of]. destruct (String.eqb x y) eqn:E; [exists 0%nat; reflexivity |].
  destruct H as [-> | H]; [rewrite String.eqb_refl in E; discriminate E |].
  destruct (IH H) as [n Hn]. rewrite Hn. exists (S n). reflexivity.
Qed.

Lemma index_of_not_In (x : string) (l : list string) :
  ~ In x l -> index_of x l = None.
Proof.
  intros H. destruct (index_of x l) as [n |] eqn:E; [| reflexivity].
  exfalso. apply H. apply index_of_Some_In in E. destruct E as [_ E].
  eapply nth_error_In. exact E.
Qed.

Lemma index_of_app_In (x : string) (l l' : list string) :
  In x l -> index_of x (l ++ l') = index_of x l.
Proof.
  induction l as [| y l IH]; intros H; [destruct H |].
  cbn [app index_of]. destruct (String.eqb x y) eqn:E; [reflexivity |].
  destruct H as [-> | H]; [rewrite String.eqb_refl in E; discriminate E |].
  rewrite (IH H). reflexivity.
Qed.

Lemma index_of_snoc_new (x : string) (l : list string) :
  ~ In x l -> index_of x (l ++ [x]) = Some (List.length l).
Proof.
  induction l as [| y l IH]; intros H.
  - cbn. rewrite String.eqb_refl. reflexivity.
  - cbn [app index_of List.length].
    assert (E : String.eqb x y = false).
    { apply String.eqb_neq. intros ->. apply H. left. reflexivity. }
    rewrite E, IH by (intros Hin; apply H; right; exact Hin). reflexivity.
Qed.

Lemma position_In (K : list string) (x : string) :
  In x K ->
  (0 <= position K x < Z.of_nat (List.length K))%Z
  /\ nth_error K (Z.to_nat (position K x)) = Some x.
Proof.
  intros H. unfold position. destruct (index_of_In x K H) as [n Hn]. rewrite Hn.
  apply index_of_Some_In in Hn. destruct Hn as [Hlt Hnth].
  rewrite Nat2Z.id. split; [lia | exact Hnth].
Qed.

Lemma position_inj (K : list string) (x y : string) :
  In x K -> In y K -> position K x = position K y -> x = y.
Proof.
  intros Hx Hy E.
  destruct (position_In K x Hx) as [_ Hnx].
  destruct (position_In K y Hy) as [_ Hny].
  rewrite E in Hnx. rewrite Hnx in Hny. injection Hny as ->. reflexivity.
Qed.

Lemma position_app_In (K L : list string) (x : string) :
  In x K -> position (K ++ L) x = position K x.
Proof.
  intros H. unfold position. rewrite (index_of_app_In x K L H).
  destruct (index_of_In x K H) as [n ->]. reflexivity.
Qed.

Lemma position_app_not_In (K L : list string) (x : string) :
  ~ In x K -> (Z.of_nat (List.length K) <= position (K ++ L) x)%Z.
Proof.
  intros H. unfold position. induction K as [| y K IH].
  - cbn [app List.length]. destruct (index_of x L); lia.
  - cbn [app index_of List.length].
    assert (E : String.eqb x y = false).
    { apply String.eqb_neq. intros ->. apply H. left. reflexivity. }
    rewrite E.
    assert (IH' := IH (fun Hin => H (or_intror Hin))).
    destruct (index_of x (K ++ L)) as [n |]; lia.
Qed.

Lemma dict_lookup_combine_seq (K : list string) (start : nat) (x : string) :
  dict_lookup (combine K (map Z.of_nat (seq start (List.length K)))) x
  = match index_of x K with
    | Some n => Some (Z.of_nat (start + n))
    | None => None
    end.
Proof.
  revert start. induction K as [| y K IH]; intros start; [reflexivity |].
  cbn [List.length seq map combine dict_lookup index_of].
  destruct (String.eqb x y); [rewrite Nat.add_0_r; reflexivity |].
  rewrite IH. destruct (index_of x K) as [n |]; [| reflexivity].
  f_equal. lia.
Qed.

Lemma combine_app_same_length {A B} (l1 l2 : list A) (l1' l2' : list B) :
  List.length l1 = List.length l1' ->
  combine (l1 ++ l2) (l1' ++ l2') = (combine l1 l1' ++ combine l2 l2')%list.
Proof.
  revert l1'. induction l1 as [| x l1 IH]; intros [| y l1'] H;
    try discriminate H; [reflexivity |].
  cbn [app combine]. rewrite IH by (injection H as H; exact H). reflexivity.
Qed.

Lemma combine_seq_snoc {A} (K : list A) (x : A) :
  combine (K ++ [x]) (map Z.of_nat (seq 0 (List.length (K ++ [x]))))
  = (combine K (map Z.of_nat (seq 0 (List.length K)))
       ++ [(x, Z.of_nat (List.length K))])%list.
Proof.
  rewrite length_app. cbn [List.length]. rewrite seq_app, map_app.
  cbn [seq map Nat.add].
  rewrite combine_app_same_length by (rewrite length_map, length_seq; reflexivity).
  reflexivity.
Qed.

Lemma combine_seq_snoc_keys {A} (K : list A) (x : A) :
  combine (map Z.of_nat (seq 0 (List.length (K ++ [x])))) (K ++ [x])
  = (combine (map Z.of_nat (seq 0 (List.length K))) K
       ++ [(Z.of_nat (List.length K), x)])%list.
Proof.
  rewrite length_app. cbn [List.length]. rewrite seq_app, map_app.
  cbn [seq map Nat.add].
  rewrite combine_app_same_length by (rewrite length_map, length_seq; reflexivity).
  reflexivity.
Qed.

Lemma zdict_set_fresh {V} (d : list (Z * V)) (k : Z) (v : V) :
  ~ In k (map fst d) -> zdict_set d k v = (d ++ [(k, v)])%list.
Proof.
  induction d as [| [k' v'] d IH]; simpl; intros Hn; [reflexivity |].
  destruct (Z.eqb k k') eqn:E.
  - apply Z.eqb_eq in E. exfalso. apply Hn. left. symmetry. exact E.
  - rewrite IH by (intros H; apply Hn; right; exact H). reflexivity.
Qed.

Lemma zdict_lookup_combine_seq {V} (K : list V) (start : nat) (i : nat) :
  zdict_lookup (combine (map Z.of_nat (seq start (List.length K))) K)
               (Z.of_nat (start + i))
  = nth_error K i.
Proof.
  revert start i. induction K as [| y K IH]; intros start i.
  - destruct i; reflexivity.
  - cbn [List.length seq map combine zdict_lookup]. destruct i as [| i].
    + rewrite Nat.add_0_r, Z.eqb_refl. reflexivity.
    + assert (E : (Z.of_nat (start + S i) =? Z.of_nat start)%Z = false)
        by (apply Z.eqb_neq; lia).
      rewrite E. replace (start + S i)%nat with (S start + i)%nat by lia.
      apply IH.
Qed.

(** [get_str_id] on the state left by the names [K]. *)
Lemma get_str_id_str_ids_of (K : list string) (s : string) :
  let K' := if mem_string s K then K else (K ++ [s])%list in
  get_str_id (str_ids_of K) s = Ok (str_ids_of K', position K' s).
Proof.
  cbn zeta. unfold get_str_id, str_ids_of. cbn [str_to_id id_to_str].
  unfold dict_mem. rewrite (dict_lookup_combine_seq K 0 s).
  destruct (mem_string s K) eqn:E.
  - assert (Hin : In s K) by (apply mem_string_In; exact E).
    destruct (index_of_In s K Hin) as [n Hn]. rewrite Hn. cbn [negb].
    cbn [str_to_id]. unfold dict_getitem.
    rewrite (dict_lookup_combine_seq K 0 s), Hn. cbn [bind Nat.add].
    unfold position. rewrite Hn. reflexivity.
  - assert (Hnot : ~ In s K).
    { intros H. apply mem_string_In in H. rewrite H in E. discriminate E. }
    rewrite (index_of_not_In s K Hnot). cbn [negb str_to_id].
    assert (Hlen : List.length (combine K (map Z.of_nat (seq 0 (List.length K))))
                   = List.length K).
    { rewrite length_combine, length_map, length_seq. apply Nat.min_id. }
    rewrite Hlen.
    rewrite dict_set_fresh.
    2:{ rewrite map_fst_combine. rewrite length_map, length_seq, firstn_all.
        exact Hnot. }
    rewrite zdict_set_fresh.
    2:{ intros Hin. apply in_map_iff in Hin. destruct Hin as [[k v] [Hk Hin]].
        cbn in Hk. subst k. apply in_combine_l in Hin. apply in_map_iff in Hin.
        destruct Hin as [n [Hn Hin]]. apply in_seq in Hin. lia. }
    rewrite <- combine_seq_snoc, <- combine_seq_snoc_keys.
    unfold dict_getitem. rewrite (dict_lookup_combine_seq (K ++ [s]) 0 s).
    rewrite (index_of_snoc_new s K Hnot). cbn [bind Nat.add].
    unfold position. rewrite (index_of_snoc_new s K Hnot). reflexivity.
Qed.

Lemma first_seen_app_prefix (P l : list string) :
  exists extra, first_seen (P ++ l) = (first_seen P ++ extra)%list.
Proof.
  induction l as [| x l IH] using rev_ind.
  - exists []. rewrite !app_nil_r. reflexivity.
  - destruct IH as [extra IH]. rewrite app_assoc, first_seen_snoc, IH.
    destruct (mem_string x (P ++ l)).
    + exists extra. reflexivity.
    + exists (extra ++ [x])%list. rewrite app_assoc. reflexivity.
Qed.

(** The ids given to a list of names, starting after the names [P]. *)
Lemma get_str_ids_loop (l P : list string) (ids : list Z) :
  for_each l
    (fun '(self, ids) str =>
       ' (self, id) <- get_str_id self str ;;
       Ok (self, (ids ++ [id])%list))
    (str_ids_of (first_seen P), ids)
  = Ok (str_ids_of (first_seen (P ++ l)),
        (ids ++ map (position (first_seen (P ++ l))) l)%list).
Proof.
  revert P ids. induction l as [| s l IH]; intros P ids.
  - cbn. rewrite !app_nil_r. reflexivity.
  - cbn [for_each]. rewrite get_str_id_str_ids_of. cbn [bind].
    rewrite mem_string_first_seen.
    assert (HK : (if mem_string s P then first_seen P
                  else (first_seen P ++ [s])%list) = first_seen (P ++ [s]))
      by (rewrite first_seen_snoc; reflexivity).
    rewrite HK. rewrite IH. rewrite <- !app_assoc. cbn [app map].
    f_equal. f_equal. f_equal. f_equal.
    destruct (first_seen_app_prefix (P ++ [s]) l) as [extra Hextra].
    rewrite <- app_assoc in Hextra. cbn [app] in Hextra. rewrite Hextra.
    symmetry. apply position_app_In. apply first_seen_In.
    apply in_or_app. right. left. reflexivity.
Qed.

(** X24.  [F1.compute] encodes class names by the order of their first
    appearance, over the (first) references and then the predictions: names
    get the same id exactly when they are the same name, [id_to_str] maps
    each id back to its name, and the ids of the names that occur among the
    references are exactly the ids below the number of distinct reference
    names, so that a name that is only predicted lies outside the labels
    handed to the underlying metric. *)
Theorem F1_format_ids_by_first_appearance :
  forall (references_ : list (list string)) (predictions : list string),
    (forall r, In r references_ -> r <> []) ->
    let firsts := map (hd "") references_ in
    let K := first_seen (firsts ++ predictions) in
    exists self,
      F1_format references_ predictions
      = Ok (self, map (position K) firsts, map (position K) predictions)
      /\ (forall s t, In s (firsts ++ predictions) -> In t (firsts ++ predictions) ->
                      (position K s = position K t <-> s = t))
      /\ (forall s, In s (firsts ++ predictions) ->
                    zdict_lookup (id_to_str self) (position K s) = Some s)
      /\ (forall s, In s (firsts ++ predictions) ->
                    (In s firsts
                     <-> (position K s < Z.of_nat (List.length (first_seen firsts)))%Z)).
Proof.
  intros refs preds Hne. cbn zeta.
  set (firsts := map (hd "") refs).
  set (K := first_seen (firsts ++ preds)).
  assert (Hrefs : forall st,
             for_each refs
               (fun '(self, ids) reference =>
                  match reference with
                  | reference_0 :: _ =>
                      ' (self, id) <- get_str_id self reference_0 ;;
                      Ok (self, (ids ++ [id])%list)
                  | [] => Raise (IndexError "list index out of range")
                  end) st
             = for_each firsts
                 (fun '(self, ids) str =>
                    ' (self, id) <- get_str_id self str ;;
                    Ok (self, (ids ++ [id])%list)) st).
  { subst firsts. clear K. induction refs as [| r refs IH]; intros st; [reflexivity |].
    cbn [map for_each]. destruct st as [self ids].
    destruct r as [| r0 r]; [exfalso; apply (Hne []); [left |]; reflexivity |].
    cbn [hd]. destruct (get_str_id self r0) as [[self' id] | e]; cbn [bind];
      [| reflexivity].
    apply IH. intros r' Hr'. apply Hne. right. exact Hr'. }
  destruct (first_seen_app_prefix firsts preds) as [extra Hextra]. fold K in Hextra.
  exists (str_ids_of K).
  split.
  - unfold F1_format. rewrite Hrefs.
    change {| str_to_id := []; id_to_str := [] |} with (str_ids_of (first_seen [])).
    rewrite get_str_ids_loop. cbn [bind app]. unfold get_str_ids.
    rewrite get_str_ids_loop. cbn [bind app]. fold K.
    f_equal. f_equal. f_equal.
    apply map_ext_in. intros s Hs. rewrite Hextra.
    symmetry. apply position_app_In. apply first_seen_In. exact Hs.
  - split; [| split].
    + intros s t Hs Ht. split; [| intros ->; reflexivity].
      apply position_inj; apply first_seen_In; assumption.
    + intros s Hs. cbn [str_ids_of id_to_str].
      assert (HsK : In s K) by (apply first_seen_In; exact Hs).
      destruct (position_In K s HsK) as [Hrange Hnth].
      replace (position K s) with (Z.of_nat (0 + Z.to_nat (position K s)))
        by (cbn [Nat.add]; lia).
      rewrite zdict_lookup_combine_seq. exact Hnth.
    + intros s Hs. rewrite Hextra. split.
      * intros Hin. apply first_seen_In in Hin.
        rewrite (position_app_In _ extra s Hin).
        apply (position_In _ s Hin).
      * intros Hlt. destruct (in_dec string_dec s firsts) as [Hin | Hnot];
          [exact Hin |].
        exfalso.
        assert (Hnot' : ~ In s (first_seen firsts))
          by (intros H; apply Hnot; apply first_seen_In; exact H).
        pose proof (position_app_not_In (first_seen firsts) extra s Hnot'). lia.
Qed.

(** The references name the classes [cat] and [dog]; the prediction [cow]
    gets the id 2, which is not the id of a reference. *)
Lemma F1_format_ids_by_first_appearance_witness :
  exists self,
    F1_format [["cat"]; ["dog"]; ["cat"]] ["dog"; "cow"; "cat"]
    = Ok (self, [0; 1; 0]%Z, [1; 2; 0]%Z)
    /\ zdict_lookup (id_to_str self) 2%Z = Some "cow".
Proof.
  destruct (F1_format_ids_by_first_appearance
              [["cat"]; ["dog"]; ["cat"]] ["dog"; "cow"; "cat"])
    as [self [Hrun [_ [Hback _]]]].
  - intros r [<- | [<- | [<- | []]]]; discriminate.
  - exists self. split; [exact Hrun |].
    apply (Hback "cow"). cbn. tauto.
Defined.

(* ------------------------------------------------------------------ *)
(** ** [NDCG] *)











Lemma append_to_query_fresh
  (grouped : list (option string * (list (option Q) * list Q)))
  (query : option string) (pred : option Q) (reference : Q) :
  ~ In query (map fst grouped) ->
  append_to_query grouped query pred reference
  = (grouped ++ [(query, ([pred], [reference]))])%list.
Proof.
  induction grouped as [| [q [preds refs]] grouped IH]; intros Hn; [reflexivity |].
  cbn [append_to_query app].
  assert (E : match query, q with
              | Some a, Some b => String.eqb a b
              | None, None => true
              | _, _ => false
              end = false).
  { destruct query as [a |], q as [b |]; try reflexivity.
    - apply String.eqb_neq. intros ->. apply Hn. left. reflexivity.
    - exfalso. apply Hn. left. reflexivity. }
  rewrite E, IH by (intros H; apply Hn; right; exact H). reflexivity.
Qed.

(** Queries that are all different give one group per instance. *)
Lemma group_distinct_queries (triples : list (Q * option Q * pydict)) :
  NoDup (map (fun t => query_of (snd t)) triples) ->
  forall acc,
    (forall t, In t triples -> ~ In (query_of (snd t)) (map fst acc)) ->
    fold_left
      (fun grouped '(reference, pred, inputs_dict) =>
         let query := query_of inputs_dict in
         append_to_query grouped query pred reference)
      triples acc
    = (acc ++ map (fun '(reference, pred, inputs_dict) =>
                     (query_of inputs_dict, ([pred], [reference]))) triples)%list.
Proof.
  induction triples as [| [[r p] td] triples IH]; intros Hnd acc Hfresh.
  - cbn. rewrite app_nil_r. reflexivity.
  - cbn [map fold_left snd] in *. cbn zeta.
    inversion Hnd as [| ? ? Hq Hnd']; subst.
    rewrite append_to_query_fresh by (apply (Hfresh (r, p, td)); left; reflexivity).
    rewrite IH.
    + rewrite <- app_assoc. reflexivity.
    + exact Hnd'.
    + intros t Ht Hin. rewrite map_app in Hin. apply in_app_or in Hin.
      destruct Hin as [Hin | [Hin | []]].
      * exact (Hfresh t (or_intror Ht) Hin).
      * cbn in Hin. apply Hq. rewrite Hin. apply in_map_iff.
        exists t. split; [reflexivity | exact Ht].
Qed.

Lemma zip3_queries {A B} (l1 : list A) (l2 : list B) (l3 : list pydict) :
  List.length l1 = List.length l3 -> List.length l2 = List.length l3 ->
  map (fun t => query_of (snd t)) (zip3 l1 l2 l3) = map query_of l3.
Proof.
  revert l2 l3. induction l1 as [| a l1 IH]; intros [| b l2] [| c l3] H1 H2;
    try discriminate; [reflexivity |].
  cbn [zip3 map snd]. rewrite IH by (cbn in *; lia). reflexivity.
Qed.

(** X26.  [NDCG] leaves out every query with a single instance: on a
    stream whose instances all have different queries the evaluation is
    never called and the score is NaN. *)
Theorem NDCG_single_instance_queries :
  forall (eval : list Q -> list Q -> result scoreval)
         (references_ : list (list Q)) (predictions : list (option Q))
         (task_data_ : list pydict),
    (forall r, In r references_ -> r <> []) ->
    List.length references_ = List.length task_data_ ->
    List.length predictions = List.length task_data_ ->
    NoDup (map query_of task_data_) ->
    NDCG_compute eval references_ predictions task_data_
    = Ok [("nDCG", VFloat NaN)].
Proof.
  intros eval refs preds tds Hne Hl1 Hl2 Hnd.
  unfold NDCG_compute.
  assert (Hfirsts : map_result
                      (fun reference : list Q =>
                         match reference with
                         | r :: _ => Ok r
                         | [] => Raise (IndexError "list index out of range")
                         end) refs
                    = Ok (map (hd 0) refs)).
  { apply map_result_map. intros r Hr. destruct r as [| x r]; [| reflexivity].
    exfalso. apply (Hne [] Hr). reflexivity. }
  rewrite Hfirsts. cbn [bind].
  rewrite group_distinct_queries.
  - cbn [app].
    assert (Hskip : forall (triples : list (Q * option Q * pydict)) scores,
               for_each
                 (map (fun '(reference, pred, inputs_dict) =>
                         (query_of inputs_dict, ([pred], [reference]))) triples)
                 (fun scores '(_, (q_predictions, q_references)) =>
                    if Nat.eqb (List.length q_references) 1 then Ok scores
                    else if existsb (fun pred => match pred with
                                                 | None => true
                                                 | Some _ => false
                                                 end) q_predictions
                    then
                      match numeric_predictions q_predictions with
                      | [] | [_] => Ok (scores ++ [Num 0])%list
                      | p :: rest =>
                          let min_value := Qmin_list p rest in
                          let q_predictions :=
                            none_ranked_last min_value q_predictions in
                          s <- eval q_references q_predictions ;;
                          Ok (scores ++ [s])%list
                      end
                    else
                      s <- eval q_references (numeric_predictions q_predictions) ;;
                      Ok (scores ++ [s])%list)
                 scores
               = Ok scores).
    { induction triples as [| [[r p] td] triples IH]; intros scores;
        [reflexivity |].
      cbn [map for_each List.length Nat.eqb bind]. apply IH. }
    rewrite Hskip. reflexivity.
  - rewrite zip3_queries by (rewrite ?length_map; assumption). exact Hnd.
  - intros t _ [].
Qed.

(** Two instances of two queries. *)
Lemma NDCG_single_instance_queries_witness :
  NDCG_compute (fun _ _ => Raise (ComputeError "not called"))
    [[1]; [0]] [Some 1; None]
    [[("query", VStr "q1")]; [("query", VStr "q2")]]
  = Ok [("nDCG", VFloat NaN)].
Proof.
  apply NDCG_single_instance_queries.
  - intros r [<- | [<- | []]]; discriminate.
  - reflexivity.
  - reflexivity.
  - repeat constructor; cbn; intuition discriminate.
Defined.

(* ------------------------------------------------------------------ *)
(** ** [SentenceBert]: each prediction meets its own references *)

Lemma ref_group_boundaries_loop {A} (groups : list (list A)) (count : nat)
  (boundaries : list (nat * nat)) :
  snd (fold_left
         (fun '(count, boundaries) ref_group =>
            ((count + List.length ref_group)%nat,
             (boundaries ++ [(count, (count + List.length ref_group)%nat)])%list))
         groups (count, boundaries))
  = (boundaries
       ++ snd (fold_left
                 (fun '(count, boundaries) ref_group =>
                    ((count + List.length ref_group)%nat,
                     (boundaries
                        ++ [(count, (count + List.length ref_group)%nat)])%list))
                 groups (count, [])))%list.
Proof.
  revert count boundaries. induction groups as [| g groups IH]; intros count bs.
  - cbn. rewrite app_nil_r. reflexivity.
  - cbn [fold_left]. rewrite (IH _ (bs ++ _)%list), (IH _ ([] ++ _)%list).
    rewrite <- app_assoc. reflexivity.
Qed.

(** The slices of the flattened list between the boundaries are the groups. *)
Lemma slices_of_boundaries {A} (groups : list (list A)) (before : list A) :
  map (fun b => slice (before ++ List.concat groups) (fst b) (snd b))
      (snd (fold_left
              (fun '(count, boundaries) ref_group =>
                 ((count + List.length ref_group)%nat,
                  (boundaries
                     ++ [(count, (count + List.length ref_group)%nat)])%list))
              groups (List.length before, [])))
  = groups.
Proof.
  revert before. induction groups as [| g groups IH]; intros before.
  - reflexivity.
  - cbn [fold_left List.concat]. rewrite ref_group_boundaries_loop.
    cbn [app map fst snd]. f_equal.
    + unfold slice.
      replace (List.length before + List.length g - List.length before)%nat
        with (List.length g) by lia.
      rewrite skipn_app, skipn_all, Nat.sub_diag. cbn [skipn app].
      rewrite firstn_app, firstn_all, Nat.sub_diag. cbn [firstn].
      apply app_nil_r.
    + specialize (IH (before ++ g)%list).
      rewrite length_app in IH. rewrite <- app_assoc in IH. exact IH.
Qed.

(** X27.  [SentenceBert] encodes all references in one flattened batch and
    cuts the batch again at the boundaries it recorded: when the encoder
    works sentence by sentence and there are as many predictions as
    reference groups, every prediction is scored against the encodings of
    its own references, in their order, and of no others. *)
Theorem SentenceBert_scores_own_references :
  forall (E : Type) (encode : list string -> list E) (enc : string -> E)
         (cos_sim_max : E -> list E -> result Q)
         (references_ : list (list string)) (predictions : list string),
    (forall l, encode l = map enc l) ->
    List.length predictions = List.length references_ ->
    SentenceBert_compute encode cos_sim_max references_ predictions
    = (scores <- map_result
                   (fun '(pred, ref_group) =>
                      cos_sim_max (enc pred) (map enc ref_group))
                   (combine predictions references_) ;;
       Ok (map (fun score_ => [("score", VFloat (Num score_))]) scores)).
Proof.
  intros E encode enc cos_sim_max refs preds Henc Hlen.
  unfold SentenceBert_compute. rewrite !Henc.
  f_equal.
  pose proof (slices_of_boundaries (map (map enc) refs) []) as Hslices.
  cbn [app List.length] in Hslices.
  assert (Hb : ref_group_boundaries (map (map enc) refs) = ref_group_boundaries refs).
  { unfold ref_group_boundaries.
    assert (Hgen : forall (groups : list (list string)) count (bs : list (nat * nat)),
               fold_left
                 (fun '(count, boundaries) (ref_group : list E) =>
                    ((count + List.length ref_group)%nat,
                     (boundaries
                        ++ [(count, (count + List.length ref_group)%nat)])%list))
                 (map (map enc) groups) (count, bs)
               = fold_left
                   (fun '(count, boundaries) (ref_group : list string) =>
                      ((count + List.length ref_group)%nat,
                       (boundaries
                          ++ [(count, (count + List.length ref_group)%nat)])%list))
                   groups (count, bs)).
    { induction groups as [| g groups IH]; intros count bs; [reflexivity |].
      cbn [map fold_left]. rewrite length_map. apply IH. }
    rewrite Hgen. reflexivity. }
  fold (ref_group_boundaries (map (map enc) refs)) in Hslices.
  rewrite Hb in Hslices. clear Hb. rewrite <- concat_map in Hslices.
  set (bs := ref_group_boundaries refs) in *.
  set (flat := map enc (List.concat refs)) in *.
  assert (Hbl : List.length bs = List.length refs).
  { apply (f_equal (@List.length _)) in Hslices.
    rewrite !length_map in Hslices. exact Hslices. }
  clearbody bs flat.
  revert preds refs Hlen Hslices Hbl.
  induction bs as [| b bs IH]; intros preds refs Hlen Hslices Hbl.
  - destruct refs; [| discriminate Hbl]. destruct preds; [| discriminate Hlen].
    reflexivity.
  - destruct refs as [| g refs]; [discriminate Hbl |].
    destruct preds as [| p preds]; [discriminate Hlen |].
    cbn [map combine map_result] in *.
    injection Hslices as Hg Hrest. rewrite Hg.
    destruct (cos_sim_max (enc p) (map enc g)) as [s |]; cbn [bind];
      [| reflexivity].
    rewrite (IH preds refs); [reflexivity | | exact Hrest |];
      cbn in *; lia.
Qed.

(** Two predictions with two and one references, under an encoder and a
    similarity that are easy to follow. *)
Lemma SentenceBert_scores_own_references_witness :
  SentenceBert_compute (map String.length)
    (fun p refs => Ok (inject_Z (Z.of_nat (p + List.length refs))))
    [["a"; "bb"]; ["ccc"]] ["x"; "yy"]
  = Ok [[("score", VFloat (Num (inject_Z 3)))];
        [("score", VFloat (Num (inject_Z 3)))]].
Proof.
  rewrite (SentenceBert_scores_own_references nat (map String.length) String.length
             (fun p refs => Ok (inject_Z (Z.of_nat (p + List.length refs))))
             [["a"; "bb"]; ["ccc"]] ["x"; "yy"] (fun l => eq_refl) eq_refl).
  reflexivity.
Defined.

(* ------------------------------------------------------------------ *)
(** ** [Perplexity]: each instance gets the scores of its own references *)

Lemma perplexity_pairs_inner (src tgt : string -> string -> string) (p : string)
  (refs : list string) (sources targets : list string) :
  fold_left
    (fun '(sources, targets) instance_reference =>
       ((sources ++ [src p instance_reference])%list,
        (targets ++ [tgt p instance_reference])%list))
    refs (sources, targets)
  = ((sources ++ map (src p) refs)%list, (targets ++ map (tgt p) refs)%list).
Proof.
  revert sources targets. induction refs as [| r refs IH]; intros sources targets.
  - cbn. rewrite !app_nil_r. reflexivity.
  - cbn [fold_left map]. rewrite IH, <- !app_assoc. reflexivity.
Qed.

Lemma perplexity_pairs (src tgt : string -> string -> string)
  (pairs : list (string * list string)) (sources targets : list string) :
  fold_left
    (fun '(sources, targets) '(prediction_, instance_references) =>
       fold_left
         (fun '(sources, targets) instance_reference =>
            ((sources ++ [src prediction_ instance_reference])%list,
             (targets ++ [tgt prediction_ instance_reference])%list))
         instance_references (sources, targets))
    pairs (sources, targets)
  = ((sources ++ List.concat (map (fun '(p, refs) => map (src p) refs) pairs))%list,
     (targets ++ List.concat (map (fun '(p, refs) => map (tgt p) refs) pairs))%list).
Proof.
  revert sources targets. induction pairs as [| [p refs] pairs IH];
    intros sources targets.
  - cbn. rewrite !app_nil_r. reflexivity.
  - cbn [fold_left map List.concat]. rewrite perplexity_pairs_inner, IH.
    rewrite <- !app_assoc. reflexivity.
Qed.

(** Reading as many scores as there are references, from [index] on. *)
Lemma perplexity_take {A} (scores : list Q) (refs : list A) (index : nat)
  (taken : list Q) (these : list Q) :
  List.length these = List.length refs ->
  slice scores index (index + List.length refs) = these ->
  (index + List.length refs <= List.length scores)%nat ->
  for_each refs
    (fun '(index, instance_scores_list) _ =>
       match nth_error scores index with
       | Some s => Ok (S index, (instance_scores_list ++ [s])%list)
       | None => Raise (IndexError "list index out of range")
       end)
    (index, taken)
  = Ok ((index + List.length refs)%nat, (taken ++ these)%list).
Proof.
  revert index taken these. induction refs as [| r refs IH];
    intros index taken these Hlen Hslice Hbound.
  - destruct these; [| discriminate Hlen]. cbn. rewrite Nat.add_0_r, app_nil_r.
    reflexivity.
  - destruct these as [| s these]; [discriminate Hlen |].
    cbn [for_each List.length] in *.
    unfold slice in Hslice.
    replace (index + S (List.length refs) - index)%nat
      with (S (List.length refs)) in Hslice by lia.
    destruct (skipn index scores) as [| s0 rest] eqn:Hskip;
      [cbn in Hslice; discriminate Hslice |].
    cbn [firstn] in Hslice. injection Hslice as -> Hrest.
    assert (Hnth : nth_error scores index = Some s).
    { rewrite <- (firstn_skipn index scores) at 1.
      rewrite nth_error_app2 by (rewrite length_firstn; lia).
      rewrite length_firstn, Nat.min_l by lia. rewrite Nat.sub_diag, Hskip.
      reflexivity. }
    rewrite Hnth. cbn [bind].
    rewrite (IH (S index) (taken ++ [s])%list these).
    + rewrite <- app_assoc. f_equal. f_equal. lia.
    + injection Hlen as Hlen. exact Hlen.
    + unfold slice. replace (S index + List.length refs - S index)%nat
        with (List.length refs) by lia.
      assert (Hs : skipn (S index) scores = rest).
      { replace (S index) with (1 + index)%nat by lia.
        rewrite <- skipn_skipn, Hskip. reflexivity. }
      rewrite Hs. exact Hrest.
    + lia.
Qed.

(** X28.  [Perplexity] sends the source and target texts of all
    (prediction, reference) pairs to the language model in one flat batch
    and reads the scores back with a running index: when the language
    model scores the batch pair by pair and there are as many predictions as
    reference lists, each instance gets the scores of its own references,
    in their order, and their maximum as main score; an instance without
    references fails with the [ValueError] of [max]. *)
Theorem Perplexity_scores_own_references :
  forall (apply_source apply_target : string -> string -> string)
         (compute_lm : list string -> list string -> list Q)
         (lm : string -> string -> Q)
         (references_ : list (list string)) (predictions : list string),
    (forall sources targets,
        compute_lm sources targets
        = map (fun '(s, t) => lm s t) (combine sources targets)) ->
    List.length predictions = List.length references_ ->
    Perplexity_compute apply_source apply_target compute_lm references_ predictions
    = map_result
        (fun '(prediction_, instance_references) =>
           let reference_scores :=
             map (fun r => lm (apply_source prediction_ r)
                              (apply_target prediction_ r))
                 instance_references in
           best <- pymax reference_scores ;;
           Ok (reference_scores, best))
        (combine predictions references_).
Proof.
  intros src tgt compute_lm lm refs preds Hlm Hlen.
  unfold Perplexity_compute. rewrite perplexity_pairs. cbn [app]. rewrite Hlm.
  set (score_of := fun (p : string) (r : string) => lm (src p r) (tgt p r)).
  assert (Hscores :
            map (fun '(s, t) => lm s t)
                (combine
                   (List.concat (map (fun '(p, rs) => map (src p) rs)
                                     (combine preds refs)))
                   (List.concat (map (fun '(p, rs) => map (tgt p) rs)
                                     (combine preds refs))))
            = List.concat (map (fun '(p, rs) => map (score_of p) rs)
                               (combine preds refs))).
  { generalize (combine preds refs) as pairs.
    induction pairs as [| [p rs] pairs IH]; [reflexivity |].
    cbn [map List.concat].
    rewrite combine_app_same_length by (rewrite !length_map; reflexivity).
    rewrite map_app, IH. f_equal.
    clear. induction rs as [| r rs IH]; [reflexivity |].
    cbn [map combine]. rewrite IH. reflexivity. }
  rewrite Hscores. clear Hscores.
  assert (Hgen : forall (refs : list (list string)) (preds : list string)
                        (before : list Q) (all : list (list Q * Q)),
             List.length preds = List.length refs ->
             (' (_, all_instances_scores) <-
                for_each refs
                  (fun '(index, all_instances_scores) instance_references =>
                     ' (index, instance_scores_list) <-
                       for_each instance_references
                         (fun '(index, instance_scores_list) _ =>
                            match nth_error
                                    (before
                                       ++ List.concat
                                            (map (fun '(p, rs) => map (score_of p) rs)
                                                 (combine preds refs)))%list
                                    index with
                            | Some s =>
                                Ok (S index, (instance_scores_list ++ [s])%list)
                            | None =>
                                Raise (IndexError "list index out of range")
                            end)
                         (index, []) ;;
                     best <- pymax instance_scores_list ;;
                     Ok (index,
                         (all_instances_scores
                            ++ [(instance_scores_list, best)])%list))
                  (List.length before, all) ;;
              Ok all_instances_scores)
             = (rest <- map_result
                          (fun '(prediction_, instance_references) =>
                             let reference_scores :=
                               map (fun r => lm (src prediction_ r)
                                                (tgt prediction_ r))
                                   instance_references in
                             best <- pymax reference_scores ;;
                             Ok (reference_scores, best))
                          (combine preds refs) ;;
                Ok (all ++ rest)%list)).
  { clear. induction refs as [| g refs IH]; intros preds before all Hlen.
    - destruct preds; [| discriminate Hlen]. cbn. rewrite app_nil_r. reflexivity.
    - destruct preds as [| p preds]; [discriminate Hlen |].
      cbn [combine map List.concat for_each map_result].
      rewrite (perplexity_take _ g (List.length before) [] (map (score_of p) g)).
      + cbn [bind app]. fold (score_of p).
        change (map (fun r => lm (src p r) (tgt p r)) g) with (map (score_of p) g).
        destruct (pymax (map (score_of p) g)) as [best | e]; cbn [bind];
          [| reflexivity].
        specialize (IH preds (before ++ map (score_of p) g)%list
                       (all ++ [(map (score_of p) g, best)])%list).
        rewrite length_app, length_map, <- app_assoc in IH.
        rewrite IH by (injection Hlen as Hlen; exact Hlen).
        destruct (map_result _ (combine preds refs)) as [rest | e]; cbn [bind];
          [| reflexivity].
        rewrite <- app_assoc. reflexivity.
      + apply length_map.
      + unfold slice.
        replace (List.length before + List.length g - List.length before)%nat
          with (List.length g) by lia.
        rewrite skipn_app, skipn_all, Nat.sub_diag. cbn [skipn app].
        rewrite firstn_app, length_map, Nat.sub_diag. cbn [firstn].
        rewrite app_nil_r.
        rewrite <- (length_map (score_of p) g). apply firstn_all.
      + rewrite !length_app, length_map. lia. }
  specialize (Hgen refs preds [] [] Hlen). cbn [app List.length] in Hgen.
  rewrite Hgen.
  destruct (map_result _ (combine preds refs)); reflexivity.
Qed.

(** Two instances with two and one references, under a language model
    that scores a pair by the lengths of its texts. *)
Lemma Perplexity_scores_own_references_witness :
  Perplexity_compute (fun p r => r) (fun p r => p)
    (fun sources targets =>
       map (fun '(s, t) => inject_Z (Z.of_nat (String.length s + String.length t)))
           (combine sources targets))
    [["a"; "bbb"]; ["cc"]] ["x"; "yy"]
  = Ok [([inject_Z 2; inject_Z 4], inject_Z 4); ([inject_Z 4], inject_Z 4)].
Proof.
  rewrite (Perplexity_scores_own_references (fun p r => r) (fun p r => p) _
             (fun s t => inject_Z (Z.of_nat (String.length s + String.length t)))
             [["a"; "bbb"]; ["cc"]] ["x"; "yy"] (fun _ _ => eq_refl) eq_refl).
  reflexivity.
Defined.

(* ------------------------------------------------------------------ *)
(** ** [BinaryMaxAccuracy]: the sweep finds the best threshold *)

Lemma fp_insert_sum (f : fp_entry -> Z) (t : fp_entry) (l : list fp_entry) :
  Zsum (map f (fp_insert t l)) = (f t + Zsum (map f l))%Z.
Proof.
  induction l as [| x l IH].
  - cbn [fp_insert map]. rewrite Zsum_cons. reflexivity.
  - cbn [fp_insert]. destruct (fp_leb t x).
    + cbn [map]. rewrite !Zsum_cons. reflexivity.
    + cbn [map]. rewrite !Zsum_cons, IH. lia.
Qed.

Lemma fp_sort_sum (f : fp_entry -> Z) (l : list fp_entry) :
  Zsum (map f (fp_sort l)) = Zsum (map f l).
Proof.
  induction l as [| x l IH]; [reflexivity |].
  cbn [fp_sort fold_right]. fold (fp_sort l).
  rewrite fp_insert_sum. cbn [map]. rewrite Zsum_cons, IH. reflexivity.
Qed.

Lemma fp_insert_Forall (P : fp_entry -> Prop) (t : fp_entry) (l : list fp_entry) :
  P t -> Forall P l -> Forall P (fp_insert t l).
Proof.
  intros Ht Hl. induction Hl as [| x l Hx Hl IH]; cbn [fp_insert].
  - constructor; [exact Ht | constructor].
  - destruct (fp_leb t x).
    + constructor; [exact Ht |]. constructor; assumption.
    + constructor; assumption.
Qed.

Lemma fp_sort_Forall (P : fp_entry -> Prop) (l : list fp_entry) :
  Forall P l -> Forall P (fp_sort l).
Proof.
  intros H. induction H as [| x l Hx Hl IH]; [constructor |].
  cbn [fp_sort fold_right]. apply fp_insert_Forall; assumption.
Qed.

Lemma fp_insert_length (t : fp_entry) (l : list fp_entry) :
  List.length (fp_insert t l) = S (List.length l).
Proof.
  induction l as [| x l IH]; [reflexivity |].
  cbn [fp_insert]. destruct (fp_leb t x); cbn [List.length]; [| rewrite IH];
    reflexivity.
Qed.

Lemma fp_sort_length (l : list fp_entry) :
  List.length (fp_sort l) = List.length l.
Proof.
  induction l as [| x l IH]; [reflexivity |].
  cbn [fp_sort fold_right]. fold (fp_sort l).
  rewrite fp_insert_length, IH. reflexivity.
Qed.

Lemma fp_leb_pred (a b : fp_entry) :
  (fp_leb a b = true -> fp_pred a <= fp_pred b)
  /\ (fp_leb a b = false -> fp_pred b <= fp_pred a).
Proof.
  destruct a as [[pa ia] da], b as [[pb ib] db]. unfold fp_leb, fp_pred.
  cbn [fst]. destruct (Qcompare_spec pa pb) as [He | Hl | Hg].
  - split; intros _; rewrite He; apply Qle_refl.
  - split; [intros _; apply Qlt_le_weak; exact Hl | discriminate].
  - split; [discriminate | intros _; apply Qlt_le_weak; exact Hg].
Qed.

Lemma fp_insert_sorted (t : fp_entry) (l : list fp_entry) :
  fp_sorted l -> fp_sorted (fp_insert t l).
Proof.
  induction l as [| x l IH]; intros Hs.
  - cbn. split; [constructor | exact I].
  - cbn [fp_insert]. destruct Hs as [Hx Hs].
    destruct (fp_leb t x) eqn:E.
    + apply (proj1 (fp_leb_pred t x)) in E.
      split; [| split; assumption].
      constructor; [exact E |].
      eapply Forall_impl; [| exact Hx]. intros b Hb. cbn in Hb.
      apply Qle_trans with (fp_pred x); assumption.
    + apply (proj2 (fp_leb_pred t x)) in E.
      split; [| apply IH; exact Hs].
      apply fp_insert_Forall; assumption.
Qed.

Lemma fp_sort_sorted (l : list fp_entry) : fp_sorted (fp_sort l).
Proof.
  induction l as [| x l IH]; [exact I |].
  cbn [fp_sort fold_right]. apply fp_insert_sorted. exact IH.
Qed.

Lemma fp_sorted_app_r (l1 l2 : list fp_entry) :
  fp_sorted (l1 ++ l2) -> fp_sorted l2.
Proof.
  induction l1 as [| x l1 IH]; [intros H; exact H |].
  cbn [app fp_sorted]. intros [_ H]. apply IH. exact H.
Qed.

(** The inner loop takes the triples with the prediction of the block. *)
Lemma sweep_block_spec (rest : list fp_entry) (prev : Q) (delta : Z) :
  Forall (fun b => prev <= fp_pred b) rest ->
  fp_sorted rest ->
  exists block rest',
    sweep_block rest prev delta
    = (rest', (delta + Zsum (map fp_delta block))%Z)
    /\ rest = (block ++ rest')%list
    /\ Forall (fun b => fp_pred b == prev) block
    /\ match rest' with
       | [] => True
       | next :: _ => prev < fp_pred next
       end.
Proof.
  revert prev delta. induction rest as [| t rest IH]; intros prev delta Hge Hs.
  - exists [], []. split; [cbn; f_equal; lia |].
    split; [reflexivity |]. split; [constructor | exact I].
  - cbn [sweep_block]. destruct Hs as [Ht Hs].
    inversion Hge as [| ? ? Hpt Hge']; subst.
    destruct (Qle_bool (fp_pred t) prev) eqn:E.
    + apply Qle_bool_iff in E.
      assert (Heq : fp_pred t == prev) by (apply Qle_antisym; assumption).
      destruct (IH (fp_pred t) (delta + fp_delta t)%Z Ht Hs)
        as [block [rest' [Hrun [Hrest [Hblock Hnext]]]]].
      exists (t :: block), rest'.
      split; [rewrite Hrun; cbn [map]; rewrite Zsum_cons; f_equal; lia |].
      split; [rewrite Hrest; reflexivity |].
      split.
      * constructor; [exact Heq |].
        eapply Forall_impl; [| exact Hblock]. intros b Hb. cbn in Hb.
        rewrite Hb. exact Heq.
      * destruct rest' as [| next rest'']; [exact I |].
        rewrite <- Heq. exact Hnext.
    + exists [], (t :: rest).
      split; [cbn; f_equal; lia |].
      split; [reflexivity |]. split; [constructor |].
      destruct (Qlt_le_dec prev (fp_pred t)) as [Hlt | Hle]; [exact Hlt |].
      apply Qle_bool_iff in Hle. rewrite Hle in E. discriminate E.
Qed.

Lemma acc_of_failing (thr : Q) (l : list fp_entry) :
  Forall (fun t => fp_delta t = (-1)%Z \/ fp_delta t = 1%Z) l ->
  Forall (fun a => fp_pred a < thr) l ->
  acc_of thr l = (positives l + Zsum (map fp_delta l))%Z.
Proof.
  unfold acc_of, positives. intros Hd Hl.
  induction l as [| t l IH]; [reflexivity |].
  inversion Hd as [| ? ? Hdt Hd']; inversion Hl as [| ? ? Hlt Hl']; subst.
  cbn [map]. rewrite !Zsum_cons, (IH Hd' Hl').
  unfold fp_score.
  assert (E : Qle_bool thr (fp_pred t) = false).
  { destruct (Qle_bool thr (fp_pred t)) eqn:E; [| reflexivity].
    apply Qle_bool_iff in E. exfalso.
    apply (Qlt_irrefl thr). apply Qle_lt_trans with (fp_pred t); assumption. }
  rewrite E.
  destruct (Z.eqb_spec (fp_delta t) 1), (Z.eqb_spec (fp_delta t) (-1)); lia.
Qed.

Lemma acc_of_passing (thr : Q) (l : list fp_entry) :
  Forall (fun b => thr <= fp_pred b) l ->
  acc_of thr l = positives l.
Proof.
  unfold acc_of, positives. intros Hl.
  induction l as [| t l IH]; [reflexivity |].
  inversion Hl as [| ? ? Ht Hl']; subst.
  cbn [map]. rewrite !Zsum_cons, (IH Hl').
  unfold fp_score. apply Qle_bool_iff in Ht. rewrite Ht. reflexivity.
Qed.

(** The accuracy at a threshold that the triples of [done] fail and the
    triples of [rest] pass. *)
Lemma acc_of_split (thr : Q) (done rest : list fp_entry) :
  Forall (fun t => fp_delta t = (-1)%Z \/ fp_delta t = 1%Z) (done ++ rest) ->
  Forall (fun a => fp_pred a < thr) done ->
  Forall (fun b => thr <= fp_pred b) rest ->
  acc_of thr (done ++ rest)
  = (positives (done ++ rest) + Zsum (map fp_delta done))%Z.
Proof.
  intros Hd Hdone Hrest.
  apply Forall_app in Hd. destruct Hd as [Hd1 _].
  unfold acc_of, positives. rewrite !map_app, !Zsum_app.
  fold (acc_of thr done) (acc_of thr rest) (positives done) (positives rest).
  rewrite (acc_of_failing thr done Hd1 Hdone), (acc_of_passing thr rest Hrest).
  lia.
Qed.

Lemma acc_of_le_length (thr : Q) (l : list fp_entry) :
  (acc_of thr l <= Z.of_nat (List.length l))%Z.
Proof.
  unfold acc_of. induction l as [| t l IH]; [cbn; lia |].
  cbn [map List.length]. rewrite Zsum_cons.
  assert (fp_score thr t <= 1)%Z.
  { unfold fp_score. destruct (Qle_bool thr (fp_pred t));
      [destruct (fp_delta t =? -1)%Z | destruct (fp_delta t =? 1)%Z]; lia. }
  lia.
Qed.

(** The outer loop: once the sweep has passed the triples of [done], the
    best accuracy so far is reached at the best threshold so far and bounds
    the accuracy at every threshold that the triples of [rest] pass. *)
Lemma sweep_correct (S : list fp_entry) (rightmost : Q) :
  Forall (fun t => fp_delta t = (-1)%Z \/ fp_delta t = 1%Z) S ->
  fp_sorted S ->
  Forall (fun a => fp_pred a < rightmost) S ->
  forall (fuel : nat) (done rest : list fp_entry) (cur best : Z) (bthr : Q),
    S = (done ++ rest)%list ->
    (List.length rest <= fuel)%nat ->
    cur = (positives S + Zsum (map fp_delta done))%Z ->
    (forall a b, In a done -> In b rest -> fp_pred a < fp_pred b) ->
    acc_of bthr S = best ->
    (forall thr, Forall (fun b => thr <= fp_pred b) rest ->
                 (acc_of thr S <= best)%Z) ->
    exists best' bthr',
      sweep fuel (Z.of_nat (List.length S)) rightmost rest cur best bthr
      = (best', bthr')
      /\ acc_of bthr' S = best'
      /\ forall thr, (acc_of thr S <= best')%Z.
Proof.
  intros Hdelta Hsorted Hright.
  induction fuel as [| fuel IH];
    intros done rest cur best bthr HS Hfuel Hcur Hord Hbest Hbound.
  - destruct rest; [| cbn in Hfuel; lia].
    exists best, bthr. split; [reflexivity |]. split; [exact Hbest |].
    intros thr. apply Hbound. constructor.
  - destruct rest as [| t rest1].
    { exists best, bthr. split; [reflexivity |]. split; [exact Hbest |].
      intros thr. apply Hbound. constructor. }
    cbn [sweep].
    destruct (best <? Z.of_nat (List.length S))%Z eqn:Efull.
    2:{ apply Z.ltb_ge in Efull.
        exists best, bthr. split; [reflexivity |]. split; [exact Hbest |].
        intros thr. pose proof (acc_of_le_length thr S). lia. }
    assert (Hsrest : fp_sorted (t :: rest1))
      by (apply (fp_sorted_app_r done); rewrite <- HS; exact Hsorted).
    destruct Hsrest as [Ht Hs1].
    destruct (sweep_block_spec rest1 (fp_pred t) (fp_delta t) Ht Hs1)
      as [block [rest' [Hrun [Hrest1 [Hblock Hnext]]]]].
    rewrite Hrun.
    set (done' := (done ++ t :: block)%list).
    set (cur' := (cur + (fp_delta t + Zsum (map fp_delta block)))%Z).
    assert (HS' : S = (done' ++ rest')%list).
    { subst done'. rewrite HS, Hrest1, <- app_assoc. reflexivity. }
    assert (Hcur' : cur' = (positives S + Zsum (map fp_delta done'))%Z).
    { subst cur' done'. rewrite Hcur, map_app, Zsum_app. cbn [map].
      rewrite Zsum_cons. lia. }
    assert (Hblock_t : forall a, In a (t :: block) -> fp_pred a == fp_pred t).
    { intros a [<- | Ha]; [reflexivity |].
      rewrite Forall_forall in Hblock. apply Hblock. exact Ha. }
    assert (Hs' : fp_sorted rest').
    { apply (fp_sorted_app_r block). rewrite <- Hrest1. exact Hs1. }
    assert (Hord' : forall a b, In a done' -> In b rest' -> fp_pred a < fp_pred b).
    { intros a b Ha Hb. subst done'. apply in_app_or in Ha.
      assert (Hb_rest : In b (t :: rest1)).
      { right. rewrite Hrest1. apply in_or_app. right. exact Hb. }
      destruct Ha as [Ha | Ha]; [apply Hord; assumption |].
      rewrite (Hblock_t a Ha).
      destruct rest' as [| next rest'']; [destruct Hb |].
      destruct Hb as [<- | Hb]; [exact Hnext |].
      destruct Hs' as [Hn _]. rewrite Forall_forall in Hn.
      apply Qlt_le_trans with (fp_pred next); [exact Hnext | apply Hn; exact Hb]. }
    assert (Hfail : forall thr, fp_pred t < thr ->
                                Forall (fun a => fp_pred a < thr) done').
    { intros thr Hthr. apply Forall_forall. intros a Ha. subst done'.
      apply in_app_or in Ha. destruct Ha as [Ha | Ha].
      - apply Qlt_trans with (fp_pred t); [| exact Hthr].
        apply Hord; [exact Ha | left; reflexivity].
      - rewrite (Hblock_t a Ha). exact Hthr. }
    set (thr' := match rest' with
                 | next :: _ => fp_pred next
                 | [] => rightmost
                 end).
    assert (Hthr'_acc : acc_of thr' S = cur').
    { rewrite Hcur'. rewrite HS' at 1 2. rewrite HS' in Hdelta.
      apply acc_of_split; [exact Hdelta | |].
      - apply Forall_forall. intros a Ha. subst thr'.
        destruct rest' as [| next rest''].
        + rewrite Forall_forall in Hright. apply Hright.
          rewrite HS'. apply in_or_app. left. exact Ha.
        + apply Hord'; [exact Ha | left; reflexivity].
      - subst thr'. destruct rest' as [| next rest'']; [constructor |].
        constructor; [apply Qle_refl | apply Hs']. }
    assert (Hbound' : forall best'',
               (best <= best'')%Z -> (cur' <= best'')%Z ->
               forall thr, Forall (fun b => thr <= fp_pred b) rest' ->
                           (acc_of thr S <= best'')%Z).
    { intros best'' Hb1 Hb2 thr Hthr.
      destruct (Qlt_le_dec (fp_pred t) thr) as [Hlt | Hle].
      - assert (Hacc : acc_of thr S = cur').
        { rewrite Hcur'. rewrite HS' at 1 2. rewrite HS' in Hdelta.
          apply acc_of_split; [exact Hdelta | apply Hfail; exact Hlt | exact Hthr]. }
        lia.
      - assert (Hold : (acc_of thr S <= best)%Z).
        { apply Hbound. constructor; [exact Hle |].
          apply Forall_forall. intros b Hb.
          rewrite Forall_forall in Ht.
          apply Qle_trans with (fp_pred t); [exact Hle | apply Ht; exact Hb]. }
        lia. }
    assert (Hfuel' : (List.length rest' <= fuel)%nat).
    { cbn [List.length] in Hfuel. rewrite Hrest1, length_app in Hfuel. lia. }
    fold cur' thr'.
    destruct (best <? cur')%Z eqn:Ebetter.
    + apply Z.ltb_lt in Ebetter.
      apply (IH done' rest' cur' cur' thr' HS' Hfuel' Hcur' Hord' Hthr'_acc).
      apply Hbound'; lia.
    + apply Z.ltb_ge in Ebetter.
      apply (IH done' rest' cur' best bthr HS' Hfuel' Hcur' Hord' Hbest).
      apply Hbound'; lia.
Qed.

Lemma fp_list_cons (start : nat) (p : Q) (predictions : list Q) (r : Z)
  (refs : list Z) :
  fp_list start (p :: predictions) (r :: refs)
  = (p, start, if (r =? 1)%Z then (-1)%Z else 1%Z)
      :: fp_list (S start) predictions refs.
Proof. reflexivity. Qed.

Lemma fp_list_build (predictions : list Q) (refs before : list Z) :
  List.length refs = List.length predictions ->
  map_result
    (fun '(i, p) =>
       match nth_error (before ++ refs) i with
       | Some r => Ok (p, i, if (r =? 1)%Z then (-1)%Z else 1%Z)
       | None => Raise (IndexError "list index out of range")
       end)
    (combine (seq (List.length before) (List.length predictions)) predictions)
  = Ok (fp_list (List.length before) predictions refs).
Proof.
  revert refs before. induction predictions as [| p predictions IH];
    intros [| r refs] before Hlen; try discriminate Hlen; [reflexivity |].
  cbn [List.length seq combine map_result].
  rewrite nth_error_app2 by lia. rewrite Nat.sub_diag. cbn [nth_error bind].
  specialize (IH refs (before ++ [r])%list).
  rewrite <- app_assoc, length_app in IH. cbn [app List.length] in IH.
  replace (List.length before + 1)%nat with (S (List.length before)) in IH by lia.
  rewrite IH by (injection Hlen as Hlen; exact Hlen).
  cbn [bind]. rewrite fp_list_cons. reflexivity.
Qed.

Lemma fp_list_facts (thr : Q) (predictions : list Q) (refs : list Z) (start : nat) :
  List.length refs = List.length predictions ->
  acc_of thr (fp_list start predictions refs) = accuracy_at thr predictions refs
  /\ positives (fp_list start predictions refs)
     = Zsum (map (fun r => if (r =? 1)%Z then 1%Z else 0%Z) refs)
  /\ Forall (fun t => fp_delta t = (-1)%Z \/ fp_delta t = 1%Z)
            (fp_list start predictions refs)
  /\ List.length (fp_list start predictions refs) = List.length predictions.
Proof.
  revert refs start. induction predictions as [| p predictions IH];
    intros [| r refs] start Hlen; try discriminate Hlen.
  - repeat split; constructor.
  - injection Hlen as Hlen.
    destruct (IH refs (S start) Hlen) as [Hacc [Hpos [Hdelta Hl]]].
    rewrite fp_list_cons.
    unfold acc_of, positives, accuracy_at in *. cbn [map combine List.length].
    rewrite !Zsum_cons, Hacc, Hpos, Hl.
    split; [| split; [| split]].
    + f_equal. unfold fp_score, fp_pred, fp_delta. cbn [fst snd].
      destruct (Qle_bool thr p), (Z.eqb_spec r 1); reflexivity.
    + f_equal. unfold fp_delta. cbn [snd]. destruct (r =? 1)%Z; reflexivity.
    + constructor; [| exact Hdelta]. unfold fp_delta. cbn [snd].
      destruct (r =? 1)%Z; [left | right]; reflexivity.
    + reflexivity.
Qed.

(** The last triple of a sorted list has the largest prediction. *)
Lemma fp_sorted_last (l : list fp_entry) (last_ : fp_entry) (front : list fp_entry) :
  fp_sorted l -> rev l = last_ :: front ->
  Forall (fun a => fp_pred a <= fp_pred last_) l.
Proof.
  intros Hs Hrev.
  assert (Hl : l = (rev front ++ [last_])%list).
  { rewrite <- (rev_involutive l), Hrev. reflexivity. }
  subst l. clear Hrev.
  induction (rev front) as [| a l IH].
  - constructor; [apply Qle_refl | constructor].
  - cbn [app] in *. destruct Hs as [Ha Hs].
    constructor; [| apply IH; exact Hs].
    rewrite Forall_forall in Ha. apply Ha. apply in_or_app. right. left. reflexivity.
Qed.

(** X29.  For predictions that are not empty, each paired with a reference,
    [BinaryMaxAccuracy] returns the largest accuracy any decision threshold
    can reach, divided by the number of predictions: no threshold sends more
    predictions to the reference they are paired with (a prediction passes
    when it is at least the threshold, and should pass when its reference
    is 1).  The threshold it returns reaches that accuracy, except possibly
    when the best is to let no prediction pass, where the threshold is
    placed above the largest prediction. *)
Theorem BinaryMaxAccuracy_finds_best_threshold :
  forall (references_ : list (list Z)) (predictions : list Q),
    predictions <> [] ->
    List.length references_ = List.length predictions ->
    (forall r, In r references_ -> r <> []) ->
    exists (best_acc : Z) (best_thr : Q),
      BinaryMaxAccuracy_compute references_ predictions
      = Ok [("max_accuracy_binary",
             VFloat (Num (inject_Z best_acc
                          / inject_Z (Z.of_nat (List.length predictions)))));
            ("best_thr_max_acc", VFloat (Num best_thr))]
      /\ (accuracy_at best_thr predictions (map (hd 0%Z) references_) = best_acc
          \/ best_acc
             = Zsum (map (fun r => if (r =? 1)%Z then 0%Z else 1%Z)
                         (map (hd 0%Z) references_)))
      /\ forall thr,
           (accuracy_at thr predictions (map (hd 0%Z) references_) <= best_acc)%Z.
Proof.
  intros references_ predictions Hne Hlen Hrefs.
  set (refs := map (hd 0%Z) references_).
  assert (Hlen' : List.length refs = List.length predictions)
    by (subst refs; rewrite length_map; exact Hlen).
  unfold BinaryMaxAccuracy_compute.
  assert (Hfirsts : map_result
                      (fun r : list Z =>
                         match r with
                         | r_0 :: _ => Ok r_0
                         | [] => Raise (IndexError "list index out of range")
                         end) references_
                    = Ok refs).
  { apply map_result_map. intros r Hr. destruct r as [| x r]; [| reflexivity].
    exfalso. apply (Hrefs [] Hr). reflexivity. }
  rewrite Hfirsts. cbn [bind].
  pose proof (fp_list_build predictions refs [] Hlen') as Hbuild.
  cbn [app List.length] in Hbuild. rewrite Hbuild. cbn [bind].
  set (T := fp_list 0 predictions refs).
  set (S := fp_sort T).
  assert (HTlen : List.length T = List.length predictions)
    by (apply (fp_list_facts 0 predictions refs 0 Hlen')).
  assert (HSlen : List.length S = List.length predictions)
    by (subst S; rewrite fp_sort_length; exact HTlen).
  assert (Hsorted : fp_sorted S) by apply fp_sort_sorted.
  assert (Hdelta : Forall (fun t => fp_delta t = (-1)%Z \/ fp_delta t = 1%Z) S).
  { apply fp_sort_Forall. apply (fp_list_facts 0 predictions refs 0 Hlen'). }
  assert (Hacc : forall thr, acc_of thr S = accuracy_at thr predictions refs).
  { intros thr. unfold acc_of. subst S. rewrite fp_sort_sum.
    apply (fp_list_facts thr predictions refs 0 Hlen'). }
  assert (Hpos : positives S
                 = Zsum (map (fun r => if (r =? 1)%Z then 1%Z else 0%Z) refs)).
  { unfold positives. subst S. rewrite fp_sort_sum.
    apply (fp_list_facts 0 predictions refs 0 Hlen'). }
  destruct (rev S) as [| last_ front] eqn:Hrev.
  { exfalso. apply (f_equal (@List.length _)) in Hrev.
    rewrite length_rev, HSlen in Hrev. destruct predictions; [contradiction |].
    discriminate Hrev. }
  cbn [bind].
  destruct S as [| first_ S'] eqn:HS; [discriminate Hrev |].
  cbn [bind]. rewrite <- HS in *.
  set (rightmost := if Qlt_le_dec (fp_pred last_) 1 then 1
                    else fp_pred last_ + (1 # 100)).
  assert (Hright : Forall (fun a => fp_pred a < rightmost) S).
  { pose proof (fp_sorted_last S last_ front Hsorted Hrev) as Hmax.
    eapply Forall_impl; [| exact Hmax]. intros a Ha. cbn in Ha.
    apply Qle_lt_trans with (fp_pred last_); [exact Ha |].
    subst rightmost. destruct (Qlt_le_dec (fp_pred last_) 1) as [Hlt | Hle];
      [exact Hlt |].
    rewrite <- (Qplus_0_r (fp_pred last_)) at 1.
    apply Qplus_lt_r. reflexivity. }
  assert (Hfirst : Forall (fun b => fp_pred first_ <= fp_pred b) S).
  { rewrite HS. rewrite HS in Hsorted. destruct Hsorted as [Hf _].
    constructor; [apply Qle_refl | exact Hf]. }
  destruct (sweep_correct S rightmost Hdelta Hsorted Hright
              (List.length S) [] S (positives S) (positives S) (fp_pred first_))
    as [best' [bthr' [Hrun [Hbest Hall]]]].
  - reflexivity.
  - apply Nat.le_refl.
  - cbn [map]. change (Zsum []) with 0%Z. lia.
  - intros a b [].
  - apply acc_of_passing. exact Hfirst.
  - intros thr Hthr. rewrite (acc_of_passing thr S Hthr). apply Z.le_refl.
  - rewrite Hpos in Hrun. rewrite HSlen in Hrun at 2. rewrite Hrun.
    exists best', bthr'. split; [reflexivity |].
    split; [left; rewrite <- Hacc; exact Hbest |].
    intros thr. rewrite <- Hacc. apply Hall.
Qed.

(** Predictions 0.2, 0.9, 0.6 with references 0, 1, 0: every prediction
    goes to its reference for a threshold between 0.6 and 0.9. *)
Lemma BinaryMaxAccuracy_finds_best_threshold_witness :
  exists best_thr,
    BinaryMaxAccuracy_compute [[0%Z]; [1%Z]; [0%Z]] [2 # 10; 9 # 10; 6 # 10]
    = Ok [("max_accuracy_binary", VFloat (Num (inject_Z 3 / inject_Z 3)));
          ("best_thr_max_acc", VFloat (Num best_thr))]
    /\ accuracy_at best_thr [2 # 10; 9 # 10; 6 # 10] [0; 1; 0]%Z = 3%Z.
Proof.
  destruct (BinaryMaxAccuracy_finds_best_threshold
              [[0%Z]; [1%Z]; [0%Z]] [2 # 10; 9 # 10; 6 # 10])
    as [best_acc [best_thr [Hrun [Hacc Hall]]]].
  - discriminate.
  - reflexivity.
  - intros r [<- | [<- | [<- | []]]]; discriminate.
  - assert (H3 : (3 <= best_acc)%Z).
    { pose proof (Hall (7 # 10)) as H1. vm_compute in H1.
      intros E. apply H1. exact E. }
    destruct Hacc as [Hacc | Hrej]; [| cbn in Hrej; lia].
    assert (Hbest : best_acc = 3%Z).
    { pose proof (Hall (7 # 10)) as H1. vm_compute in H1.
      pose proof (acc_of_le_length best_thr
                    (fp_list 0 [2 # 10; 9 # 10; 6 # 10] [0; 1; 0]%Z)) as H2.
      rewrite (proj1 (fp_list_facts best_thr [2 # 10; 9 # 10; 6 # 10]
                        [0; 1; 0]%Z 0 eq_refl)) in H2.
      cbn [map hd] in Hacc. rewrite Hacc in H2. cbn in H2.
      lia. }
    rewrite Hbest in Hrun, Hacc. exists best_thr. split; [exact Hrun | exact Hacc].
Defined.

(* ------------------------------------------------------------------ *)
(** ** A [GlobalMetric] with [control_comparison] *)

Lemma split_group_is_Split
  (dict_get : instance -> string -> option string) (cc : control_comparison_cfg)
  (members : list instance) (g : group) :
  split_group dict_get cc members = Ok g ->
  exists control comparison, g = Split control comparison.
Proof.
  unfold split_group. intros H. apply bind_ok in H.
  destruct H as [[control comparison] [_ H]]. injection H as <-.
  exists control, comparison. reflexivity.
Qed.

(** X30.  In [score_groups_globally] the branch of a [GlobalMetric] scores
    a group only when the group is a plain list.  With [control_comparison]
    set every group is a pair of a control and a comparison list, so no
    group is scored: [score_groups_globally] returns an empty dictionary
    whenever it returns, [average_groups_global_scores] never returns a
    score (it stops at the assertion that there is a group, if not
    earlier), and [GlobalMetric.process] never yields a stream. *)
Theorem GlobalMetric_with_control_comparison_scores_no_group :
  forall (dict_get : instance -> string -> option string)
         (bootstrap : forall P : Type, list P -> (list P -> result scoreval) -> Z ->
                                       result (scoreval * scoreval))
         (self : metric) (cc : control_comparison_cfg),
    kind self = GlobalMetric ->
    control_comparison self = Some cc ->
    (forall instances names groups,
        score_groups_globally dict_get self instances names = Ok groups ->
        groups = [])
    /\ (forall instances score_name,
           (exists groups,
               score_groups_globally dict_get self instances
                 (match score_name with Some n => Some [n] | None => None end)
               = Ok groups) ->
           average_groups_global_scores dict_get self instances score_name
           = Raise (AssertionError "Where have all the groups gone?"))
    /\ (forall instances score_name r,
           average_groups_global_scores dict_get self instances score_name <> Ok r)
    /\ (forall h stream h' out,
           GlobalMetric_process dict_get bootstrap self h stream <> Ok (h', out)).
Proof.
  intros dict_get bootstrap self cc Hkind Hcc.
  assert (Hempty : forall instances names groups,
             score_groups_globally dict_get self instances names = Ok groups ->
             groups = []).
  { intros instances names groups H.
    unfold score_groups_globally in H. rewrite Hcc in H.
    apply bind_ok in H. destruct H as [g1 [_ H]].
    apply bind_ok in H. destruct H as [g2 [_ H]].
    apply bind_ok in H. destruct H as [g3 [Hsplit H]].
    assert (Hall : Forall (fun ng => exists c k, snd ng = Split c k) g3).
    { clear H. revert g3 Hsplit. induction g2 as [| [name members] g2 IH];
        intros g3 Hsplit.
      - cbn in Hsplit. injection Hsplit as <-. constructor.
      - cbn [map_result] in Hsplit. apply bind_ok in Hsplit.
        destruct Hsplit as [ng [Hng Hsplit]].
        apply bind_ok in Hng. destruct Hng as [g [Hg Hng]]. injection Hng as <-.
        apply bind_ok in Hsplit. destruct Hsplit as [rest [Hrest Hsplit]].
        injection Hsplit as <-.
        constructor; [apply (split_group_is_Split _ _ _ _ Hg) | apply IH; exact Hrest]. }
    clear Hsplit. revert H.
    assert (Hloop : forall acc,
               for_each g3
                 (fun groups_global_scores '(group_name, g) =>
                    s <- score_one_group self names g ;;
                    match s with
                    | Some s => Ok (dict_set groups_global_scores group_name s)
                    | None => Ok groups_global_scores
                    end) acc
               = Ok acc).
    { induction Hall as [| [name g] g3 [c [k Hg]] Hall IH]; intros acc;
        [reflexivity |].
      cbn [for_each]. cbn [snd] in Hg. subst g.
      unfold score_one_group at 1. rewrite Hkind. cbn [bind]. apply IH. }
    rewrite Hloop. intros H. injection H as <-. reflexivity. }
  assert (Hnever : forall instances score_name r,
             average_groups_global_scores dict_get self instances score_name <> Ok r).
  { intros instances score_name r H.
    unfold average_groups_global_scores in H.
    apply bind_ok in H. destruct H as [groups [Hgroups H]].
    rewrite (Hempty _ _ _ Hgroups) in H. discriminate H. }
  split; [exact Hempty |].
  split.
  { intros instances score_name [groups Hgroups].
    unfold average_groups_global_scores. rewrite Hgroups. cbn [bind].
    rewrite (Hempty _ _ _ Hgroups). reflexivity. }
  split; [exact Hnever |].
  intros h stream h' out H.
  unfold GlobalMetric_process in H. cbn [heap_alloc] in H.
  apply bind_ok in H.
  destruct H as [[[[[g refs] predictions] tds] instances] [_ H]].
  apply bind_ok in H. destruct H as [_ [_ H]].
  apply bind_ok in H. destruct H as [r [Hr _]].
  exact (Hnever _ _ _ Hr).
Qed.

(** [CorpusF1] with a control and a comparison subgroup, on two instances
    that it could score: the assertion fails. *)
Lemma GlobalMetric_with_control_comparison_scores_no_group_witness :
  average_groups_global_scores task_data_get CorpusF1_control_comparison
    [{| references := ["a"]; prediction := "a";
        task_data := Some [("variant_type", VStr "original")]; score := None |};
     {| references := ["b"]; prediction := "c";
        task_data := Some [("variant_type", VStr "paraphrase")]; score := None |}]
    None
  = Raise (AssertionError "Where have all the groups gone?").
Proof.
  destruct (GlobalMetric_with_control_comparison_scores_no_group
              task_data_get point_bootstrap CorpusF1_control_comparison
              {| cc_subgroup_column := "task_data/variant_type";
                 control_subgroup_types := ["original"];
                 comparison_subgroup_types := ["paraphrase"];
                 control_comparison_score_calculator := performance_drop_rate |}
              eq_refl eq_refl) as [_ [H _]].
  apply H. eexists. vm_compute. reflexivity.
Defined.
